(* ===== verification/_CoqProject ===== *)
-Q . S2P
Prelude.v
Effects.v
JsNumber.v
JsDate.v
Messages.v
Json.v
Redis.v
Sql.v
SeatWorld.v
SeatRef.v
SeatLock.v
Availability.v
Inventory.v
Hold.v
HoldExpiry.v
SoldSeats.v
SeatApi.v
PaymentWorld.v
PaymentRef.v
Gateway.v
Payment.v
RefundService.v
PaymentApi.v
BookingWorld.v
BookingRef.v
Tickets.v
BookingCreate.v
BookingRefund.v
RefundTermination.v
OutboxWorker.v
RefundRecovery.v
BookingApi.v
Sha256.v
AuthWorld.v
AuthRef.v
UserService.v
AuthService.v
AuthApi.v
AuthGuard.v
GatewayWorld.v
Interleave.v
Ownership.v
RateLimit.v
ApiGateway.v
RegExp.v
Middlewares.v
WindowCounter.v
EventWorld.v
EventService.v
EventInventory.v
EventApi.v
NotifyWorld.v
Templates.v
Notification.v
AuthConsumer.v
BookingConsumer.v
ConcurrentHolds.v
ConcurrentPayments.v
Platform.v
ConcurrentBookings.v
PlatformOutbox.v
BookingHttp.v
SeatHttp.v
Ledger.v
LostRefund.v
GrpcWire.v
GrpcRef.v
GrpcPayment.v
GrpcSeat.v
Wiring.v
Deployment.v
