(* ===== verification/Prelude.v ===== *)
(** * A verification library for the event ticketing platform

    The platform is a set of NestJS services under src/apps: a venue and its
    events are created (event-service), their seats go on sale
    (seat-inventory-service), a visitor holds seats, books and pays for them
    (booking-service, payment-service), is told by email
    (notification-service), and reaches all of it through a gateway
    (api-gateway) with the tokens of the auth-service.  The services talk by
    gRPC, by Kafka messages and through an outbox table; each has its own
    database.  This library models their methods and proves what they promise.

    ** How a method is modelled

    A method becomes a tree of type [prog S E A] (Effects): it returns, throws,
    or awaits an operation of a signature [E] (a repository call, a Redis
    command, a remote procedure, a payment provider, the clock).  [S] is the
    object the method mutates, so assignments made before a throw are seen by
    the [catch] block, as in the source.  The combinators are those of the
    language: [bind] for [await], [try_catch], [finally], [for_each],
    [with_local].

    The operations are code of others (TypeORM, ioredis, Stripe, bcrypt,
    jsonwebtoken, Handlebars, nodemailer).  [run] interprets a program with an
    arbitrary handler.  A theorem assumes of the handler only that it
    [conforms] to a [behaviour]: what an operation may answer and do to an
    abstract view of the world, when it must fail, and, in the mode [Faulty],
    that it may fail at any time without an effect.  In the mode [Reliable] it
    fails only when it must; the liveness theorems need that.  Every signature
    has a reference handler and one with scripted failures (files ending in
    Ref, and at the end of GatewayWorld, EventWorld, NotifyWorld) that are
    proved to conform; the witnesses run them.  Proofs go through [wp], a
    weakest-precondition calculus, with one rule per operation and per method
    (the lemmas named [.._wp]); [call_wp] turns a statement about a run into a
    [wp] goal.

    The services hand their Kafka messages to a client that nobody waits for:
    [emit] answers without failing, and the logs of messages in the views
    ([messages], [events], [auth_events], [created_messages]) say what was
    handed over.  What became of a message of the booking service is
    [arrived]: it may be lost or doubled.  Prices and amounts are stored in
    columns decimal(10, 2); Sql has the texts they become and the values that
    are refused.

    ** Files

    - Prelude, Effects, Sql (tables as finite maps from ids to rows, selection
      by predicate, insertion of fresh rows), Redis (keys with deadlines),
      JsNumber (binary64, number formatting), JsDate, Json ([stringify] and
      [parse] with their round trip), Messages (the gRPC messages), Interleave
      (two runs interleaved by a schedule), Ownership (any number of runs, and a
      rule for them: some operations hand out tokens that nobody else has),
      Sha256.
    - Seat inventory, apps/seat-inventory-service: SeatWorld (entities and
      operations), SeatRef, SeatLock (seat-lock.service.ts), Availability
      (availability-read.service.ts), Inventory (inventory.service.ts and the
      consumer of event.create), Hold (hold.service.ts), HoldExpiry
      (hold-expiry.worker.ts), SoldSeats (holds, releases, sales and ticks of the
      worker in any order), SeatApi (the gRPC and REST controllers).
    - Payments, apps/payment-service: PaymentWorld, PaymentRef, Gateway (the
      Stripe and Iyzico gateways with their retry), Payment
      (payment.service.ts), RefundService, PaymentApi (controllers and the
      idempotency interceptor).
    - Bookings, apps/booking-service: BookingWorld, BookingRef, Tickets
      (ticket.service.ts), BookingCreate and BookingRefund
      (booking-orchestrator.service.ts), RefundTermination (the bound of the
      refund machine), OutboxWorker, RefundRecovery, BookingApi.
    - Users and tokens, apps/auth-service and libs/auth-guard: AuthWorld,
      AuthRef, UserService, AuthService, AuthApi (the controller behind the
      validation of its DTOs), AuthGuard ([JwtAuthGuard], [RolesGuard],
      [CurrentUser], the strategy).
    - Gateway, apps/api-gateway: GatewayWorld (sorted sets with expiry, the
      HTTP client), RateLimit (rate-limit.interceptor.ts), ApiGateway
      (proxy.service.ts and the routes of the proxy controllers); and what no
      module installs: Middlewares (service-registry.ts, __auth.middleware.ts,
      __proxy.middleware.ts) with the regular expressions they build (RegExp),
      and WindowCounter (__rate-limit.middleware.ts).
    - Events, apps/event-service: EventWorld (schemas and DTOs), EventService
      ([Venues] and [Events]), EventApi (the controllers behind the guards).
    - Notifications, apps/notification-service: NotifyWorld, Templates
      (template.engine.ts), Notification (notification.service.ts and
      email.adapter.ts), AuthConsumer, BookingConsumer.

    - On the wire, libs/grpc/src/generated: GrpcWire (the package's writer and
      reader as classes with laws, the statements and the loop that all codecs
      share, the judgement [codes] behind their round trips), GrpcRef (a writer
      and reader that keep the laws), GrpcPayment and GrpcSeat (a Module per
      message, and the service definitions).
    - Several services or requests: Platform (the booking service over the real
      handlers of the seat inventory and the payments), PlatformOutbox (the
      outbox worker over them), Ledger (the books of the payments under any
      number of booking methods), ConcurrentHolds, ConcurrentPayments,
      ConcurrentBookings, and the controllers behind the guard: BookingHttp,
      SeatHttp (those of the events are in EventApi), LostRefund (a refund whose
      answer did not arrive, under any further requests and ticks).
    - How the services are put together: Wiring (every @Module, every constructor,
      libs/kafka, libs/redis, libs/database; Nest's container is a class with
      laws), Deployment (every main.ts, the settings, the manifests under k8s/).

    How the services interact is proved, not assumed: Platform runs the remote
    procedures of the booking service in the handlers behind them, under the
    contract [Platform.contract]; EventInventory composes
    [EventService.create] with the consumer of its message, AuthConsumer
    composes [register] with the consumer of its event, BookingConsumer
    composes the outbox worker with the consumer of booking.confirmed,
    AuthGuard composes [login] with the guard, RateLimit and ApiGateway compose
    guard, limiter and proxy, and BookingHttp composes the guard with the
    booking service over the seat inventory.

    ** What is proved

    - Booking: a confirmed booking has its two outbox entries, written with it
      or not at all; no booking without a verified hold; every outcome of
      [createBooking]; the refund machine refines its state machine, makes its
      remote calls in order, and its bound of steps never ends it, whatever the
      handler does; the outbox worker refines a relation on entries, for
      what is COMPLETED the seats were sold or the tickets issued and the
      message handed to the Kafka client, and the queue drains; interrupted refunds are
      finished when the remote calls succeed; tickets are issued and checked
      in once.
    - Seats: locking is all or nothing and exclusive; a hold is atomic and no
      two users hold a seat; expiry and release give seats back; the read model
      shows the table's statuses; a hold that is released leaves what was there;
      holds, sales, ticks of the worker and releases of what one holds keep every
      seat with one holder, and a sold seat stays sold whatever comes later.
    - Payment: a booking is charged at most once per idempotency key; the
      outcome of charging and refunding on every branch; replies are replayed.
    - Users: no request raises a role, logs in without the password, or
      revives a revoked token; a reset password works and ends the sessions; a
      link verifies one email, once; a bearer token opens exactly the routes of
      its role.  The mail of a registration carries the token that verifies it.
    - Gateway: nothing unauthorized is forwarded, however Redis or a service
      fails; the limiter admits at most [max] requests per window of a key
      when they arrive one after the other and Redis does not fail.  The
      middlewares that are not installed let the same requests through as the
      guard, up to the spelling of the scheme, and the expressions they build
      from the public paths accept exactly the paths the patterns stand for.
    - HTTP: only a bearer of a token changes a seat or a hold, only an organizer
      a venue or an event; nobody books or cancels over HTTP, because the
      handlers read a member of the payload that no token has.
    - Events: a created event puts exactly the seats of its sections on sale,
      once; capacities are the numbers of seats.
    - Together: a booking that is CONFIRMED had its seats HELD and locked by the
      user in the inventory and has a SUCCEEDED payment under its key, and a
      booking that is cancelled has a PROCESSED refund, in the databases of the
      other services; a sale the outbox worker completed is in the inventory; of
      concurrent holds no two share a seat, of concurrent
      payments none charges a key twice, and of concurrent bookings no two users
      get one seat, under every schedule and every failure.  The books of the
      payments balance, however many booking methods run at once.
      A refund whose answer was lost is never completed, whatever is asked for
      later.
    - Startup: every dependency of every class of every service is found, each
      class has one instance per service, every remote procedure that is called
      is served and every topic that is consumed is published; a service starts
      exactly when the settings of its constructors are there.
    - Messages: every gRPC message is decoded as it was encoded, also by a
      receiver that knows fewer fields, whatever the wire types of the others.
    - Notifications: a row says SENT exactly when the mail went out; when the
      message of a confirmed booking arrives and mails pass, every attendee
      with an address gets one, and all
      but one of the templates' placeholders are filled.

    Some theorems state what the code does where it does not do what it means
    to (a paid booking that is cancelled, a second booking on the key of
    another's payment, two bookings of one seat, two concurrent refunds of one
    payment, a ticket that admits two, a refresh that never succeeds, an entry that stays PROCESSING, two concurrent requests that
    pass a limit of one, mails that are never sent, a cancellation that saves an
    old copy of its booking, a list of one's bookings that lists everybody's, a
    hold released by a stranger, a paid seat that expires and is booked by
    another, a message the broker never gets, a refund whose answer is lost, a counter that never expires, a
    gateway that does not start with its manifest); they are about the same
    definitions.

    ** Bounds and fuel

    [maxSteps] = 5 and the batch of 10 are the source's constants;
    [RefundTermination.refund_machine_terminates] shows that three steps are
    enough.  [MAX_RETRIES] of the gateways is the source's.  [Json.parse] has
    the length of the text plus one as fuel and [parse_stringify] shows that
    this suffices for every printed value.  The loop of a gRPC decoder has the
    number of bytes to read as fuel, and [GrpcWire.decode_fuel] shows that more
    makes no difference.  [radix] has the number of bits of
    its argument as fuel, and the blocks of [Sha256] the length of the padded
    message.  Everything else recurses structurally.  Integers that JavaScript
    keeps exact (counts, times, identifiers of rows) are [Z]; amounts are
    binary64 [number]s or the decimal texts of the database; the words of
    SHA-256 are reduced modulo 2^32.  Texts are sequences of 8-bit units.

    ** Not modelled

    Of the generated
    gRPC code the client and controller interfaces, which are types only, and
    the decorators that register handlers.
    Routing, validation by class-validator (apart from the DTOs of the
    auth-service; its treatment of arrays nested in arrays and of null elements
    is not documented, so a theorem that what passes is a DTO cannot be had from
    its documentation), the order in which the container builds its objects,
    logging, swagger, CORS and docker files.  The gRPC codecs are not composed with
    Platform: at run time Nest loads the .proto files with another codec, and
    only the message types of the generated code are used.  Concurrency is modelled where a
    claim needs it (Interleave, Ownership); other theorems are about one call
    at a time over a shared store, between calls anything that preserves the
    invariants may happen.  In Ledger and ConcurrentBookings a remote procedure
    is one step of the schedule.

    ** Further work

    Lost answers other than that of a refund in the composed platform. *)

From stdpp Require Export base list option strings gmap.
From Stdlib Require Export ZArith Lia.

#[global] Set Default Goal Selector "!".

Declare Scope prog_scope.
Delimit Scope prog_scope with prog.

(** ** JavaScript exceptions and completions *)

(** A thrown JavaScript value.  [ename] is the constructor's name
    ([BadRequestException], [Error], ...), [emessage] is [error.message];
    [etype] and [estatus] are the optional [type] and [statusCode] fields that
    some SDK errors carry. *)
Record exn := Exn {
  ename : string;
  emessage : string;
  etype : option string;
  estatus : option Z;
}.

(** How a statement or an awaited promise completes: a value or a throw. *)
Inductive result (A : Type) : Type :=
| Ok (a : A)
| Err (e : exn).

Arguments Ok {A} _.
Arguments Err {A} _.

Definition simple_exn (name msg : string) : exn := Exn name msg None None.

Definition BadRequestException (msg : string) : exn := simple_exn "BadRequestException" msg.
Definition NotFoundException (msg : string) : exn := simple_exn "NotFoundException" msg.
Definition ConflictException (msg : string) : exn := simple_exn "ConflictException" msg.
Definition UnauthorizedException (msg : string) : exn := simple_exn "UnauthorizedException" msg.
Definition InternalServerErrorException (msg : string) : exn :=
  simple_exn "InternalServerErrorException" msg.
Definition JsError (msg : string) : exn := simple_exn "Error" msg.
Definition SyntaxError (msg : string) : exn := simple_exn "SyntaxError" msg.
Definition TypeError (msg : string) : exn := simple_exn "TypeError" msg.

Definition is_ok {A} (r : result A) : bool :=
  match r with Ok _ => true | Err _ => false end.

(** ** Small pieces of the JavaScript standard library *)

(** [xs.includes(x)] on strings. *)
Definition includes (xs : list string) (x : string) : bool :=
  existsb (String.eqb x) xs.

(** [xs.join(sep)] *)
Fixpoint join (sep : string) (xs : list string) : string :=
  match xs with
  | [] => ""
  | [x] => x
  | x :: ys => x +:+ sep +:+ join sep ys
  end.

(** Truthiness of a string: [''] is falsy. *)
Definition truthy (s : string) : bool := negb (String.eqb s "").

(** [a || b] on strings, and on strings that may be [null]/[undefined]. *)
Definition str_or (a b : string) : string := if truthy a then a else b.
Definition opt_str_or (a : option string) (b : string) : string :=
  match a with Some a => str_or a b | None => b end.

(** [a ?? b] *)
Definition nullish {A} (a : option A) (b : A) : A :=
  match a with Some a => a | None => b end.

(** ** Generic lemmas *)

Lemma includes_spec xs x : includes xs x = true <-> x ∈ xs.
Proof.
  unfold includes. rewrite existsb_exists. split.
  - intros (y & Hin & Heq). apply String.eqb_eq in Heq as ->.
    by apply list_elem_of_In.
  - intros Hin. exists x. split; [by apply list_elem_of_In | apply String.eqb_refl].
Qed.

Lemma includes_false xs x : includes xs x = false <-> x ∉ xs.
Proof.
  rewrite <- includes_spec. by destruct (includes xs x).
Qed.

Lemma existsb_elem_of {A} (f : A -> bool) l : existsb f l = true <-> exists x, x ∈ l /\ f x = true.
Proof. rewrite existsb_exists. by setoid_rewrite list_elem_of_In. Qed.

Lemma forallb_elem_of {A} (f : A -> bool) l : forallb f l = true <-> forall x, x ∈ l -> f x = true.
Proof. rewrite forallb_forall. by setoid_rewrite list_elem_of_In. Qed.

Lemma elem_of_flat_map {A B} (f : A -> list B) l y : y ∈ flat_map f l <-> exists x, x ∈ l /\ y ∈ f x.
Proof. rewrite list_elem_of_In, in_flat_map. by setoid_rewrite <- list_elem_of_In. Qed.

Lemma elem_of_filterb {A} (p : A -> bool) l x :
  x ∈ List.filter p l <-> x ∈ l /\ p x = true.
Proof. rewrite !list_elem_of_In. apply filter_In. Qed.

Lemma filterb_nil {A} (p : A -> bool) l :
  List.filter p l = [] <-> (forall x, x ∈ l -> p x = false).
Proof.
  induction l as [|y l IH]; cbn; [split; [intros _ x Hx; inversion Hx | done]|].
  destruct (p y) eqn:Hy.
  - split; [done|]. intros H. specialize (H y (list_elem_of_here _ _)). congruence.
  - rewrite IH. split.
    + intros H x [->|Hx]%elem_of_cons; auto.
    + intros H x Hx. apply H. by right.
Qed.

Lemma find_Some_elem {A} (p : A -> bool) l x :
  List.find p l = Some x -> x ∈ l /\ p x = true.
Proof. intros H%find_some. rewrite list_elem_of_In. done. Qed.

Lemma find_None_elem {A} (p : A -> bool) l :
  List.find p l = None <-> (forall x, x ∈ l -> p x = false).
Proof.
  split.
  - intros H x Hx. apply list_elem_of_In in Hx. by eapply find_none in Hx.
  - induction l as [|y l IH]; intros H; cbn; [done|].
    rewrite (H y (list_elem_of_here _ _)). apply IH. intros x Hx. apply H. by right.
Qed.

Lemma truthy_empty s : truthy s = false <-> s = ""%string.
Proof. unfold truthy. rewrite negb_false_iff. apply String.eqb_eq. Qed.

Lemma join_cons sep x y ys : join sep (x :: y :: ys) = x +:+ sep +:+ join sep (y :: ys).
Proof. done. Qed.

Lemma string_app_nil_l (s : string) : ("" +:+ s)%string = s.
Proof. done. Qed.

Lemma string_app_cons c (s t : string) : String c s +:+ t = String c (s +:+ t).
Proof. done. Qed.

Lemma string_app_nil_r (s : string) : (s +:+ "")%string = s.
Proof. induction s as [|c s IH]; [done|]. by rewrite string_app_cons, IH. Qed.

Lemma string_app_assoc (a b c : string) : (a +:+ b) +:+ c = a +:+ (b +:+ c).
Proof. induction a as [|x a IH]; [done|]. by rewrite !string_app_cons, IH. Qed.

Lemma string_length_app (a b : string) :
  String.length (a +:+ b) = String.length a + String.length b.
Proof. induction a as [|x a IH]; [done|]. rewrite string_app_cons. cbn. by rewrite IH. Qed.

(** Concatenations that share a prefix. *)
Lemma string_app_inj_l (a b c : string) : a +:+ b = a +:+ c -> b = c.
Proof. induction a as [|x a IH]; [done|]. rewrite !string_app_cons. intros [= H]. auto. Qed.

Create HintDb ticketing.
Create Rewrite HintDb strings.
#[export] Hint Rewrite string_app_nil_l string_app_nil_r string_app_cons string_app_assoc : strings.
#[export] Hint Resolve list_elem_of_here : ticketing.

(** Case analysis on every [match]/[if] in the goal, closing absurd cases. *)
Ltac split_matches :=
  repeat (case_match; simplify_eq; try done).
