(* ===== verification/Effects.v ===== *)
(** * Effectful programs

    The services are asynchronous JavaScript methods that talk to PostgreSQL,
    Redis, Kafka, remote procedures and payment providers.  A method is
    translated into a tree of type [prog S E A]: it returns an [A], throws, or
    awaits an operation of the signature [E] and continues with its completion.
    [S] is the type of the mutable JavaScript object the method works on, so a
    change made to the object before a throw is still visible in the [catch]
    block, as it is in the source.

    Nothing here says what an operation does.  [run] interprets a program with
    a handler [h] for the operations, which is a parameter everywhere; [obeys]
    states the documented behaviour a theorem relies on, as a relation on an
    abstract view of the outside world, and [wp] is the calculus in which the
    method proofs are done. *)

From S2P Require Import Prelude.

Inductive prog (S : Type) (E : Type -> Type) (A : Type) : Type :=
| Ret (a : A)
| Throw (e : exn)
| Do (X : Type) (op : E X) (k : result X -> prog S E A)
| Get (k : S -> prog S E A)
| Put (s : S) (k : prog S E A).

Arguments Ret {S E A} _.
Arguments Throw {S E A} _.
Arguments Do {S E A} X _ _.
Arguments Get {S E A} _.
Arguments Put {S E A} _ _.

(** Sequencing: a throw skips the continuation. *)
Fixpoint bind {S E A B} (m : prog S E A) (f : A -> prog S E B) : prog S E B :=
  match m with
  | Ret a => f a
  | Throw e => Throw e
  | Do X op k => Do X op (fun r => bind (k r) f)
  | Get k => Get (fun s => bind (k s) f)
  | Put s k => Put s (bind k f)
  end.

(** Turn the completion of a block into a value. *)
Fixpoint attempt {S E A} (m : prog S E A) : prog S E (result A) :=
  match m with
  | Ret a => Ret (Ok a)
  | Throw e => Ret (Err e)
  | Do X op k => Do X op (fun r => attempt (k r))
  | Get k => Get (fun s => attempt (k s))
  | Put s k => Put s (attempt k)
  end.

(** Run a block that works on its own mutable object [s0]; its final value is
    returned with the result.  A throw drops the object. *)
Fixpoint with_local {S0 S E A} (s0 : S0) (m : prog S0 E A) : prog S E (A * S0) :=
  match m with
  | Ret a => Ret (a, s0)
  | Throw e => Throw e
  | Do X op k => Do X op (fun r => with_local s0 (k r))
  | Get k => with_local s0 (k s0)
  | Put s k => with_local s k
  end.

Definition of_result {S E A} (r : result A) : prog S E A :=
  match r with Ok a => Ret a | Err e => Throw e end.

(** [await op] *)
Definition call {S E X} (op : E X) : prog S E X := Do X op of_result.

Definition get_local {S E} : prog S E S := Get Ret.
Definition put_local {S E} (s : S) : prog S E unit := Put s (Ret tt).
Definition modify {S E} (f : S -> S) : prog S E unit := Get (fun s => Put (f s) (Ret tt)).

Notation "x <- m ;; k" := (bind m (fun x => k))
  (at level 100, m at next level, k at level 200, right associativity) : prog_scope.
Notation "m ;; k" := (bind m (fun _ => k))
  (at level 100, k at level 200, right associativity) : prog_scope.
Open Scope prog_scope.

(** [try { m } catch (e) { h(e) }] *)
Definition try_catch {S E A} (m : prog S E A) (h : exn -> prog S E A) : prog S E A :=
  r <- attempt m ;;
  match r with Ok a => Ret a | Err e => h e end.

(** [try { m } finally { f }]: a throw in [f] replaces the completion of [m]. *)
Definition finally {S E A} (m : prog S E A) (f : prog S E unit) : prog S E A :=
  r <- attempt m ;; f ;; of_result r.

(** [for (const x of xs) body(x)] *)
Fixpoint for_each {S E X} (xs : list X) (body : X -> prog S E unit) : prog S E unit :=
  match xs with
  | [] => Ret tt
  | x :: xs => body x ;; for_each xs body
  end.

Definition when {S E} (b : bool) (m : prog S E unit) : prog S E unit :=
  if b then m else Ret tt.

(** ** Interpretation *)

Section Run.
Context {E : Type -> Type} {W : Type}.
Variable h : forall X, E X -> W -> result X * W.

Fixpoint run {S A} (m : prog S E A) (s : S) (w : W) : result A * S * W :=
  match m with
  | Ret a => (Ok a, s, w)
  | Throw e => (Err e, s, w)
  | Do X op k => let (r, w') := h X op w in run (k r) s w'
  | Get k => run (k s) s w
  | Put s' k => run k s' w
  end.

(** The projections a theorem about a whole call speaks of. *)
Definition outcome {S A} (m : prog S E A) (s : S) (w : W) : result A := (run m s w).1.1.
Definition final {S A} (m : prog S E A) (s : S) (w : W) : W := (run m s w).2.
End Run.

(** How the interpreter goes through a sequence and a [try] statement. *)
Section RunLemmas.
Context {E : Type -> Type} {W : Type}.
Variable h : forall X, E X -> W -> result X * W.

Lemma run_bind {S A B} (m : prog S E A) (f : A -> prog S E B) s w :
  run h (bind m f) s w =
  match run h m s w with
  | (Ok a, s', w') => run h (f a) s' w'
  | (Err e, s', w') => (Err e, s', w')
  end.
Proof.
  revert s w. induction m as [a|e|X op k IH|k IH|s' k IH]; intros s w; cbn; auto.
  destruct (h X op w) as [r w']. apply IH.
Qed.

Lemma run_attempt {S A} (m : prog S E A) s w :
  run h (attempt m) s w = let '(r, s', w') := run h m s w in (Ok r, s', w').
Proof.
  revert s w. induction m as [a|e|X op k IH|k IH|s' k IH]; intros s w; cbn; auto.
  destruct (h X op w) as [r w']. apply IH.
Qed.

Lemma run_try_catch {S A} (m : prog S E A) c s w :
  run h (try_catch m c) s w =
  match run h m s w with
  | (Ok a, s', w') => (Ok a, s', w')
  | (Err e, s', w') => run h (c e) s' w'
  end.
Proof.
  unfold try_catch. rewrite run_bind, run_attempt.
  by destruct (run h m s w) as [[[a|e] s'] w'].
Qed.
End RunLemmas.

(** ** Documented behaviour of the operations *)

(** What is relied on about the operations of a signature, over a view [V] of
    the outside world:
    - [ok op v x v']: the operation may complete with [x], taking [v] to [v'];
    - [rejects op v]: it must fail in [v] (a violated constraint, say);
    - [fallible op]: it is an I/O operation and may fail in any state. *)
Record behaviour (E : Type -> Type) (V : Type) := {
  ok : forall X, E X -> V -> X -> V -> Prop;
  rejects : forall X, E X -> V -> Prop;
  fallible : forall X, E X -> Prop;
}.
Arguments ok {E V} _ {X}.
Arguments rejects {E V} _ {X}.
Arguments fallible {E V} _ {X}.

(** In the [Faulty] mode any I/O operation may throw (a lost connection, a
    timeout); a failed operation has no effect.  In the [Reliable] mode
    operations fail only when they must. *)
Inductive mode := Faulty | Reliable.

Definition obeys {E V} (md : mode) (b : behaviour E V)
    (X : Type) (op : E X) (v : V) (r : result X) (v' : V) : Prop :=
  match r with
  | Ok x => ok b op v x v'
  | Err _ => v' = v /\ (rejects b op v \/ (md = Faulty /\ fallible b op))
  end.

(** A handler conforms to a behaviour through a view of its world. *)
Definition conforms {E V W} (md : mode) (b : behaviour E V)
    (h : forall X, E X -> W -> result X * W) (view : W -> V) : Prop :=
  forall X (op : E X) w, obeys md b X op (view w) (h X op w).1 (view (h X op w).2).

(** ** The weakest-precondition calculus *)

Section Wp.
Context {E : Type -> Type} {V : Type}.
Variable spec : forall X, E X -> V -> result X -> V -> Prop.

Fixpoint wp {S A} (m : prog S E A) (Q : result A -> S -> V -> Prop) (s : S) (v : V) : Prop :=
  match m with
  | Ret a => Q (Ok a) s v
  | Throw e => Q (Err e) s v
  | Do X op k => forall r v', spec X op v r v' -> wp (k r) Q s v'
  | Get k => wp (k s) Q s v
  | Put s' k => wp k Q s' v
  end.

Lemma wp_mono {S A} (m : prog S E A) Q Q' s v :
  wp m Q s v -> (forall r s v, Q r s v -> Q' r s v) -> wp m Q' s v.
Proof.
  intros H HQ. revert s v H.
  induction m as [a|e|X op k IH|k IH|s' k IH]; cbn; eauto.
Qed.

Lemma wp_bind {S A B} (m : prog S E A) (f : A -> prog S E B) Q s v :
  wp m (fun r s v => match r with Ok a => wp (f a) Q s v | Err e => Q (Err e) s v end) s v ->
  wp (bind m f) Q s v.
Proof.
  revert s v. induction m as [a|e|X op k IH|k IH|s' k IH]; cbn; eauto.
Qed.

Lemma wp_attempt {S A} (m : prog S E A) Q s v :
  wp m (fun r s v => Q (Ok r) s v) s v -> wp (attempt m) Q s v.
Proof. revert s v. induction m as [a|e|X op k IH|k IH|s' k IH]; cbn; eauto. Qed.

Lemma wp_with_local {S0 S A} (s0 : S0) (m : prog S0 E A) (Q : result (A * S0) -> S -> V -> Prop) s v :
  wp m (fun r s' v => match r with Ok a => Q (Ok (a, s')) s v | Err e => Q (Err e) s v end) s0 v ->
  wp (with_local s0 m) Q s v.
Proof. revert s0 v. induction m as [a|e|X op k IH|k IH|s' k IH]; cbn; eauto. Qed.

Lemma wp_of_result {S A} (r : result A) (Q : result A -> S -> V -> Prop) s v :
  Q r s v -> wp (of_result r) Q s v.
Proof. by destruct r. Qed.

Lemma wp_call {S X} (op : E X) (Q : result X -> S -> V -> Prop) s v :
  (forall r v', spec X op v r v' -> Q r s v') -> wp (call op) Q s v.
Proof. cbn. intros H r v' Hs. apply wp_of_result; auto. Qed.

Lemma wp_try_catch {S A} (m : prog S E A) h Q s v :
  wp m (fun r s v => match r with Ok a => Q (Ok a) s v | Err e => wp (h e) Q s v end) s v ->
  wp (try_catch m h) Q s v.
Proof.
  intros H. unfold try_catch. apply wp_bind, wp_attempt.
  eapply wp_mono; [exact H|]. by intros [a|e] s' v'.
Qed.

Lemma wp_finally {S A} (m : prog S E A) f Q s v :
  wp m (fun r s v => wp f (fun r' s v =>
    match r' with Ok _ => Q r s v | Err e => Q (Err e) s v end) s v) s v ->
  wp (finally m f) Q s v.
Proof.
  intros H. unfold finally. apply wp_bind, wp_attempt.
  eapply wp_mono; [exact H|]. intros r s' v' Hf. apply wp_bind.
  eapply wp_mono; [exact Hf|]. intros [[]|e] s'' v'' HQ; [|done].
  by apply wp_of_result.
Qed.

(** A loop keeps an invariant indexed by the elements still to visit. *)
Lemma wp_for_each {S X} (xs : list X) (body : X -> prog S E unit)
    (Inv : list X -> S -> V -> Prop) (Q : result unit -> S -> V -> Prop) s v :
  Inv xs s v ->
  (forall s v, Inv [] s v -> Q (Ok tt) s v) ->
  (forall x xs s v, Inv (x :: xs) s v ->
     wp (body x) (fun r s v =>
       match r with Ok _ => Inv xs s v | Err e => Q (Err e) s v end) s v) ->
  wp (for_each xs body) Q s v.
Proof.
  intros H Hnil Hcons. revert s v H. induction xs as [|x xs IH]; intros s v H; cbn; auto.
  apply wp_bind. eapply wp_mono; [apply Hcons, H|]. intros [[]|e] s' v' H'; auto.
Qed.

(** What is proved in the calculus holds of every run under a handler that
    conforms to the specification. *)
Lemma wp_run {W} (h : forall X, E X -> W -> result X * W) (view : W -> V) {S A}
    (m : prog S E A) Q s w :
  (forall X (op : E X) w, spec X op (view w) (h X op w).1 (view (h X op w).2)) ->
  wp m Q s (view w) ->
  Q (run h m s w).1.1 (run h m s w).1.2 (view (run h m s w).2).
Proof.
  intros Hh. revert s w. induction m as [a|e|X op k IH|k IH|s' k IH]; intros s w; cbn; auto.
  intros H. specialize (Hh X op w). destruct (h X op w) as [r w'] eqn:Hr. cbn in *.
  by apply IH, H.
Qed.
End Wp.

(** A specification may be weakened: the [Reliable] runs are [Faulty] runs. *)
Lemma obeys_faulty {E V} (b : behaviour E V) X (op : E X) v r v' :
  obeys Reliable b X op v r v' -> obeys Faulty b X op v r v'.
Proof. destruct r; cbn; [done|]. intros [-> [?|[? ?]]]; split; auto; by right. Qed.

Lemma wp_weaken {E V} (spec spec' : forall X, E X -> V -> result X -> V -> Prop)
    {S A} (m : prog S E A) Q s v :
  (forall X op v r v', spec' X op v r v' -> spec X op v r v') ->
  wp spec m Q s v -> wp spec' m Q s v.
Proof.
  intros Hs. revert s v. induction m as [a|e|X op k IH|k IH|s' k IH]; cbn; eauto.
Qed.

Lemma wp_reliable {E V} (b : behaviour E V) {S A} (m : prog S E A) Q s v :
  wp (obeys Faulty b) m Q s v -> wp (obeys Reliable b) m Q s v.
Proof. apply wp_weaken. intros *. apply obeys_faulty. Qed.

(** The form in which a theorem about a call is concluded. *)
Lemma wp_sound {E V W} md (b : behaviour E V) (h : forall X, E X -> W -> result X * W)
    (view : W -> V) {S A} (m : prog S E A) (P : result A -> V -> Prop) s w :
  conforms md b h view ->
  wp (obeys md b) m (fun r _ v => P r v) s (view w) ->
  P (outcome h m s w) (view (final h m s w)).
Proof. intros Hc H. exact (wp_run (obeys md b) h view m _ s w Hc H). Qed.

(** The final value of the object a method works on. *)
Definition object {E W S A} (h : forall X, E X -> W -> result X * W) (m : prog S E A) (s : S) (w : W) : S :=
  (run h m s w).1.2.

Lemma wp_sound_object {E V W} md (b : behaviour E V) (h : forall X, E X -> W -> result X * W)
    (view : W -> V) {S A} (m : prog S E A) (P : result A -> S -> V -> Prop) s w :
  conforms md b h view ->
  wp (obeys md b) m P s (view w) ->
  P (outcome h m s w) (object h m s w) (view (final h m s w)).
Proof. intros Hc H. exact (wp_run (obeys md b) h view m _ s w Hc H). Qed.

(** Drive a [wp] goal through the program's structure. *)
Ltac wp_step :=
  match goal with
  | |- wp _ (bind _ _) _ _ _ => apply wp_bind
  | |- wp _ (try_catch _ _) _ _ _ => apply wp_try_catch
  | |- wp _ (finally _ _) _ _ _ => apply wp_finally
  | |- wp _ (with_local _ _) _ _ _ => apply wp_with_local
  | |- wp _ (call _) _ _ _ => apply wp_call
  | |- wp _ (of_result _) _ _ _ => apply wp_of_result
  | |- wp _ (Ret _) _ _ _ => cbn [wp]
  | |- wp _ (Throw _) _ _ _ => cbn [wp]
  | |- wp _ (modify _) _ _ _ => cbn [wp modify]
  | |- wp _ get_local _ _ _ => cbn [wp get_local]
  | |- wp _ (put_local _) _ _ _ => cbn [wp put_local]
  end.

(** ** The operations a program uses *)

(** Every operation that [m] may await satisfies [P], whatever the others answer. *)
Fixpoint uses {S E A} (P : forall X, E X -> Prop) (m : prog S E A) : Prop :=
  match m with
  | Ret _ | Throw _ => True
  | Do X op k => P X op /\ forall r, uses P (k r)
  | Get k => forall s, uses P (k s)
  | Put _ k => uses P k
  end.

Section Uses.
Context {E : Type -> Type} (P : forall X, E X -> Prop).

Lemma uses_bind {S A B} (m : prog S E A) (f : A -> prog S E B) :
  uses P m -> (forall a, uses P (f a)) -> uses P (bind m f).
Proof. intros Hm Hf. induction m; cbn in *; naive_solver. Qed.

Lemma uses_of_result {S A} (r : result A) : uses P (of_result (S := S) r).
Proof. by destruct r. Qed.

Lemma uses_call {S X} (op : E X) : P X op -> uses P (call (S := S) op).
Proof. intros H. split; [done|]. intros r. apply uses_of_result. Qed.

Lemma uses_attempt {S A} (m : prog S E A) : uses P m -> uses P (attempt m).
Proof. intros Hm. induction m; cbn in *; naive_solver. Qed.

Lemma uses_try_catch {S A} (m : prog S E A) h :
  uses P m -> (forall e, uses P (h e)) -> uses P (try_catch m h).
Proof. intros Hm Hh. apply uses_bind; [by apply uses_attempt|]. by intros []. Qed.

Lemma uses_for_each {S X} (xs : list X) (body : X -> prog S E unit) :
  (forall x, uses P (body x)) -> uses P (for_each xs body).
Proof. intros Hb. induction xs as [|x xs IH]; cbn; [done|]. by apply uses_bind. Qed.

Lemma uses_finally {S A} (m : prog S E A) f : uses P m -> uses P f -> uses P (finally m f).
Proof.
  intros Hm Hf. apply uses_bind; [by apply uses_attempt|]. intros r. apply uses_bind; [done|].
  intros _. apply uses_of_result.
Qed.

Lemma uses_with_local {S0 S A} (s0 : S0) (m : prog S0 E A) : uses P m -> uses P (with_local (S := S) s0 m).
Proof. intros Hm. induction m in s0, Hm |- *; cbn in *; naive_solver. Qed.

(** What these operations keep, the program keeps. *)
Lemma uses_wp {S A V} (spec : forall X, E X -> V -> result X -> V -> Prop) (I : V -> Prop)
    (m : prog S E A) (Q : result A -> S -> V -> Prop) s v :
  (forall X (op : E X) v r v', P X op -> spec X op v r v' -> I v -> I v') ->
  uses P m -> I v -> (forall r s v, I v -> Q r s v) -> wp spec m Q s v.
Proof.
  intros HP Hm Hv HQ. induction m as [a|e|X op k IH|k IH|s' k IH] in s, v, Hm, Hv |- *; cbn in *; auto.
  intros r v' Hs. apply IH; [apply Hm|]. by eapply HP; [apply Hm| |].
Qed.
End Uses.

#[export] Hint Resolve uses_bind uses_call uses_of_result uses_try_catch uses_for_each uses_finally uses_with_local : ticketing.

(** Walk through a program down to its operations. *)
Ltac uses_steps :=
  repeat lazymatch goal with
    | |- uses _ (bind _ _) => apply uses_bind
    | |- uses _ (call _) => apply uses_call
    | |- uses _ (try_catch _ _) => apply uses_try_catch
    | |- uses _ (finally _ _) => apply uses_finally
    | |- uses _ (with_local _ _) => apply uses_with_local
    | |- uses _ (for_each _ _) => apply uses_for_each
    | |- uses _ (of_result _) => apply uses_of_result
    | |- uses _ (match ?x with _ => _ end) => destruct x
    | |- uses _ _ => progress cbn
    | |- forall _, _ => intro
    | |- _ /\ _ => split
    | |- True => exact I
    end.

(** ** Handlers with failures *)

(** The handler [h], except that a script decides which I/O operations fail:
    the operation at the head of a [true] throws and has no effect. *)
Section Flaky.
Context {E : Type -> Type} {W : Type}.
Variable h : forall X, E X -> W -> result X * W.
Variable io : forall X, E X -> bool.

Definition flaky (X : Type) (op : E X) (w : W * list bool) : result X * (W * list bool) :=
  if io X op then
    match w.2 with
    | true :: script => (Err (JsError "Connection terminated unexpectedly"), (w.1, script))
    | script => let (r, w') := h X op w.1 in (r, (w', tl script))
    end
  else let (r, w') := h X op w.1 in (r, (w', w.2)).

Lemma flaky_conforms {V} (b : behaviour E V) (view : W -> V) :
  (forall X (op : E X), io X op = true -> fallible b op) ->
  conforms Reliable b h view ->
  conforms Faulty b flaky (fun w => view w.1).
Proof.
  intros Hio Hc X op [w script].
  assert (obeys Faulty b X op (view w) (h X op w).1 (view (h X op w).2)) as Ho
    by apply obeys_faulty, Hc.
  unfold flaky. cbn [fst snd]. destruct (io X op) eqn:Hop.
  - destruct script as [|[] script]; cbn.
    + by destruct (h X op w).
    + split; [done|]. right. auto.
    + by destruct (h X op w).
  - by destruct (h X op w).
Qed.
End Flaky.

(** Reduce a statement about the call made in world [w] to its weakest
    precondition. *)
Ltac call_wp Hh w :=
  match type of Hh with
  | conforms ?md ?b ?h ?view =>
      let conclude m s :=
        pattern (outcome h m s w), (view (final h m s w));
        lazymatch goal with |- ?P _ _ => refine (wp_sound md b h view m P s w Hh _) end in
      match goal with
      | |- context [outcome h ?m ?s w] => conclude m s
      | |- context [final h ?m ?s w] => conclude m s
      end
  end.

(** The same when the statement also speaks of the object. *)
Ltac call_object_wp Hh w :=
  match type of Hh with
  | conforms ?md ?b ?h ?view =>
      match goal with
      | |- context [object h ?m ?s w] =>
          pattern (outcome h m s w), (object h m s w), (view (final h m s w));
          lazymatch goal with |- ?P _ _ _ => refine (wp_sound_object md b h view m P s w Hh _) end
      end
  end.

(** Compute the outcome of a concrete call in a hypothesis. *)
Ltac eval_outcome H :=
  match type of H with
  | context [outcome ?h ?m ?s ?w] =>
      let r := eval vm_compute in (outcome h m s w) in
      replace (outcome h m s w) with r in H by (vm_compute; reflexivity)
  end.
