(* ===== verification/JsNumber.v ===== *)
(** * JavaScript numbers and number formatting

    The parts of ECMAScript's [Number], [Math] and [Date] formatting the
    services use: binary64 addition and multiplication, [parseFloat],
    [Math.round], [Number.prototype.toString] in radix 10 and 36, and
    [String.prototype.toUpperCase] / [slice].  A number is a [spec_float] of
    precision 53; every definition is executable. *)

From Stdlib Require Import SpecFloat Ascii.
From S2P Require Import Prelude.

(** ** Binary64 *)

Definition number : Type := spec_float.
Definition prec : Z := 53.
Definition emax : Z := 1024.

Definition num_of_Z (z : Z) : number := binary_normalize prec emax z 0 false.
Definition num_add : number -> number -> number := SFadd prec emax.
Definition num_mul : number -> number -> number := SFmul prec emax.

(** The correctly rounded quotient of two positive integers, with a sign. *)
Definition num_ratio (s : bool) (p q : positive) : number :=
  SFdiv prec emax (S754_finite s p 0) (S754_finite false q 0).

(** ** Positional notation *)

(** The digits of [n] in base [b], most significant first, in front of [acc]. *)
Fixpoint radix_aux (b : N) (fuel : nat) (n : N) (acc : list N) : list N :=
  match fuel with
  | O => n :: acc
  | S fuel =>
      if N.ltb n b then n :: acc
      else radix_aux b fuel (N.div n b) (N.modulo n b :: acc)
  end.

Definition radix (b n : N) : list N := radix_aux b (N.size_nat n) n [].

Definition eval_digits (b : N) (ds : list N) : N :=
  foldl (fun acc d => acc * b + d)%N 0%N ds.

(** ['0'..'9'], then ['A'..'Z']. *)
Definition digit_char (d : N) : ascii :=
  ascii_of_N (if N.ltb d 10 then 48 + d else 55 + d).

Definition char_digit (c : ascii) : option N :=
  let n := N_of_ascii c in
  if (N.leb 48 n && N.leb n 57)%bool then Some (n - 48)%N else None.

Fixpoint string_of_digits (ds : list N) : string :=
  match ds with
  | [] => EmptyString
  | d :: ds => String (digit_char d) (string_of_digits ds)
  end.

(** The decimal digits of a natural number. *)
Definition N_to_string (n : N) : string := string_of_digits (radix 10 n).

(** [String(z)] of an integer. *)
Definition Z_to_string (z : Z) : string :=
  if Z.ltb z 0 then String "-" (N_to_string (Z.abs_N z)) else N_to_string (Z.abs_N z).

(** [n.toString(36).toUpperCase()] of a non-negative integer. *)
Definition to_base36_upper (z : Z) : string := string_of_digits (radix 36 (Z.abs_N z)).

(** [s.slice(0, n)] *)
Definition slice0 (n : nat) (s : string) : string := String.substring 0 n s.

Definition upper_char (c : ascii) : ascii :=
  let n := N_of_ascii c in
  if (N.leb 97 n && N.leb n 122)%bool then ascii_of_N (n - 32) else c.

(** [s.toUpperCase()] on ASCII letters. *)
Fixpoint toUpperCase (s : string) : string :=
  match s with
  | EmptyString => EmptyString
  | String c s => String (upper_char c) (toUpperCase s)
  end.

Definition lower_char (c : ascii) : ascii :=
  let n := N_of_ascii c in
  if (N.leb 65 n && N.leb n 90)%bool then ascii_of_N (n + 32) else c.

(** [s.toLowerCase()] on ASCII letters. *)
Fixpoint toLowerCase (s : string) : string :=
  match s with
  | EmptyString => EmptyString
  | String c s => String (lower_char c) (toLowerCase s)
  end.

(** ** [parseFloat] *)

(** The longest prefix of decimal digits: its value, its length, the rest. *)
Fixpoint take_digits (s : string) (acc : N) (len : nat) : N * nat * string :=
  match s with
  | String c s' =>
      match char_digit c with
      | Some d => take_digits s' (acc * 10 + d)%N (S len)
      | None => (acc, len, s)
      end
  | EmptyString => (acc, len, s)
  end.

(** [m * 10^e], correctly rounded. *)
Definition num_scale10 (s : bool) (m : N) (e : Z) : number :=
  match m with
  | N0 => S754_zero s
  | Npos p =>
      if Z.leb 0 e then binary_normalize prec emax (if s then Z.neg p * 10 ^ e else Z.pos p * 10 ^ e) 0 s
      else num_ratio s p (Z.to_pos (10 ^ (- e)))
  end.

(** The exponent part, [e] or [E] with an optional sign; absent, it is zero. *)
Definition take_exponent (s : string) : Z :=
  match s with
  | String c s' =>
      if (Ascii.eqb c "e" || Ascii.eqb c "E")%bool then
        let '(neg, s'') :=
          match s' with
          | String "-" t => (true, t)
          | String "+" t => (false, t)
          | _ => (false, s')
          end in
        let '(x, len, _) := take_digits s'' 0 0 in
        if Nat.eqb len 0 then 0%Z else if neg then (- Z.of_N x)%Z else Z.of_N x
      else 0%Z
  | EmptyString => 0%Z
  end.

Fixpoint skip_spaces (s : string) : string :=
  match s with
  | String c s' => if N.leb (N_of_ascii c) 32 then skip_spaces s' else s
  | EmptyString => s
  end.

(** [parseFloat(s)]: the value of the longest numeric prefix, or [NaN]. *)
Definition parseFloat (s : string) : number :=
  let s := skip_spaces s in
  let '(neg, s) :=
    match s with
    | String "-" t => (true, t)
    | String "+" t => (false, t)
    | _ => (false, s)
    end in
  let '(ip, ilen, s) := take_digits s 0 0 in
  let '(m, flen, s) :=
    match s with
    | String "." t => let '(m, len, t) := take_digits t ip ilen in (m, len - ilen, t)
    | _ => (ip, 0, s)
    end in
  if Nat.eqb (ilen + flen) 0 then
    (if String.prefix "Infinity" s then S754_infinity neg else S754_nan)
  else num_scale10 neg m (take_exponent s - Z.of_nat flen).

(** ** [Math.round] *)

(** [floor (x + 1/2)] of [m * 2^e]. *)
Definition round_half_up (z e : Z) : Z :=
  if Z.leb 0 e then (z * 2 ^ e)%Z
  else ((2 * z + 2 ^ (- e)) / (2 * 2 ^ (- e)))%Z.

Definition Math_round (x : number) : number :=
  match x with
  | S754_finite s m e =>
      let z := round_half_up (if s then Z.neg m else Z.pos m) e in
      if Z.eqb z 0 then S754_zero s else num_of_Z z
  | _ => x
  end.

(** ** [Number.prototype.toString] *)

(** The integer nearest to [p / q]. *)
Definition nearest (p q : Z) : Z := ((2 * p + q) / (2 * q))%Z.

(** [m * 2^e] as a fraction. *)
Definition fraction (m : positive) (e : Z) : Z * Z :=
  if Z.leb 0 e then (Z.pos m * 2 ^ e, 1)%Z else (Z.pos m, 2 ^ (- e))%Z.

(** The least [n] from [lo] on with [p / q < 10^n], tried [fuel] times. *)
Fixpoint magnitude (fuel : nat) (lo p q : Z) : Z :=
  match fuel with
  | O => lo
  | S fuel =>
      let below :=
        if Z.leb 0 lo then Z.ltb p (q * 10 ^ lo) else Z.ltb (p * 10 ^ (- lo)) q in
      if below then lo else magnitude fuel (lo + 1) p q
  end.

(** The shortest decimal [s * 10^(n-k)] with [k] digits that denotes [m * 2^e]. *)
Fixpoint shortest (fuel : nat) (k : Z) (m : positive) (e n : Z) : Z * Z :=
  let '(p, q) := fraction m e in
  let x := (n - k)%Z in
  let s := if Z.leb 0 x then nearest p (q * 10 ^ x) else nearest (p * 10 ^ (- x)) q in
  match fuel with
  | O => (s, k)
  | S fuel =>
      if SFeqb (num_scale10 false (Z.to_N s) x) (S754_finite false m e) then (s, k)
      else shortest fuel (k + 1) m e n
  end.

Fixpoint zeros (n : nat) : string :=
  match n with O => EmptyString | S n => String "0" (zeros n) end.

(** The decimal layout of ECMAScript's Number::toString. *)
Definition layout (s k n : Z) : string :=
  let ds := N_to_string (Z.to_N s) in
  let len := Z.to_nat k in
  if (Z.leb k n && Z.leb n 21)%bool then ds +:+ zeros (Z.to_nat (n - k))
  else if (Z.ltb 0 n && Z.leb n 21)%bool then
    slice0 (Z.to_nat n) ds +:+ "." +:+ String.substring (Z.to_nat n) (len - Z.to_nat n) ds
  else if (Z.ltb (-6) n && Z.leb n 0)%bool then
    "0." +:+ zeros (Z.to_nat (- n)) +:+ ds
  else
    let x := (n - 1)%Z in
    let ex := (if Z.ltb x 0 then "-" else "+") +:+ N_to_string (Z.abs_N x) in
    if Z.eqb k 1 then ds +:+ "e" +:+ ex
    else slice0 1 ds +:+ "." +:+ String.substring 1 (len - 1) ds +:+ "e" +:+ ex.

(** [d], [k] and [n] of Number::toString: [m * 2^e] is denoted by the [k] digits
    [d] as [d * 10^(n-k)]. *)
Definition shortest_decimal (m : positive) (e : Z) : Z * Z * Z :=
  let '(p, q) := fraction m e in
  let lo := ((Z.log2 p - Z.log2 q) * 3 / 10 - 2)%Z in
  let n := magnitude 40 lo p q in
  let '(d, k) := shortest 16 1 m e n in
  (d, k, n).

(** [String(x)] of a number. *)
Definition num_to_string (x : number) : string :=
  match x with
  | S754_nan => "NaN"
  | S754_zero _ => "0"
  | S754_infinity s => if s then "-Infinity" else "Infinity"
  | S754_finite s m e =>
      let '(d, k, n) := shortest_decimal m e in
      (if s then "-" else "") +:+ layout d k n
  end.

(** ** Lemmas *)

Example parse_print_price :
  (num_to_string (parseFloat "149.90"), num_to_string (num_add (parseFloat "0.1") (parseFloat "0.2")))
  = ("149.9", "0.30000000000000004")%string.
Proof. reflexivity. Qed.

Example round_cents :
  num_to_string (Math_round (num_mul (parseFloat "1.005") (num_of_Z 100))) = "100"%string.
Proof. reflexivity. Qed.

Lemma eval_digits_app b ds d :
  eval_digits b (ds ++ [d]) = (eval_digits b ds * b + d)%N.
Proof. unfold eval_digits. by rewrite foldl_app. Qed.

Lemma foldl_digits_shift b ds acc :
  foldl (fun acc d => acc * b + d)%N acc ds =
  (acc * b ^ N.of_nat (length ds) + eval_digits b ds)%N.
Proof.
  revert acc. induction ds as [|d ds IH]; intros acc.
  - cbn [foldl length eval_digits]. change (N.of_nat 0) with 0%N. rewrite N.pow_0_r. cbn. lia.
  - unfold eval_digits. cbn [foldl length]. rewrite (IH (0 * b + d)%N), IH.
    rewrite Nat2N.inj_succ, N.pow_succ_r'. lia.
Qed.

Lemma radix_aux_eval b fuel n acc :
  (2 <= b)%N -> (n < 2 ^ N.of_nat (S fuel))%N ->
  eval_digits b (radix_aux b fuel n acc) =
  (n * b ^ N.of_nat (length acc) + eval_digits b acc)%N.
Proof.
  intros Hb. revert n acc. induction fuel as [|fuel IH]; intros n acc Hn; cbn [radix_aux].
  - unfold eval_digits at 1. cbn [foldl]. rewrite foldl_digits_shift. lia.
  - destruct (N.ltb_spec n b).
    + unfold eval_digits at 1. cbn [foldl]. rewrite foldl_digits_shift. lia.
    + rewrite IH.
      * unfold eval_digits at 1. cbn [foldl length]. rewrite foldl_digits_shift.
        rewrite Nat2N.inj_succ, N.pow_succ_r'.
        pose proof (N.div_mod n b ltac:(lia)) as Hd.
        rewrite Hd at 3. nia.
      * rewrite Nat2N.inj_succ, N.pow_succ_r' in Hn.
        apply N.Div0.div_lt_upper_bound. nia.
Qed.

(** The digits of a number denote it. *)
Lemma radix_eval b n : (2 <= b)%N -> eval_digits b (radix b n) = n.
Proof.
  intros Hb. unfold radix. rewrite radix_aux_eval; [cbn; lia | done |].
  destruct n as [|p]; [cbn; lia|].
  rewrite Nat2N.inj_succ. pose proof (N.size_gt (Npos p)) as Hs.
  assert (N.of_nat (N.size_nat (Npos p)) = N.size (Npos p)) as ->.
  { cbn. clear. induction p as [p IH|p IH|]; cbn; lia. }
  rewrite N.pow_succ_r'. lia.
Qed.

Lemma radix_aux_digits b fuel n acc :
  (2 <= b)%N -> (n < 2 ^ N.of_nat (S fuel))%N ->
  Forall (fun d => (d < b)%N) acc -> Forall (fun d => (d < b)%N) (radix_aux b fuel n acc).
Proof.
  intros Hb. revert n acc. induction fuel as [|fuel IH]; intros n acc Hn Hacc; cbn [radix_aux].
  - change (2 ^ N.of_nat 1)%N with 2%N in Hn. constructor; [lia | done].
  - destruct (N.ltb_spec n b); [by constructor|].
    apply IH.
    + rewrite Nat2N.inj_succ, N.pow_succ_r' in Hn. apply N.Div0.div_lt_upper_bound. nia.
    + constructor; [apply N.mod_lt; lia | done].
Qed.

Lemma radix_digits b n : (2 <= b)%N -> Forall (fun d => (d < b)%N) (radix b n).
Proof.
  intros Hb. apply radix_aux_digits; [done | | constructor].
  destruct n as [|p]; [cbn; lia|].
  rewrite Nat2N.inj_succ. pose proof (N.size_gt (Npos p)) as Hs.
  assert (N.of_nat (N.size_nat (Npos p)) = N.size (Npos p)) as ->.
  { cbn. clear. induction p as [p IH|p IH|]; cbn; lia. }
  rewrite N.pow_succ_r'. lia.
Qed.

Lemma radix_aux_length b fuel n acc : (length acc < length (radix_aux b fuel n acc))%nat.
Proof.
  revert n acc. induction fuel as [|fuel IH]; intros n acc; cbn; [lia|].
  destruct (N.ltb n b); cbn; [lia|]. specialize (IH (N.div n b) (N.modulo n b :: acc)).
  cbn in IH. lia.
Qed.

Lemma char_digit_char d : (d < 10)%N -> char_digit (digit_char d) = Some d.
Proof.
  intros Hd. unfold digit_char. destruct (N.ltb_spec d 10); [|lia].
  assert (d = 0 \/ d = 1 \/ d = 2 \/ d = 3 \/ d = 4 \/ d = 5 \/ d = 6 \/ d = 7 \/ d = 8 \/ d = 9)%N
    as Hcases by lia.
  repeat destruct Hcases as [->|Hcases]; try reflexivity. by subst.
Qed.

(** Reading back decimal digits, up to the first character that is none. *)
Lemma take_digits_string ds rest acc len :
  Forall (fun d => (d < 10)%N) ds ->
  match rest with String c _ => char_digit c = None | EmptyString => True end ->
  take_digits (string_of_digits ds +:+ rest) acc len =
  (foldl (fun acc d => acc * 10 + d)%N acc ds, length ds + len, rest).
Proof.
  intros Hds Hrest. revert acc len. induction Hds as [|d ds Hd Hds IH]; intros acc len.
  - cbn [string_of_digits]. rewrite string_app_nil_l.
    destruct rest as [|c rest]; cbn -[char_digit]; [done|]. by rewrite Hrest.
  - cbn [string_of_digits]. rewrite string_app_cons. cbn -[char_digit digit_char].
    rewrite char_digit_char by done. rewrite IH. by rewrite Nat.add_succ_r.
Qed.

Lemma take_digits_N n rest :
  match rest with String c _ => char_digit c = None | EmptyString => True end ->
  take_digits (N_to_string n +:+ rest) 0 0 = (n, length (radix 10 n), rest).
Proof.
  intros Hrest. unfold N_to_string. rewrite take_digits_string; [|apply radix_digits; lia|done].
  rewrite Nat.add_0_r. f_equal. f_equal. apply radix_eval. lia.
Qed.
