(* ===== verification/JsDate.v ===== *)
(** * Dates

    A JavaScript [Date] is the number of milliseconds since the epoch;
    [toISOString] prints it in the proleptic Gregorian calendar, for the years
    0 to 9999. *)

From S2P Require Import Prelude JsNumber.

(** Year, month and day of a day number (days since 1970-01-01). *)
Definition civil (days : Z) : Z * Z * Z :=
  (let z := days + 719468 in
   let era := z / 146097 in
   let doe := z mod 146097 in
   let yoe := (doe - doe / 1460 + doe / 36524 - doe / 146096) / 365 in
   let doy := doe - (365 * yoe + yoe / 4 - yoe / 100) in
   let mp := (5 * doy + 2) / 153 in
   let d := doy - (153 * mp + 2) / 5 + 1 in
   let m := if mp <? 10 then mp + 3 else mp - 9 in
   (yoe + era * 400 + (if m <=? 2 then 1 else 0), m, d))%Z.

(** Zero-padded decimals. *)
Fixpoint pad_left (width : nat) (s : string) : string :=
  match width with
  | O => s
  | S w => if Nat.ltb (String.length s) width then "0" +:+ pad_left w s else s
  end.

Definition pad (width : nat) (z : Z) : string := pad_left width (Z_to_string z).

Definition toISOString (ms : Z) : string :=
  let '(y, m, d) := civil (ms / 86400000) in
  let t := (ms mod 86400000)%Z in
  pad 4 y +:+ "-" +:+ pad 2 m +:+ "-" +:+ pad 2 d +:+ "T" +:+
  pad 2 (t / 3600000) +:+ ":" +:+ pad 2 (t / 60000 mod 60) +:+ ":" +:+
  pad 2 (t / 1000 mod 60) +:+ "." +:+ pad 3 (t mod 1000) +:+ "Z".

Example iso_epoch : toISOString 0 = "1970-01-01T00:00:00.000Z"%string.
Proof. reflexivity. Qed.

Example iso_2024 : toISOString 1709210096789 = "2024-02-29T12:34:56.789Z"%string.
Proof. reflexivity. Qed.
