(* ===== verification/Messages.v ===== *)
(** * gRPC messages

    The messages of libs/grpc/src/proto/seat-inventory.proto and payment.proto
    that pass between the booking service and its two servers, as the
    JavaScript objects the handlers return and the clients receive. *)

From S2P Require Import Prelude JsNumber.

(** ** seat-inventory.proto *)

(** One seat of [GetSeatsByEventResponse]. *)
Record SeatInfo := mkSeatInfo {
  inf_id : string;
  inf_eventId : string;
  inf_seatId : string;
  inf_sectionId : string;
  inf_sectionName : string;
  inf_ticketTypeId : string;
  inf_ticketTypeName : string;
  inf_price : string;
  inf_currency : string;
  inf_row : string;
  inf_seatNumber : string;
  inf_seatType : string;
  inf_status : string;
}.

(** ** payment.proto *)

Record InitiatePaymentRequest := mkInitiatePaymentRequest {
  ipr_bookingId : string;
  ipr_idempotencyKey : string;
  ipr_amount : number;
  ipr_currency : string;
  ipr_method : string;
  ipr_cardToken : string;
  ipr_provider : string;
}.

Record PaymentInfo := mkPaymentInfo {
  pinf_id : string;
  pinf_bookingId : string;
  pinf_idempotencyKey : string;
  pinf_amount : string;
  pinf_currency : string;
  pinf_method : string;
  pinf_status : string;
  pinf_provider : string;
  pinf_providerTxId : string;
  pinf_failureReason : string;
  pinf_paidAt : string;
}.

(** The replies [{ payment }] and [{ payments }]. *)
Record PaymentReply := mkPaymentReply { reply_payment : PaymentInfo }.
Record PaymentsReply := mkPaymentsReply { reply_payments : list PaymentInfo }.

Record RefundPaymentResponse := mkRefundResponse {
  rp_success : bool;
  rp_refundId : string;
  rp_failureReason : string;
}.
