(* ===== verification/Json.v ===== *)
(** * JSON

    [JSON.stringify] and [JSON.parse] for the values the services store in
    Redis (lock records, cached seat details, cached payment responses) and
    print in QR codes.  Strings are sequences of 8-bit code units; a number is
    an integer or a decimal literal with a fraction (no exponent).  [stringify] is ECMAScript's compact form, with its escapes;
    [parse] is a recursive-descent parser that also accepts white space.  Its
    fuel is the length of the text plus one, and [parse_stringify] shows that
    this is enough for every printed value. *)

From Stdlib Require Import Ascii.
From S2P Require Import Prelude JsNumber.

Inductive digit := D0 | D1 | D2 | D3 | D4 | D5 | D6 | D7 | D8 | D9.

(** [JDec neg ip d ds] is the literal [-ip.dds], with the sign if [neg]. *)
#[warnings="-register-all"]
Inductive json :=
| JNull
| JBool (b : bool)
| JNum (z : Z)
| JDec (neg : bool) (ip : N) (d : digit) (ds : list digit)
| JStr (s : string)
| JArr (l : list json)
| JObj (fields : list (string * json)).

(** [o.key] of an object: the last binding wins; [undefined] is [None]. *)
Fixpoint field (key : string) (fields : list (string * json)) : option json :=
  match fields with
  | [] => None
  | (k, v) :: rest =>
      match field key rest with
      | Some w => Some w
      | None => if String.eqb k key then Some v else None
      end
  end.

Definition member (key : string) (j : json) : option json :=
  match j with JObj fs => field key fs | _ => None end.

Definition is_zero (d : digit) : bool := match d with D0 => true | _ => false end.

(** [!!j] *)
Definition json_truthy (j : json) : bool :=
  match j with
  | JNull => false
  | JBool b => b
  | JNum z => negb (Z.eqb z 0)
  | JDec _ ip d ds => negb (N.eqb ip 0 && is_zero d && forallb is_zero ds)
  | JStr s => truthy s
  | JArr _ | JObj _ => true
  end.

(** ** Printing *)

Definition hex_digit (n : N) : ascii :=
  ascii_of_N (if N.ltb n 10 then 48 + n else 87 + n).

Definition quote_char : ascii := ascii_of_N 34.
Definition backslash : ascii := ascii_of_N 92.

Definition escape_char (c : ascii) (rest : string) : string :=
  let n := N_of_ascii c in
  if N.eqb n 34 then String backslash (String quote_char rest)
  else if N.eqb n 92 then String backslash (String backslash rest)
  else if N.eqb n 8 then String backslash (String "b" rest)
  else if N.eqb n 9 then String backslash (String "t" rest)
  else if N.eqb n 10 then String backslash (String "n" rest)
  else if N.eqb n 12 then String backslash (String "f" rest)
  else if N.eqb n 13 then String backslash (String "r" rest)
  else if N.ltb n 32 then
    String backslash (String "u" (String "0" (String "0"
      (String (hex_digit (n / 16)) (String (hex_digit (n mod 16)) rest)))))
  else String c rest.

(** The characters of [s], escaped, in front of [rest]. *)
Fixpoint escape (s rest : string) : string :=
  match s with
  | EmptyString => rest
  | String c s => escape_char c (escape s rest)
  end.

Definition quoted (s rest : string) : string :=
  String quote_char (escape s (String quote_char rest)).

Definition digit_ascii (d : digit) : ascii :=
  match d with
  | D0 => "0" | D1 => "1" | D2 => "2" | D3 => "3" | D4 => "4"
  | D5 => "5" | D6 => "6" | D7 => "7" | D8 => "8" | D9 => "9"
  end%char.

Fixpoint print_digits (ds : list digit) (rest : string) : string :=
  match ds with [] => rest | d :: ds => String (digit_ascii d) (print_digits ds rest) end.

(** [JSON.stringify(j)] in front of [rest]. *)
Fixpoint print (j : json) (rest : string) : string :=
  match j with
  | JNull => "null" +:+ rest
  | JBool b => (if b then "true" else "false") +:+ rest
  | JNum z => Z_to_string z +:+ rest
  | JDec neg ip d ds =>
      (if neg then "-" else "") +:+ (N_to_string ip +:+ String "." (print_digits (d :: ds) rest))
  | JStr s => quoted s rest
  | JArr l =>
      String "[" (match l with
      | [] => String "]" rest
      | x :: l =>
          print x ((fix elems (l : list json) : string :=
            match l with
            | [] => String "]" rest
            | y :: l => String "," (print y (elems l))
            end) l)
      end)
  | JObj fs =>
      String "{" (match fs with
      | [] => String "}" rest
      | (k, x) :: fs =>
          quoted k (String ":" (print x ((fix members (fs : list (string * json)) : string :=
            match fs with
            | [] => String "}" rest
            | (k, y) :: fs => String "," (quoted k (String ":" (print y (members fs))))
            end) fs)))
      end)
  end.

Definition stringify (j : json) : string := print j EmptyString.

Fixpoint print_elems (l : list json) (rest : string) : string :=
  match l with
  | [] => String "]" rest
  | y :: l => String "," (print y (print_elems l rest))
  end.

Fixpoint print_members (fs : list (string * json)) (rest : string) : string :=
  match fs with
  | [] => String "}" rest
  | (k, y) :: fs => String "," (quoted k (String ":" (print y (print_members fs rest))))
  end.

(** ** Parsing *)

Definition is_space (c : ascii) : bool :=
  let n := N_of_ascii c in (N.eqb n 32 || N.eqb n 9 || N.eqb n 10 || N.eqb n 13)%bool.

Fixpoint skip_ws (s : string) : string :=
  match s with
  | String c s' => if is_space c then skip_ws s' else s
  | EmptyString => s
  end.

Definition hex_value (c : ascii) : option N :=
  let n := N_of_ascii c in
  if (N.leb 48 n && N.leb n 57)%bool then Some (n - 48)%N
  else if (N.leb 97 n && N.leb n 102)%bool then Some (n - 87)%N
  else if (N.leb 65 n && N.leb n 70)%bool then Some (n - 55)%N
  else None.

Definition push (c : ascii) (r : option (string * string)) : option (string * string) :=
  match r with Some (s, rest) => Some (String c s, rest) | None => None end.

(** The body of a string literal, after the opening quote. *)
Fixpoint parse_chars (s : string) : option (string * string) :=
  match s with
  | EmptyString => None
  | String c s1 =>
      if Ascii.eqb c quote_char then Some (EmptyString, s1)
      else if Ascii.eqb c backslash then
        match s1 with
        | EmptyString => None
        | String d s2 =>
            if Ascii.eqb d quote_char then push quote_char (parse_chars s2)
            else if Ascii.eqb d backslash then push backslash (parse_chars s2)
            else if Ascii.eqb d "/" then push "/" (parse_chars s2)
            else if Ascii.eqb d "b" then push (ascii_of_N 8) (parse_chars s2)
            else if Ascii.eqb d "t" then push (ascii_of_N 9) (parse_chars s2)
            else if Ascii.eqb d "n" then push (ascii_of_N 10) (parse_chars s2)
            else if Ascii.eqb d "f" then push (ascii_of_N 12) (parse_chars s2)
            else if Ascii.eqb d "r" then push (ascii_of_N 13) (parse_chars s2)
            else if Ascii.eqb d "u" then
              match s2 with
              | String "0" (String "0" (String h (String l s3))) =>
                  match hex_value h, hex_value l with
                  | Some h, Some l => push (ascii_of_N (16 * h + l)) (parse_chars s3)
                  | _, _ => None
                  end
              | _ => None
              end
            else None
        end
      else if N.ltb (N_of_ascii c) 32 then None
      else push c (parse_chars s1)
  end.

Definition ascii_digit (c : ascii) : option digit :=
  match char_digit c with
  | Some 0%N => Some D0 | Some 1%N => Some D1 | Some 2%N => Some D2 | Some 3%N => Some D3
  | Some 4%N => Some D4 | Some 5%N => Some D5 | Some 6%N => Some D6 | Some 7%N => Some D7
  | Some 8%N => Some D8 | Some 9%N => Some D9 | _ => None
  end.

Fixpoint take_fraction (s : string) : list digit * string :=
  match s with
  | String c t =>
      match ascii_digit c with
      | Some d => let '(ds, r) := take_fraction t in (d :: ds, r)
      | None => ([], s)
      end
  | EmptyString => ([], s)
  end.

Definition split_sign (s : string) : bool * string :=
  match s with String "-" t => (true, t) | _ => (false, s) end.

(** A number literal; an exponent is outside the model. *)
Definition parse_num (s : string) : option (json * string) :=
  let '(neg, s) := split_sign s in
  let '(n, len, rest) := take_digits s 0 0 in
  if Nat.eqb len 0 then None
  else
    match rest with
    | String "." t =>
        match take_fraction t with
        | (d :: ds, r) => Some (JDec neg n d ds, r)
        | ([], _) => None
        end
    | _ => Some (JNum (if neg then (- Z.of_N n)%Z else Z.of_N n), rest)
    end.

(** [lit] at the start of [s]: what follows it. *)
Fixpoint strip (lit s : string) : option string :=
  match lit, s with
  | EmptyString, _ => Some s
  | String a lit, String b s => if Ascii.eqb a b then strip lit s else None
  | String _ _, EmptyString => None
  end.

Fixpoint parse_value (fuel : nat) (s : string) : option (json * string) :=
  match fuel with
  | O => None
  | S fuel =>
      match skip_ws s with
      | EmptyString => None
      | String c s1 =>
          if Ascii.eqb c "n" then
            match strip "ull" s1 with Some r => Some (JNull, r) | None => None end
          else if Ascii.eqb c "t" then
            match strip "rue" s1 with Some r => Some (JBool true, r) | None => None end
          else if Ascii.eqb c "f" then
            match strip "alse" s1 with Some r => Some (JBool false, r) | None => None end
          else if Ascii.eqb c quote_char then
            match parse_chars s1 with Some (t, r) => Some (JStr t, r) | None => None end
          else if Ascii.eqb c "[" then
            match skip_ws s1 with
            | String "]" r => Some (JArr [], r)
            | _ =>
                match parse_value fuel s1 with
                | Some (x, r) =>
                    match parse_elems fuel r with
                    | Some (l, r) => Some (JArr (x :: l), r)
                    | None => None
                    end
                | None => None
                end
            end
          else if Ascii.eqb c "{" then
            match skip_ws s1 with
            | String "}" r => Some (JObj [], r)
            | _ =>
                match parse_member fuel s1 with
                | Some (kv, r) =>
                    match parse_members fuel r with
                    | Some (l, r) => Some (JObj (kv :: l), r)
                    | None => None
                    end
                | None => None
                end
            end
          else
            parse_num (String c s1)
      end
  end
with parse_elems (fuel : nat) (s : string) : option (list json * string) :=
  match fuel with
  | O => None
  | S fuel =>
      match skip_ws s with
      | String c s1 =>
          if Ascii.eqb c "]" then Some ([], s1)
          else if Ascii.eqb c "," then
            match parse_value fuel s1 with
            | Some (x, r) =>
                match parse_elems fuel r with
                | Some (l, r) => Some (x :: l, r)
                | None => None
                end
            | None => None
            end
          else None
      | EmptyString => None
      end
  end
with parse_member (fuel : nat) (s : string) : option (string * json * string) :=
  match fuel with
  | O => None
  | S fuel =>
      match skip_ws s with
      | String c s1 =>
          if Ascii.eqb c quote_char then
            match parse_chars s1 with
            | Some (k, r) =>
                match skip_ws r with
                | String ":" r =>
                    match parse_value fuel r with
                    | Some (x, r) => Some ((k, x), r)
                    | None => None
                    end
                | _ => None
                end
            | None => None
            end
          else None
      | EmptyString => None
      end
  end
with parse_members (fuel : nat) (s : string) : option (list (string * json) * string) :=
  match fuel with
  | O => None
  | S fuel =>
      match skip_ws s with
      | String c s1 =>
          if Ascii.eqb c "}" then Some ([], s1)
          else if Ascii.eqb c "," then
            match parse_member fuel s1 with
            | Some (kv, r) =>
                match parse_members fuel r with
                | Some (l, r) => Some (kv :: l, r)
                | None => None
                end
            | None => None
            end
          else None
      | EmptyString => None
      end
  end.

(** [JSON.parse(s)]; [None] is a [SyntaxError]. *)
Definition parse (s : string) : option json :=
  match parse_value (S (String.length s)) s with
  | Some (j, rest) => match skip_ws rest with EmptyString => Some j | _ => None end
  | None => None
  end.

(** ** Round trip *)

Fixpoint size (j : json) : nat :=
  match j with
  | JArr l => S (foldr (fun x n => S (size x + n)) 0 l)
  | JObj fs => S (foldr (fun kv n => S (S (size kv.2 + n))) 0 fs)
  | _ => 1
  end.

Section JsonInd.
Variable P : json -> Prop.
Hypothesis Hnull : P JNull.
Hypothesis Hbool : forall b, P (JBool b).
Hypothesis Hnum : forall z, P (JNum z).
Hypothesis Hdec : forall neg ip d ds, P (JDec neg ip d ds).
Hypothesis Hstr : forall s, P (JStr s).
Hypothesis Harr : forall l, Forall P l -> P (JArr l).
Hypothesis Hobj : forall fs, Forall (fun kv => P kv.2) fs -> P (JObj fs).

Fixpoint json_nested_ind (j : json) : P j :=
  match j with
  | JNull => Hnull
  | JBool b => Hbool b
  | JNum z => Hnum z
  | JDec neg ip d ds => Hdec neg ip d ds
  | JStr s => Hstr s
  | JArr l =>
      Harr l ((fix go (l : list json) : Forall P l :=
        match l with
        | [] => @List.Forall_nil _ _
        | x :: l => @List.Forall_cons _ _ _ _ (json_nested_ind x) (go l)
        end) l)
  | JObj fs =>
      Hobj fs ((fix go (fs : list (string * json)) : Forall (fun kv => P kv.2) fs :=
        match fs with
        | [] => @List.Forall_nil _ _
        | kv :: fs => @List.Forall_cons _ _ _ _ (json_nested_ind kv.2) (go fs)
        end) fs)
  end.
End JsonInd.

Lemma print_arr x l rest :
  print (JArr (x :: l)) rest = String "[" (print x (print_elems l rest)).
Proof.
  cbn [print]. do 2 f_equal. induction l as [|y l IH]; [done|]. cbn [print_elems]. by rewrite <- IH.
Qed.

Lemma print_obj k x fs rest :
  print (JObj ((k, x) :: fs)) rest =
  String "{" (quoted k (String ":" (print x (print_members fs rest)))).
Proof.
  cbn [print]. do 4 f_equal. induction fs as [|[k' y] fs IH]; [done|].
  cbn [print_members]. by rewrite <- IH.
Qed.

Lemma parse_chars_escape_char c s :
  parse_chars (escape_char c s) = push c (parse_chars s).
Proof. destruct c as [[] [] [] [] [] [] [] []]; reflexivity. Qed.

Lemma parse_chars_escape s rest :
  parse_chars (escape s (String quote_char rest)) = Some (s, rest).
Proof.
  induction s as [|c s IH]; [done|]. cbn [escape].
  by rewrite parse_chars_escape_char, IH.
Qed.

(** What may follow a printed value: no digit and no point. *)
Definition ends (rest : string) : Prop :=
  match rest with String c _ => char_digit c = None /\ c <> "."%char | EmptyString => True end.

Lemma N_to_string_head n :
  exists c t, N_to_string n = String c t /\ is_Some (char_digit c).
Proof.
  unfold N_to_string. pose proof (radix_aux_length 10 (N.size_nat n) n []) as Hl.
  pose proof (radix_digits 10 n ltac:(lia)) as Hd. unfold radix in *.
  destruct (radix_aux 10 _ _ []) as [|d ds]; cbn in Hl; [lia|].
  inversion_clear Hd. cbn [string_of_digits]. do 2 eexists. split; [done|].
  rewrite char_digit_char by done. done.
Qed.

Lemma split_sign_N n rest : split_sign (N_to_string n +:+ rest) = (false, N_to_string n +:+ rest).
Proof.
  destruct (N_to_string_head n) as (c & t & -> & [d Hd]). rewrite string_app_cons.
  destruct c as [[] [] [] [] [] [] [] []]; cbn in Hd; done.
Qed.

Lemma radix_nonempty n : Nat.eqb (length (radix 10 n)) 0 = false.
Proof.
  apply Nat.eqb_neq. pose proof (radix_aux_length 10 (N.size_nat n) n []) as Hl. cbn in Hl.
  unfold radix. lia.
Qed.

Lemma ends_digit rest :
  ends rest -> match rest with String c _ => char_digit c = None | EmptyString => True end.
Proof. by destruct rest as [|c rest]; [|intros []]. Qed.

Lemma ends_point {A} rest (f : string -> A) (x : A) :
  ends rest -> match rest with String "." t => f t | _ => x end = x.
Proof.
  destruct rest as [|c rest]; [done|]. intros [_ Hc].
  by destruct c as [[] [] [] [] [] [] [] []].
Qed.

Lemma parse_num_print z rest : ends rest -> parse_num (Z_to_string z +:+ rest) = Some (JNum z, rest).
Proof.
  intros Hr. unfold Z_to_string. destruct (Z.ltb_spec z 0).
  - rewrite string_app_cons. unfold parse_num. cbn [split_sign].
    rewrite take_digits_N by (by apply ends_digit).
    rewrite radix_nonempty, ends_point by done.
    do 3 f_equal. lia.
  - unfold parse_num.
    rewrite split_sign_N, take_digits_N by (by apply ends_digit).
    rewrite radix_nonempty, ends_point by done.
    do 3 f_equal. lia.
Qed.

Lemma take_fraction_print ds rest : ends rest -> take_fraction (print_digits ds rest) = (ds, rest).
Proof.
  intros Hr. induction ds as [|d ds IH]; cbn [print_digits].
  - destruct rest as [|c rest]; [done|]. cbn [take_fraction]. unfold ascii_digit.
    by rewrite (proj1 Hr).
  - cbn [take_fraction]. rewrite IH. by destruct d.
Qed.

Lemma parse_num_dec neg ip d ds rest :
  ends rest -> parse_num (print (JDec neg ip d ds) rest) = Some (JDec neg ip d ds, rest).
Proof.
  intros Hr. unfold parse_num.
  assert (split_sign (print (JDec neg ip d ds) rest) =
    (neg, N_to_string ip +:+ String "." (print_digits (d :: ds) rest))) as ->.
  { destruct neg; [done|]. apply split_sign_N. }
  rewrite take_digits_N by done. rewrite radix_nonempty.
  by rewrite take_fraction_print.
Qed.

Lemma Z_to_string_head z :
  exists c t, Z_to_string z = String c t /\ (c = "-"%char \/ is_Some (char_digit c)).
Proof.
  unfold Z_to_string. destruct (Z.ltb z 0); [by eauto|].
  unfold N_to_string. pose proof (radix_aux_length 10 (N.size_nat (Z.abs_N z)) (Z.abs_N z) []) as Hl.
  pose proof (radix_digits 10 (Z.abs_N z) ltac:(lia)) as Hd. unfold radix in *.
  destruct (radix_aux 10 _ _ []) as [|d ds]; cbn in Hl; [lia|].
  inversion_clear Hd. cbn [string_of_digits]. do 2 eexists. split; [done|]. right.
  rewrite char_digit_char by done. done.
Qed.

(** A printed number starts with a character that selects the number branch. *)
Lemma num_head c :
  c = "-"%char \/ is_Some (char_digit c) ->
  is_space c = false /\ c <> "]"%char /\ c <> "}"%char /\ Ascii.eqb c "n" = false /\
  Ascii.eqb c "t" = false /\ Ascii.eqb c "f" = false /\ Ascii.eqb c quote_char = false /\
  Ascii.eqb c "[" = false /\ Ascii.eqb c "{" = false.
Proof.
  intros [->|[d Hd]]; [by repeat split|].
  destruct c as [[] [] [] [] [] [] [] []]; cbn in Hd; try discriminate; by repeat split.
Qed.

Lemma print_head j rest :
  exists c t, print j rest = String c t /\ is_space c = false /\ c <> "]"%char /\ c <> "}"%char.
Proof.
  destruct j as [|[]|z|[] ip d ds|s|[|x l]|[|[k x] fs]];
    try (do 2 eexists; split; [reflexivity|]; repeat split; discriminate).
  2: { destruct (N_to_string_head ip) as (c & t & Hz & Hc). cbn [print]. rewrite string_app_nil_l, Hz, string_app_cons.
       destruct (num_head c (or_intror Hc)) as (? & ? & ? & _). do 2 eexists. repeat split; done. }
  destruct (Z_to_string_head z) as (c & t & Hz & Hc). cbn [print]. rewrite Hz, string_app_cons.
  apply num_head in Hc as (? & ? & ? & _). do 2 eexists. repeat split; done.
Qed.

Lemma skip_ws_head c t : is_space c = false -> skip_ws (String c t) = String c t.
Proof. intros H. cbn [skip_ws]. by rewrite H. Qed.

Lemma skip_ws_print j rest : skip_ws (print j rest) = print j rest.
Proof. destruct (print_head j rest) as (c & t & -> & Hc & _). by apply skip_ws_head. Qed.

Lemma ends_elems l rest : ends (print_elems l rest).
Proof. by destruct l. Qed.

Lemma ends_members fs rest : ends (print_members fs rest).
Proof. by destruct fs as [|[]]. Qed.

Lemma parse_value_arr fuel x l rest :
  parse_value (S fuel) (print (JArr (x :: l)) rest) =
  match parse_value fuel (print x (print_elems l rest)) with
  | Some (x, r) =>
      match parse_elems fuel r with Some (l, r) => Some (JArr (x :: l), r) | None => None end
  | None => None
  end.
Proof.
  rewrite print_arr. cbn [parse_value].
  change (skip_ws (String "[" ?t)) with (String "[" t). cbv beta iota.
  rewrite skip_ws_print.
  destruct (print_head x (print_elems l rest)) as (c & t & -> & _ & Hc & _).
  destruct c as [[] [] [] [] [] [] [] []]; first [reflexivity | by contradict Hc].
Qed.

Lemma parse_value_obj fuel k x fs rest :
  parse_value (S fuel) (print (JObj ((k, x) :: fs)) rest) =
  match parse_member fuel (quoted k (String ":" (print x (print_members fs rest)))) with
  | Some (kv, r) =>
      match parse_members fuel r with Some (l, r) => Some (JObj (kv :: l), r) | None => None end
  | None => None
  end.
Proof. rewrite print_obj. reflexivity. Qed.

Lemma parse_member_quoted fuel k x fs rest :
  parse_member (S fuel) (quoted k (String ":" (print x (print_members fs rest)))) =
  match parse_value fuel (print x (print_members fs rest)) with
  | Some (x, r) => Some ((k, x), r)
  | None => None
  end.
Proof.
  unfold quoted. cbn [parse_member].
  change (skip_ws (String quote_char ?t)) with (String quote_char t).
  cbn -[parse_chars escape parse_value]. rewrite parse_chars_escape. reflexivity.
Qed.

Lemma parse_value_print j fuel rest :
  size j <= fuel -> ends rest -> parse_value fuel (print j rest) = Some (j, rest).
Proof.
  revert fuel rest. induction j as [|b|z|neg ip d ds|s|l IH|fs IH] using json_nested_ind;
    intros fuel rest Hf Hr; (destruct fuel as [|fuel]; [cbn in Hf; lia|]).
  - reflexivity.
  - by destruct b.
  - destruct (Z_to_string_head z) as (c & t & Hz & Hc).
    pose proof (parse_num_print z rest Hr) as Hp. cbn [print parse_value].
    rewrite Hz, string_app_cons in *.
    apply num_head in Hc as (Hs & _ & _ & H1 & H2 & H3 & H4 & H5 & H6).
    rewrite skip_ws_head by done. rewrite H1, H2, H3, H4, H5, H6, Hp. done.
  - pose proof (parse_num_dec neg ip d ds rest Hr) as Hp.
    assert (exists c t, print (JDec neg ip d ds) rest = String c t /\
      (c = "-"%char \/ is_Some (char_digit c))) as (c & t & Hz & Hc).
    { destruct neg; [do 2 eexists; split; [reflexivity|by left]|].
      destruct (N_to_string_head ip) as (c & t & Hz & Hc). cbn [print].
      rewrite string_app_nil_l, Hz, string_app_cons. do 2 eexists. split; [done|by right]. }
    rewrite Hz in *. cbn [parse_value].
    apply num_head in Hc as (Hs & _ & _ & H1 & H2 & H3 & H4 & H5 & H6).
    rewrite skip_ws_head by done. rewrite H1, H2, H3, H4, H5, H6, Hp. done.
  - cbn [print parse_value]. unfold quoted.
    change (skip_ws (String quote_char ?t)) with (String quote_char t).
    cbn -[parse_chars escape]. by rewrite parse_chars_escape.
  - destruct l as [|x l]; [done|]. rewrite parse_value_arr.
    inversion_clear IH as [|? ? Hx Hl]. cbn in Hf.
    rewrite Hx by (try apply ends_elems; lia).
    enough (parse_elems fuel (print_elems l rest) = Some (l, rest)) as -> by done.
    assert (size (JArr l) <= fuel) as Hf' by (cbn; lia).
    clear Hf Hx x. revert fuel Hf'. induction Hl as [|y l Hy Hl IHl]; intros fuel Hf.
    + destruct fuel; [cbn in Hf; lia|done].
    + destruct fuel as [|fuel]; cbn in Hf; [lia|]. cbn [print_elems parse_elems].
      change (skip_ws (String "," ?t)) with (String "," t). cbn -[parse_value parse_elems].
      rewrite Hy by (try apply ends_elems; lia). by rewrite IHl by (cbn; lia).
  - destruct fs as [|[k x] fs]; [done|]. rewrite parse_value_obj.
    inversion_clear IH as [|? ? Hx Hl]. cbn in Hf, Hx.
    destruct fuel as [|fuel]; [lia|]. rewrite parse_member_quoted.
    rewrite Hx by (try apply ends_members; lia).
    enough (parse_members (S fuel) (print_members fs rest) = Some (fs, rest)) as -> by done.
    assert (size (JObj fs) <= S fuel) as Hf' by (cbn; lia).
    clear Hf Hx x k. revert Hf'. generalize (S fuel) as n. clear fuel.
    induction Hl as [|[k y] l Hy Hl IHl]; intros fuel Hf.
    + destruct fuel; [cbn in Hf; lia|done].
    + destruct fuel as [|fuel]; cbn in Hf, Hy; [lia|]. cbn [print_members parse_members].
      change (skip_ws (String "," ?t)) with (String "," t). cbn -[parse_member parse_members quoted].
      destruct fuel as [|fuel]; [lia|]. rewrite parse_member_quoted.
      rewrite Hy by (try apply ends_members; lia). by rewrite IHl by (cbn; lia).
Qed.

Lemma escape_length s rest : String.length s + String.length rest <= String.length (escape s rest).
Proof.
  induction s as [|c s IH]; cbn [escape String.length]; [lia|].
  assert (forall t, S (String.length t) <= String.length (escape_char c t)) as Hc.
  { intros t. unfold escape_char. split_matches; cbn; lia. }
  specialize (Hc (escape s rest)). lia.
Qed.

Lemma quoted_length s rest : S (S (String.length rest)) <= String.length (quoted s rest).
Proof. unfold quoted. cbn. pose proof (escape_length s (String quote_char rest)) as H. cbn in H. lia. Qed.

Lemma print_length j rest : size j + String.length rest <= String.length (print j rest).
Proof.
  revert rest. induction j as [|b|z|neg ip d ds|s|l IH|fs IH] using json_nested_ind; intros rest.
  - cbn [print]. rewrite string_length_app. cbn. lia.
  - destruct b; cbn [print]; rewrite string_length_app; cbn; lia.
  - destruct (Z_to_string_head z) as (c & t & Hz & _). cbn [print size]. rewrite Hz, string_app_cons.
    cbn. rewrite string_length_app. lia.
  - cbn [print size]. rewrite !string_length_app. cbn [String.length].
    assert (String.length rest <= String.length (print_digits (d :: ds) rest)) as Hd.
    { generalize (d :: ds) as l. intros l. induction l as [|x l IH]; cbn; lia. }
    lia.
  - cbn [print size]. pose proof (quoted_length s rest). lia.
  - destruct l as [|x l]; [cbn; lia|]. rewrite print_arr. inversion_clear IH as [|? ? Hx Hl].
    assert (size (JArr l) + String.length rest <= String.length (print_elems l rest)) as He.
    { clear Hx. induction Hl as [|y l Hy Hl IHl]; cbn; [lia|]. specialize (Hy (print_elems l rest)).
      cbn in IHl. lia. }
    specialize (Hx (print_elems l rest)). cbn in He |- *. lia.
  - destruct fs as [|[k x] fs]; [cbn; lia|]. rewrite print_obj. inversion_clear IH as [|? ? Hx Hl].
    cbn [snd] in Hx.
    assert (size (JObj fs) + String.length rest
      <= String.length (print_members fs rest)) as He.
    { clear Hx. induction Hl as [|[k' y] l Hy Hl IHl]; cbn; [lia|]. cbn in Hy.
      specialize (Hy (print_members l rest)).
      pose proof (quoted_length k' (String ":" (print y (print_members l rest)))) as Hq.
      cbn in Hq, IHl. lia. }
    specialize (Hx (print_members fs rest)).
    pose proof (quoted_length k (String ":" (print x (print_members fs rest)))) as Hq.
    cbn in Hq, He |- *. lia.
Qed.

(** [JSON.parse] reads back what [JSON.stringify] printed. *)
Lemma parse_print j : parse (stringify j) = Some j.
Proof.
  unfold parse, stringify. rewrite parse_value_print; [done | | done].
  pose proof (print_length j EmptyString) as H. cbn in H. lia.
Qed.


#[export] Hint Rewrite parse_print : strings.

(** The JSON text of a number that is printed without an exponent. *)
Definition num_json (x : number) : json :=
  match parse (num_to_string x) with Some j => j | None => JNull end.

Example num_json_price : stringify (num_json (parseFloat "149.90")) = "149.9"%string.
Proof. reflexivity. Qed.
