(* ===== verification/Redis.v ===== *)
(** * The Redis client

    The operations of the [ioredis] client the services await, with the
    behaviour the Redis documentation states for them.  The keyspace is a map
    from keys to typed values with an optional time to live in seconds; a
    command on a key of another type must fail.  Key expiry is not an effect of
    a command: it is a separate step of the environment ([expire]).  Nothing
    under src/ defines these operations, so they are the operations of a
    handler parameter, and [redis_behaviour] is a hypothesis of the theorems. *)

From S2P Require Import Prelude Effects.

Inductive rval :=
| RStr (v : string)
| RHash (h : gmap string string).

Record entry := Entry { content : rval; ttl : option Z }.

Abbreviation RedisView := (gmap string entry).

(** Commands queued on a pipeline. *)
Inductive rcmd :=
| PDel (key : string)
| PHSet (key f v : string).

Inductive RedisE : Type -> Type :=
| RSetNxEx (key v : string) (secs : Z) : RedisE bool   (* SET key v EX secs NX, [true] for 'OK' *)
| RSetEx (key v : string) (secs : Z) : RedisE unit     (* SET key v EX secs *)
| RGet (key : string) : RedisE (option string)
| RDel (key : string) : RedisE unit
| RExpire (key : string) (secs : Z) : RedisE unit
| RHSet (key f v : string) : RedisE unit
| RHGet (key f : string) : RedisE (option string)
| RHGetAll (key : string) : RedisE (list (string * string))
| RPipeline (cmds : list rcmd) : RedisE unit.

Definition hset (key f v : string) (m : RedisView) : RedisView :=
  match m !! key with
  | None => <[key := Entry (RHash {[f := v]}) None]> m
  | Some (Entry (RHash h) t) => <[key := Entry (RHash (<[f := v]> h)) t]> m
  | Some (Entry (RStr _) _) => m
  end.

(** A pipelined command; a type error is a reply in the result array, which
    the services do not look at. *)
Definition apply_cmd (m : RedisView) (c : rcmd) : RedisView :=
  match c with
  | PDel key => delete key m
  | PHSet key f v => hset key f v m
  end.

(** The hash stored at [key]; a missing key reads as the empty hash. *)
Definition hash_at (m : RedisView) (key : string) : gmap string string :=
  match m !! key with Some (Entry (RHash h) _) => h | _ => ∅ end.

Definition string_at (m : RedisView) (key : string) : option string :=
  match m !! key with Some (Entry (RStr v) _) => Some v | _ => None end.

Definition is_hash (m : RedisView) (key : string) : bool :=
  match m !! key with Some (Entry (RHash _) _) => true | _ => false end.

Definition is_str (m : RedisView) (key : string) : bool :=
  match m !! key with Some (Entry (RStr _) _) => true | _ => false end.

Definition redis_ok {X} (op : RedisE X) (m : RedisView) : X -> RedisView -> Prop :=
  match op with
  | RSetNxEx key v secs => fun b m' =>
      match m !! key with
      | None => b = true /\ m' = <[key := Entry (RStr v) (Some secs)]> m
      | Some _ => b = false /\ m' = m
      end
  | RSetEx key v secs => fun _ m' => m' = <[key := Entry (RStr v) (Some secs)]> m
  | RGet key => fun x m' => m' = m /\ x = string_at m key
  | RDel key => fun _ m' => m' = delete key m
  | RExpire key secs => fun _ m' =>
      m' = alter (fun e => Entry (content e) (Some secs)) key m
  | RHSet key f v => fun _ m' => m' = hset key f v m
  | RHGet key f => fun x m' => m' = m /\ x = hash_at m key !! f
  | RHGetAll key => fun x m' => m' = m /\ x ≡ₚ map_to_list (hash_at m key)
  | RPipeline cmds => fun _ m' => m' = foldl apply_cmd m cmds
  end.

(** WRONGTYPE: the command is not for a value of the key's type. *)
Definition redis_rejects {X} (op : RedisE X) (m : RedisView) : Prop :=
  match op with
  | RGet key => is_hash m key = true
  | RHSet key _ _ | RHGet key _ | RHGetAll key => is_str m key = true
  | _ => False
  end.

(** A key's time to live runs out. *)
Definition expire (key : string) (m : RedisView) : RedisView := delete key m.

(** A deterministic Redis, used to show that the behaviour can be met. *)
Definition redis_run {X} (op : RedisE X) (m : RedisView) : result X * RedisView :=
  let wrongtype := JsError "WRONGTYPE Operation against a key holding the wrong kind of value" in
  match op with
  | RSetNxEx key v secs =>
      match m !! key with
      | None => (Ok true, <[key := Entry (RStr v) (Some secs)]> m)
      | Some _ => (Ok false, m)
      end
  | RSetEx key v secs => (Ok tt, <[key := Entry (RStr v) (Some secs)]> m)
  | RGet key => if is_hash m key then (Err wrongtype, m) else (Ok (string_at m key), m)
  | RDel key => (Ok tt, delete key m)
  | RExpire key secs => (Ok tt, alter (fun e => Entry (content e) (Some secs)) key m)
  | RHSet key f v => if is_str m key then (Err wrongtype, m) else (Ok tt, hset key f v m)
  | RHGet key f => if is_str m key then (Err wrongtype, m) else (Ok (hash_at m key !! f), m)
  | RHGetAll key => if is_str m key then (Err wrongtype, m) else (Ok (map_to_list (hash_at m key)), m)
  | RPipeline cmds => (Ok tt, foldl apply_cmd m cmds)
  end.

Lemma redis_run_ok {X} (op : RedisE X) m :
  match redis_run op m with
  | (Ok x, m') => redis_ok op m x m'
  | (Err _, m') => m' = m /\ redis_rejects op m
  end.
Proof. destruct op; cbn; split_matches; auto. Qed.

(** ** Lemmas *)

Lemma hset_hash_at key f v m :
  is_str m key = false -> hash_at (hset key f v m) key = <[f := v]> (hash_at m key).
Proof.
  unfold is_str, hash_at, hset. intros H.
  destruct (m !! key) as [[[s|h] t]|] eqn:Hk; cbn in *; try done; by rewrite lookup_insert_eq.
Qed.

Lemma hset_other key key' f v m : key <> key' -> hset key f v m !! key' = m !! key'.
Proof.
  unfold hset. intros H. destruct (m !! key) as [[[s|h] t]|]; [done | |];
    by rewrite lookup_insert_ne.
Qed.

Lemma hset_is_str key key' f v m : is_str (hset key f v m) key' = is_str m key'.
Proof.
  destruct (decide (key = key')) as [->|Hne].
  - unfold is_str, hset. destruct (m !! key') as [[[s|h] t]|] eqn:Hk.
    + by rewrite Hk.
    + by rewrite lookup_insert_eq.
    + by rewrite lookup_insert_eq.
  - unfold is_str. by rewrite hset_other.
Qed.

(** Setting many fields of one hash in a pipeline. *)
Definition hset_all (key : string) (kvs : list (string * string)) : list rcmd :=
  map (fun kv => PHSet key kv.1 kv.2) kvs.

Definition set_fields (kvs : list (string * string)) (h : gmap string string) : gmap string string :=
  foldl (fun h kv => <[kv.1 := kv.2]> h) h kvs.

Lemma pipeline_hset_all key kvs m :
  is_str m key = false ->
  hash_at (foldl apply_cmd m (hset_all key kvs)) key = set_fields kvs (hash_at m key) /\
  (forall key', key' <> key -> foldl apply_cmd m (hset_all key kvs) !! key' = m !! key') /\
  is_str (foldl apply_cmd m (hset_all key kvs)) key = false.
Proof.
  revert m. induction kvs as [|[f v] kvs IH]; intros m Hm; [done|].
  cbn [hset_all map foldl apply_cmd fst snd].
  destruct (IH (hset key f v m)) as (H1 & H2 & H3); [by rewrite hset_is_str|].
  split; [|split].
  - rewrite hset_hash_at in H1 by done. exact H1.
  - intros key' Hne. rewrite <- (hset_other key key' f v m) by done. by apply H2.
  - apply H3.
Qed.

Lemma set_fields_lookup_notin kvs h f :
  f ∉ kvs.*1 -> set_fields kvs h !! f = h !! f.
Proof.
  revert h. induction kvs as [|[g v] kvs IH]; intros h Hf; [done|].
  cbn in Hf. apply not_elem_of_cons in Hf as [Hne Hf]. cbn [set_fields foldl fst snd].
  unfold set_fields in IH. rewrite IH by done. by rewrite lookup_insert_ne.
Qed.

(** Setting every field of [fs] to the same value. *)
Lemma set_fields_const fs v h f :
  set_fields (map (fun g => (g, v)) fs) h !! f = if decide (f ∈ fs) then Some v else h !! f.
Proof.
  revert h. induction fs as [|g fs IH]; intros h.
  - cbn. by rewrite decide_False by apply not_elem_of_nil.
  - cbn [map set_fields foldl fst snd]. unfold set_fields in IH. rewrite IH.
    destruct (decide (f ∈ fs)) as [Hin|Hin].
    + rewrite decide_True by (by right). done.
    + destruct (decide (f = g)) as [->|Hne].
      * rewrite lookup_insert_eq, decide_True by left. done.
      * rewrite lookup_insert_ne by done. rewrite decide_False; [done|].
        intros [?|?]%elem_of_cons; done.
Qed.
