(* ===== verification/Sql.v ===== *)
(** * Tables

    PostgreSQL tables as the TypeORM repositories expose them: maps from the
    generated primary key to rows.  [selects] is what a [find] with a [where]
    clause may return (the matching rows, in any order), [upsert] what [save]
    of loaded entities does, [fresh_rows] what inserting entities that have no
    primary key yet guarantees. *)

From Stdlib Require Export SpecFloat Sorting.Sorted.
From S2P Require Import Prelude JsNumber.

Section Tables.
Context {R : Type}.
Variable rid : R -> string.

(** Rows are stored under their own primary key. *)
Definition keyed (t : gmap string R) : Prop := forall i r, t !! i = Some r -> rid r = i.

Definition rows (t : gmap string R) : list R := (map_to_list t).*2.

(** [repo.find({ where: p })], in no particular order. *)
Definition selects (p : R -> bool) (t : gmap string R) (l : list R) : Prop :=
  l ≡ₚ List.filter p (rows t).

(** [repo.findOne({ where: p })]: some matching row, if there is one. *)
Definition selects_one (p : R -> bool) (t : gmap string R) (o : option R) : Prop :=
  match o with
  | Some r => r ∈ rows t /\ p r = true
  | None => forall r, r ∈ rows t -> p r = false
  end.

(** [repo.save(entities)] for entities that carry their primary key. *)
Definition upsert (l : list R) (t : gmap string R) : gmap string R :=
  foldl (fun t r => <[rid r := r]> t) t l.

(** Rows just inserted: their primary keys are new and distinct. *)
Definition fresh_rows (l : list R) (t : gmap string R) : Prop :=
  NoDup (map rid l) /\ forall r, r ∈ l -> t !! rid r = None.

(** [repo.update(p, partial)]: the matching rows get the partial's columns. *)
Definition update_where (p : R -> bool) (g : R -> R) (t : gmap string R) : gmap string R :=
  (fun r => if p r then g r else r) <$> t.

(** ** Reading *)

Lemma elem_of_rows t r : keyed t -> r ∈ rows t <-> t !! rid r = Some r.
Proof.
  intros Hk. unfold rows. rewrite list_elem_of_fmap. split.
  - intros ([i r'] & -> & Hin%elem_of_map_to_list). cbn. by rewrite (Hk _ _ Hin).
  - intros Ht. exists (rid r, r). split; [done|]. by apply elem_of_map_to_list.
Qed.

Lemma rows_lookup t i r : t !! i = Some r -> r ∈ rows t.
Proof.
  intros Hi. unfold rows. apply list_elem_of_fmap. exists (i, r). split; [done|].
  by apply elem_of_map_to_list.
Qed.

Lemma elem_of_rows_lookup t r : r ∈ rows t <-> exists i, t !! i = Some r.
Proof.
  split; [|intros [i Hi]; by eapply rows_lookup]. unfold rows.
  intros ([i r'] & -> & Hin%elem_of_map_to_list)%list_elem_of_fmap. by exists i.
Qed.

(** A property of every row, by computation. *)
Lemma rows_forallb (p : R -> bool) t i r : forallb p (rows t) = true -> t !! i = Some r -> p r = true.
Proof. rewrite forallb_forall. intros H Hi. apply H, list_elem_of_In. by eapply rows_lookup. Qed.

Lemma selects_elem p t l r :
  keyed t -> selects p t l -> r ∈ l <-> t !! rid r = Some r /\ p r = true.
Proof. intros Hk Hs. unfold selects in Hs. rewrite Hs, elem_of_filterb, elem_of_rows by done. done. Qed.

Lemma rows_nodup t : keyed t -> NoDup (map rid (rows t)).
Proof.
  intros Hk. replace (map rid (rows t)) with ((map_to_list t).*1).
  { apply NoDup_fst_map_to_list. }
  unfold rows. rewrite <- list_fmap_compose.
  apply list_fmap_ext. intros n [i r] Hn. cbn.
  apply list_elem_of_lookup_2, elem_of_map_to_list in Hn. by rewrite (Hk _ _ Hn).
Qed.

Lemma map_filter_nodup {A B} (f : A -> B) (p : A -> bool) l :
  NoDup (map f l) -> NoDup (map f (List.filter p l)).
Proof.
  induction l as [|x l IH]; cbn; [done|]. intros [Hx Hl]%NoDup_cons.
  destruct (p x); cbn; auto. constructor; auto.
  intros (y & Hy & Hin)%list_elem_of_fmap. apply Hx. apply list_elem_of_fmap.
  exists y. split; [done|]. by apply elem_of_filterb in Hin as [? _].
Qed.

Lemma selects_nodup p t l : keyed t -> selects p t l -> NoDup (map rid l).
Proof.
  intros Hk Hs. unfold selects in Hs. rewrite Hs. by apply map_filter_nodup, rows_nodup.
Qed.

Lemma selects_nil p t : selects p t [] <-> (forall r, r ∈ rows t -> p r = false).
Proof.
  unfold selects. rewrite <- filterb_nil. split.
  - intros H. by apply Permutation_nil.
  - by intros ->.
Qed.

(** ** Writing *)

Lemma upsert_notin l t i : i ∉ map rid l -> upsert l t !! i = t !! i.
Proof.
  revert t. induction l as [|r l IH]; intros t Hi; [done|].
  cbn in Hi. apply not_elem_of_cons in Hi as [Hne Hi].
  cbn [upsert foldl]. unfold upsert in IH. rewrite IH by done. by rewrite lookup_insert_ne.
Qed.

Lemma upsert_in l t r : NoDup (map rid l) -> r ∈ l -> upsert l t !! rid r = Some r.
Proof.
  revert t. induction l as [|x l IH]; intros t Hnd Hr; [by apply elem_of_nil in Hr|].
  cbn in Hnd. apply NoDup_cons in Hnd as [Hx Hnd].
  apply elem_of_cons in Hr as [->|Hr].
  - cbn [upsert foldl]. fold (upsert l (<[rid x := x]> t)). rewrite upsert_notin by done.
    by rewrite lookup_insert_eq.
  - cbn [upsert foldl]. unfold upsert in IH. by apply IH.
Qed.

Lemma keyed_empty : keyed ∅.
Proof. intros i r. by rewrite lookup_empty. Qed.

Lemma upsert_keyed l t : keyed t -> keyed (upsert l t).
Proof.
  revert t. induction l as [|r l IH]; intros t Hk; [done|]. apply (IH (<[rid r := r]> t)).
  intros i r'. destruct (decide (rid r = i)) as [<-|Hne].
  - rewrite lookup_insert_eq. by intros [= <-].
  - rewrite lookup_insert_ne by done. apply Hk.
Qed.

Lemma keyed_insert r t : keyed t -> keyed (<[rid r := r]> t).
Proof. apply (upsert_keyed [r]). Qed.

Lemma update_where_keyed p g t :
  (forall r, rid (g r) = rid r) -> keyed t -> keyed (update_where p g t).
Proof.
  intros Hg Hk i r. unfold update_where. rewrite lookup_fmap.
  destruct (t !! i) as [r'|] eqn:Hi; cbn; [|done]. intros [= <-]. apply Hk in Hi.
  destruct (p r'); by rewrite ?Hg.
Qed.

(** Loading the rows a clause selects, changing each and saving them is the
    same as an update of the rows the clause selects. *)
Lemma save_selected p g t l :
  keyed t -> selects p t l -> (forall r, rid (g r) = rid r) ->
  upsert (map g l) t = update_where p g t.
Proof.
  intros Hk Hs Hg. apply map_eq. intros i. unfold update_where. rewrite lookup_fmap.
  assert (NoDup (map rid (map g l))) as Hnd.
  { rewrite map_map. erewrite map_ext; [by eapply selects_nodup|]. auto. }
  destruct (t !! i) as [r|] eqn:Hi; cbn.
  - pose proof (Hk _ _ Hi) as Hrid. destruct (p r) eqn:Hp.
    + assert (r ∈ l) as Hin by (eapply selects_elem; rewrite ?Hrid; eauto).
      rewrite <- Hrid, <- Hg. apply upsert_in; [done|]. apply list_elem_of_fmap. eauto.
    + rewrite upsert_notin; [done|]. rewrite map_map.
      intros (r' & Hr' & Hin)%list_elem_of_fmap. rewrite Hg in Hr'.
      eapply selects_elem in Hin as [Hin Hp']; eauto.
      rewrite <- Hr', Hi in Hin. simplify_eq. congruence.
  - rewrite upsert_notin; [done|]. rewrite map_map.
    intros (r' & Hr' & Hin)%list_elem_of_fmap. rewrite Hg in Hr'.
    eapply selects_elem in Hin as [Hin _]; eauto. congruence.
Qed.

(** Saving the selected rows with only those that meet [q] changed. *)
Lemma save_selected_some p (q : R -> bool) g t l :
  keyed t -> selects p t l -> (forall r, rid (g r) = rid r) ->
  upsert (map (fun r => if q r then g r else r) l) t =
  update_where (fun r => (p r && q r)%bool) g t.
Proof.
  intros Hk Hs Hg. rewrite (save_selected p (fun r => if q r then g r else r)); [|done..|].
  - apply map_eq. intros i. unfold update_where. rewrite !lookup_fmap.
    destruct (t !! i) as [r|]; cbn; [|done]. by destruct (p r), (q r).
  - intros r. by destruct (q r).
Qed.

Lemma update_where_lookup p g t i :
  update_where p g t !! i = (fun r => if p r then g r else r) <$> t !! i.
Proof. apply lookup_fmap. Qed.

Lemma update_where_ext p p' g t :
  (forall i r, t !! i = Some r -> p r = p' r) -> update_where p g t = update_where p' g t.
Proof.
  intros H. apply map_eq. intros i. rewrite !update_where_lookup.
  destruct (t !! i) as [r|] eqn:Hi; cbn; [|done]. by rewrite (H _ _ Hi).
Qed.

Lemma update_where_none p g t :
  (forall i r, t !! i = Some r -> p r = false) -> update_where p g t = t.
Proof.
  intros H. apply map_eq. intros i. rewrite update_where_lookup.
  destruct (t !! i) as [r|] eqn:Hi; cbn; [|done]. by rewrite (H _ _ Hi).
Qed.

(** Updating twice with the same clause and an idempotent change. *)
Lemma update_where_twice p g t :
  (forall r, p r = true -> p (g r) = true) -> (forall r, g (g r) = g r) ->
  update_where p g (update_where p g t) = update_where p g t.
Proof.
  intros Hp Hg. apply map_eq. intros i. rewrite !update_where_lookup.
  destruct (t !! i) as [r|]; cbn; [|done].
  destruct (p r) eqn:Hpr; [|by rewrite Hpr]. by rewrite (Hp r Hpr), Hg.
Qed.

Lemma elem_of_rows_update p g t r' :
  r' ∈ rows (update_where p g t) <->
  exists r, r ∈ rows t /\ r' = if p r then g r else r.
Proof.
  unfold rows. setoid_rewrite list_elem_of_fmap. split.
  - intros ([i r0] & -> & Hin%elem_of_map_to_list). rewrite update_where_lookup in Hin.
    destruct (t !! i) as [r|] eqn:Hi; [|done]. cbn in Hin. simplify_eq. exists r. split; [|done].
    exists (i, r). split; [done|]. by apply elem_of_map_to_list.
  - intros (r & ([i r0] & -> & Hin%elem_of_map_to_list) & ->). cbn.
    eexists (i, _). split; [done|]. apply elem_of_map_to_list. rewrite update_where_lookup, Hin. done.
Qed.

(** Freshly inserted rows are found under their keys, and nothing else moves. *)
Lemma upsert_fresh_old l t i r :
  fresh_rows l t -> t !! i = Some r -> upsert l t !! i = Some r.
Proof.
  intros [_ Hf] Hi. rewrite upsert_notin; [done|].
  intros (r' & -> & Hin)%list_elem_of_fmap. apply Hf in Hin. congruence.
Qed.

Lemma upsert_fresh_inv l t i r :
  fresh_rows l t -> upsert l t !! i = Some r -> t !! i = Some r \/ (r ∈ l /\ rid r = i).
Proof.
  intros [Hnd Hf] Hi. destruct (decide (i ∈ map rid l)) as [Hin|Hin].
  - right. apply list_elem_of_fmap in Hin as (r' & -> & Hin).
    rewrite upsert_in in Hi by done. by simplify_eq.
  - left. by rewrite upsert_notin in Hi.
Qed.

(** A clause nothing met selects, after inserting rows that meet it, those rows. *)
Lemma selects_upsert_fresh p t l l' :
  keyed t -> fresh_rows l t -> selects p t [] -> (forall r, r ∈ l -> p r = true) ->
  selects p (upsert l t) l' -> l' ≡ₚ l.
Proof.
  intros Hk Hf Hn Hp Hs. pose proof (upsert_keyed l t Hk) as Hk'.
  apply NoDup_Permutation.
  - apply (NoDup_fmap_1 rid). by eapply selects_nodup.
  - apply (NoDup_fmap_1 rid), Hf.
  - intros r. rewrite (selects_elem _ _ _ _ Hk' Hs). split.
    + intros [Hr Hpr]. apply upsert_fresh_inv in Hr as [Hr|[Hr _]]; [|done..].
      rewrite selects_nil in Hn. rewrite Hn in Hpr; [done|]. by apply elem_of_rows.
    + intros Hr. split; [|by apply Hp]. apply upsert_in; [apply Hf|done].
Qed.

(** ** A deterministic supply of primary keys *)

Fixpoint repeat_char (n : nat) : string :=
  match n with O => "" | S n => "x" +:+ repeat_char n end.

Definition longest (t : gmap string R) : nat := list_max (map String.length (map_to_list t).*1).

(** Keys longer than those in use. *)
Definition new_ids (t : gmap string R) (n : nat) : list string :=
  map (fun i => repeat_char (longest t + i)) (seq 1 n).

Lemma repeat_char_length n : String.length (repeat_char n) = n.
Proof. induction n as [|n IH]; [done|]. cbn [repeat_char]. rewrite string_length_app, IH. done. Qed.

Lemma new_ids_length t n : length (new_ids t n) = n.
Proof. unfold new_ids. by rewrite length_map, length_seq. Qed.

Lemma new_ids_nodup t n : NoDup (new_ids t n).
Proof.
  unfold new_ids. apply (NoDup_fmap_2_strong _); [|apply NoDup_seq].
  intros i j _ _ H%(f_equal String.length). rewrite !repeat_char_length in H. lia.
Qed.

Lemma new_ids_fresh t n i : i ∈ new_ids t n -> t !! i = None.
Proof.
  intros (k & -> & Hk)%list_elem_of_fmap. apply elem_of_seq in Hk.
  destruct (t !! repeat_char (longest t + k)) as [r|] eqn:Hi; [|done]. exfalso.
  assert (String.length (repeat_char (longest t + k)) <= longest t) as Hle.
  { unfold longest at 2. pose proof (proj1 (List.list_max_le (map String.length (map_to_list t).*1) _) (le_n _)) as Hall.
    rewrite List.Forall_forall in Hall. apply Hall. apply list_elem_of_In.
    apply list_elem_of_fmap. eexists. split; [done|]. apply list_elem_of_fmap.
    eexists (_, r). split; [done|]. by apply elem_of_map_to_list. }
  rewrite repeat_char_length in Hle. lia.
Qed.

Lemma new_ids_fresh_rows t l n :
  map rid l = new_ids t n -> fresh_rows l t.
Proof.
  intros Hl. split.
  - rewrite Hl. apply new_ids_nodup.
  - intros r Hr. apply (new_ids_fresh t n). rewrite <- Hl. apply list_elem_of_fmap. eauto.
Qed.
End Tables.

Arguments new_ids {R} t n.

Arguments rows {R} t.
Arguments selects {R} p t l.
Arguments selects_one {R} p t o.
Arguments update_where {R} p g t.

#[export] Hint Resolve upsert_keyed keyed_insert update_where_keyed : ticketing.

(** ** A deterministic database *)

Lemma find_selects_one {R} (p : R -> bool) (t : gmap string R) : selects_one p t (List.find p (rows t)).
Proof.
  unfold selects_one. destruct (List.find p (rows t)) as [r|] eqn:Hf.
  - by apply find_Some_elem.
  - by apply find_None_elem.
Qed.

Lemma new_id_fresh {R} (t : gmap string R) : t !! List.hd ""%string (new_ids t 1) = None.
Proof. apply (new_ids_fresh t 1). left. Qed.

Lemma zip_make {R D} (mk : string -> D -> R) (rid : R -> string) (created : D -> R -> Prop) ids ds :
  (forall i d, rid (mk i d) = i) -> (forall i d, created d (mk i d)) -> length ids = length ds ->
  Forall2 created ds (zip_with mk ids ds) /\ map rid (zip_with mk ids ds) = ids.
Proof.
  intros Hid Hc. revert ds. induction ids as [|i ids IH]; intros [|d ds]; cbn; try done.
  intros [= Hl]. destruct (IH ds Hl) as [H1 H2]. split; [by constructor|]. by rewrite Hid, H2.
Qed.

(** ** Decimal columns *)

(** The value of a decimal column in an entity: the number the code put there,
    or the text the driver read from the database. *)
Inductive decimal := DNum (n : number) | DText (s : string).

(** [String(x)] and the number [x] is converted to by [x * 100]. *)
Definition decimal_string (d : decimal) : string :=
  match d with DNum n => num_to_string n | DText s => s end.
Definition decimal_number (d : decimal) : number :=
  match d with DNum n => n | DText s => parseFloat s end.

(** *** [decimal(10, 2)] columns

    The driver sends a number as [String(x)]; PostgreSQL rounds the decimal it
    denotes half away from zero to two places, rejects what
    then has more than eight digits before the point, and accepts [NaN]. *)

(** The hundredths of the decimal that [String(x)] denotes. *)
Definition hundredths (x : number) : Z :=
  match x with
  | S754_finite s m e =>
      let '(d, k, n) := shortest_decimal m e in
      let x := (n - k + 2)%Z in
      let h := if Z.leb 0 x then (d * 10 ^ x)%Z else nearest d (10 ^ (- x)) in
      if s then (- h)%Z else h
  | _ => 0%Z
  end.

(** The column stores the number. *)
Definition numeric_fits (x : number) : bool :=
  match x with
  | S754_infinity _ => false
  | _ => Z.ltb (Z.abs (hundredths x)) (10 ^ 10)
  end.

(** The text the column gives back. *)
Definition numeric_text (x : number) : string :=
  match x with
  | S754_nan => "NaN"
  | _ =>
      let h := hundredths x in
      let cents := N_to_string (Z.abs_N h mod 100) in
      (if Z.ltb h 0 then "-" else "") +:+ N_to_string (Z.abs_N h / 100) +:+ "." +:+
        (if N.ltb (Z.abs_N h mod 100) 10 then "0" +:+ cents else cents)
  end.

Example numeric_text_price :
  map (fun s => numeric_text (parseFloat s)) ["149.9"; "0"; "-0.005"; "1234.565"; "1e-7"; "99999999.99"]%string =
  ["149.90"; "0.00"; "-0.01"; "1234.57"; "0.00"; "99999999.99"]%string.
Proof. vm_compute. reflexivity. Qed.

Example numeric_fits_bound :
  map (fun s => numeric_fits (parseFloat s)) ["99999999.99"; "99999999.995"; "-100000000"]%string = [true; false; false].
Proof. vm_compute. reflexivity. Qed.

(** Amounts such a column cannot store. *)
Definition unstorable (x : number) : Prop := numeric_fits x = false.
Definition unstorableb (x : number) : bool := negb (numeric_fits x).

Lemma unstorableb_spec x : unstorableb x = true -> unstorable x.
Proof. apply negb_true_iff. Qed.

(** ** Ordered queries *)

(** [repo.find({ where: p, order: ... })]: the matching rows in order. *)
Definition selects_ordered {R} (p : R -> bool) (before : R -> R -> Prop) (t : gmap string R) (l : list R) : Prop :=
  selects p t l /\ Sorted before l.

(** The same with [take: n]. *)
Definition selects_first {R} (p : R -> bool) (before : R -> R -> Prop) (n : nat) (t : gmap string R) (l : list R) : Prop :=
  exists all, selects_ordered p before t all /\ l = take n all.
