(* ===== verification/SeatWorld.v ===== *)
(** * Seat inventory service: data and outside world

    The entities and enums of apps/seat-inventory-service, the operations its
    methods await (the TypeORM repositories, the query runner of a transaction,
    Redis, the clock), and the documented behaviour of those operations. *)

From S2P Require Import Prelude Effects JsNumber Json Redis Sql.

(** ** Enums and entities *)

Inductive SeatStatus := AVAILABLE | HELD | RESERVED | SOLD.

Definition seat_status_value (s : SeatStatus) : string :=
  match s with
  | AVAILABLE => "available"
  | HELD => "held"
  | RESERVED => "reserved"
  | SOLD => "sold"
  end.

Inductive SeatLockReleaseReason := TIMEOUT | USER_CANCEL | PAYMENT_SUCCESS | ADMIN | PAYMENT_FAILED.

#[export] Instance SeatStatus_eq_dec : EqDecision SeatStatus.
Proof. solve_decision. Defined.

#[export] Instance SeatLockReleaseReason_eq_dec : EqDecision SeatLockReleaseReason.
Proof. solve_decision. Defined.

(** A row of [seat_inventory].  Decimal columns arrive from the driver as
    text; [createdAt] and [updatedAt], which no code reads, are left out. *)
Record SeatInventory := mkSeatInventory {
  si_id : string;
  si_eventId : string;
  si_seatId : string;
  si_sectionId : string;
  si_sectionName : string;
  si_ticketTypeId : string;
  si_ticketTypeName : string;
  si_price : string;
  si_currency : string;
  si_row : string;
  si_seatNumber : string;
  si_seatType : string;
  si_status : SeatStatus;
  si_priceOverride : option string;
  si_version : Z;
}.

(** A row of [seat_holds]; times are in milliseconds. *)
Record SeatHold := mkSeatHold {
  sh_id : string;
  sh_seatInventoryId : string;
  sh_eventId : string;
  sh_seatId : string;
  sh_userId : string;
  sh_sessionId : string;
  sh_heldAt : Z;
  sh_expiresAt : Z;
  sh_releasedAt : option Z;
  sh_releaseReason : option SeatLockReleaseReason;
}.

Definition set_status (st : SeatStatus) (s : SeatInventory) : SeatInventory :=
  mkSeatInventory (si_id s) (si_eventId s) (si_seatId s) (si_sectionId s) (si_sectionName s)
    (si_ticketTypeId s) (si_ticketTypeName s) (si_price s) (si_currency s) (si_row s)
    (si_seatNumber s) (si_seatType s) st (si_priceOverride s) (si_version s).

Definition set_released (at_ : Z) (reason : SeatLockReleaseReason) (h : SeatHold) : SeatHold :=
  mkSeatHold (sh_id h) (sh_seatInventoryId h) (sh_eventId h) (sh_seatId h) (sh_userId h)
    (sh_sessionId h) (sh_heldAt h) (sh_expiresAt h) (Some at_) (Some reason).

(** The argument of [repo.create] for a seat: every column but the generated ones. *)
Record SeatData := mkSeatData {
  sd_eventId : string;
  sd_seatId : string;
  sd_sectionId : string;
  sd_sectionName : string;
  sd_ticketTypeId : string;
  sd_ticketTypeName : string;
  sd_price : number;
  sd_currency : string;
  sd_row : string;
  sd_seatNumber : string;
  sd_seatType : string;
  sd_status : SeatStatus;
}.

(** The argument of [holdRepo.create]. *)
Record HoldData := mkHoldData {
  hd_seatInventoryId : string;
  hd_eventId : string;
  hd_seatId : string;
  hd_userId : string;
  hd_sessionId : string;
  hd_expiresAt : Z;
}.

(** The lock record stored in Redis. *)
Record SeatLockInfoResponse := mkLockInfo {
  li_userId : string;
  li_sessionId : string;
  li_lockedAt : Z;
}.

(** ** Operations *)

Inductive SeatE : Type -> Type :=
| SRedis {X} (op : RedisE X) : SeatE X
| SNow : SeatE Z                                                  (* Date.now(), new Date() *)
| SeatCount (p : SeatInventory -> bool) : SeatE nat               (* repo.count({ where }) *)
| SeatFind (p : SeatInventory -> bool) : SeatE (list SeatInventory)  (* repo.find({ where }) *)
| SeatInsert (ds : list SeatData) : SeatE (list SeatInventory)    (* repo.save(created) *)
| SeatSave (l : list SeatInventory) : SeatE unit                  (* repo.save(loaded) *)
| SeatUpdate (p : SeatInventory -> bool) (st : SeatStatus) : SeatE unit  (* repo.update(p, { status }) *)
| SeatEventIds : SeatE (list string)                              (* SELECT DISTINCT si.eventId *)
| HoldFind (p : SeatHold -> bool) : SeatE (list SeatHold)         (* holdRepo.find({ where }) *)
| QrConnect : SeatE unit                                          (* queryRunner.connect() *)
| QrStart : SeatE unit                                            (* startTransaction() *)
| QrSaveSeats (l : list SeatInventory) : SeatE unit               (* manager.save(inventories) *)
| QrSaveHolds (l : list SeatHold) : SeatE unit                    (* manager.save(SeatHold, loaded) *)
| QrInsertHolds (ds : list HoldData) : SeatE (list SeatHold)      (* manager.save(SeatHold, created) *)
| QrCommit : SeatE unit
| QrRollback : SeatE unit
| QrRelease : SeatE unit.

(** ** The view of the world *)

Record SeatTables := mkTables {
  seats : gmap string SeatInventory;
  holds : gmap string SeatHold;
}.

(** Writes of an open transaction, invisible to other connections. *)
Inductive SeatWrite :=
| WSeats (l : list SeatInventory)
| WHolds (l : list SeatHold).

(** The committed tables, the open transaction and Redis. *)
Record SeatView := mkView {
  tables : SeatTables;
  tx : option (list SeatWrite);
  redis : RedisView;
}.

Definition apply_write (t : SeatTables) (w : SeatWrite) : SeatTables :=
  match w with
  | WSeats l => mkTables (upsert si_id l (seats t)) (holds t)
  | WHolds l => mkTables (seats t) (upsert sh_id l (holds t))
  end.

Definition apply_writes (ws : list SeatWrite) (t : SeatTables) : SeatTables :=
  foldl apply_write t ws.

Definition with_redis (m : RedisView) (v : SeatView) : SeatView := mkView (tables v) (tx v) m.
Definition with_tables (t : SeatTables) (v : SeatView) : SeatView := mkView t (tx v) (redis v).
Definition with_tx (o : option (list SeatWrite)) (v : SeatView) : SeatView :=
  mkView (tables v) o (redis v).

(** A write through the query runner joins the open transaction; without one
    it is applied at once. *)
Definition qr_write (w : SeatWrite) (v : SeatView) : SeatView :=
  match tx v with
  | Some ws => with_tx (Some (ws ++ [w])) v
  | None => with_tables (apply_write (tables v) w) v
  end.

(** The tables as the query runner's connection sees them. *)
Definition qr_tables (v : SeatView) : SeatTables :=
  match tx v with Some ws => apply_writes ws (tables v) | None => tables v end.

(** The unique index on [eventId, seatId]. *)
Definition seat_key (s : SeatInventory) : string * string := (si_eventId s, si_seatId s).

Definition seat_unique (t : gmap string SeatInventory) : Prop :=
  forall i j r r', t !! i = Some r -> t !! j = Some r' -> seat_key r = seat_key r' -> i = j.

(** A created row carries the data; the database fills in the rest. *)
Definition seat_created (d : SeatData) (r : SeatInventory) : Prop :=
  r = mkSeatInventory (si_id r) (sd_eventId d) (sd_seatId d) (sd_sectionId d) (sd_sectionName d)
        (sd_ticketTypeId d) (sd_ticketTypeName d) (numeric_text (sd_price d)) (sd_currency d) (sd_row d)
        (sd_seatNumber d) (sd_seatType d) (sd_status d) None 1.

Definition hold_created (d : HoldData) (r : SeatHold) : Prop :=
  r = mkSeatHold (sh_id r) (hd_seatInventoryId d) (hd_eventId d) (hd_seatId d) (hd_userId d)
        (hd_sessionId d) (sh_heldAt r) (hd_expiresAt d) None None.

Definition data_key (d : SeatData) : string * string := (sd_eventId d, sd_seatId d).

(** Inserting the rows would break the unique index. *)
Definition seat_conflict (ds : list SeatData) (t : gmap string SeatInventory) : Prop :=
  ~ (NoDup (map data_key ds) /\
     forall d i r, d ∈ ds -> t !! i = Some r -> data_key d <> seat_key r).

(** A price does not fit its column. *)
Definition unpriced (ds : list SeatData) : Prop := exists d, d ∈ ds /\ unstorable (sd_price d).

(** ** Documented behaviour

    Of the query runner: [release] does no I/O, and a transaction that could
    not be rolled back (its connection is lost) is abandoned with it. *)

Definition seat_ok {X} (op : SeatE X) (v : SeatView) : X -> SeatView -> Prop :=
  match op with
  | SRedis op => fun x v' => exists m, redis_ok op (redis v) x m /\ v' = with_redis m v
  | SNow => fun _ v' => v' = v
  | SeatCount p => fun n v' => v' = v /\ n = length (List.filter p (rows (seats (tables v))))
  | SeatFind p => fun l v' => v' = v /\ selects p (seats (tables v)) l
  | SeatInsert ds => fun l v' =>
      ~ seat_conflict ds (seats (tables v)) /\ ~ unpriced ds /\
      Forall2 seat_created ds l /\ fresh_rows si_id l (seats (tables v)) /\
      v' = with_tables (mkTables (upsert si_id l (seats (tables v))) (holds (tables v))) v
  | SeatSave l => fun _ v' =>
      v' = with_tables (mkTables (upsert si_id l (seats (tables v))) (holds (tables v))) v
  | SeatUpdate p st => fun _ v' =>
      v' = with_tables (mkTables (update_where p (set_status st) (seats (tables v))) (holds (tables v))) v
  | SeatEventIds => fun l v' =>
      v' = v /\ NoDup l /\ forall e, e ∈ l <-> exists r, r ∈ rows (seats (tables v)) /\ si_eventId r = e
  | HoldFind p => fun l v' => v' = v /\ selects p (holds (tables v)) l
  | QrConnect => fun _ v' => v' = v
  | QrStart => fun _ v' => tx v = None /\ v' = with_tx (Some []) v
  | QrSaveSeats l => fun _ v' => v' = qr_write (WSeats l) v
  | QrSaveHolds l => fun _ v' => v' = qr_write (WHolds l) v
  | QrInsertHolds ds => fun l v' =>
      Forall2 hold_created ds l /\ fresh_rows sh_id l (holds (qr_tables v)) /\
      v' = qr_write (WHolds l) v
  | QrCommit => fun _ v' =>
      exists ws, tx v = Some ws /\ v' = mkView (apply_writes ws (tables v)) None (redis v)
  | QrRollback => fun _ v' => tx v <> None /\ v' = with_tx None v
  | QrRelease => fun _ v' => v' = with_tx None v
  end.

Definition seat_rejects {X} (op : SeatE X) (v : SeatView) : Prop :=
  match op with
  | SRedis op => redis_rejects op (redis v)
  | SeatInsert ds => seat_conflict ds (seats (tables v)) \/ unpriced ds
  | QrStart => tx v <> None                 (* TransactionAlreadyStartedError *)
  | QrCommit | QrRollback => tx v = None    (* TransactionNotStartedError *)
  | _ => False
  end.

Definition seat_fallible {X} (op : SeatE X) : Prop :=
  match op with SNow | QrRelease => False | _ => True end.

Definition seat_behaviour : behaviour SeatE SeatView :=
  {| ok := @seat_ok; rejects := @seat_rejects; fallible := @seat_fallible |}.

(** ** Well-formed views *)

(** [JSON.stringify({ userId, sessionId, lockedAt })] *)
Definition lock_json (i : SeatLockInfoResponse) : json :=
  JObj [("userId", JStr (li_userId i)); ("sessionId", JStr (li_sessionId i));
        ("lockedAt", JNum (li_lockedAt i))]%string.

Definition lock_value (i : SeatLockInfoResponse) : string := stringify (lock_json i).

#[global] Arguments lock_value : simpl never.

Definition lock_key (eventId seatId : string) : string :=
  "lock:event:" +:+ eventId +:+ ":seat:" +:+ seatId.
Definition avail_key (eventId : string) : string := "avail:" +:+ eventId.
Definition detail_key (eventId : string) : string := "seat_detail:" +:+ eventId.

(** Each Redis key holds the type of value its users expect: lock keys hold
    lock records, the keys of the read model hold hashes. *)
Record redis_typed (m : RedisView) : Prop := {
  typed_lock : forall e s en, m !! lock_key e s = Some en ->
    exists i, content en = RStr (lock_value i);
  typed_avail : forall e, is_str m (avail_key e) = false;
  typed_detail : forall e, is_str m (detail_key e) = false;
}.

Record tables_wf (t : SeatTables) : Prop := {
  wf_seats_keyed : keyed si_id (seats t);
  wf_holds_keyed : keyed sh_id (holds t);
  wf_seats_unique : seat_unique (seats t);
}.

Record view_wf (v : SeatView) : Prop := {
  wf_tables : tables_wf (tables v);
  wf_idle : tx v = None;
  wf_redis : redis_typed (redis v);
}.

(** ** Lemmas *)

Lemma lock_key_inj e s s' : lock_key e s = lock_key e s' -> s = s'.
Proof.
  unfold lock_key. intros H. do 3 apply string_app_inj_l in H. done.
Qed.

Lemma lock_avail_ne e s e' : lock_key e s <> avail_key e'.
Proof. unfold lock_key, avail_key. rewrite !string_app_cons. discriminate. Qed.

Lemma lock_detail_ne e s e' : lock_key e s <> detail_key e'.
Proof. unfold lock_key, detail_key. rewrite !string_app_cons. discriminate. Qed.

Lemma avail_detail_ne e e' : avail_key e <> detail_key e'.
Proof. unfold avail_key, detail_key. rewrite !string_app_cons. discriminate. Qed.

Lemma avail_key_inj e e' : avail_key e = avail_key e' -> e = e'.
Proof. apply string_app_inj_l. Qed.

Lemma detail_key_inj e e' : detail_key e = detail_key e' -> e = e'.
Proof. apply string_app_inj_l. Qed.

#[export] Hint Resolve lock_avail_ne lock_detail_ne avail_detail_ne not_eq_sym : ticketing.

Lemma set_status_id st s : si_id (set_status st s) = si_id s.
Proof. done. Qed.

Lemma set_released_id z r h : sh_id (set_released z r h) = sh_id h.
Proof. done. Qed.

#[export] Hint Resolve set_status_id set_released_id : ticketing.

(** Changing statuses keeps the unique index. *)
Lemma update_status_unique p st t :
  seat_unique t -> seat_unique (update_where p (set_status st) t).
Proof.
  intros H i j r r'. rewrite !update_where_lookup.
  destruct (t !! i) as [s|] eqn:Hi; cbn; [|done].
  destruct (t !! j) as [s'|] eqn:Hj; cbn; [|done].
  intros [= <-] [= <-] Hk. apply (H i j s s'); auto.
  destruct (p s), (p s'); exact Hk.
Qed.

(** Inserting rows whose keys are new keeps the unique index. *)
Lemma insert_unique ds l t :
  ~ seat_conflict ds t -> Forall2 seat_created ds l -> fresh_rows si_id l t ->
  seat_unique t -> seat_unique (upsert si_id l t).
Proof.
  unfold seat_conflict. intros Hc Hds Hf Hu.
  assert (NoDup (map data_key ds) /\
    forall d i r, d ∈ ds -> t !! i = Some r -> data_key d <> seat_key r) as [Hnd Hold].
  { split.
    - destruct (decide (NoDup (map data_key ds))); [done|]. exfalso. apply Hc. tauto.
    - intros d i r Hd Hr Hk. apply Hc. intros [_ H]. by eapply H. }
  assert (map data_key ds = map seat_key l) as Hkeys.
  { clear -Hds. induction Hds as [|d r ds l Hd Hds IH]; [done|]. cbn. rewrite IH. f_equal.
    rewrite Hd. done. }
  assert (forall r, r ∈ l -> exists d, d ∈ ds /\ data_key d = seat_key r) as Hback.
  { intros r Hr. assert (seat_key r ∈ map data_key ds) as Hin.
    { rewrite Hkeys. apply list_elem_of_fmap. eauto. }
    apply list_elem_of_fmap in Hin as (d & Hd & Hin). eauto. }
  rewrite Hkeys in Hnd.
  intros i j r r' Hi Hj Hk.
  apply (upsert_fresh_inv si_id l t) in Hi as [Hi|[Hi <-]]; [| |done];
    apply (upsert_fresh_inv si_id l t) in Hj as [Hj|[Hj <-]]; try done.
  - by eapply Hu.
  - destruct (Hback r' Hj) as (d & Hd & Hdk). exfalso. eapply Hold; eauto. congruence.
  - destruct (Hback r Hi) as (d & Hd & Hdk). exfalso. eapply Hold; eauto. congruence.
  - f_equal. clear -Hnd Hi Hj Hk. induction l as [|x l IH]; [by apply elem_of_nil in Hi|].
    cbn in Hnd. apply NoDup_cons in Hnd as [Hx Hnd].
    apply elem_of_cons in Hi as [->|Hi], Hj as [<-|Hj]; auto.
    + exfalso. apply Hx. apply list_elem_of_fmap. eauto.
    + exfalso. apply Hx. apply list_elem_of_fmap. eauto.
Qed.

Lemma typed_delete k m : redis_typed m -> redis_typed (delete k m).
Proof.
  intros [H1 H2 H3]. split.
  - intros e x en Hx. apply lookup_delete_Some in Hx as [_ Hx]. by eapply H1.
  - intros e. unfold is_str. destruct (decide (k = avail_key e)) as [->|Hne].
    + by rewrite lookup_delete_eq.
    + rewrite lookup_delete_ne by done. apply H2.
  - intros e. unfold is_str. destruct (decide (k = detail_key e)) as [->|Hne].
    + by rewrite lookup_delete_eq.
    + rewrite lookup_delete_ne by done. apply H3.
Qed.

(** Commands on the read model's hashes keep the keyspace well typed. *)
Definition read_model_cmd (c : rcmd) : Prop :=
  match c with
  | PDel _ => True
  | PHSet key _ _ => exists e, key = avail_key e \/ key = detail_key e
  end.

Lemma typed_hset e key f x m :
  key = avail_key e \/ key = detail_key e -> redis_typed m -> redis_typed (hset key f x m).
Proof.
  intros Hkey [H1 H2 H3]. split.
  - intros e' s en Hl. rewrite hset_other in Hl; [by eapply H1|].
    destruct Hkey as [-> | ->]; apply not_eq_sym; auto with ticketing.
  - intros e'. by rewrite hset_is_str.
  - intros e'. by rewrite hset_is_str.
Qed.

Lemma typed_cmds cmds m :
  Forall read_model_cmd cmds -> redis_typed m -> redis_typed (foldl apply_cmd m cmds).
Proof.
  intros Hc. revert m. induction Hc as [|c cmds Hc Hcs IH]; intros m Hm; [done|].
  cbn. apply IH. destruct c as [key|key f x]; cbn in *; [by apply typed_delete|].
  destruct Hc as [e Hkey]. by eapply typed_hset.
Qed.

(** A pipeline of commands on other keys leaves a key alone. *)
Lemma cmds_other cmds m k :
  Forall (fun c => match c with PDel key | PHSet key _ _ => key <> k end) cmds ->
  foldl apply_cmd m cmds !! k = m !! k.
Proof.
  intros Hc. revert m. induction Hc as [|c cmds Hc Hcs IH]; intros m; [done|].
  cbn. rewrite IH. destruct c; cbn; [by rewrite lookup_delete_ne | by apply hset_other].
Qed.

(** Unfold what an operation was specified to do. *)
Ltac seat_sem H :=
  cbn [obeys ok rejects fallible seat_behaviour seat_ok seat_rejects seat_fallible
       redis_ok redis_rejects] in H.
