(* ===== verification/SeatRef.v ===== *)
(** * A reference environment for the seat inventory service

    A deterministic implementation of the operations of SeatWorld, which shows
    that [seat_behaviour] can be met, and the same with scripted failures.  The
    theorems about the service do not depend on it; their witnesses run it. *)

From S2P Require Import Prelude Effects JsNumber Json Redis Sql SeatWorld.

Definition seat_conflictb (ds : list SeatData) (t : gmap string SeatInventory) : bool :=
  negb (bool_decide (NoDup (map data_key ds)) &&
        forallb (fun r => negb (bool_decide (seat_key r ∈ map data_key ds))) (rows t)).

Definition make_seat (id : string) (d : SeatData) : SeatInventory :=
  mkSeatInventory id (sd_eventId d) (sd_seatId d) (sd_sectionId d) (sd_sectionName d)
    (sd_ticketTypeId d) (sd_ticketTypeName d) (numeric_text (sd_price d)) (sd_currency d) (sd_row d)
    (sd_seatNumber d) (sd_seatType d) (sd_status d) None 1.

Definition make_hold (now : Z) (id : string) (d : HoldData) : SeatHold :=
  mkSeatHold id (hd_seatInventoryId d) (hd_eventId d) (hd_seatId d) (hd_userId d)
    (hd_sessionId d) now (hd_expiresAt d) None None.

Definition sql_error (msg : string) : exn := JsError msg.

(** The world of the reference environment: the view and the clock. *)
Definition SeatRefWorld : Type := SeatView * Z.

Definition seat_run (X : Type) (op : SeatE X) (w : SeatRefWorld) : result X * SeatRefWorld :=
  let '(v, now) := w in
  match op in SeatE X return result X * SeatRefWorld with
  | SRedis op => let (r, m) := redis_run op (redis v) in (r, (with_redis m v, now))
  | SNow => (Ok now, w)
  | SeatCount p => (Ok (length (List.filter p (rows (seats (tables v))))), w)
  | SeatFind p => (Ok (List.filter p (rows (seats (tables v)))), w)
  | SeatInsert ds =>
      if seat_conflictb ds (seats (tables v))
      then (Err (sql_error "duplicate key value violates unique constraint"), w)
      else if existsb (fun d => unstorableb (sd_price d)) ds
      then (Err (sql_error "numeric field overflow"), w)
      else
        let l := zip_with make_seat (new_ids (seats (tables v)) (length ds)) ds in
        (Ok l, (with_tables (mkTables (upsert si_id l (seats (tables v))) (holds (tables v))) v, now))
  | SeatSave l =>
      (Ok tt, (with_tables (mkTables (upsert si_id l (seats (tables v))) (holds (tables v))) v, now))
  | SeatUpdate p st =>
      (Ok tt, (with_tables (mkTables (update_where p (set_status st) (seats (tables v)))
                                     (holds (tables v))) v, now))
  | SeatEventIds => (Ok (remove_dups (map si_eventId (rows (seats (tables v))))), w)
  | HoldFind p => (Ok (List.filter p (rows (holds (tables v)))), w)
  | QrConnect => (Ok tt, w)
  | QrStart =>
      match tx v with
      | None => (Ok tt, (with_tx (Some []) v, now))
      | Some _ => (Err (sql_error "TransactionAlreadyStartedError"), w)
      end
  | QrSaveSeats l => (Ok tt, (qr_write (WSeats l) v, now))
  | QrSaveHolds l => (Ok tt, (qr_write (WHolds l) v, now))
  | QrInsertHolds ds =>
      let l := zip_with (make_hold now) (new_ids (holds (qr_tables v)) (length ds)) ds in
      (Ok l, (qr_write (WHolds l) v, now))
  | QrCommit =>
      match tx v with
      | Some ws => (Ok tt, (mkView (apply_writes ws (tables v)) None (redis v), now))
      | None => (Err (sql_error "TransactionNotStartedError"), w)
      end
  | QrRollback =>
      match tx v with
      | Some _ => (Ok tt, (with_tx None v, now))
      | None => (Err (sql_error "TransactionNotStartedError"), w)
      end
  | QrRelease => (Ok tt, (with_tx None v, now))
  end.

Definition seat_io (X : Type) (op : SeatE X) : bool :=
  match op with SNow | QrRelease => false | _ => true end.

(** Failures as scripted, in the order of the I/O operations. *)
Definition seat_flaky := flaky seat_run seat_io.

Definition seat_view (w : SeatRefWorld) : SeatView := w.1.
Definition flaky_view (w : SeatRefWorld * list bool) : SeatView := seat_view w.1.

(** ** Conformance *)

Lemma seat_conflictb_spec ds t : seat_conflictb ds t = false -> ~ seat_conflict ds t.
Proof.
  unfold seat_conflictb, seat_conflict. rewrite negb_false_iff, andb_true_iff, bool_decide_eq_true.
  intros [Hnd Hall] Hc. apply Hc. split; [done|]. intros d i r Hd Hi Hk.
  rewrite forallb_forall in Hall.
  assert (In r (rows t)) as Hr by (apply list_elem_of_In; by eapply rows_lookup).
  specialize (Hall r Hr). rewrite negb_true_iff, bool_decide_eq_false in Hall. apply Hall.
  apply list_elem_of_fmap. eauto.
Qed.

Lemma seat_conflictb_true ds t : seat_conflictb ds t = true -> seat_conflict ds t.
Proof.
  unfold seat_conflictb, seat_conflict. intros H [Hnd Hall].
  rewrite bool_decide_eq_true_2 in H by done. cbn in H. apply negb_true_iff in H.
  apply Bool.not_true_iff_false in H. apply H, forallb_forall. intros r Hr%list_elem_of_In.
  apply negb_true_iff, bool_decide_eq_false. intros (d & Hd & Hin)%list_elem_of_fmap.
  apply elem_of_rows_lookup in Hr as [i Hi]. by eapply Hall.
Qed.

(** The reference world meets the documented behaviour. *)
Lemma seat_run_conforms : conforms Reliable seat_behaviour seat_run seat_view.
Proof.
  intros X op [v now]. cbn [seat_view fst]. destruct op; cbn; try done; try (split; [done|by apply Permutation_refl]).
  - pose proof (redis_run_ok op (redis v)) as Hr. destruct (redis_run op (redis v)) as [[x|e] m]; cbn.
    + eauto.
    + destruct Hr as [-> Hr]. split; [by destruct v|by left].
  - destruct (seat_conflictb ds (seats (tables v))) eqn:Hc; cbn.
    + split; [done|]. left. left. by apply seat_conflictb_true.
    + destruct (existsb _ ds) eqn:Hp; cbn.
      { split; [done|]. left. right. apply existsb_elem_of in Hp as (d & Hd & Hp). exists d. split; [done|].
        by apply unstorableb_spec. }
      destruct (zip_make make_seat si_id seat_created (new_ids (seats (tables v)) (length ds)) ds)
        as [H1 H2]; [done..|apply new_ids_length|].
      split_and!; [by apply seat_conflictb_spec| |done| |done].
      { intros (d & Hd & Hu). apply not_true_iff_false in Hp. apply Hp, existsb_elem_of. exists d. split; [done|].
        unfold unstorableb. by rewrite Hu. }
      by eapply new_ids_fresh_rows.
  - split_and!; [done|apply NoDup_remove_dups|]. intros e.
    rewrite elem_of_remove_dups, list_elem_of_fmap. split; intros (r & H1 & H2); eauto.
  - destruct (tx v) eqn:Ht; cbn; [|done]. split; [done|]. left. congruence.
  - destruct (zip_make (make_hold now) sh_id hold_created (new_ids (holds (qr_tables v)) (length ds)) ds)
      as [H1 H2]; [done..|apply new_ids_length|].
    split_and!; [done| |done]. by eapply new_ids_fresh_rows.
  - destruct (tx v) eqn:Ht; cbn; [by eauto|]. split; [done|]. by left.
  - destruct (tx v) eqn:Ht; cbn; [split; [congruence|done]|]. split; [done|]. by left.
Qed.

Lemma seat_flaky_conforms : conforms Faulty seat_behaviour seat_flaky flaky_view.
Proof.
  apply (flaky_conforms seat_run seat_io seat_behaviour seat_view); [|apply seat_run_conforms].
  by intros X [].
Qed.

(** ** Concrete worlds *)

(** A world with the given committed rows, no open transaction and an empty Redis. *)
Definition seat_world (ss : list SeatInventory) (hs : list SeatHold) (now : Z) : SeatRefWorld :=
  (mkView (mkTables (upsert si_id ss ∅) (upsert sh_id hs ∅)) None ∅, now).

Lemma unique_rows t : keyed si_id t -> NoDup (map seat_key (rows t)) -> seat_unique t.
Proof.
  intros Hk Hnd i j r r' Hi Hj Hkey.
  assert (r = r') as ->.
  { apply rows_lookup in Hi, Hj. clear -Hnd Hi Hj Hkey.
    induction (rows t) as [|x l IH]; [by apply elem_of_nil in Hi|].
    cbn in Hnd. apply NoDup_cons in Hnd as [Hx Hnd].
    apply elem_of_cons in Hi as [->|Hi], Hj as [->|Hj]; auto;
      exfalso; apply Hx, list_elem_of_fmap; eauto. }
  apply Hk in Hi, Hj. congruence.
Qed.

Lemma redis_typed_empty : redis_typed ∅.
Proof. split; [intros e s en; by rewrite lookup_empty|done..]. Qed.

Lemma seat_world_wf ss hs now :
  bool_decide (NoDup (map seat_key (rows (upsert si_id ss ∅)))) = true ->
  view_wf (seat_view (seat_world ss hs now)).
Proof.
  intros H%bool_decide_eq_true. split; [|done|apply redis_typed_empty].
  split; cbn; [apply upsert_keyed, keyed_empty..|].
  apply unique_rows; [|done]. apply upsert_keyed, keyed_empty.
Qed.

(** An available seat of an event. *)
Definition plain_seat (id eventId seatId : string) (st : SeatStatus) : SeatInventory :=
  mkSeatInventory id eventId seatId "sec-A" "Orchestra" "tt-1" "Standard" "149.90" "TRY"
    "A" seatId "standard" st None 1.

(** Two available seats of an event, a held one and a sold one, at time 1000. *)
Definition demo_world : SeatRefWorld :=
  seat_world [plain_seat "r1" "ev" "A1" AVAILABLE; plain_seat "r2" "ev" "A2" AVAILABLE;
              plain_seat "r3" "ev" "B1" HELD; plain_seat "r4" "ev" "B2" SOLD] [] 1000.

Lemma demo_world_wf : view_wf (seat_view demo_world).
Proof. apply seat_world_wf. vm_compute. reflexivity. Qed.
