(* ===== verification/SeatLock.v ===== *)
(** * SeatLockService

    apps/seat-inventory-service/src/inventory/seat-lock.service.ts: per-seat
    locks in Redis, taken with SET NX and released by their owner.  The
    specification is given by [free_busy] (which of the requested seats are
    free) and [drop_locks] (the keyspace without the user's locks). *)

From S2P Require Import Prelude Effects JsNumber Json Redis Sql SeatWorld SeatRef.

Definition LOCK_TTL : Z := 600.

Section Service.
Context {S : Type}.
Implicit Types eventId userId sessionId : string.

(** The loop of [lockSeats], with the two lists it pushes to. *)
Fixpoint acquire eventId userId sessionId (seatIds failedSeatIds lockedKeys : list string)
    : prog S SeatE (list string * list string) :=
  match seatIds with
  | [] => Ret (failedSeatIds, lockedKeys)
  | seatId :: rest =>
      let key := lock_key eventId seatId in
      now <- call SNow ;;
      let value := lock_value (mkLockInfo userId sessionId now) in
      result <- call (SRedis (RSetNxEx key value LOCK_TTL)) ;;
      if result : bool then acquire eventId userId sessionId rest failedSeatIds (lockedKeys ++ [key])
      else acquire eventId userId sessionId rest (failedSeatIds ++ [seatId]) lockedKeys
  end.

Definition lockSeats eventId (seatIds : list string) userId sessionId
    : prog S SeatE (bool * list string) :=
  r <- acquire eventId userId sessionId seatIds [] [] ;;
  let '(failedSeatIds, lockedKeys) := r in
  if Nat.ltb 0 (length failedSeatIds) then
    for_each lockedKeys (fun key => call (SRedis (RDel key))) ;;
    Ret (false, failedSeatIds)
  else Ret (true, []).

(** [JSON.parse(data)] *)
Definition parse_json (data : string) : prog S SeatE json :=
  match parse data with
  | Some j => Ret j
  | None => Throw (SyntaxError "Unexpected token in JSON")
  end.

(** [lockData.userId !== userId] *)
Definition other_user (lockData : json) userId : prog S SeatE bool :=
  match lockData with
  | JNull => Throw (TypeError "Cannot read properties of null (reading 'userId')")
  | _ =>
      Ret (match member "userId" lockData with
           | Some (JStr u) => negb (String.eqb u userId)
           | _ => true
           end)
  end.

Fixpoint release_loop eventId (seatIds : list string) userId (released : nat) : prog S SeatE nat :=
  match seatIds with
  | [] => Ret released
  | seatId :: rest =>
      let key := lock_key eventId seatId in
      data <- call (SRedis (RGet key)) ;;
      match data with
      | None => release_loop eventId rest userId released
      | Some data =>
          if negb (truthy data) then release_loop eventId rest userId released
          else
            lockData <- parse_json data ;;
            other <- other_user lockData userId ;;
            if other : bool then release_loop eventId rest userId released
            else
              call (SRedis (RDel key)) ;;
              release_loop eventId rest userId (released + 1)
      end
  end.

(** [SeatLockService.releaseSeats] *)
Definition releaseLocks eventId (seatIds : list string) userId : prog S SeatE nat :=
  release_loop eventId seatIds userId 0.

Definition getLockInfo eventId seatId : prog S SeatE (option json) :=
  data <- call (SRedis (RGet (lock_key eventId seatId))) ;;
  match data with
  | None => Ret None
  | Some data =>
      if negb (truthy data) then Ret None
      else lockData <- parse_json data ;; Ret (Some lockData)
  end.

Fixpoint extendLock eventId (seatIds : list string) userId (extraSeconds : Z) : prog S SeatE bool :=
  match seatIds with
  | [] => Ret true
  | seatId :: rest =>
      let key := lock_key eventId seatId in
      data <- call (SRedis (RGet key)) ;;
      match data with
      | None => Ret false
      | Some data =>
          if negb (truthy data) then Ret false
          else
            lockData <- parse_json data ;;
            other <- other_user lockData userId ;;
            if other : bool then Ret false
            else
              call (SRedis (RExpire key (LOCK_TTL + extraSeconds))) ;;
              extendLock eventId rest userId extraSeconds
      end
  end.
End Service.

(** ** Specification *)

(** The requested seats that are free, and those that are taken: by a lock in
    [m], or by an earlier mention in the same request. *)
Fixpoint free_busy (eventId : string) (m : RedisView) (taken seatIds : list string)
    : list string * list string :=
  match seatIds with
  | [] => ([], [])
  | s :: rest =>
      if decide (m !! lock_key eventId s = None /\ s ∉ taken) then
        let '(free, busy) := free_busy eventId m (s :: taken) rest in (s :: free, busy)
      else
        let '(free, busy) := free_busy eventId m taken rest in (free, s :: busy)
  end.

(** [m'] is [m] with fresh locks of the user on the seats [free]. *)
Definition locks_added (eventId userId sessionId : string) (free : list string)
    (m m' : RedisView) : Prop :=
  (forall s, s ∈ free -> exists now, m' !! lock_key eventId s =
     Some (Entry (RStr (lock_value (mkLockInfo userId sessionId now))) (Some LOCK_TTL))) /\
  (forall k, k ∉ map (lock_key eventId) free -> m' !! k = m !! k).

(** The user a seat's lock belongs to. *)
Definition lock_owner (m : RedisView) (eventId seatId : string) : option string :=
  match string_at m (lock_key eventId seatId) with
  | Some v =>
      match parse v with
      | Some j => match member "userId" j with Some (JStr u) => Some u | _ => None end
      | None => None
      end
  | None => None
  end.

Definition owned_by (m : RedisView) (eventId userId seatId : string) : bool :=
  match lock_owner m eventId seatId with Some u => String.eqb u userId | None => false end.

(** [m] without the user's locks on [seatIds]. *)
Definition drop_locks (eventId userId : string) (seatIds : list string) (m : RedisView) : RedisView :=
  foldl (fun m s => if owned_by m eventId userId s then delete (lock_key eventId s) m else m) m seatIds.

(** The seats up to the first one the user holds no lock on. *)
Fixpoint owned_prefix (eventId userId : string) (m : RedisView) (seatIds : list string) : list string :=
  match seatIds with
  | [] => []
  | s :: rest =>
      if owned_by m eventId userId s then s :: owned_prefix eventId userId m rest else []
  end.

(** [m] with a new time to live on the seats' locks. *)
Definition extended (eventId : string) (seatIds : list string) (secs : Z) (m : RedisView) : RedisView :=
  foldl (fun m s => alter (fun e => Entry (content e) (Some secs)) (lock_key eventId s) m) m seatIds.

(** ** Lemmas *)

Lemma free_busy_free eventId m taken seatIds s :
  s ∈ (free_busy eventId m taken seatIds).1 ->
  s ∈ seatIds /\ m !! lock_key eventId s = None /\ s ∉ taken.
Proof.
  revert taken. induction seatIds as [|x rest IH]; intros taken; cbn; [by intros ?%elem_of_nil|].
  case_decide as Hx.
  - destruct (free_busy eventId m (x :: taken) rest) as [f b] eqn:Hfb; cbn.
    intros [->|Hs]%elem_of_cons; [split; [left|done]|].
    specialize (IH (x :: taken)). rewrite Hfb in IH. apply IH in Hs as (? & ? & Hn).
    split; [by right|]. split; [done|]. intros ?. apply Hn. by right.
  - destruct (free_busy eventId m taken rest) as [f b] eqn:Hfb; cbn. intros Hs.
    specialize (IH taken). rewrite Hfb in IH. apply IH in Hs as (? & ? & ?).
    split; [by right|done].
Qed.

Lemma free_busy_none eventId m taken seatIds :
  (free_busy eventId m taken seatIds).2 = [] <->
  NoDup seatIds /\ forall s, s ∈ seatIds -> m !! lock_key eventId s = None /\ s ∉ taken.
Proof.
  revert taken. induction seatIds as [|x rest IH]; intros taken; cbn.
  { split; [|done]. intros _. split; [constructor|]. by intros s ?%elem_of_nil. }
  case_decide as Hx.
  - destruct (free_busy eventId m (x :: taken) rest) as [f b] eqn:Hfb; cbn.
    specialize (IH (x :: taken)). rewrite Hfb in IH. cbn in IH. rewrite IH. split.
    + intros [Hnd H]. split.
      * constructor; [|done]. intros Hin. destruct (H x Hin) as [_ Hn]. apply Hn. left.
      * intros s [->|Hs]%elem_of_cons; [done|]. destruct (H s Hs) as [? Hn].
        split; [done|]. intros ?. apply Hn. by right.
    + intros [[Hnx Hnd]%NoDup_cons H]. split; [done|]. intros s Hs.
      destruct (H s) as [? Hn]; [by right|]. split; [done|].
      intros [->|?]%elem_of_cons; done.
  - destruct (free_busy eventId m taken rest) as [f b] eqn:Hfb; cbn. split; [done|].
    intros [_ H]. exfalso. apply Hx, H. left.
Qed.

Lemma free_busy_all eventId m taken seatIds :
  (free_busy eventId m taken seatIds).2 = [] -> (free_busy eventId m taken seatIds).1 = seatIds.
Proof.
  revert taken. induction seatIds as [|x rest IH]; intros taken; cbn; [done|].
  case_decide as Hx.
  - destruct (free_busy eventId m (x :: taken) rest) as [f b] eqn:Hfb; cbn. intros ->.
    specialize (IH (x :: taken)). rewrite Hfb in IH. cbn in IH. by rewrite IH.
  - by destruct (free_busy eventId m taken rest).
Qed.

(** The requested seats are taken apart into the free and the busy ones. *)
Lemma free_busy_perm eventId m taken seatIds :
  let '(free, busy) := free_busy eventId m taken seatIds in free ++ busy ≡ₚ seatIds.
Proof.
  revert taken. induction seatIds as [|x rest IH]; intros taken; cbn; [done|].
  case_decide as Hx.
  - specialize (IH (x :: taken)). destruct (free_busy eventId m (x :: taken) rest) as [f b].
    cbn. by rewrite IH.
  - specialize (IH taken). destruct (free_busy eventId m taken rest) as [f b].
    by rewrite <- Permutation_middle, IH.
Qed.

(** [free_busy] asks only which keys exist. *)
Lemma free_busy_taken eventId m m' taken seatIds s :
  m !! lock_key eventId s = None ->
  (forall k, k <> lock_key eventId s -> m' !! k = m !! k) ->
  m' !! lock_key eventId s <> None ->
  free_busy eventId m' taken seatIds = free_busy eventId m (s :: taken) seatIds.
Proof.
  intros Hs Hm Hs'. revert taken. induction seatIds as [|x rest IH]; intros taken; cbn; [done|].
  destruct (decide (x = s)) as [->|Hne].
  - rewrite decide_False by tauto.
    rewrite decide_False by (intros [_ Hn]; apply Hn; left).
    by rewrite IH.
  - rewrite (Hm (lock_key eventId x)) by (by intros ?%lock_key_inj).
    destruct (decide (m !! lock_key eventId x = None /\ x ∉ taken)) as [Hd|Hd].
    + rewrite decide_True by (split; [tauto|]; intros [?|?]%elem_of_cons; tauto).
      rewrite IH. f_equal.
      replace (free_busy eventId m (s :: x :: taken) rest)
        with (free_busy eventId m (x :: s :: taken) rest); [done|].
      clear. assert (forall t t', (forall y, y ∈ t <-> y ∈ t') ->
        free_busy eventId m t rest = free_busy eventId m t' rest) as Hext.
      { induction rest as [|z rest IH]; intros t t' Ht; cbn; [done|].
        destruct (decide (m !! lock_key eventId z = None /\ z ∉ t)) as [H|H].
        - rewrite decide_True by (by rewrite <- Ht). rewrite (IH (z :: t) (z :: t')); [done|].
          intros y. rewrite !elem_of_cons, Ht. done.
        - rewrite decide_False by (by rewrite <- Ht). by rewrite (IH t t'). }
      apply Hext. intros y. rewrite !elem_of_cons. tauto.
    + rewrite decide_False by (intros [? Hn]; apply Hd; split; [done|]; intros ?; apply Hn; by right).
      by rewrite IH.
Qed.

Lemma lock_value_parse i : parse (lock_value i) = Some (lock_json i).
Proof. apply parse_print. Qed.

Lemma lock_value_inj i i' : lock_value i = lock_value i' -> i = i'.
Proof.
  intros H. assert (Some (lock_json i) = Some (lock_json i')) as Hj.
  { rewrite <- !lock_value_parse. by rewrite H. }
  destruct i, i'. unfold lock_json in Hj. cbn in Hj. by simplify_eq.
Qed.

Lemma lock_value_truthy i : truthy (lock_value i) = true.
Proof. done. Qed.

Lemma locks_added_nil eventId u se m : locks_added eventId u se [] m m.
Proof. split; [by intros s ?%elem_of_nil|done]. Qed.

Lemma locks_added_cons eventId u se s free now m m' :
  s ∉ free ->
  locks_added eventId u se free
    (<[lock_key eventId s := Entry (RStr (lock_value (mkLockInfo u se now))) (Some LOCK_TTL)]> m) m' ->
  locks_added eventId u se (s :: free) m m'.
Proof.
  intros Hs [H1 H2]. split.
  - intros x [->|Hx]%elem_of_cons; [|by apply H1]. exists now. rewrite H2.
    + apply lookup_insert_eq.
    + intros (y & Hy & Hin)%list_elem_of_fmap. apply lock_key_inj in Hy. by subst.
  - intros k Hk. cbn in Hk. apply not_elem_of_cons in Hk as [Hne Hk]. rewrite H2 by done.
    by rewrite lookup_insert_ne.
Qed.

(** Undoing the acquisition restores the keyspace. *)
Lemma locks_added_undo eventId u se free m m' :
  (forall s, s ∈ free -> m !! lock_key eventId s = None) ->
  locks_added eventId u se free m m' ->
  foldl (fun m k => delete k m) m' (map (lock_key eventId) free) = m.
Proof.
  intros Hfree [_ H]. apply map_eq. intros k.
  assert (forall ks (m : RedisView), foldl (fun m k => delete k m) m ks !! k =
    if decide (k ∈ ks) then None else m !! k) as Hdel.
  { clear. intros ks. induction ks as [|x ks IH]; intros m; cbn.
    - by rewrite decide_False by apply not_elem_of_nil.
    - rewrite IH. destruct (decide (k ∈ ks)) as [Hk|Hk].
      + by rewrite decide_True by (by right).
      + destruct (decide (k = x)) as [->|Hne].
        * rewrite lookup_delete_eq. by rewrite decide_True by left.
        * rewrite lookup_delete_ne by done. rewrite decide_False; [done|].
          by intros [?|?]%elem_of_cons. }
  rewrite Hdel. case_decide as Hk; [|by apply H].
  apply list_elem_of_fmap in Hk as (s & -> & Hs). by rewrite Hfree.
Qed.

(** ** Releasing *)

(** How many of the seats' locks [drop_locks] deletes. *)
Fixpoint drop_count (eventId userId : string) (seatIds : list string) (m : RedisView) : nat :=
  match seatIds with
  | [] => 0
  | s :: rest =>
      if owned_by m eventId userId s
      then 1 + drop_count eventId userId rest (delete (lock_key eventId s) m)
      else drop_count eventId userId rest m
  end.

Lemma owned_by_lookup m eventId u x :
  redis_typed m ->
  owned_by m eventId u x = true <->
  exists i t, m !! lock_key eventId x = Some (Entry (RStr (lock_value i)) t) /\ li_userId i = u.
Proof.
  intros Ht. unfold owned_by, lock_owner, string_at.
  destruct (m !! lock_key eventId x) as [[c t]|] eqn:Hx; [|split; [done|by intros (? & ? & ? & _)]].
  destruct (typed_lock _ Ht _ _ _ Hx) as [i Hi]. change (c = RStr (lock_value i)) in Hi. subst c.
  cbv iota beta. rewrite lock_value_parse.
  change (member "userId" (lock_json i)) with (Some (JStr (li_userId i))). cbv iota beta.
  rewrite String.eqb_eq. split.
  - intros <-. eauto.
  - intros (i' & t' & Hi & <-).
    assert (lock_value i = lock_value i') as Hv by congruence.
    apply lock_value_inj in Hv. by subst.
Qed.

Lemma typed_drop_locks eventId u seatIds m :
  redis_typed m -> redis_typed (drop_locks eventId u seatIds m).
Proof.
  revert m. induction seatIds as [|x rest IH]; intros m Hm; [done|]. cbn. apply IH.
  destruct (owned_by m eventId u x); [by apply typed_delete|done].
Qed.

Lemma typed_locks_added eventId u se free m m' :
  redis_typed m -> locks_added eventId u se free m m' -> redis_typed m'.
Proof.
  intros [H1 H2 H3] [Ha Hb]. split.
  - intros e x en Hx. destruct (decide (lock_key e x ∈ map (lock_key eventId) free)) as [Hk|Hk].
    + apply list_elem_of_fmap in Hk as (y & Hy & Hin). destruct (Ha y Hin) as [now Hn].
      rewrite Hy, Hn in Hx. apply Some_inj in Hx. subst en. by exists (mkLockInfo u se now).
    + rewrite Hb in Hx by done. by eapply H1.
  - intros e. unfold is_str. rewrite Hb; [apply H2|].
    intros (y & Hy & _)%list_elem_of_fmap. by eapply lock_avail_ne.
  - intros e. unfold is_str. rewrite Hb; [apply H3|].
    intros (y & Hy & _)%list_elem_of_fmap. by eapply lock_detail_ne.
Qed.

Lemma typed_deletes ks m : redis_typed m -> redis_typed (foldl (fun m k => delete k m) m ks).
Proof. revert m. induction ks as [|k ks IH]; intros m Hm; [done|]. cbn. apply IH. by apply typed_delete. Qed.

Lemma drop_locks_other eventId u seatIds m k :
  k ∉ map (lock_key eventId) seatIds -> drop_locks eventId u seatIds m !! k = m !! k.
Proof.
  revert m. induction seatIds as [|x rest IH]; intros m Hk; [done|]. cbn in Hk |- *.
  apply not_elem_of_cons in Hk as [Hne Hk]. unfold drop_locks in IH. rewrite IH by done.
  destruct (owned_by m eventId u x); [|done]. by rewrite lookup_delete_ne.
Qed.

Lemma drop_locks_none eventId u seatIds m k :
  m !! k = None -> drop_locks eventId u seatIds m !! k = None.
Proof.
  revert m. induction seatIds as [|x rest IH]; intros m Hk; [done|]. cbn. apply IH.
  destruct (owned_by m eventId u x); [|done]. apply lookup_delete_None. by right.
Qed.

(** The user's locks on the seats are gone; everybody else's are still there. *)
Lemma drop_locks_owned eventId u seatIds m x :
  redis_typed m -> x ∈ seatIds -> owned_by m eventId u x = true ->
  drop_locks eventId u seatIds m !! lock_key eventId x = None.
Proof.
  revert m. induction seatIds as [|y rest IH]; intros m Ht Hx Ho; [by apply elem_of_nil in Hx|].
  cbn [drop_locks foldl]. destruct (decide (x = y)) as [<-|Hne].
  - rewrite Ho. apply drop_locks_none, lookup_delete_eq.
  - apply elem_of_cons in Hx as [?|Hx]; [done|].
    apply (IH (if owned_by m eventId u y then delete (lock_key eventId y) m else m)); [|done|].
    + destruct (owned_by m eventId u y); [by apply typed_delete|done].
    + destruct (owned_by m eventId u y); [|done]. unfold owned_by, lock_owner, string_at in *.
      rewrite lookup_delete_ne; [done|]. intros ?%lock_key_inj. congruence.
Qed.

Lemma drop_locks_foreign eventId u seatIds m x :
  owned_by m eventId u x = false ->
  drop_locks eventId u seatIds m !! lock_key eventId x = m !! lock_key eventId x.
Proof.
  revert m. induction seatIds as [|y rest IH]; intros m Ho; [done|]. cbn [drop_locks foldl].
  unfold drop_locks in IH. destruct (owned_by m eventId u y) eqn:Hy; [|by apply IH].
  assert (y <> x) by congruence.
  assert (lock_key eventId y <> lock_key eventId x) by (by intros ?%lock_key_inj).
  rewrite IH; [by rewrite lookup_delete_ne|].
  unfold owned_by, lock_owner, string_at in *. by rewrite lookup_delete_ne.
Qed.

Lemma owned_prefix_all eventId u m seatIds :
  owned_prefix eventId u m seatIds = seatIds <->
  forall x, x ∈ seatIds -> owned_by m eventId u x = true.
Proof.
  induction seatIds as [|y rest IH]; cbn.
  { split; [|done]. by intros _ x ?%elem_of_nil. }
  destruct (owned_by m eventId u y) eqn:Hy; split.
  - intros [= Hr] x [->|Hx]%elem_of_cons; [done|]. by apply IH.
  - intros H. f_equal. apply IH. intros x Hx. apply H. by right.
  - done.
  - intros H. rewrite (H y) in Hy by left. done.
Qed.

(** Releasing what was just locked. *)
Lemma drop_locks_added eventId u se seatIds m m' :
  NoDup seatIds -> (forall x, x ∈ seatIds -> m !! lock_key eventId x = None) ->
  locks_added eventId u se seatIds m m' ->
  drop_count eventId u seatIds m' = length seatIds /\ drop_locks eventId u seatIds m' = m.
Proof.
  intros Hnd Hf Hm. pose proof (locks_added_undo eventId u se seatIds m m' Hf Hm) as Hu.
  destruct Hm as [Hm _].
  assert (forall x, x ∈ seatIds -> owned_by m' eventId u x = true) as Ho.
  { intros x Hx. destruct (Hm x Hx) as [now Hn]. unfold owned_by, lock_owner, string_at.
    rewrite Hn. cbv iota beta. rewrite lock_value_parse.
    change (member "userId" (lock_json (mkLockInfo u se now))) with (Some (JStr u)).
    apply String.eqb_refl. }
  clear Hm Hf. revert m' Hu Ho. induction Hnd as [|x rest Hx Hnd IH]; intros m' Hu Ho; [done|].
  cbn [drop_count drop_locks foldl map] in *. rewrite (Ho x) by left.
  destruct (IH (delete (lock_key eventId x) m')) as [H1 H2]; [done| |].
  - intros y Hy. rewrite <- (Ho y) by (by right). unfold owned_by, lock_owner, string_at.
    rewrite lookup_delete_ne; [done|]. intros ?%lock_key_inj. by subst.
  - by rewrite H1.
Qed.

(** Changing a time to live changes no value. *)
Lemma alter_ttl_string k secs (m : RedisView) k' :
  string_at (alter (fun e => Entry (content e) secs) k m) k' = string_at m k'.
Proof.
  unfold string_at. destruct (decide (k = k')) as [->|Hne].
  - rewrite lookup_alter_eq. by destruct (m !! k') as [[c t]|].
  - by rewrite lookup_alter_ne.
Qed.

Lemma owned_prefix_alter eventId u k secs m seatIds :
  owned_prefix eventId u (alter (fun e => Entry (content e) secs) k m) seatIds =
  owned_prefix eventId u m seatIds.
Proof.
  induction seatIds as [|x rest IH]; cbn; [done|]. rewrite IH. unfold owned_by, lock_owner.
  by rewrite alter_ttl_string.
Qed.

Lemma typed_alter k secs m :
  redis_typed m -> redis_typed (alter (fun e => Entry (content e) secs) k m).
Proof.
  assert (forall k' en, alter (fun e => Entry (content e) secs) k m !! k' = Some en ->
    exists en', m !! k' = Some en' /\ content en = content en') as Ha.
  { intros k' en. destruct (decide (k = k')) as [->|Hne].
    - rewrite lookup_alter_eq. destruct (m !! k') as [en'|]; cbn; [|done]. intros [= <-]. eauto.
    - rewrite lookup_alter_ne by done. eauto. }
  intros [H1 H2 H3]. split.
  - intros e x en (en' & Hx & ->)%Ha. by eapply H1.
  - intros e. specialize (H2 e). unfold is_str in *.
    destruct (alter _ k m !! avail_key e) as [[c t]|] eqn:Hx; [|done].
    apply Ha in Hx as ([c' t'] & Hx & Hc). cbn in Hc. subst c'. by rewrite Hx in H2.
  - intros e. specialize (H3 e). unfold is_str in *.
    destruct (alter _ k m !! detail_key e) as [[c t]|] eqn:Hx; [|done].
    apply Ha in Hx as ([c' t'] & Hx & Hc). cbn in Hc. subst c'. by rewrite Hx in H3.
Qed.

(** ** Proofs of the methods *)

Section Proofs.
Context {S : Type}.
Implicit Types (s : S) (v : SeatView).
Variable md : mode.
Abbreviation spec := (obeys md seat_behaviour).

Lemma acquire_wp eventId u se seatIds failed locked Q s v :
  (forall m', locks_added eventId u se (free_busy eventId (redis v) [] seatIds).1 (redis v) m' ->
     Q (Ok (failed ++ (free_busy eventId (redis v) [] seatIds).2,
            locked ++ map (lock_key eventId) (free_busy eventId (redis v) [] seatIds).1))
       s (with_redis m' v)) ->
  (forall e free m', md = Faulty ->
     (forall x, x ∈ free -> x ∈ seatIds /\ redis v !! lock_key eventId x = None) ->
     locks_added eventId u se free (redis v) m' -> Q (Err e) s (with_redis m' v)) ->
  wp spec (acquire eventId u se seatIds failed locked) Q s v.
Proof.
  revert failed locked v. induction seatIds as [|x rest IH]; intros failed locked v HQ HE.
  - cbn. specialize (HQ (redis v) (locks_added_nil _ _ _ _)). cbn in HQ.
    rewrite !app_nil_r in HQ. by destruct v.
  - cbn [acquire]. wp_step. wp_step. intros [now|e] v1 H; cbn in H; [subst v1|by destruct H as [_ [[]|[_ []]]]].
    wp_step. wp_step. intros [b|e] v1 H; cbn in H.
    2: { destruct H as [-> [[]|[Hmd _]]]. specialize (HE e [] (redis v) Hmd).
         destruct v. apply HE; [by intros ? ?%elem_of_nil|apply locks_added_nil]. }
    destruct H as (m1 & H & ->). cbn [free_busy] in HQ.
    destruct (redis v !! lock_key eventId x) as [en|] eqn:Hx; destruct H as [-> ->].
    + rewrite decide_False in HQ by (by intros [? _]). cbn zeta.
      apply IH.
      * intros m' Hm. specialize (HQ m').
        destruct (free_busy eventId (redis v) [] rest) as [f b] eqn:Hfb.
        cbn in *. rewrite Hfb in *. rewrite <- app_assoc. by apply HQ.
      * intros e free m' Hmd Hf Hm. apply (HE e free m'); [done| |done].
        intros y Hy. destruct (Hf y Hy). split; [by right|done].
    + rewrite decide_True in HQ by (split; [done|apply not_elem_of_nil]). cbn zeta.
      set (m1 := <[_ := _]> (redis v)).
      assert (free_busy eventId m1 [] rest = free_busy eventId (redis v) [x] rest) as Hfb1.
      { apply free_busy_taken; [done| |].
        - intros k Hk. unfold m1. by rewrite lookup_insert_ne.
        - unfold m1. by rewrite lookup_insert_eq. }
      apply IH.
      * intros m' Hm. cbn [redis with_redis] in *. rewrite Hfb1 in *. specialize (HQ m').
        pose proof (free_busy_free eventId (redis v) [x] rest x) as Hnx.
        destruct (free_busy eventId (redis v) [x] rest) as [f b] eqn:Hfb.
        cbn in *. rewrite <- app_assoc. apply HQ.
        eapply locks_added_cons; [|exact Hm]. intros Hin. apply Hnx in Hin as (_ & _ & Hn).
        apply Hn. left.
      * intros e free m' Hmd Hf Hm. cbn [redis with_redis] in Hf, Hm.
        assert (x ∉ free) as Hnx.
        { intros Hin. apply Hf in Hin as [_ Hn]. unfold m1 in Hn. by rewrite lookup_insert_eq in Hn. }
        apply (HE e (x :: free) m'); [done| |eapply locks_added_cons; [done|exact Hm]].
        intros y [->|Hy]%elem_of_cons; [split; [left|done]|].
        destruct (Hf y Hy) as [? Hn]. split; [by right|].
        unfold m1 in Hn. rewrite lookup_insert_ne in Hn; [done|].
        intros Hk%lock_key_inj. by subst.
Qed.

(** [for (const key of keys) await redis.del(key)] *)
Lemma del_keys_wp keys (Q : result unit -> S -> SeatView -> Prop) s v :
  Q (Ok tt) s (with_redis (foldl (fun m k => delete k m) (redis v) keys) v) ->
  (forall e ks, md = Faulty -> ks `prefix_of` keys ->
     Q (Err e) s (with_redis (foldl (fun m k => delete k m) (redis v) ks) v)) ->
  wp spec (for_each keys (fun key => call (SRedis (RDel key)))) Q s v.
Proof.
  revert v. induction keys as [|k keys IH]; intros v HQ HE; cbn [for_each].
  - cbn. by destruct v.
  - wp_step. wp_step. intros [[]|e] v1 H; cbn in H.
    + destruct H as (m1 & -> & ->). apply IH; [exact HQ|].
      intros e ks Hmd Hp. apply (HE e (k :: ks) Hmd). by apply prefix_cons.
    + destruct H as [-> [[]|[Hmd _]]]. specialize (HE e [] Hmd (prefix_nil _)). by destruct v.
Qed.

(** What a call of [lockSeats] does: it locks all the seats, or none of them;
    only a failing Redis leaves some locked. *)
Lemma lockSeats_wp eventId seatIds u se (Q : result (bool * list string) -> S -> SeatView -> Prop) s v :
  (forall m', NoDup seatIds -> (forall x, x ∈ seatIds -> redis v !! lock_key eventId x = None) ->
     locks_added eventId u se seatIds (redis v) m' -> Q (Ok (true, [])) s (with_redis m' v)) ->
  (forall busy, busy = (free_busy eventId (redis v) [] seatIds).2 -> busy <> [] ->
     Q (Ok (false, busy)) s v) ->
  (forall e m', md = Faulty -> (redis_typed (redis v) -> redis_typed m') ->
     (forall k, (exists x, x ∈ seatIds /\ k = lock_key eventId x /\ redis v !! k = None) \/
                m' !! k = redis v !! k) -> Q (Err e) s (with_redis m' v)) ->
  wp spec (lockSeats eventId seatIds u se) Q s v.
Proof.
  intros HT HF HE. unfold lockSeats. wp_step. apply acquire_wp.
  - intros m' Hm. cbn [app].
    destruct (free_busy eventId (redis v) [] seatIds) as [f b] eqn:Hfb. cbn [fst snd] in *.
    destruct b as [|x b].
    + cbn. pose proof (free_busy_none eventId (redis v) [] seatIds) as Hn.
      pose proof (free_busy_all eventId (redis v) [] seatIds) as Ha.
      rewrite Hfb in Hn, Ha. cbn in Hn, Ha. destruct (proj1 Hn eq_refl) as [Hnd Hx].
      rewrite Ha in Hm by done. apply HT; [done| |done]. intros y Hy. by apply Hx.
    + cbn [length Nat.ltb Nat.leb]. wp_step. apply del_keys_wp.
      * cbn [redis with_redis]. rewrite (locks_added_undo eventId u se f (redis v)); [| |done].
        { cbn. destruct v. apply HF; done. }
        intros y Hy. pose proof (free_busy_free eventId (redis v) [] seatIds y) as Hff.
        rewrite Hfb in Hff. by apply Hff.
      * intros e ks Hmd Hp. apply HE; [done| |].
        { intros Ht. apply typed_deletes. by eapply typed_locks_added. }
        intros k. cbn [redis with_redis].
        destruct (decide (k ∈ map (lock_key eventId) f)) as [Hk|Hk].
        { left. apply list_elem_of_fmap in Hk as (y & -> & Hy). exists y.
          pose proof (free_busy_free eventId (redis v) [] seatIds y) as Hff.
          rewrite Hfb in Hff. destruct (Hff Hy) as (? & ? & _). done. }
        right. destruct Hp as [ks' Hp]. destruct Hm as [_ Hm]. 
        assert (k ∉ ks) as Hks by (intros ?; apply Hk; rewrite Hp; apply elem_of_app; by left).
        rewrite <- Hm by done. clear -Hks. revert m' Hks. induction ks as [|z ks IH]; intros m' Hks; [done|].
        cbn. apply not_elem_of_cons in Hks as [? ?]. rewrite IH by done. by rewrite lookup_delete_ne.
  - intros e free m' Hmd Hf Hm0. apply HE; [done|by intros; eapply typed_locks_added|].
    destruct Hm0 as [_ Hm]. intros k.
    destruct (decide (k ∈ map (lock_key eventId) free)) as [Hk|Hk].
    + left. apply list_elem_of_fmap in Hk as (y & -> & Hy). exists y. destruct (Hf y Hy). done.
    + right. by apply Hm.
Qed.

Lemma parse_json_lock {B} i (f : json -> prog S SeatE B) :
  bind (parse_json (lock_value i)) f = f (lock_json i).
Proof. unfold parse_json. by rewrite lock_value_parse. Qed.

Lemma other_user_lock {B} i u (f : bool -> prog S SeatE B) :
  bind (other_user (lock_json i) u) f = f (negb (String.eqb (li_userId i) u)).
Proof. done. Qed.

(** Reading a lock key of a well-typed keyspace. *)
Lemma read_lock_wp eventId x (Q : result (option string) -> S -> SeatView -> Prop) s v :
  redis_typed (redis v) ->
  (forall i t, redis v !! lock_key eventId x = Some (Entry (RStr (lock_value i)) t) ->
     Q (Ok (Some (lock_value i))) s v) ->
  (redis v !! lock_key eventId x = None -> Q (Ok None) s v) ->
  (forall e, md = Faulty -> Q (Err e) s v) ->
  wp spec (call (SRedis (RGet (lock_key eventId x)))) Q s v.
Proof.
  intros Ht HS HN HE. wp_step. intros [o|e] v1 H; cbn in H.
  - destruct H as (m1 & [-> ->] & ->). replace (with_redis (redis v) v) with v by (by destruct v).
    unfold string_at. destruct (redis v !! lock_key eventId x) as [[c t]|] eqn:Hx; [|by apply HN].
    destruct (typed_lock _ Ht _ _ _ Hx) as [i Hi]. change (c = RStr (lock_value i)) in Hi. subst c. by eapply HS.
  - destruct H as [-> [Hr|[Hmd _]]]; [|by apply HE]. exfalso. unfold is_hash in Hr.
    destruct (redis v !! lock_key eventId x) as [[c t]|] eqn:Hx; [|done].
    destruct (typed_lock _ Ht _ _ _ Hx) as [i Hi]. change (c = RStr (lock_value i)) in Hi. by subst c.
Qed.

Lemma owned_by_json m eventId u x i t :
  m !! lock_key eventId x = Some (Entry (RStr (lock_value i)) t) ->
  owned_by m eventId u x = String.eqb (li_userId i) u.
Proof.
  intros Hx. unfold owned_by, lock_owner, string_at. rewrite Hx, lock_value_parse. done.
Qed.

Lemma owned_by_none m eventId u x : m !! lock_key eventId x = None -> owned_by m eventId u x = false.
Proof. intros Hx. unfold owned_by, lock_owner, string_at. by rewrite Hx. Qed.

Lemma release_loop_wp eventId seatIds u n (Q : result nat -> S -> SeatView -> Prop) s v :
  redis_typed (redis v) ->
  Q (Ok (n + drop_count eventId u seatIds (redis v))) s
    (with_redis (drop_locks eventId u seatIds (redis v)) v) ->
  (forall e pre, md = Faulty -> pre `prefix_of` seatIds ->
     Q (Err e) s (with_redis (drop_locks eventId u pre (redis v)) v)) ->
  wp spec (release_loop eventId seatIds u n) Q s v.
Proof.
  revert n v. induction seatIds as [|x rest IH]; intros n v Ht HQ HE.
  - cbn in *. rewrite Nat.add_0_r in HQ. by destruct v.
  - assert (forall e, md = Faulty -> Q (Err e) s v) as HE0.
    { intros e Hmd. specialize (HE e [] Hmd (prefix_nil _)). by destruct v. }
    assert (owned_by (redis v) eventId u x = false -> wp spec (release_loop eventId rest u n) Q s v) as Hskip.
    { intros Ho. cbn [drop_count drop_locks foldl] in HQ, HE. rewrite Ho in HQ.
      apply IH; [done|exact HQ|]. intros e pre Hmd Hp.
      specialize (HE e (x :: pre) Hmd (prefix_cons _ _ _ Hp)). cbn in HE. by rewrite Ho in HE. }
    cbn [release_loop]. wp_step. apply read_lock_wp; [done| | |done].
    + intros i t Hx. rewrite lock_value_truthy, parse_json_lock, other_user_lock.
      pose proof (owned_by_json _ _ u _ _ _ Hx) as Ho. cbn [negb].
      destruct (String.eqb_spec (li_userId i) u) as [Hu|Hu]; cbn [negb].
      2: { apply Hskip. exact Ho. }
      wp_step. wp_step. intros [[]|e] v1 H; cbn in H.
      * destruct H as (m1 & -> & ->). apply IH; [by apply typed_delete| |].
        -- cbn [drop_count drop_locks foldl] in HQ. rewrite Ho in HQ.
           rewrite <- Nat.add_assoc.
           exact HQ.
        -- intros e pre Hmd Hp. specialize (HE e (x :: pre) Hmd (prefix_cons _ _ _ Hp)).
           cbn [drop_locks foldl] in HE. rewrite Ho in HE. exact HE.
      * destruct H as [-> [[]|[Hmd _]]]. by apply HE0.
    + intros Hx. apply Hskip, owned_by_none, Hx.
Qed.

Lemma releaseLocks_wp eventId seatIds u (Q : result nat -> S -> SeatView -> Prop) s v :
  redis_typed (redis v) ->
  Q (Ok (drop_count eventId u seatIds (redis v))) s
    (with_redis (drop_locks eventId u seatIds (redis v)) v) ->
  (forall e pre, md = Faulty -> pre `prefix_of` seatIds ->
     Q (Err e) s (with_redis (drop_locks eventId u pre (redis v)) v)) ->
  wp spec (releaseLocks eventId seatIds u) Q s v.
Proof. intros Ht HQ HE. apply (release_loop_wp eventId seatIds u 0); done. Qed.

Lemma getLockInfo_wp eventId x (Q : result (option json) -> S -> SeatView -> Prop) s v :
  redis_typed (redis v) ->
  (forall i t, redis v !! lock_key eventId x = Some (Entry (RStr (lock_value i)) t) ->
     Q (Ok (Some (lock_json i))) s v) ->
  (redis v !! lock_key eventId x = None -> Q (Ok None) s v) ->
  (forall e, md = Faulty -> Q (Err e) s v) ->
  wp spec (getLockInfo eventId x) Q s v.
Proof.
  intros Ht HS HN HE. unfold getLockInfo. wp_step. apply read_lock_wp; [done| |done|done].
  intros i t Hx. rewrite lock_value_truthy, parse_json_lock. cbn. by eapply HS.
Qed.

Lemma extendLock_wp eventId seatIds u extra (Q : result bool -> S -> SeatView -> Prop) s v :
  redis_typed (redis v) ->
  (let own := owned_prefix eventId u (redis v) seatIds in
   Q (Ok (bool_decide (own = seatIds))) s
     (with_redis (extended eventId own (LOCK_TTL + extra) (redis v)) v)) ->
  (forall e pre, md = Faulty -> pre `prefix_of` owned_prefix eventId u (redis v) seatIds ->
     Q (Err e) s (with_redis (extended eventId pre (LOCK_TTL + extra) (redis v)) v)) ->
  wp spec (extendLock eventId seatIds u extra) Q s v.
Proof.
  revert v. induction seatIds as [|x rest IH]; intros v Ht HQ HE.
  - cbn in *. by destruct v.
  - assert (forall e, md = Faulty -> Q (Err e) s v) as HE0.
    { intros e Hmd. specialize (HE e [] Hmd (prefix_nil _)). by destruct v. }
    assert (owned_by (redis v) eventId u x = false -> Q (Ok false) s v) as Hstop.
    { intros Ho. cbn [owned_prefix] in HQ. rewrite Ho in HQ. cbn in HQ. by destruct v. }
    cbn [extendLock]. wp_step. apply read_lock_wp; [done| | |done].
    + intros i t Hx. rewrite lock_value_truthy, parse_json_lock, other_user_lock.
      pose proof (owned_by_json _ _ u _ _ _ Hx) as Ho. cbn [negb].
      destruct (String.eqb_spec (li_userId i) u) as [Hu|Hu]; cbn [negb]; [|by apply Hstop].
      cbn [owned_prefix] in HQ, HE. rewrite Ho in HQ, HE.
      wp_step. wp_step. intros [[]|e] v1 H; seat_sem H.
      * destruct H as (m1 & -> & ->).
        set (m1 := alter _ _ _). assert (owned_prefix eventId u m1 rest = owned_prefix eventId u (redis v) rest) as Hp.
        { apply owned_prefix_alter. }
        apply IH; [by apply typed_alter| |]; cbn [redis with_redis]; rewrite Hp.
        -- cbn zeta in *. replace (bool_decide (_ = rest)) with (bool_decide (x :: owned_prefix eventId u (redis v) rest = x :: rest)); [exact HQ|].
           apply bool_decide_ext. split; [by intros [= ?]|congruence].
        -- intros e pre Hmd Hpre. apply (HE e (x :: pre) Hmd). by apply prefix_cons.
      * destruct H as [-> [[]|[Hmd _]]]. by apply HE0.
    + intros Hx. apply Hstop, owned_by_none, Hx.
Qed.
End Proofs.

(** ** Properties *)

Section Properties.
Context {S W : Type} (h : forall X, SeatE X -> W -> result X * W) (view : W -> SeatView).
Variable md : mode.
Hypothesis Hh : conforms md seat_behaviour h view.
Implicit Types (s : S) (w : W).

(** C14: Locking is all-or-nothing: a successful [lockSeats] found every seat
    free and leaves a ten-minute lock of the caller on each of them and nothing
    else changed; a refused one names exactly the seats that were taken and
    leaves the world as it found it. *)
Theorem lockSeats_all_or_nothing eventId seatIds u se s w :
  let v := view w in
  let v' := view (final h (lockSeats eventId seatIds u se) s w) in
  match outcome h (lockSeats eventId seatIds u se) s w with
  | Ok (true, failed) =>
      failed = [] /\ NoDup seatIds /\
      (forall x, x ∈ seatIds -> redis v !! lock_key eventId x = None) /\
      locks_added eventId u se seatIds (redis v) (redis v') /\ tables v' = tables v /\ tx v' = tx v
  | Ok (false, failed) =>
      failed <> [] /\ failed = (free_busy eventId (redis v) [] seatIds).2 /\ v' = v
  | Err _ => md = Faulty
  end.
Proof.
  cbn zeta. call_wp Hh w.
  apply lockSeats_wp; cbn; auto.
  intros m' Hnd Hf Hm. by split_and!.
Qed.

(** A request succeeds exactly when its seats are distinct and none of
    them is locked. *)
Theorem lockSeats_succeeds_iff eventId seatIds u se s w :
  md = Reliable ->
  outcome h (lockSeats eventId seatIds u se) s w = Ok (true, []) <->
  NoDup seatIds /\ forall x, x ∈ seatIds -> redis (view w) !! lock_key eventId x = None.
Proof.
  intros Hmd.
  call_wp Hh w.
  apply lockSeats_wp; [done| |intros; congruence].
  intros busy Hb Hne. split; [congruence|]. intros [Hnd Hf]. exfalso. apply Hne. rewrite Hb.
  apply free_busy_none. split; [done|]. intros x Hx. split; [auto|]. apply not_elem_of_nil.
Qed.

(** Mutual exclusion: after one user's [lockSeats] succeeded, no later
    request of anybody that shares a seat with it succeeds, and a refused
    request leaves the locks in place. *)
Theorem lockSeats_exclusive eventId seatIds seatIds' u se u' se' x s s' w :
  let w1 := final h (lockSeats eventId seatIds u se) s w in
  outcome h (lockSeats eventId seatIds u se) s w = Ok (true, []) ->
  x ∈ seatIds -> x ∈ seatIds' ->
  match outcome h (lockSeats eventId seatIds' u' se') s' w1 with
  | Ok (ok, failed) =>
      ok = false /\ x ∈ failed /\ view (final h (lockSeats eventId seatIds' u' se') s' w1) = view w1
  | Err _ => md = Faulty
  end.
Proof.
  cbn zeta. intros Ho Hx Hx'.
  set (w1 := final h (lockSeats eventId seatIds u se) s w).
  assert (redis (view w1) !! lock_key eventId x <> None) as Hl.
  { unfold w1. revert Ho. call_wp Hh w.
    apply lockSeats_wp; [|congruence|congruence].
    intros m' _ _ [Hm _] _. cbn. destruct (Hm x Hx) as [now ->]. done. }
  call_wp Hh w1.
  apply lockSeats_wp; [|..|auto].
  - intros m' _ Hf _. exfalso. apply Hl. auto.
  - intros busy -> _. split_and!; [done| |done].
    pose proof (free_busy_perm eventId (redis (view w1)) [] seatIds') as Hp.
    pose proof (free_busy_free eventId (redis (view w1)) [] seatIds' x) as Hff.
    destruct (free_busy eventId (redis (view w1)) [] seatIds') as [f b]. cbn in *.
    rewrite <- Hp in Hx'. apply elem_of_app in Hx' as [Hx'|Hx']; [|done].
    exfalso. by apply Hl, Hff.
Qed.

(** Only the owner's locks are released: [releaseSeats] deletes the
    user's locks on the given seats, whatever the seats, leaves every other key
    alone, and returns the number of deleted locks. *)
Theorem releaseLocks_own_only eventId seatIds u s w :
  redis_typed (redis (view w)) ->
  let m := redis (view w) in
  let v' := view (final h (releaseLocks eventId seatIds u) s w) in
  tables v' = tables (view w) /\
  (forall k, (forall x, x ∈ seatIds -> owned_by m eventId u x = true -> k <> lock_key eventId x) ->
     redis v' !! k = m !! k) /\
  match outcome h (releaseLocks eventId seatIds u) s w with
  | Ok released =>
      released = drop_count eventId u seatIds m /\
      (forall x, x ∈ seatIds -> owned_by m eventId u x = true ->
         redis v' !! lock_key eventId x = None)
  | Err _ => md = Faulty
  end.
Proof.
  intros Ht. cbn zeta.
  assert (forall pre k, pre `prefix_of` seatIds ->
    (forall x, x ∈ seatIds -> owned_by (redis (view w)) eventId u x = true -> k <> lock_key eventId x) ->
    drop_locks eventId u pre (redis (view w)) !! k = redis (view w) !! k) as Hkeep.
  { intros pre k [suf Hp] Hk. destruct (decide (k ∈ map (lock_key eventId) pre)) as [Hin|Hin].
    - apply list_elem_of_fmap in Hin as (x & -> & Hx). apply drop_locks_foreign.
      apply Bool.not_true_iff_false. intros Ho. apply (Hk x); [|done..].
      rewrite Hp. apply elem_of_app. by left.
    - by apply drop_locks_other. }
  call_wp Hh w.
  apply releaseLocks_wp; [done| |].
  - cbn. split_and!; [done| |done|]; eauto using drop_locks_owned.
  - intros e pre Hmd Hp. cbn. split_and!; eauto.
Qed.

(** A lock can be read back and undone: after a successful [lockSeats],
    [getLockInfo] of each seat returns the caller's record, and [releaseSeats]
    of the same seats returns their number and restores the keyspace. *)
Theorem lock_roundtrip eventId seatIds u se x s s' s'' w :
  redis_typed (redis (view w)) ->
  let w1 := final h (lockSeats eventId seatIds u se) s w in
  outcome h (lockSeats eventId seatIds u se) s w = Ok (true, []) ->
  x ∈ seatIds ->
  match outcome h (getLockInfo eventId x) s' w1 with
  | Ok o => exists now, o = Some (lock_json (mkLockInfo u se now))
  | Err _ => md = Faulty
  end /\
  match outcome h (releaseLocks eventId seatIds u) s'' w1 with
  | Ok n => n = length seatIds /\
      redis (view (final h (releaseLocks eventId seatIds u) s'' w1)) = redis (view w)
  | Err _ => md = Faulty
  end.
Proof.
  cbn zeta. intros Ht Ho Hx. set (w1 := final h (lockSeats eventId seatIds u se) s w).
  assert (NoDup seatIds /\ (forall x, x ∈ seatIds -> redis (view w) !! lock_key eventId x = None) /\
    locks_added eventId u se seatIds (redis (view w)) (redis (view w1))) as (Hnd & Hf & Hm).
  { unfold w1. revert Ho. call_wp Hh w. apply lockSeats_wp; [|congruence|congruence]. done. }
  assert (redis_typed (redis (view w1))) as Ht1 by (by eapply typed_locks_added).
  split.
  - call_wp Hh w1. apply getLockInfo_wp; [done| |intros Hn|done].
    + intros i t Hi. destruct Hm as [Hm _]. destruct (Hm x Hx) as [now Hnow].
      rewrite Hnow in Hi. exists now.
      assert (lock_value (mkLockInfo u se now) = lock_value i) as Hv by congruence.
      by apply lock_value_inj in Hv as <-.
    + destruct Hm as [Hm _]. destruct (Hm x Hx) as [now Hnow]. congruence.
  - call_wp Hh w1. apply releaseLocks_wp; [done| |done]. cbn.
    by apply (drop_locks_added eventId u se).
Qed.

(** [extendLock] succeeds exactly when the user holds every lock, and
    prolongs the locks up to the first one the user does not hold. *)
Theorem extendLock_prefix eventId seatIds u extra s w :
  redis_typed (redis (view w)) ->
  let own := owned_prefix eventId u (redis (view w)) seatIds in
  match outcome h (extendLock eventId seatIds u extra) s w with
  | Ok b =>
      (b = true <-> forall x, x ∈ seatIds -> owned_by (redis (view w)) eventId u x = true) /\
      redis (view (final h (extendLock eventId seatIds u extra) s w)) =
        extended eventId own (LOCK_TTL + extra) (redis (view w))
  | Err _ => md = Faulty
  end.
Proof.
  intros Ht. cbn zeta. call_wp Hh w. apply extendLock_wp; [done| |done]. cbn. split; [|done].
  rewrite bool_decide_eq_true. apply owned_prefix_all.
Qed.
End Properties.

(** ** Concrete runs *)

Abbreviation demo_lock u := (@lockSeats unit "ev" ["A1"; "A2"]%string u "sess").

Lemma lockSeats_all_or_nothing_witness :
  locks_added "ev" "alice" "sess" ["A1"; "A2"] ∅
    (redis (seat_view (final seat_run (demo_lock "alice") tt demo_world))).
Proof.
  pose proof (lockSeats_all_or_nothing seat_run seat_view Reliable seat_run_conforms
    "ev" ["A1"; "A2"] "alice" "sess" tt demo_world) as H.
  cbn zeta in H. eval_outcome H. destruct H as (_ & _ & _ & H & _). exact H.
Defined.

Lemma lockSeats_succeeds_iff_witness :
  outcome seat_run (demo_lock "alice") tt demo_world = Ok (true, []).
Proof.
  apply (lockSeats_succeeds_iff seat_run seat_view Reliable seat_run_conforms); [reflexivity|].
  split; [apply (bool_decide_unpack _); vm_compute; exact I|].
  intros x _. apply lookup_empty.
Defined.

Lemma lockSeats_exclusive_witness :
  match outcome seat_run (@lockSeats unit "ev" ["A2"; "A3"] "bob" "sess2") tt
          (final seat_run (demo_lock "alice") tt demo_world) with
  | Ok (ok, failed) => ok = false /\ "A2"%string ∈ failed
  | Err _ => False
  end.
Proof.
  pose proof (lockSeats_exclusive seat_run seat_view Reliable seat_run_conforms
    "ev" ["A1"; "A2"] ["A2"; "A3"] "alice" "sess" "bob" "sess2" "A2" tt tt demo_world) as H.
  cbn zeta in H.
  destruct (outcome seat_run (lockSeats "ev" ["A2"; "A3"] "bob" "sess2") tt _) as [[ok failed]|e].
  - destruct H as (H1 & H2 & _); [vm_compute; reflexivity|right; left|left|]. split; assumption.
  - discriminate H; [vm_compute; reflexivity|right; left|left].
Defined.

Lemma releaseLocks_own_only_witness :
  tables (seat_view (final seat_run (@releaseLocks unit "ev" ["A1"; "A2"] "alice") tt demo_world))
    = tables (seat_view demo_world).
Proof.
  destruct (releaseLocks_own_only seat_run seat_view Reliable seat_run_conforms
    "ev" ["A1"; "A2"] "alice" tt demo_world redis_typed_empty) as [H _].
  exact H.
Defined.

Lemma lock_roundtrip_witness :
  redis (seat_view (final seat_run (@releaseLocks unit "ev" ["A1"; "A2"] "alice") tt
    (final seat_run (demo_lock "alice") tt demo_world))) = ∅.
Proof.
  destruct (lock_roundtrip seat_run seat_view Reliable seat_run_conforms
    "ev" ["A1"; "A2"] "alice" "sess" "A1" tt tt tt demo_world) as [_ H].
  - apply redis_typed_empty.
  - vm_compute. reflexivity.
  - left.
  - eval_outcome H. destruct H as [_ H]. exact H.
Defined.

Lemma extendLock_prefix_witness : ~ owned_by ∅ "ev" "alice" "A1" = true.
Proof.
  intros Ho.
  pose proof (extendLock_prefix seat_run seat_view Reliable seat_run_conforms
    "ev" ["A1"] "alice" 300 tt demo_world redis_typed_empty) as H.
  cbn zeta in H. eval_outcome H. destruct H as [[_ H] _].
  discriminate H. intros x Hx. apply list_elem_of_singleton in Hx. subst x. exact Ho.
Defined.
