(* ===== verification/Availability.v ===== *)
(** * AvailabilityReadService

    apps/seat-inventory-service/src/cqrs/availability-read.service.ts: the read
    model of the seats, two Redis hashes per event ([avail:<event>] maps seats
    to statuses, [seat_detail:<event>] to their JSON description).  [coherent]
    states what the read model promises: the hashes hold exactly the event's
    seats, each with its status in the table. *)

From S2P Require Import Prelude Effects JsNumber Json Redis Sql SeatWorld SeatRef.

(** A detail as [rebuildCache] stores it. *)
Definition detail_json (seat : SeatInventory) : json :=
  JObj [("seatId", JStr (si_seatId seat)); ("sectionId", JStr (si_sectionId seat));
        ("sectionName", JStr (si_sectionName seat)); ("ticketTypeId", JStr (si_ticketTypeId seat));
        ("ticketTypeName", JStr (si_ticketTypeName seat)); ("price", JStr (si_price seat));
        ("currency", JStr (si_currency seat)); ("row", JStr (si_row seat));
        ("seatNumber", JStr (si_seatNumber seat)); ("seatType", JStr (si_seatType seat))]%string.

(** [o[key] = v] on an object's own properties. *)
Fixpoint set_key (key : string) (v : json) (fields : list (string * json)) : list (string * json) :=
  match fields with
  | [] => [(key, v)]
  | (k, w) :: rest => if String.eqb k key then (k, v) :: rest else (k, w) :: set_key key v rest
  end.

(** The own properties [...j] copies. *)
Definition index_fields (l : list json) : list (string * json) :=
  imap (fun i x => (N_to_string (N.of_nat i), x)) l.

Definition spread (j : json) : list (string * json) :=
  match j with
  | JObj fs => fs
  | JArr l => index_fields l
  | JStr s => index_fields (map (fun c => JStr (String c EmptyString)) (String.list_ascii_of_string s))
  | JNull | JBool _ | JNum _ | JDec _ _ _ _ => []
  end.

(** [{ ...detail, status }] *)
Definition seat_with_status (detail : json) (status : string) : json :=
  JObj (set_key "status" (JStr status) (spread detail)).

(** [seat.status === status] *)
Definition has_status (status : string) (seat : json) : bool :=
  match member "status" seat with Some (JStr s) => String.eqb s status | _ => false end.

(** The counters of one section in the summary. *)
Record Section_ := mkSection {
  total : nat;
  available : nat;
  held : nat;
  sold : nat;
  price : option json;
}.

Definition count_seat (seat : json) (s : Section_) : Section_ :=
  if has_status (seat_status_value AVAILABLE) seat
  then mkSection (total s + 1) (available s + 1) (held s) (sold s) (price s)
  else if has_status (seat_status_value HELD) seat
  then mkSection (total s + 1) (available s) (held s + 1) (sold s) (price s)
  else if has_status (seat_status_value SOLD) seat
  then mkSection (total s + 1) (available s) (held s) (sold s + 1) (price s)
  else mkSection (total s + 1) (available s) (held s) (sold s) (price s).

(** [seat.sectionName || 'Unknown'], for section names that are strings. *)
Definition section_key (seat : json) : string :=
  match member "sectionName" seat with
  | Some (JStr s) => str_or s "Unknown"
  | _ => "Unknown"
  end.

(** A [Map] keeps its entries in insertion order. *)
Fixpoint add_to_section (seat : json) (sections : list (string * Section_))
    : list (string * Section_) :=
  match sections with
  | [] => [(section_key seat, count_seat seat (mkSection 0 0 0 0 (member "price" seat)))]
  | (k, s) :: rest =>
      if String.eqb k (section_key seat) then (k, count_seat seat s) :: rest
      else (k, s) :: add_to_section seat rest
  end.

Record Summary := mkSummary {
  totalSeats : nat;
  sum_available : nat;
  sum_held : nat;
  sum_sold : nat;
  sections : list (string * Section_);
}.

Definition summarize (allSeats : list json) : Summary :=
  mkSummary (length allSeats)
    (length (List.filter (has_status (seat_status_value AVAILABLE)) allSeats))
    (length (List.filter (has_status (seat_status_value HELD)) allSeats))
    (length (List.filter (has_status (seat_status_value SOLD)) allSeats))
    (foldl (fun m seat => add_to_section seat m) [] allSeats).

Definition status_update (status : SeatStatus) (seatId : string) : string * string :=
  (seatId, seat_status_value status).

Section Service.
Context {S : Type}.
Implicit Types eventId seatId : string.

Definition updateSeatsStatus eventId seatId (status : string) : prog S SeatE unit :=
  call (SRedis (RHSet (avail_key eventId) seatId status)).

Definition updateMultipleSeatsStatus eventId (updates : list (string * string)) : prog S SeatE unit :=
  call (SRedis (RPipeline (hset_all (avail_key eventId) updates))).

(** The commands [rebuildCache] queues for one seat. *)
Definition seat_commands eventId (seat : SeatInventory) : list rcmd :=
  [PHSet (avail_key eventId) (si_seatId seat) (seat_status_value (si_status seat));
   PHSet (detail_key eventId) (si_seatId seat) (stringify (detail_json seat))].

Definition rebuildCache eventId : prog S SeatE unit :=
  seats <- call (SeatFind (fun r => String.eqb (si_eventId r) eventId)) ;;
  if Nat.eqb (length seats) 0 then Ret tt
  else
    call (SRedis (RPipeline
      (PDel (avail_key eventId) :: PDel (detail_key eventId) ::
       concat (map (seat_commands eventId) seats)))).

Definition warmUpCache : prog S SeatE unit :=
  eventIds <- call SeatEventIds ;;
  for_each eventIds rebuildCache.

(** [details[seatId]] *)
Definition detail_of (details : list (string * string)) seatId : option string :=
  snd <$> List.find (fun kv => String.eqb kv.1 seatId) details.

(** The callback of [Object.entries(statuses).map]. *)
Definition describe (details : list (string * string)) (kv : string * string) : result json :=
  match detail_of details kv.1 with
  | Some d =>
      if truthy d then
        match parse d with
        | Some j => Ok (seat_with_status j kv.2)
        | None => Err (SyntaxError "Unexpected token in JSON")
        end
      else Ok (seat_with_status JNull kv.2)
  | None => Ok (seat_with_status JNull kv.2)
  end.

(** [xs.map(f)] for a callback that may throw. *)
Fixpoint map_result {A B} (f : A -> result B) (xs : list A) : result (list B) :=
  match xs with
  | [] => Ok []
  | x :: xs =>
      match f x with
      | Err e => Err e
      | Ok y => match map_result f xs with Ok ys => Ok (y :: ys) | Err e => Err e end
      end
  end.

Definition getEventSeatsWithStatus eventId : prog S SeatE (list json) :=
  statuses <- call (SRedis (RHGetAll (avail_key eventId))) ;;
  details <- call (SRedis (RHGetAll (detail_key eventId))) ;;
  r <- (if Nat.eqb (length statuses) 0 then
          rebuildCache eventId ;;
          statuses <- call (SRedis (RHGetAll (avail_key eventId))) ;;
          details <- call (SRedis (RHGetAll (detail_key eventId))) ;;
          Ret (statuses, details)
        else Ret (statuses, details)) ;;
  let '(statuses, details) := r in
  of_result (map_result (describe details) statuses).

Definition getAvailableSeatsDetailed eventId : prog S SeatE (list json) :=
  allSeats <- getEventSeatsWithStatus eventId ;;
  Ret (List.filter (has_status (seat_status_value AVAILABLE)) allSeats).

Definition getEventAvailabilitySummary eventId : prog S SeatE Summary :=
  allSeats <- getEventSeatsWithStatus eventId ;;
  Ret (summarize allSeats).

Definition getAvailableCount eventId : prog S SeatE nat :=
  statuses <- call (SRedis (RHGetAll (avail_key eventId))) ;;
  Ret (length (List.filter (String.eqb "available") (map snd statuses))).

Definition getSeatStatus eventId seatId : prog S SeatE (option string) :=
  call (SRedis (RHGet (avail_key eventId) seatId)).
End Service.

(** ** Specification *)

Definition of_event (eventId : string) (r : SeatInventory) : bool := String.eqb (si_eventId r) eventId.

Definition event_rows (eventId : string) (t : SeatTables) : list SeatInventory :=
  List.filter (of_event eventId) (rows (seats t)).

(** The row of a seat. *)
Definition seat_at (t : SeatTables) (eventId seatId : string) : option SeatInventory :=
  List.find (fun r => String.eqb (si_eventId r) eventId && String.eqb (si_seatId r) seatId)
    (rows (seats t)).

Definition status_value (r : SeatInventory) : string := seat_status_value (si_status r).

(** The read model shows exactly the event's seats with their statuses. *)
Record coherent (eventId : string) (v : SeatView) : Prop := {
  coh_status : forall x, hash_at (redis v) (avail_key eventId) !! x =
    status_value <$> seat_at (tables v) eventId x;
  coh_detail : forall x, hash_at (redis v) (detail_key eventId) !! x =
    (fun r => stringify (detail_json r)) <$> seat_at (tables v) eventId x;
}.

(** The entry a client of the read model gets for a row. *)
Definition seat_entry (r : SeatInventory) : json :=
  seat_with_status (detail_json r) (status_value r).

(** ** Lemmas *)

Lemma seat_at_spec t e x r :
  tables_wf t -> seat_at t e x = Some r <-> r ∈ rows (seats t) /\ seat_key r = (e, x).
Proof.
  intros Hwf. unfold seat_at. split.
  - intros [Hin Hp]%find_Some_elem. apply andb_true_iff in Hp as [He Hx].
    apply String.eqb_eq in He as <-, Hx as <-. done.
  - intros [Hin Hk]. unfold seat_key in Hk. simplify_eq.
    destruct (List.find _ _) as [r'|] eqn:Hf.
    + apply find_Some_elem in Hf as [Hin' Hp]. apply andb_true_iff in Hp as [He Hx].
      apply String.eqb_eq in He, Hx.
      pose proof (wf_seats_keyed _ Hwf) as Hkd.
      rewrite (elem_of_rows si_id) in Hin by done. rewrite (elem_of_rows si_id) in Hin' by done.
      assert (si_id r' = si_id r) as Hid.
      { eapply (wf_seats_unique _ Hwf); eauto. unfold seat_key. congruence. }
      congruence.
    + rewrite find_None_elem in Hf. specialize (Hf r Hin). cbn in Hf.
      by rewrite !String.eqb_refl in Hf.
Qed.

Lemma seat_at_None t e x :
  seat_at t e x = None <-> (forall r, r ∈ rows (seats t) -> seat_key r <> (e, x)).
Proof.
  unfold seat_at. rewrite find_None_elem. split; intros H r Hr; specialize (H r Hr).
  - intros Hk. unfold seat_key in Hk. simplify_eq. cbn in H. by rewrite !String.eqb_refl in H.
  - apply andb_false_iff. destruct (String.eqb_spec (si_eventId r) e) as [<-|]; [right|by left].
    apply String.eqb_neq. intros <-. by apply H.
Qed.

(** The seat ids of an event's rows are distinct. *)
Lemma event_seatIds_nodup t e l :
  tables_wf t -> selects (of_event e) (seats t) l -> NoDup (map si_seatId l).
Proof.
  intros Hwf Hs. pose proof (wf_seats_keyed _ Hwf) as Hk.
  assert (NoDup (map si_id l)) as Hnd by (by eapply selects_nodup).
  assert (forall r, r ∈ l -> seats t !! si_id r = Some r /\ si_eventId r = e) as Hl.
  { intros r Hr. eapply selects_elem in Hr as [? He]; eauto. by apply String.eqb_eq in He. }
  clear Hs. induction l as [|r l IH]; [constructor|]. cbn in Hnd |- *.
  apply NoDup_cons in Hnd as [Hr Hnd]. constructor.
  - intros (r' & Heq & Hin)%list_elem_of_fmap.
    destruct (Hl r) as [H1 H2]; [left|]. destruct (Hl r') as [H3 H4]; [by right|].
    apply Hr. apply list_elem_of_fmap. exists r'. split; [|done].
    eapply (wf_seats_unique _ Hwf); eauto. unfold seat_key. congruence.
  - apply IH; [done|]. intros r' Hr'. apply Hl. by right.
Qed.

Lemma elem_of_event_rows t e r :
  r ∈ event_rows e t <-> r ∈ rows (seats t) /\ si_eventId r = e.
Proof. unfold event_rows. rewrite elem_of_filterb. unfold of_event. by rewrite String.eqb_eq. Qed.

Lemma set_fields_lookup kvs h k v :
  NoDup kvs.*1 -> (k, v) ∈ kvs -> set_fields kvs h !! k = Some v.
Proof.
  revert h. induction kvs as [|[k' v'] kvs IH]; intros h Hnd Hin; [by apply elem_of_nil in Hin|].
  cbn in Hnd. apply NoDup_cons in Hnd as [Hk Hnd]. cbn [set_fields foldl fst snd].
  apply elem_of_cons in Hin as [Heq|Hin].
  - simplify_eq. fold (set_fields kvs (<[k':=v']> h)). rewrite set_fields_lookup_notin by done.
    apply lookup_insert_eq.
  - by apply IH.
Qed.

(** What the pipeline of [rebuildCache] leaves in the two hashes. *)
Lemma seat_commands_fold e l m :
  is_str m (avail_key e) = false -> is_str m (detail_key e) = false ->
  let m' := foldl apply_cmd m (concat (map (seat_commands e) l)) in
  hash_at m' (avail_key e) =
    set_fields (map (fun r => (si_seatId r, status_value r)) l) (hash_at m (avail_key e)) /\
  hash_at m' (detail_key e) =
    set_fields (map (fun r => (si_seatId r, stringify (detail_json r))) l) (hash_at m (detail_key e)) /\
  (forall k, k <> avail_key e -> k <> detail_key e -> m' !! k = m !! k) /\
  is_str m' (avail_key e) = false /\ is_str m' (detail_key e) = false.
Proof.
  revert m. induction l as [|r l IH]; intros m Ha Hd; [done|].
  cbn [map concat seat_commands app foldl apply_cmd].
  set (m1 := hset (avail_key e) _ _ m). set (m2 := hset (detail_key e) _ _ m1).
  assert (is_str m2 (avail_key e) = false /\ is_str m2 (detail_key e) = false) as [Ha2 Hd2].
  { unfold m2, m1. by rewrite !hset_is_str. }
  destruct (IH m2 Ha2 Hd2) as (H1 & H2 & H3 & H4 & H5). cbn zeta in *.
  assert (hash_at m2 (avail_key e) = <[si_seatId r := status_value r]> (hash_at m (avail_key e))) as E1.
  { unfold m2, hash_at at 1. rewrite hset_other by auto with ticketing.
    by apply hset_hash_at. }
  assert (hash_at m2 (detail_key e) =
    <[si_seatId r := stringify (detail_json r)]> (hash_at m (detail_key e))) as E2.
  { unfold m2. rewrite hset_hash_at by (unfold m1; by rewrite hset_is_str). f_equal.
    unfold hash_at, m1. by rewrite hset_other by auto with ticketing. }
  rewrite E1 in H1. rewrite E2 in H2. split_and!; auto.
  intros k Hk1 Hk2. rewrite H3 by done. unfold m2, m1. by rewrite !hset_other by done.
Qed.

Lemma selects_event_rows e t l : selects (of_event e) (seats t) l <-> l ≡ₚ event_rows e t.
Proof. done. Qed.

(** The commands of a rebuild make the event's read model coherent. *)
Lemma rebuild_coherent e v l :
  tables_wf (tables v) -> selects (of_event e) (seats (tables v)) l ->
  coherent e (with_redis (foldl apply_cmd (redis v)
    (PDel (avail_key e) :: PDel (detail_key e) :: concat (map (seat_commands e) l))) v).
Proof.
  intros Hwf Hs. cbn [foldl apply_cmd].
  set (m := delete (detail_key e) (delete (avail_key e) (redis v))).
  assert (m !! avail_key e = None) as Ha.
  { unfold m. rewrite lookup_delete_ne by auto with ticketing. apply lookup_delete_eq. }
  assert (m !! detail_key e = None) as Hd by apply lookup_delete_eq.
  destruct (seat_commands_fold e l m) as (H1 & H2 & _);
    [by unfold is_str; rewrite Ha | by unfold is_str; rewrite Hd |]. cbn zeta in *.
  pose proof (event_seatIds_nodup _ _ _ Hwf Hs) as Hnd.
  assert (forall f x, set_fields (map (fun r => (si_seatId r, f r)) l) ∅ !! x =
    f <$> seat_at (tables v) e x) as Hf.
  { intros f x. destruct (seat_at (tables v) e x) as [r|] eqn:Hat; cbn.
    - apply seat_at_spec in Hat as [Hin Hk]; [|done]. unfold seat_key in Hk. simplify_eq.
      apply set_fields_lookup.
      + by rewrite <- list_fmap_compose.
      + apply list_elem_of_fmap. exists r. split; [done|].
        unfold selects in Hs. rewrite Hs. by apply elem_of_event_rows.
    - rewrite set_fields_lookup_notin; [done|]. rewrite <- list_fmap_compose.
      intros (r & Hx & Hin)%list_elem_of_fmap. cbn in Hx.
      unfold selects in Hs. rewrite Hs in Hin. apply elem_of_event_rows in Hin as [Hin He].
      eapply seat_at_None in Hat; [|exact Hin]. apply Hat. unfold seat_key. congruence. }
  split; intros x; cbn [redis with_redis tables].
  - rewrite H1. unfold hash_at at 1. rewrite Ha. apply Hf.
  - rewrite H2. unfold hash_at at 1. rewrite Hd. apply Hf.
Qed.

Lemma rebuild_cmds_typed e l :
  Forall read_model_cmd
    (PDel (avail_key e) :: PDel (detail_key e) :: concat (map (seat_commands e) l)).
Proof.
  repeat constructor. apply Forall_concat, Forall_map, Forall_true. intros r.
  repeat constructor; exists e; auto.
Qed.

Lemma update_cmds_typed e us : Forall read_model_cmd (hset_all (avail_key e) us).
Proof. apply Forall_map, Forall_true. intros [x st]. exists e. by left. Qed.

(** Only the event's own two keys change. *)
Definition same_but_event (e : string) (m m' : RedisView) : Prop :=
  forall k, k <> avail_key e -> k <> detail_key e -> m' !! k = m !! k.

Lemma rebuild_cmds_frame e l m :
  same_but_event e m (foldl apply_cmd m
    (PDel (avail_key e) :: PDel (detail_key e) :: concat (map (seat_commands e) l))).
Proof.
  intros k Ha Hd. apply cmds_other. repeat constructor; [done..|].
  apply Forall_concat, Forall_map, Forall_true. intros r. repeat constructor; cbn; auto.
Qed.

Lemma with_redis_id v : with_redis (redis v) v = v.
Proof. by destruct v. Qed.

(** The statuses of a coherent read model, as a client gets them. *)
Lemma coherent_statuses e v l :
  tables_wf (tables v) -> coherent e v -> l ≡ₚ map_to_list (hash_at (redis v) (avail_key e)) ->
  exists rs, rs ≡ₚ event_rows e (tables v) /\ l = map (fun r => (si_seatId r, status_value r)) rs.
Proof.
  intros Hwf Hc Hl.
  assert (l ≡ₚ map (fun r => (si_seatId r, status_value r)) (event_rows e (tables v))) as Hp.
  { rewrite Hl. apply NoDup_Permutation.
    - apply NoDup_map_to_list.
    - apply (NoDup_fmap_1 fst). rewrite <- list_fmap_compose.
      apply (event_seatIds_nodup (tables v) e); [done|]. by apply selects_event_rows.
    - intros [x st]. rewrite elem_of_map_to_list, (coh_status _ _ Hc), list_elem_of_fmap. split.
      + intros Hx. destruct (seat_at (tables v) e x) as [r|] eqn:Hat; [|done]. cbn in Hx.
        apply Some_inj in Hx as <-.
        apply seat_at_spec in Hat as [Hin Hk]; [|done]. unfold seat_key in Hk. simplify_eq.
        exists r. split; [done|]. by apply elem_of_event_rows.
      + intros (r & Heq & Hin). simplify_eq. apply elem_of_event_rows in Hin as [Hin He].
        replace (seat_at (tables v) e (si_seatId r)) with (Some r); [done|].
        symmetry. apply seat_at_spec; [done|]. split; [done|]. unfold seat_key. congruence. }
  apply Permutation_map_inv in Hp as (rs & -> & Hrs). exists rs. split; [by symmetry|done].
Qed.

Lemma map_result_ok {A B} (f : A -> result B) (g : A -> B) xs :
  (forall x, x ∈ xs -> f x = Ok (g x)) -> map_result f xs = Ok (map g xs).
Proof.
  induction xs as [|x xs IH]; intros H; cbn; [done|].
  rewrite (H x) by left. rewrite IH; [done|]. intros y Hy. apply H. by right.
Qed.

Lemma map_result_map {A B C} (f : B -> result C) (g : A -> B) xs :
  map_result f (map g xs) = map_result (fun x => f (g x)) xs.
Proof. induction xs as [|x xs IH]; cbn; [done|]. by rewrite IH. Qed.

Lemma detail_of_lookup (details : list (string * string)) (h : gmap string string) x :
  details ≡ₚ map_to_list h -> detail_of details x = h !! x.
Proof.
  intros Hp. unfold detail_of. destruct (List.find _ details) as [[k d]|] eqn:Hf; cbn.
  - apply find_Some_elem in Hf as [Hin Hk]. apply String.eqb_eq in Hk. cbn in Hk. subst k.
    rewrite Hp in Hin. symmetry. by apply elem_of_map_to_list.
  - rewrite find_None_elem in Hf. destruct (h !! x) as [d|] eqn:Hx; [|done].
    apply elem_of_map_to_list in Hx. rewrite <- Hp in Hx.
    specialize (Hf _ Hx). cbn in Hf. by rewrite String.eqb_refl in Hf.
Qed.

(** A coherent read model is presented row by row. *)
Lemma coherent_present e v statuses details :
  tables_wf (tables v) -> coherent e v ->
  statuses ≡ₚ map_to_list (hash_at (redis v) (avail_key e)) ->
  details ≡ₚ map_to_list (hash_at (redis v) (detail_key e)) ->
  exists rs, rs ≡ₚ event_rows e (tables v) /\
    map_result (describe details) statuses = Ok (map seat_entry rs).
Proof.
  intros Hwf Hc Hs Hd.
  destruct (coherent_statuses _ _ _ Hwf Hc Hs) as (rs & Hrs & ->).
  exists rs. split; [done|]. rewrite map_result_map. apply map_result_ok. intros r Hr.
  rewrite Hrs in Hr. apply elem_of_event_rows in Hr as [Hin He].
  unfold describe. cbn [fst snd]. rewrite (detail_of_lookup _ _ _ Hd), (coh_detail _ _ Hc).
  replace (seat_at (tables v) e (si_seatId r)) with (Some r).
  - cbn [fmap option_fmap option_map]. rewrite parse_print. by destruct r.
  - symmetry. apply seat_at_spec; [done|]. split; [done|]. unfold seat_key. congruence.
Qed.

(** ** Proofs of the methods *)

Section Proofs.
Context {S : Type}.
Implicit Types (s : S) (v : SeatView).
Variable md : mode.
Abbreviation spec := (obeys md seat_behaviour).

Lemma updateMultipleSeatsStatus_wp e us (Q : result unit -> S -> SeatView -> Prop) s v :
  Q (Ok tt) s (with_redis (foldl apply_cmd (redis v) (hset_all (avail_key e) us)) v) ->
  (forall err, md = Faulty -> Q (Err err) s v) ->
  wp spec (updateMultipleSeatsStatus e us) Q s v.
Proof.
  intros HQ HE. unfold updateMultipleSeatsStatus. wp_step. intros [[]|err] v1 H; seat_sem H.
  - destruct H as (m & -> & ->). exact HQ.
  - destruct H as [-> [[]|[Hmd _]]]. auto.
Qed.

Lemma rebuildCache_wp e (Q : result unit -> S -> SeatView -> Prop) s v :
  (event_rows e (tables v) = [] -> Q (Ok tt) s v) ->
  (forall l, selects (of_event e) (seats (tables v)) l -> l <> [] ->
     Q (Ok tt) s (with_redis (foldl apply_cmd (redis v)
       (PDel (avail_key e) :: PDel (detail_key e) :: concat (map (seat_commands e) l))) v)) ->
  (forall err, md = Faulty -> Q (Err err) s v) ->
  wp spec (rebuildCache e) Q s v.
Proof.
  intros HN HQ HE. unfold rebuildCache. wp_step. wp_step. intros [l|err] v1 H; seat_sem H.
  2: { destruct H as [-> [[]|[Hmd _]]]. auto. }
  destruct H as [-> Hl]. destruct l as [|r l]; cbn [length Nat.eqb].
  - cbn. apply HN. symmetry. by apply Permutation_nil_l.
  - wp_step. intros [[]|err] v1 H; seat_sem H.
    + destruct H as (m & -> & ->). by apply HQ.
    + destruct H as [-> [[]|[Hmd _]]]. auto.
Qed.

(** Reading one of the event's hashes. *)
Lemma hgetall_wp key (Q : result (list (string * string)) -> S -> SeatView -> Prop) s v :
  is_str (redis v) key = false ->
  (forall l, l ≡ₚ map_to_list (hash_at (redis v) key) -> Q (Ok l) s v) ->
  (forall err, md = Faulty -> Q (Err err) s v) ->
  wp spec (call (SRedis (RHGetAll key))) Q s v.
Proof.
  intros Hk HQ HE. wp_step. intros [l|err] v1 H; seat_sem H.
  - destruct H as (m & [-> Hl] & ->). rewrite with_redis_id. auto.
  - destruct H as [-> [Hr|[Hmd _]]]; [by rewrite Hk in Hr|auto].
Qed.

Lemma empty_hash_list (h : gmap string string) l : l ≡ₚ map_to_list h -> h = ∅ <-> l = [].
Proof.
  intros Hl. split.
  - intros ->. rewrite map_to_list_empty in Hl. by apply Permutation_nil_r.
  - intros ->. apply map_to_list_empty_iff. symmetry. by apply Permutation_nil_l.
Qed.

(** A read presents the event's rows when the read model is coherent or has
    no entry for the event, which makes it rebuild the read model. *)
Lemma getEventSeatsWithStatus_wp e (Q : result (list json) -> S -> SeatView -> Prop) s v :
  tables_wf (tables v) -> redis_typed (redis v) ->
  coherent e v \/ hash_at (redis v) (avail_key e) = ∅ ->
  (forall rs m, rs ≡ₚ event_rows e (tables v) -> same_but_event e (redis v) m -> redis_typed m ->
     coherent e (with_redis m v) \/ event_rows e (tables v) = [] ->
     Q (Ok (map seat_entry rs)) s (with_redis m v)) ->
  (forall err m, md = Faulty -> same_but_event e (redis v) m -> redis_typed m ->
     Q (Err err) s (with_redis m v)) ->
  wp spec (getEventSeatsWithStatus e) Q s v.
Proof.
  intros Hwf Ht Hc HQ HE.
  assert (forall err, md = Faulty -> Q (Err err) s v) as HE0.
  { intros err Hmd. specialize (HE err (redis v) Hmd). rewrite with_redis_id in HE. by apply HE. }
  unfold getEventSeatsWithStatus.
  wp_step. apply hgetall_wp; [by apply typed_avail| |done]. intros statuses Hst.
  wp_step. apply hgetall_wp; [by apply typed_detail| |done]. intros details Hdt.
  destruct statuses as [|kv statuses]; cbn [length Nat.eqb].
  - assert (hash_at (redis v) (avail_key e) = ∅) as Hemp by (by eapply empty_hash_list).
    do 2 wp_step. apply rebuildCache_wp; [|..|done].
    + intros Hrows.
      wp_step. apply hgetall_wp; [by apply typed_avail| |done]. intros statuses Hst'.
      apply empty_hash_list in Hst' as Hst0. destruct Hst0 as [Hst0 _]. rewrite (Hst0 Hemp).
      wp_step. apply hgetall_wp; [by apply typed_detail| |done]. intros details' Hdt'.
      cbn. specialize (HQ [] (redis v)). rewrite with_redis_id in HQ.
      apply HQ; [by rewrite Hrows|done|done|by right].
    + intros l Hl Hne. set (m := foldl apply_cmd _ _).
      assert (coherent e (with_redis m v)) as Hcoh by (by apply rebuild_coherent).
      assert (redis_typed m) as Htm by (apply typed_cmds; [apply rebuild_cmds_typed|done]).
      assert (same_but_event e (redis v) m) as Hsm by apply rebuild_cmds_frame.
      wp_step. apply hgetall_wp; [by apply (typed_avail m)| |intros; by apply HE].
      intros statuses Hst'.
      wp_step. apply hgetall_wp; [by apply (typed_detail m)| |intros; by apply HE].
      intros details' Hdt'. cbn [wp]. cbn zeta. wp_step.
      destruct (coherent_present e (with_redis m v) _ _ Hwf Hcoh Hst' Hdt') as (rs & Hrs & ->).
      apply HQ; auto.
  - destruct Hc as [Hc|Hemp].
    2: { rewrite Hemp, map_to_list_empty in Hst. by apply Permutation_nil_r in Hst. }
    wp_step. cbn [wp]. wp_step.
    destruct (coherent_present e _ _ _ Hwf Hc Hst Hdt) as (rs & Hrs & ->).
    specialize (HQ rs (redis v) Hrs). rewrite with_redis_id in HQ. apply HQ; [done..|by left].
Qed.
End Proofs.

(** ** The summary *)

Lemma has_status_entry r st : has_status (seat_status_value st) (seat_entry r) = bool_decide (si_status r = st).
Proof. destruct r as [? ? ? ? ? ? ? ? ? ? ? ? st' ? ?]. by destruct st, st'. Qed.

Definition count_by (e : string) (st : SeatStatus) (t : SeatTables) : nat :=
  length (List.filter (fun r => bool_decide (si_status r = st)) (event_rows e t)).

Lemma filter_entries st rs :
  List.filter (has_status (seat_status_value st)) (map seat_entry rs) =
  map seat_entry (List.filter (fun r => bool_decide (si_status r = st)) rs).
Proof.
  induction rs as [|r rs IH]; [done|]. cbn [map List.filter]. rewrite has_status_entry, IH.
  by destruct (bool_decide (si_status r = st)).
Qed.

Lemma filterb_perm {A} (p : A -> bool) l l' : l ≡ₚ l' -> List.filter p l ≡ₚ List.filter p l'.
Proof.
  induction 1 as [|x l l' H IH|x y l|l l' l'' H1 IH1 H2 IH2]; cbn; [done| | |by etrans].
  - destruct (p x); by rewrite ?IH.
  - destruct (p x), (p y); try done. by constructor.
Qed.

(** Adding a seat to the sections keeps the sums. *)
Definition sum_by (f : Section_ -> nat) (m : list (string * Section_)) : nat :=
  list_sum (map (fun ks => f ks.2) m).

Lemma add_to_section_sum (f : Section_ -> nat) seat n m :
  (forall s, f (count_seat seat s) = f s + n) -> f (mkSection 0 0 0 0 (member "price" seat)) = 0 ->
  sum_by f (add_to_section seat m) = sum_by f m + n.
Proof.
  intros Hf H0. unfold sum_by. induction m as [|[k s] m IH]; cbn [add_to_section].
  - cbn [map list_sum snd fold_right]. rewrite Hf. lia.
  - destruct (String.eqb k (section_key seat)); cbn [map list_sum snd fold_right] in *.
    + rewrite Hf. lia.
    + unfold list_sum in IH. lia.
Qed.

Lemma add_to_section_keys seat m :
  NoDup m.*1 -> NoDup (add_to_section seat m).*1 /\
  forall k, k ∈ (add_to_section seat m).*1 <-> k = section_key seat \/ k ∈ m.*1.
Proof.
  induction m as [|[k s] m IH]; cbn [add_to_section fmap list_fmap fst].
  - intros _. split; [by apply NoDup_singleton|]. intros k. rewrite list_elem_of_singleton.
    split; [by left|]. intros [?|?%elem_of_nil]; done.
  - intros [Hk Hnd]%NoDup_cons. destruct (String.eqb_spec k (section_key seat)) as [Heq|Hne]; cbn.
    + split; [by constructor|]. intros k'. rewrite elem_of_cons. subst k. tauto.
    + destruct (IH Hnd) as [H1 H2]. split.
      * constructor; [|done]. intros [?|?]%H2; done.
      * intros k'. rewrite !elem_of_cons, H2. tauto.
Qed.

Lemma statuses_exclusive seat st st' :
  has_status (seat_status_value st) seat = true -> has_status (seat_status_value st') seat = true ->
  st = st'.
Proof.
  unfold has_status. destruct (member "status" seat) as [[| | | |x| |]|]; try done.
  intros ->%String.eqb_eq H%String.eqb_eq. by destruct st, st'.
Qed.

Definition b2n (b : bool) : nat := if b then 1 else 0.

Lemma count_seat_fields seat s :
  total (count_seat seat s) = total s + 1 /\
  available (count_seat seat s) = available s + b2n (has_status (seat_status_value AVAILABLE) seat) /\
  held (count_seat seat s) = held s + b2n (has_status (seat_status_value HELD) seat) /\
  sold (count_seat seat s) = sold s + b2n (has_status (seat_status_value SOLD) seat).
Proof.
  unfold count_seat.
  destruct (has_status (seat_status_value AVAILABLE) seat) eqn:Ha;
    destruct (has_status (seat_status_value HELD) seat) eqn:Hh;
    destruct (has_status (seat_status_value SOLD) seat) eqn:Hs; cbn;
    try (pose proof (statuses_exclusive _ _ _ Ha Hh); discriminate);
    try (pose proof (statuses_exclusive _ _ _ Ha Hs); discriminate);
    try (pose proof (statuses_exclusive _ _ _ Hh Hs); discriminate); lia.
Qed.

Lemma filter_length_cons {A} (p : A -> bool) x l :
  length (List.filter p (x :: l)) = b2n (p x) + length (List.filter p l).
Proof. cbn. by destruct (p x). Qed.

Lemma sections_fold seats m :
  NoDup m.*1 ->
  let m' := foldl (fun m seat => add_to_section seat m) m seats in
  NoDup m'.*1 /\
  (forall k, k ∈ m'.*1 <-> k ∈ map section_key seats \/ k ∈ m.*1) /\
  sum_by total m' = sum_by total m + length seats /\
  sum_by available m' = sum_by available m + length (List.filter (has_status (seat_status_value AVAILABLE)) seats) /\
  sum_by held m' = sum_by held m + length (List.filter (has_status (seat_status_value HELD)) seats) /\
  sum_by sold m' = sum_by sold m + length (List.filter (has_status (seat_status_value SOLD)) seats).
Proof.
  revert m. induction seats as [|seat seats IH]; intros m Hnd; cbn zeta.
  { cbn [foldl length List.filter map]. split_and!; [done| |lia..].
    intros k. split; [by right|]. by intros [?%elem_of_nil|?]. }
  destruct (add_to_section_keys seat m Hnd) as [Hnd1 Hk1].
  destruct (IH (add_to_section seat m) Hnd1) as (H1 & H2 & H3 & H4 & H5 & H6).
  cbn [foldl map]. rewrite !filter_length_cons. cbn [length].
  pose proof (count_seat_fields seat) as Hc.
  rewrite (add_to_section_sum total seat 1) in H3; [|apply Hc|done].
  rewrite (add_to_section_sum available seat (b2n (has_status (seat_status_value AVAILABLE) seat))) in H4;
    [|apply Hc|done].
  rewrite (add_to_section_sum held seat (b2n (has_status (seat_status_value HELD) seat))) in H5;
    [|apply Hc|done].
  rewrite (add_to_section_sum sold seat (b2n (has_status (seat_status_value SOLD) seat))) in H6;
    [|apply Hc|done].
  split_and!; [done| |lia..]. intros k. rewrite H2, Hk1, elem_of_cons. tauto.
Qed.

(** The sections of a summary: each section name once, exactly the seats' names. *)
Lemma summarize_spec seats :
  let sm := summarize seats in
  totalSeats sm = length seats /\
  NoDup (sections sm).*1 /\
  (forall k, k ∈ (sections sm).*1 <-> k ∈ map section_key seats) /\
  sum_by total (sections sm) = totalSeats sm /\
  sum_by available (sections sm) = sum_available sm /\
  sum_by held (sections sm) = sum_held sm /\
  sum_by sold (sections sm) = sum_sold sm.
Proof.
  destruct (sections_fold seats [] (NoDup_nil_2)) as (H1 & H2 & H3 & H4 & H5 & H6).
  cbn zeta in *. unfold summarize. cbn [totalSeats sections sum_available sum_held sum_sold].
  split_and!; [done|done| |done..]. intros k. rewrite H2. split; [|by left].
  intros [?|?%elem_of_nil]; done.
Qed.

Lemma coherent_other e e' v m :
  e <> e' -> same_but_event e (redis v) m -> coherent e' v -> coherent e' (with_redis m v).
Proof.
  intros Hne Hs [H1 H2].
  assert (m !! avail_key e' = redis v !! avail_key e') as Ha.
  { apply Hs; [by intros ?%avail_key_inj|apply avail_detail_ne]. }
  assert (m !! detail_key e' = redis v !! detail_key e') as Hd.
  { apply Hs; [auto with ticketing|by intros ?%detail_key_inj]. }
  split; intros x; cbn [redis with_redis tables]; unfold hash_at in *; [rewrite Ha | rewrite Hd]; auto.
Qed.

Lemma warmUpCache_wp {S} md (Q : result unit -> S -> SeatView -> Prop) s v :
  tables_wf (tables v) -> redis_typed (redis v) ->
  (forall m, redis_typed m ->
     (forall e, event_rows e (tables v) <> [] -> coherent e (with_redis m v)) ->
     Q (Ok tt) s (with_redis m v)) ->
  (forall err m, md = Faulty -> Q (Err err) s (with_redis m v)) ->
  wp (obeys md seat_behaviour) warmUpCache Q s v.
Proof.
  intros Hwf Ht HQ HE. unfold warmUpCache. wp_step. wp_step. intros [es|err] v1 H; seat_sem H.
  2: { destruct H as [-> [[]|[Hmd _]]]. specialize (HE err (redis v) Hmd). by rewrite with_redis_id in HE. }
  destruct H as (-> & _ & Hes).
  apply (wp_for_each _ _ _ (fun rest s' v' => s' = s /\ exists m, v' = with_redis m v /\ redis_typed m /\
    forall e, event_rows e (tables v) <> [] -> e ∈ rest \/ coherent e v')).
  - split; [done|]. exists (redis v). split_and!; [by rewrite with_redis_id|done|]. intros e He. left.
    apply Hes. destruct (event_rows e (tables v)) as [|r l] eqn:Hr; [done|].
    exists r. apply elem_of_event_rows. rewrite Hr. left.
  - intros s' v' (-> & m & -> & Htm & Hc). apply HQ; [done|]. intros e He.
    destruct (Hc e He) as [?%elem_of_nil|?]; done.
  - intros e rest s' v' (-> & m & -> & Htm & Hc). apply rebuildCache_wp.
    + intros Hr. split; [done|]. exists m. split_and!; [done|done|]. intros e' He'.
      destruct (Hc e' He') as [[->|?]%elem_of_cons|?]; auto. done.
    + intros l Hl _. cbn [redis with_redis tables] in *. split; [done|]. eexists. split_and!; [done| |].
      * apply typed_cmds; [apply rebuild_cmds_typed|done].
      * intros e' He'. destruct (decide (e = e')) as [<-|Hne].
        -- right. by apply (rebuild_coherent e (with_redis m v)).
        -- destruct (Hc e' He') as [[->|?]%elem_of_cons|Hco]; [done|by left|].
           right. apply (coherent_other e e' (with_redis m v)); [done|apply rebuild_cmds_frame|done].
    + intros err Hmd. by apply HE.
Qed.

(** ** Properties *)

Section Properties.
Context {S W : Type} (h : forall X, SeatE X -> W -> result X * W) (view : W -> SeatView).
Variable md : mode.
Hypothesis Hh : conforms md seat_behaviour h view.
Implicit Types (s : S) (w : W).

(** C34: A read of an event's seats presents every row of the event's inventory
    exactly once, with its details and its status in the table, whenever the
    read model of the event is coherent or absent; an absent read model is
    rebuilt by the read and is coherent afterwards. *)
Theorem getEventSeatsWithStatus_fresh e s w :
  view_wf (view w) -> coherent e (view w) \/ hash_at (redis (view w)) (avail_key e) = ∅ ->
  let v' := view (final h (getEventSeatsWithStatus e) s w) in
  match outcome h (getEventSeatsWithStatus e) s w with
  | Ok seats =>
      seats ≡ₚ map seat_entry (event_rows e (tables (view w))) /\
      (coherent e v' \/ event_rows e (tables (view w)) = [])
  | Err _ => md = Faulty
  end /\ tables v' = tables (view w) /\ same_but_event e (redis (view w)) (redis v').
Proof.
  intros [Hwf _ Ht] Hc. cbn zeta. call_wp Hh w.
  apply getEventSeatsWithStatus_wp; [done..| |].
  - intros rs m Hrs Hs Htm Hco. cbn [tables redis with_redis]. split_and!; [|done|done|done].
    by rewrite Hrs.
  - intros err m Hmd Hs _. done.
Qed.

(** After [warmUpCache] the read model of every event that has an inventory
    is coherent with the table. *)
Theorem warmUpCache_coherent s w :
  view_wf (view w) ->
  let v' := view (final h warmUpCache s w) in
  match outcome h warmUpCache s w with
  | Ok _ => forall e, event_rows e (tables (view w)) <> [] -> coherent e v'
  | Err _ => md = Faulty
  end /\ tables v' = tables (view w).
Proof.
  intros [Hwf _ Ht]. cbn zeta. call_wp Hh w. by apply warmUpCache_wp.
Qed.

(** The availability summary of a coherent (or absent) read model counts
    the rows of the event by status, and its sections partition them: each
    section name occurs once and the sections' counters add up to the totals. *)
Theorem getEventAvailabilitySummary_counts e s w :
  view_wf (view w) -> coherent e (view w) \/ hash_at (redis (view w)) (avail_key e) = ∅ ->
  match outcome h (getEventAvailabilitySummary e) s w with
  | Ok sm =>
      let t := tables (view w) in
      totalSeats sm = length (event_rows e t) /\
      sum_available sm = count_by e AVAILABLE t /\
      sum_held sm = count_by e HELD t /\
      sum_sold sm = count_by e SOLD t /\
      NoDup (sections sm).*1 /\
      sum_by total (sections sm) = totalSeats sm /\
      sum_by available (sections sm) = sum_available sm /\
      sum_by held (sections sm) = sum_held sm /\
      sum_by sold (sections sm) = sum_sold sm
  | Err _ => md = Faulty
  end.
Proof.
  intros [Hwf _ Ht] Hc. call_wp Hh w. unfold getEventAvailabilitySummary. wp_step.
  apply getEventSeatsWithStatus_wp; [done..| |done].
  intros rs m Hrs _ _ _. wp_step. cbn zeta.
  destruct (summarize_spec (map seat_entry rs)) as (H1 & H2 & _ & H3 & H4 & H5 & H6).
  split_and!; [| | | |done..].
  - rewrite H1, length_map. by rewrite Hrs.
  - cbn [summarize sum_available]. rewrite filter_entries, length_map. by rewrite (filterb_perm _ _ _ Hrs).
  - cbn [summarize sum_held]. rewrite filter_entries, length_map. by rewrite (filterb_perm _ _ _ Hrs).
  - cbn [summarize sum_sold]. rewrite filter_entries, length_map. by rewrite (filterb_perm _ _ _ Hrs).
Qed.

(** A status update of an event whose read model is absent starts a
    partial one, which later reads take for complete: they return only the
    updated seat, without its details, whatever the inventory holds, and do not
    rebuild. *)
Theorem update_on_cold_cache e x st s s' w :
  hash_at (redis (view w)) (avail_key e) = ∅ -> hash_at (redis (view w)) (detail_key e) = ∅ ->
  redis_typed (redis (view w)) ->
  md = Reliable ->
  let w1 := final h (updateMultipleSeatsStatus e [status_update st x]) s w in
  outcome h (getEventSeatsWithStatus e) s' w1 = Ok [JObj [("status", JStr (seat_status_value st))]].
Proof.
  intros Ha Hd Ht Hmd w1.
  assert (redis (view w1) = hset (avail_key e) x (seat_status_value st) (redis (view w))) as Hr.
  { unfold w1. call_wp Hh w. apply updateMultipleSeatsStatus_wp; [done|congruence]. }
  assert (redis_typed (redis (view w1))) as Ht1 by (rewrite Hr; eapply typed_hset; eauto).
  call_wp Hh w1. unfold getEventSeatsWithStatus.
  wp_step. apply hgetall_wp; [by apply typed_avail| |congruence]. intros l Hl.
  wp_step. apply hgetall_wp; [by apply typed_detail| |congruence]. intros d Hdl.
  rewrite Hr, hset_hash_at, Ha in Hl by (by apply typed_avail).
  rewrite insert_empty, map_to_list_singleton in Hl. apply Permutation_singleton_r in Hl as ->.
  rewrite Hr in Hdl. unfold hash_at in Hdl, Hd. rewrite hset_other in Hdl by auto with ticketing.
  rewrite Hd, map_to_list_empty in Hdl. apply Permutation_nil_r in Hdl as ->.
  cbn. reflexivity.
Qed.

(** [getAvailableCount] is the number of available seats of a coherent
    read model; it does not rebuild an absent one, for which it answers 0. *)
Theorem getAvailableCount_coherent e s w :
  view_wf (view w) ->
  match outcome h (getAvailableCount e) s w with
  | Ok n =>
      (coherent e (view w) -> n = count_by e AVAILABLE (tables (view w))) /\
      (hash_at (redis (view w)) (avail_key e) = ∅ -> n = 0)
  | Err _ => md = Faulty
  end /\ view (final h (getAvailableCount e) s w) = view w.
Proof.
  intros [Hwf _ Ht]. call_wp Hh w. unfold getAvailableCount.
  wp_step. apply hgetall_wp; [by apply typed_avail| |done]. intros l Hl. wp_step.
  split; [|done]. split.
  - intros Hc. destruct (coherent_statuses _ _ _ Hwf Hc Hl) as (rs & Hrs & ->).
    rewrite map_map. unfold count_by. rewrite <- (filterb_perm _ _ _ Hrs).
    clear. induction rs as [|r rs IH]; [done|]. cbn [map]. rewrite !filter_length_cons, IH. f_equal.
    unfold status_value. cbn. by destruct (si_status r).
  - intros He. apply empty_hash_list in Hl as [Hl _]. by rewrite (Hl He).
Qed.
End Properties.

(** ** Concrete runs *)

Lemma getEventSeatsWithStatus_fresh_witness :
  match outcome seat_run (@getEventSeatsWithStatus unit "ev") tt demo_world with
  | Ok seats => length seats = 4 /\ seats ≡ₚ map seat_entry (event_rows "ev" (tables (seat_view demo_world)))
  | Err _ => False
  end.
Proof.
  pose proof (getEventSeatsWithStatus_fresh seat_run seat_view Reliable seat_run_conforms
    "ev" tt demo_world demo_world_wf (or_intror eq_refl)) as [H _].
  destruct (outcome seat_run (getEventSeatsWithStatus "ev") tt demo_world) as [seats|e].
  - destruct H as [H _]. split; [|exact H]. rewrite H. vm_compute. reflexivity.
  - discriminate H.
Defined.

Lemma warmUpCache_coherent_witness :
  coherent "ev" (seat_view (final seat_run (@warmUpCache unit) tt demo_world)).
Proof.
  pose proof (warmUpCache_coherent seat_run seat_view Reliable seat_run_conforms
    tt demo_world demo_world_wf) as [H _].
  eval_outcome H. apply H. vm_compute. discriminate.
Defined.

Lemma getEventAvailabilitySummary_counts_witness :
  match outcome seat_run (@getEventAvailabilitySummary unit "ev") tt demo_world with
  | Ok sm => totalSeats sm = 4 /\ sum_available sm = 2 /\ sum_by held (sections sm) = 1
  | Err _ => False
  end.
Proof.
  pose proof (getEventAvailabilitySummary_counts seat_run seat_view Reliable seat_run_conforms
    "ev" tt demo_world demo_world_wf (or_intror eq_refl)) as H.
  destruct (outcome seat_run (getEventAvailabilitySummary "ev") tt demo_world) as [sm|e].
  - cbn zeta in H. destruct H as (H1 & H2 & H3 & _ & _ & _ & _ & H7 & _).
    rewrite H1, H2, H7, H3. vm_compute. auto.
  - discriminate H.
Defined.

Lemma update_on_cold_cache_witness :
  outcome seat_run (@getEventSeatsWithStatus unit "ev") tt
    (final seat_run (@updateMultipleSeatsStatus unit "ev" [status_update HELD "A1"]) tt demo_world)
  = Ok [JObj [("status", JStr "held")]]%string.
Proof.
  apply (update_on_cold_cache seat_run seat_view Reliable seat_run_conforms "ev" "A1" HELD tt tt demo_world);
    [reflexivity|reflexivity|apply redis_typed_empty|reflexivity].
Defined.

Lemma getAvailableCount_coherent_witness :
  outcome seat_run (@getAvailableCount unit "ev") tt demo_world = Ok 0.
Proof.
  pose proof (getAvailableCount_coherent seat_run seat_view Reliable seat_run_conforms
    "ev" tt demo_world demo_world_wf) as [H _].
  destruct (outcome seat_run (getAvailableCount "ev") tt demo_world) as [n|e].
  - destruct H as [_ H]. rewrite (H eq_refl). reflexivity.
  - discriminate H.
Defined.
