(* ===== verification/Inventory.v ===== *)
(** * InventoryService and its Kafka consumer

    apps/seat-inventory-service/src/inventory/inventory.service.ts and
    inventory.consumer.ts: the inventory of an event is created once from the
    [event.create] message, and the statuses of its seats are written to the
    table and to the read model. *)

From S2P Require Import Prelude Effects JsNumber Json Redis Sql SeatWorld SeatRef Availability.

(** libs/common/src/interfaces/event-create-message.interface.ts *)
Record EventSeat := mkEventSeat {
  es_seatId : string;
  es_sectionId : string;
  es_sectionName : string;
  es_ticketTypeId : string;
  es_ticketTypeName : string;
  es_price : number;
  es_currency : string;
  es_row : string;
  es_number : string;
  es_type : string;
}.

Record EventCreateMessage := mkEventCreateMessage {
  ecm_eventId : string;
  ecm_venueId : option string;
  ecm_venueName : option string;
  ecm_title : option string;
  ecm_startsAt : option Z;
  ecm_seats : list EventSeat;
}.

(** What the Kafka transport hands to the handler: nothing, the message, or an
    envelope whose [value] may be missing. *)
Inductive Payload :=
| PUndefined
| PMessage (m : EventCreateMessage)
| PEnvelope (value : option EventCreateMessage).

(** [payload?.value ?? payload], as far as it is a message. *)
Definition payload_message (p : Payload) : option EventCreateMessage :=
  match p with
  | PUndefined => None
  | PMessage m => Some m
  | PEnvelope value => value
  end.

Section Service.
Context {S : Type}.
Implicit Types (eventId : string) (seatIds : list string).

(** [repo.create({...})] for one seat of the message. *)
Definition seat_entity eventId (seat : EventSeat) : SeatData :=
  mkSeatData eventId (es_seatId seat) (es_sectionId seat) (es_sectionName seat)
    (es_ticketTypeId seat) (es_ticketTypeName seat) (es_price seat) (es_currency seat)
    (es_row seat) (es_number seat) (es_type seat) AVAILABLE.

Definition createFromEvent (payload : EventCreateMessage) : prog S SeatE unit :=
  let eventId := ecm_eventId payload in
  existing <- call (SeatCount (of_event eventId)) ;;
  if Nat.ltb 0 existing then Ret tt
  else
    let entities := map (seat_entity eventId) (ecm_seats payload) in
    call (SeatInsert entities) ;;
    Ret tt.

Definition findByEventId eventId : prog S SeatE (list SeatInventory) :=
  call (SeatFind (of_event eventId)).

Definition getAvailability eventId : prog S SeatE (list SeatInventory) :=
  call (SeatFind (fun r => of_event eventId r && bool_decide (si_status r = AVAILABLE))).

(** [{ eventId, seatId: In(seatIds) }] *)
Definition seat_in eventId seatIds (r : SeatInventory) : bool :=
  of_event eventId r && includes seatIds (si_seatId r).

Definition findBySeatIds eventId seatIds : prog S SeatE (list SeatInventory) :=
  call (SeatFind (seat_in eventId seatIds)).

Definition updateStatus eventId seatIds (status : SeatStatus) : prog S SeatE unit :=
  call (SeatUpdate (seat_in eventId seatIds) status) ;;
  updateMultipleSeatsStatus eventId (map (status_update status) seatIds).

Definition relaseSoldSeats eventId seatIds : prog S SeatE unit :=
  inventories <- findBySeatIds eventId seatIds ;;
  let inventories := map (set_status AVAILABLE) inventories in
  call (SeatSave inventories) ;;
  updateMultipleSeatsStatus eventId (map (status_update AVAILABLE) seatIds).

(** [InventoryConsumer.handleEventCreate] *)
Definition handleEventCreate (payload : Payload) : prog S SeatE unit :=
  match payload_message payload with
  | None => Ret tt
  | Some message =>
      if truthy (ecm_eventId message) then createFromEvent message else Ret tt
  end.
End Service.

(** ** Specification *)

Section Specification.
Implicit Types (eventId : string) (seatIds : list string).

(** Every row of the seats gets the status. *)
Definition statuses_set eventId seatIds status (t : SeatTables) : SeatTables :=
  mkTables (update_where (seat_in eventId seatIds) (set_status status) (seats t)) (holds t).

(** The read model after its entries of the seats were written. *)
Definition entries_set eventId seatIds status (m : RedisView) : RedisView :=
  foldl apply_cmd m (hset_all (avail_key eventId) (map (status_update status) seatIds)).

(** The seats exist in the event's inventory. *)
Definition known_seats eventId seatIds (t : SeatTables) : Prop :=
  forall x, x ∈ seatIds -> seat_at t eventId x <> None.
End Specification.

(** ** Lemmas *)

Lemma tables_wf_status e seatIds st t : tables_wf t -> tables_wf (statuses_set e seatIds st t).
Proof.
  intros [H1 H2 H3]. split; cbn; [|done|by apply update_status_unique].
  by apply update_where_keyed.
Qed.

Lemma seat_at_status e seatIds st t x :
  tables_wf t ->
  seat_at (statuses_set e seatIds st t) e x =
  (fun r => if includes seatIds x then set_status st r else r) <$> seat_at t e x.
Proof.
  intros Hwf. assert (tables_wf (statuses_set e seatIds st t)) as Hwf' by (by apply tables_wf_status).
  destruct (seat_at t e x) as [r|] eqn:Hat; cbn.
  - apply seat_at_spec in Hat as [Hin Hk]; [|done]. apply seat_at_spec; [done|]. split.
    + cbn. apply elem_of_rows_update. exists r. split; [done|].
      unfold seat_key in Hk. simplify_eq. unfold seat_in, of_event. by rewrite String.eqb_refl.
    + by destruct (includes seatIds x).
  - apply seat_at_None. cbn. intros r' (r & Hin & ->)%elem_of_rows_update Hk.
    eapply seat_at_None in Hat; [|exact Hin]. apply Hat.
    by destruct (seat_in e seatIds r).
Qed.

Lemma seat_at_status_other e e' seatIds st t x :
  tables_wf t -> e' <> e -> seat_at (statuses_set e seatIds st t) e' x = seat_at t e' x.
Proof.
  intros Hwf Hne. assert (tables_wf (statuses_set e seatIds st t)) as Hwf' by (by apply tables_wf_status).
  destruct (seat_at t e' x) as [r|] eqn:Hat.
  - apply seat_at_spec in Hat as [Hin Hk]; [|done]. apply seat_at_spec; [done|]. split; [|done].
    cbn. apply elem_of_rows_update. exists r. split; [done|].
    unfold seat_key in Hk. simplify_eq. unfold seat_in, of_event.
    destruct (String.eqb_spec (si_eventId r) e); [by subst|done].
  - apply seat_at_None. cbn. intros r' (r & Hin & ->)%elem_of_rows_update Hk.
    eapply seat_at_None in Hat; [|exact Hin]. apply Hat. by destruct (seat_in e seatIds r).
Qed.

Lemma entries_set_other e seatIds st m k :
  k <> avail_key e -> entries_set e seatIds st m !! k = m !! k.
Proof.
  intros Hk. apply cmds_other. apply Forall_map, Forall_map, Forall_true. intros x. cbn. by intros <-.
Qed.

Lemma entries_set_typed e seatIds st m :
  redis_typed m -> redis_typed (entries_set e seatIds st m).
Proof. apply typed_cmds, update_cmds_typed. Qed.

Lemma entries_set_lookup e seatIds st m x :
  redis_typed m ->
  hash_at (entries_set e seatIds st m) (avail_key e) !! x =
  if decide (x ∈ seatIds) then Some (seat_status_value st) else hash_at m (avail_key e) !! x.
Proof.
  intros Ht. destruct (pipeline_hset_all (avail_key e) (map (status_update st) seatIds) m) as [H _].
  { by apply typed_avail. }
  unfold entries_set. rewrite H. apply set_fields_const.
Qed.

(** Writing a status to the table and to the read model keeps them coherent,
    if the seats exist. *)
Lemma coherent_status e seatIds st v :
  tables_wf (tables v) -> redis_typed (redis v) -> known_seats e seatIds (tables v) ->
  coherent e v ->
  coherent e (mkView (statuses_set e seatIds st (tables v)) (tx v) (entries_set e seatIds st (redis v))).
Proof.
  intros Hwf Ht Hk [H1 H2]. split; intros x; cbn [redis tables].
  - rewrite entries_set_lookup, seat_at_status by done. case_decide as Hx.
    + specialize (Hk x Hx). destruct (seat_at (tables v) e x) as [r|]; [|done]. cbn.
      by rewrite (proj2 (includes_spec _ _) Hx).
    + rewrite H1. rewrite (proj2 (includes_false _ _) Hx).
      by destruct (seat_at (tables v) e x).
  - unfold hash_at. rewrite entries_set_other by auto with ticketing.
    unfold hash_at in H2. rewrite H2, seat_at_status by done.
    destruct (seat_at (tables v) e x) as [r|]; [|done]. cbn.
    by destruct (includes seatIds x).
Qed.

(** A seat nobody ever created appears in the read model. *)
Lemma phantom_seat e x st m :
  redis_typed m -> hash_at (entries_set e [x] st m) (avail_key e) !! x = Some (seat_status_value st).
Proof. intros Ht. rewrite entries_set_lookup by done. by rewrite decide_True by left. Qed.

(** ** Proofs of the methods *)

Section Proofs.
Context {S : Type}.
Implicit Types (s : S) (v : SeatView).
Variable md : mode.
Abbreviation spec := (obeys md seat_behaviour).

Lemma findBySeatIds_wp e seatIds (Q : result (list SeatInventory) -> S -> SeatView -> Prop) s v :
  (forall l, selects (seat_in e seatIds) (seats (tables v)) l -> Q (Ok l) s v) ->
  (forall err, md = Faulty -> Q (Err err) s v) ->
  wp spec (findBySeatIds e seatIds) Q s v.
Proof.
  intros HQ HE. unfold findBySeatIds. wp_step. intros [l|err] v1 H; seat_sem H.
  - destruct H as [-> Hl]. auto.
  - destruct H as [-> [[]|[Hmd _]]]. auto.
Qed.

Lemma with_redis_tables m t v : with_redis m (with_tables t v) = mkView t (tx v) m.
Proof. done. Qed.

(** A new event gets its rows; an event that has some is left alone. *)
Lemma createFromEvent_wp p (Q : result unit -> S -> SeatView -> Prop) s v :
  let ds := map (seat_entity (ecm_eventId p)) (ecm_seats p) in
  (event_rows (ecm_eventId p) (tables v) <> [] -> Q (Ok tt) s v) ->
  (forall l, event_rows (ecm_eventId p) (tables v) = [] ->
     ~ seat_conflict ds (seats (tables v)) -> ~ unpriced ds -> Forall2 seat_created ds l ->
     fresh_rows si_id l (seats (tables v)) ->
     Q (Ok tt) s (with_tables (mkTables (upsert si_id l (seats (tables v))) (holds (tables v))) v)) ->
  (forall err, md = Faulty \/ (event_rows (ecm_eventId p) (tables v) = [] /\
     (seat_conflict ds (seats (tables v)) \/ unpriced ds)) -> Q (Err err) s v) ->
  wp spec (createFromEvent p) Q s v.
Proof.
  intros ds HO HN HE. unfold createFromEvent. wp_step. wp_step. intros [n|err] v1 H; seat_sem H.
  2: { destruct H as [-> [[]|[Hmd _]]]. auto. }
  destruct H as [-> Hn]. fold (event_rows (ecm_eventId p) (tables v)) in Hn.
  destruct (event_rows (ecm_eventId p) (tables v)) as [|r l]; subst n; cbn [length Nat.ltb Nat.leb].
  - wp_step. wp_step. intros [l|err] v1 H; seat_sem H.
    + destruct H as (Hc & Hu & Hl & Hf & ->). cbn. by apply HN.
    + destruct H as [-> [Hc|[Hmd _]]]; apply HE; [right|left]; done.
  - cbn. by apply HO.
Qed.

Lemma updateStatus_wp e seatIds st (Q : result unit -> S -> SeatView -> Prop) s v :
  Q (Ok tt) s (mkView (statuses_set e seatIds st (tables v)) (tx v)
                 (entries_set e seatIds st (redis v))) ->
  (forall err t, md = Faulty -> t = tables v \/ t = statuses_set e seatIds st (tables v) ->
     Q (Err err) s (with_tables t v)) ->
  wp spec (updateStatus e seatIds st) Q s v.
Proof.
  intros HQ HE. unfold updateStatus. wp_step. wp_step. intros [[]|err] v1 H; seat_sem H.
  - subst v1. apply updateMultipleSeatsStatus_wp; [exact HQ|]. intros err Hmd. apply HE; auto.
  - destruct H as [-> [[]|[Hmd _]]]. specialize (HE err (tables v) Hmd (or_introl eq_refl)). by destruct v.
Qed.

Lemma relaseSoldSeats_wp e seatIds (Q : result unit -> S -> SeatView -> Prop) s v :
  tables_wf (tables v) ->
  Q (Ok tt) s (mkView (statuses_set e seatIds AVAILABLE (tables v)) (tx v)
                 (entries_set e seatIds AVAILABLE (redis v))) ->
  (forall err t, md = Faulty -> t = tables v \/ t = statuses_set e seatIds AVAILABLE (tables v) ->
     Q (Err err) s (with_tables t v)) ->
  wp spec (relaseSoldSeats e seatIds) Q s v.
Proof.
  intros Hwf HQ HE.
  assert (forall err, md = Faulty -> Q (Err err) s v) as HE0.
  { intros err Hmd. specialize (HE err (tables v) Hmd (or_introl eq_refl)). by destruct v. }
  unfold relaseSoldSeats. wp_step. apply findBySeatIds_wp; [|done]. intros l Hl.
  wp_step. wp_step. intros [[]|err] v1 H; seat_sem H.
  - subst v1. rewrite (save_selected si_id (seat_in e seatIds)); [|apply Hwf|done|done].
    apply updateMultipleSeatsStatus_wp; [exact HQ|]. intros err Hmd. apply HE; auto.
  - destruct H as [-> [[]|[Hmd _]]]. auto.
Qed.
End Proofs.

(** ** Properties *)

(** The rows of an event that a message's seats become. *)
Definition created_rows (p : EventCreateMessage) (rs : list SeatInventory) : Prop :=
  exists l, rs ≡ₚ l /\ Forall2 seat_created (map (seat_entity (ecm_eventId p)) (ecm_seats p)) l.

Lemma event_rows_insert e ds l t :
  tables_wf t -> Forall2 seat_created ds l -> fresh_rows si_id l (seats t) ->
  Forall (fun d => sd_eventId d = e) ds -> event_rows e t = [] ->
  event_rows e (mkTables (upsert si_id l (seats t)) (holds t)) ≡ₚ l.
Proof.
  intros Hwf Hc Hf He Hnil. pose proof (wf_seats_keyed _ Hwf) as Hk.
  assert (keyed si_id (upsert si_id l (seats t))) as Hk' by (by apply upsert_keyed).
  apply NoDup_Permutation.
  - apply (NoDup_fmap_1 si_id). apply map_filter_nodup. by apply rows_nodup.
  - apply (NoDup_fmap_1 si_id), Hf.
  - intros r. rewrite elem_of_event_rows. cbn [seats]. rewrite elem_of_rows_lookup. split.
    + intros [[i Hi] Her]. eapply upsert_fresh_inv in Hi as [Hi|[Hi _]]; [| |done..]; [|done].
      exfalso. assert (r ∈ event_rows e t) as Hin.
      { apply elem_of_event_rows. split; [|done]. by eapply rows_lookup. }
      rewrite Hnil in Hin. by apply elem_of_nil in Hin.
    + intros Hr. split.
      * exists (si_id r). apply upsert_in; [apply Hf|done].
      * clear -Hc He Hr. induction Hc as [|d r' ds l Hd Hc IH]; [by apply elem_of_nil in Hr|].
        apply Forall_cons in He as [He1 He2].
        apply elem_of_cons in Hr as [->|Hr]; [|auto]. by rewrite Hd.
Qed.

Section Properties.
Context {S W : Type} (h : forall X, SeatE X -> W -> result X * W) (view : W -> SeatView).
Variable md : mode.
Hypothesis Hh : conforms md seat_behaviour h view.
Implicit Types (s : S) (w : W).

(** Handling an [event.create] message creates the inventory of an event
    that has none, one available row per seat of the message and nothing else;
    an invalid message or a message for an event with inventory changes
    nothing, and a failed insert (a duplicate seat, say, or a price its column
    cannot hold) inserts nothing. *)
Theorem handleEventCreate_spec p s w :
  view_wf (view w) ->
  let v := view w in
  let v' := view (final h (handleEventCreate p) s w) in
  view_wf v' /\ redis v' = redis v /\ holds (tables v') = holds (tables v) /\
  match outcome h (handleEventCreate p) s w with
  | Ok _ =>
      match payload_message p with
      | Some m =>
          if truthy (ecm_eventId m) && bool_decide (event_rows (ecm_eventId m) (tables v) = []) then
            created_rows m (event_rows (ecm_eventId m) (tables v')) /\
            forall i r, seats (tables v) !! i = Some r -> seats (tables v') !! i = Some r
          else v' = v
      | None => v' = v
      end
  | Err _ => v' = v
  end.
Proof.
  intros Hv. cbn zeta. call_wp Hh w. unfold handleEventCreate.
  destruct (payload_message p) as [m|]; [|done].
  destruct (truthy (ecm_eventId m)); [|done]. cbn [andb].
  apply createFromEvent_wp.
  - intros Hne. by rewrite bool_decide_eq_false_2.
  - intros l Hnil Hc _ Hl Hf. rewrite bool_decide_eq_true_2 by done.
    destruct Hv as [Hwf Htx Htr]. cbn [tables with_tables redis holds seats]. split_and!; [|done|done| |].
    + split; [|done|done]. split; cbn; [by apply upsert_keyed; apply Hwf|apply Hwf|].
      eapply insert_unique; eauto. apply Hwf.
    + exists l. split; [|done]. eapply event_rows_insert; eauto.
      apply Forall_map, Forall_true. done.
    + intros i r Hi. by apply upsert_fresh_old.
  - intros err _. done.
Qed.

(** Redelivery of an [event.create] message is harmless: after a delivery
    that created rows, handling the same message again changes nothing. *)
Theorem handleEventCreate_idempotent p s s' w :
  view_wf (view w) ->
  let w1 := final h (handleEventCreate p) s w in
  is_ok (outcome h (handleEventCreate p) s w) = true ->
  (forall m, payload_message p = Some m -> ecm_seats m <> []) ->
  view (final h (handleEventCreate p) s' w1) = view w1.
Proof.
  intros Hv. cbn zeta. intros Hok Hs. set (w1 := final h (handleEventCreate p) s w).
  assert (view_wf (view w1) /\ forall m, payload_message p = Some m -> truthy (ecm_eventId m) = true ->
    event_rows (ecm_eventId m) (tables (view w1)) <> []) as [Hv1 Hne].
  { unfold w1. revert Hok. call_wp Hh w. unfold handleEventCreate.
    destruct (payload_message p) as [m|] eqn:Hp; [|done].
    destruct (truthy (ecm_eventId m)) eqn:Ht; [|by split; [done|]; intros ? [= <-]; rewrite Ht].
    apply createFromEvent_wp.
    - intros Hne _. split; [done|]. by intros ? [= <-] _.
    - intros l Hnil Hc _ Hl Hf _. destruct Hv as [Hwf Htx Htr]. split.
      + split; [|done|done]. split; cbn; [by apply upsert_keyed; apply Hwf|apply Hwf|].
        eapply insert_unique; eauto. apply Hwf.
      + intros ? [= <-] _ Hn. cbn [tables with_tables] in Hn.
        pose proof (event_rows_insert (ecm_eventId m) _ l _ Hwf Hl Hf) as Hrows.
        rewrite Hn in Hrows. apply (Hs m eq_refl).
        assert (l = []) as -> by (symmetry; apply Permutation_nil_l, Hrows; [apply Forall_map, Forall_true|]; done).
        apply Forall2_nil_inv_r in Hl. by apply map_eq_nil in Hl.
    - done. }
  call_wp Hh w1. unfold handleEventCreate.
  destruct (payload_message p) as [m|]; [|done]. destruct (truthy (ecm_eventId m)) eqn:Ht; [|done].
  apply createFromEvent_wp; [done| |done]. intros l Hnil. by destruct (Hne m eq_refl).
Qed.

(** [updateStatus] writes the status to exactly the event's listed rows
    and keeps the read model coherent when the listed seats exist. *)
Theorem updateStatus_coherent e seatIds st s w :
  view_wf (view w) ->
  let v := view w in
  let v' := view (final h (updateStatus e seatIds st) s w) in
  view_wf v' /\
  match outcome h (updateStatus e seatIds st) s w with
  | Ok _ =>
      tables v' = statuses_set e seatIds st (tables v) /\
      (known_seats e seatIds (tables v) -> coherent e v -> coherent e v')
  | Err _ => md = Faulty /\ redis v' = redis v
  end.
Proof.
  intros [Hwf Htx Ht]. cbn zeta. call_wp Hh w. apply updateStatus_wp; cbn.
  - split_and!; [|done|].
    + split; [by apply tables_wf_status|done|by apply entries_set_typed].
    + intros Hk Hc. by apply coherent_status.
  - intros err t Hmd [-> | ->]; (split; [split; [|done|done]|done]); [done|by apply tables_wf_status].
Qed.
End Properties.

(** ** Concrete runs *)

Definition demo_message : EventCreateMessage :=
  mkEventCreateMessage "ev2" None None (Some "Concert") None
    [mkEventSeat "C1" "sec" "Balcony" "tt" "VIP" (num_of_Z 250) "TRY" "C" "1" "vip";
     mkEventSeat "C2" "sec" "Balcony" "tt" "VIP" (num_of_Z 250) "TRY" "C" "2" "vip"]%string.

Abbreviation demo_delivery := (@handleEventCreate unit (PEnvelope (Some demo_message))).

Lemma handleEventCreate_spec_witness :
  created_rows demo_message (event_rows "ev2" (tables (seat_view (final seat_run demo_delivery tt demo_world)))).
Proof.
  pose proof (handleEventCreate_spec seat_run seat_view Reliable seat_run_conforms
    (PEnvelope (Some demo_message)) tt demo_world demo_world_wf) as (_ & _ & _ & H).
  eval_outcome H. exact (proj1 H).
Defined.

Lemma handleEventCreate_idempotent_witness :
  seat_view (final seat_run demo_delivery tt (final seat_run demo_delivery tt demo_world)) =
  seat_view (final seat_run demo_delivery tt demo_world).
Proof.
  apply (handleEventCreate_idempotent seat_run seat_view Reliable seat_run_conforms
    (PEnvelope (Some demo_message)) tt tt demo_world demo_world_wf).
  - vm_compute. reflexivity.
  - intros m [= <-]. discriminate.
Defined.

Lemma updateStatus_coherent_witness :
  tables (seat_view (final seat_run (@updateStatus unit "ev" ["A1"; "B1"] RESERVED) tt demo_world)) =
  statuses_set "ev" ["A1"; "B1"] RESERVED (tables (seat_view demo_world)).
Proof.
  pose proof (updateStatus_coherent seat_run seat_view Reliable seat_run_conforms
    "ev" ["A1"; "B1"]%string RESERVED tt demo_world demo_world_wf) as [_ H].
  eval_outcome H. destruct H as [H _]. exact H.
Defined.
