(* ===== verification/Hold.v ===== *)
(** * HoldService

    apps/seat-inventory-service/src/hold/hold.service.ts: holding seats for a
    user (lock, transaction, read model), releasing them and marking them as
    sold.  The seats and holds are written in one transaction of a query
    runner; the reads go through the repositories, that is to the committed
    tables. *)

From S2P Require Import Prelude Effects JsNumber Json Redis Sql SeatWorld SeatRef SeatLock Availability Inventory.

Definition HOLD_DURATION_MS : Z := 10 * 60 * 1000.

Section Service.
Context {S : Type}.
Implicit Types (eventId userId sessionId : string) (seatIds : list string).

(** The callback of [seatIds.map] in [holdSeats]. *)
Definition make_hold_data eventId userId sessionId (inventories : list SeatInventory)
    (expiresAt : Z) (seatId : string) : result HoldData :=
  match List.find (fun inv => String.eqb (si_seatId inv) seatId) inventories with
  | None => Err (BadRequestException ("Seat " +:+ seatId +:+ " not found in inventory"))
  | Some inventory => Ok (mkHoldData (si_id inventory) eventId seatId userId sessionId expiresAt)
  end.

Definition not_available (inv : SeatInventory) : bool := negb (bool_decide (si_status inv = AVAILABLE)).

(** The [try] block of [holdSeats]. *)
Definition hold_transaction eventId seatIds userId sessionId : prog S SeatE (list string * Z) :=
  inventories <- findBySeatIds eventId seatIds ;;
  let unavailable := List.filter not_available inventories in
  if Nat.ltb 0 (length unavailable) then
    Throw (BadRequestException ("Seats not available: " +:+ join ", " (map si_seatId unavailable)))
  else
    call (QrSaveSeats (map (set_status HELD) inventories)) ;;
    now <- call SNow ;;
    let expiresAt := (now + HOLD_DURATION_MS)%Z in
    holds <- of_result (map_result
      (make_hold_data eventId userId sessionId (map (set_status HELD) inventories) expiresAt) seatIds) ;;
    savedHolds <- call (QrInsertHolds holds) ;;
    call QrCommit ;;
    updateMultipleSeatsStatus eventId (map (status_update HELD) seatIds) ;;
    Ret (map sh_id savedHolds, expiresAt).

Definition holdSeats eventId seatIds userId sessionId : prog S SeatE (list string * Z) :=
  lockResult <- lockSeats eventId seatIds userId sessionId ;;
  let '(success, failedSeatIds) := lockResult in
  if negb success then
    Throw (BadRequestException ("Seats already held: " +:+ join ", " failedSeatIds))
  else
    call QrConnect ;;
    call QrStart ;;
    finally
      (try_catch (hold_transaction eventId seatIds userId sessionId)
        (fun error =>
           call QrRollback ;;
           releaseLocks eventId seatIds userId ;;
           Throw error))
      (call QrRelease).

(** [{ eventId, userId, releasedAt: IsNull() }] *)
Definition active_hold eventId userId (hold : SeatHold) : bool :=
  String.eqb (sh_eventId hold) eventId && String.eqb (sh_userId hold) userId &&
  match sh_releasedAt hold with None => true | Some _ => false end.

(** The loop that stamps the listed holds; [new Date()] is read for each. *)
Fixpoint stamp_holds seatIds (reason : SeatLockReleaseReason) (holds : list SeatHold)
    : prog S SeatE (list SeatHold) :=
  match holds with
  | [] => Ret []
  | hold :: rest =>
      if includes seatIds (sh_seatId hold) then
        now <- call SNow ;;
        rest <- stamp_holds seatIds reason rest ;;
        Ret (set_released now reason hold :: rest)
      else
        rest <- stamp_holds seatIds reason rest ;;
        Ret (hold :: rest)
  end.

Definition releaseSeats eventId seatIds userId (reason : SeatLockReleaseReason) : prog S SeatE unit :=
  call QrConnect ;;
  call QrStart ;;
  finally
    (try_catch
      (holds <- call (HoldFind (active_hold eventId userId)) ;;
       holds <- stamp_holds seatIds reason holds ;;
       call (QrSaveHolds holds) ;;
       inventories <- findBySeatIds eventId seatIds ;;
       call (QrSaveSeats (map (set_status AVAILABLE) inventories)) ;;
       call QrCommit ;;
       releaseLocks eventId seatIds userId ;;
       updateMultipleSeatsStatus eventId (map (status_update AVAILABLE) seatIds))
      (fun error => call QrRollback ;; Throw error))
    (call QrRelease).

Definition markAsSold eventId seatIds userId : prog S SeatE unit :=
  call QrConnect ;;
  call QrStart ;;
  finally
    (try_catch
      (inventories <- findBySeatIds eventId seatIds ;;
       call (QrSaveSeats (map (set_status SOLD) inventories)) ;;
       holds <- call (HoldFind (active_hold eventId userId)) ;;
       holds <- stamp_holds seatIds PAYMENT_SUCCESS holds ;;
       call (QrSaveHolds holds) ;;
       call QrCommit ;;
       releaseLocks eventId seatIds userId ;;
       updateMultipleSeatsStatus eventId (map (status_update SOLD) seatIds))
      (fun error => call QrRollback ;; Throw error))
    (call QrRelease).
End Service.

(** ** Specification *)

(** The hold row of a seat. *)
Definition hold_of_seat (e u se : string) (exp : Z) (t : SeatTables) (x : string) (r : SeatHold) : Prop :=
  exists inv, seat_at t e x = Some inv /\ hold_created (mkHoldData (si_id inv) e x u se exp) r.

(** [t'] is [t] with a hold of the seats made: all of them were available and
    are held now, with one new hold row each. *)
Record hold_made (e : string) (seatIds : list string) (u se : string) (exp : Z)
    (t t' : SeatTables) (l : list SeatHold) : Prop := {
  hm_available : forall x, x ∈ seatIds -> exists r, seat_at t e x = Some r /\ si_status r = AVAILABLE;
  hm_rows : Forall2 (hold_of_seat e u se exp t) seatIds l;
  hm_fresh : fresh_rows sh_id l (holds t);
  hm_tables : t' = mkTables (seats (statuses_set e seatIds HELD t)) (upsert sh_id l (holds t));
}.

(** The holds of the user on the seats are stamped as released. *)
Definition released_by (now : string -> Z) (seatIds : list string) (reason : SeatLockReleaseReason)
    (h : SeatHold) : SeatHold :=
  if includes seatIds (sh_seatId h) then set_released (now (sh_id h)) reason h else h.

Definition holds_released (e u : string) (seatIds : list string) (reason : SeatLockReleaseReason)
    (now : string -> Z) (hs : gmap string SeatHold) : gmap string SeatHold :=
  update_where (active_hold e u) (released_by now seatIds reason) hs.

(** [t'] is [t] with the seats set to [st] and the user's holds on them ended. *)
Definition hold_ended (e : string) (seatIds : list string) (u : string)
    (reason : SeatLockReleaseReason) (st : SeatStatus) (t t' : SeatTables) : Prop :=
  exists now, t' = mkTables (seats (statuses_set e seatIds st t))
                            (holds_released e u seatIds reason now (holds t)).

(** ** Lemmas *)

Lemma find_inventory e seatIds x t l :
  tables_wf t -> selects (seat_in e seatIds) (seats t) l -> x ∈ seatIds ->
  List.find (fun inv => String.eqb (si_seatId inv) x) l = seat_at t e x.
Proof.
  intros Hwf Hs Hx.
  assert (forall r, r ∈ l <-> r ∈ rows (seats t) /\ seat_in e seatIds r = true) as Hl.
  { intros r. unfold selects in Hs. by rewrite Hs, elem_of_filterb. }
  destruct (List.find _ l) as [r|] eqn:Hf; symmetry.
  - apply find_Some_elem in Hf as [Hr%Hl He%String.eqb_eq]. destruct Hr as [Hr Hin].
    apply seat_at_spec; [done|]. split; [done|]. unfold seat_in, of_event in Hin.
    apply andb_true_iff in Hin as [Hev%String.eqb_eq _]. unfold seat_key. congruence.
  - rewrite find_None_elem in Hf. apply seat_at_None. intros r Hr Hk. unfold seat_key in Hk. simplify_eq.
    assert (r ∈ l) as Hin.
    { apply Hl. split; [done|]. unfold seat_in, of_event. rewrite String.eqb_refl. by apply includes_spec. }
    apply Hf in Hin. by rewrite String.eqb_refl in Hin.
Qed.

Lemma find_map_status (f : string -> bool) st l :
  List.find (fun inv => f (si_seatId inv)) (map (set_status st) l) =
  set_status st <$> List.find (fun inv => f (si_seatId inv)) l.
Proof. induction l as [|r l IH]; cbn; [done|]. by destruct (f (si_seatId r)). Qed.

Lemma make_hold_data_spec e u se seatIds x t l exp :
  tables_wf t -> selects (seat_in e seatIds) (seats t) l -> x ∈ seatIds ->
  make_hold_data e u se (map (set_status HELD) l) exp x =
  match seat_at t e x with
  | Some r => Ok (mkHoldData (si_id r) e x u se exp)
  | None => Err (BadRequestException ("Seat " +:+ x +:+ " not found in inventory"))
  end.
Proof.
  intros Hwf Hs Hx. unfold make_hold_data.
  rewrite (find_map_status (fun i => String.eqb i x)), (find_inventory e seatIds x t l) by done.
  by destruct (seat_at t e x).
Qed.

Lemma map_result_inv {A B} (f : A -> result B) xs :
  (exists ys, map_result f xs = Ok ys /\ Forall2 (fun x y => f x = Ok y) xs ys) \/
  (exists e x, map_result f xs = Err e /\ x ∈ xs /\ f x = Err e).
Proof.
  induction xs as [|x xs IH]; cbn; [left; by exists []|].
  destruct (f x) as [y|e] eqn:Hx.
  - destruct IH as [(ys & -> & Hys)|(e & x' & -> & Hin & He)].
    + left. eexists. split; [done|]. by constructor.
    + right. exists e, x'. split_and!; [done|by right|done].
  - right. exists e, x. split_and!; [done|left|done].
Qed.

(** What the transaction of [holdSeats] commits. *)
Lemma hold_commit e seatIds u se exp t inv ds l :
  tables_wf t -> selects (seat_in e seatIds) (seats t) inv ->
  (forall r, r ∈ inv -> si_status r = AVAILABLE) ->
  Forall2 (fun x d => make_hold_data e u se (map (set_status HELD) inv) exp x = Ok d) seatIds ds ->
  Forall2 hold_created ds l -> fresh_rows sh_id l (holds t) ->
  hold_made e seatIds u se exp t
    (apply_writes [WSeats (map (set_status HELD) inv); WHolds l] t) l.
Proof.
  intros Hwf Hs Hav Hds Hl Hf.
  assert (forall x, x ∈ seatIds -> exists r, seat_at t e x = Some r) as Hat.
  { intros x Hx. apply list_elem_of_lookup in Hx as [i Hi].
    destruct (Forall2_lookup_l _ _ _ _ _ Hds Hi) as (d & _ & Hd).
    rewrite (make_hold_data_spec e u se seatIds x t inv exp) in Hd; [|done..|by eapply list_elem_of_lookup_2].
    destruct (seat_at t e x) as [r|]; [by eauto|done]. }
  split; [| |done|].
  - intros x Hx. destruct (Hat x Hx) as [r Hr]. exists r. split; [done|]. apply Hav.
    apply seat_at_spec in Hr as [Hin Hk]; [|done]. unfold selects in Hs. rewrite Hs, elem_of_filterb.
    split; [done|]. unfold seat_key in Hk. simplify_eq. unfold seat_in, of_event.
    rewrite String.eqb_refl. by apply includes_spec.
  - assert (Forall2 (fun x d => exists r, seat_at t e x = Some r /\ d = mkHoldData (si_id r) e x u se exp)
      seatIds ds) as Hds'.
    { apply Forall2_same_length_lookup. split; [by eapply Forall2_length|]. intros i x d Hx Hd.
      pose proof (Forall2_lookup_lr _ _ _ _ _ _ Hds Hx Hd) as Heq. cbn in Heq.
      rewrite (make_hold_data_spec e u se seatIds x t inv exp) in Heq;
        [|done..|by eapply list_elem_of_lookup_2].
      destruct (seat_at t e x) as [r|]; simplify_eq. eauto. }
    clear -Hds' Hl. revert l Hl. induction Hds' as [|x d xs ds (r & Hr & ->) Hds IH]; intros l Hl.
    + apply Forall2_nil_inv_l in Hl as ->. constructor.
    + apply Forall2_cons_inv_l in Hl as (h & l' & Hh & Hl & ->). constructor; [|by apply IH].
      exists r. done.
  - cbn. by rewrite (save_selected si_id (seat_in e seatIds)); [|apply Hwf|..].
Qed.

(** Why the transaction of a hold refuses the seats ... *)
Inductive seats_refused (e : string) (seatIds : list string) (t : SeatTables) : exn -> Prop :=
| refused_unavailable rs :
    rs ≡ₚ List.filter not_available (List.filter (seat_in e seatIds) (rows (seats t))) -> rs <> [] ->
    seats_refused e seatIds t
      (BadRequestException ("Seats not available: " +:+ join ", " (map si_seatId rs)))
| refused_missing x :
    x ∈ seatIds -> seat_at t e x = None ->
    seats_refused e seatIds t (BadRequestException ("Seat " +:+ x +:+ " not found in inventory")).

(** ... and why a hold is refused without anything having failed. *)
Inductive hold_refused (e : string) (seatIds : list string) (v : SeatView) : exn -> Prop :=
| refused_locked busy :
    busy = (free_busy e (redis v) [] seatIds).2 -> busy <> [] ->
    hold_refused e seatIds v (BadRequestException ("Seats already held: " +:+ join ", " busy))
| refused_seats err : seats_refused e seatIds (tables v) err -> hold_refused e seatIds v err.

(** Where a failure can leave the service: nothing written, or everything
    written and the locks still in place. *)
Definition hold_all_or_nothing (e : string) (seatIds : list string) (u se : string) (v v' : SeatView) : Prop :=
  tx v' = None /\ redis_typed (redis v') /\
  (tables v' = tables v \/
   exists exp l, NoDup seatIds /\ hold_made e seatIds u se exp (tables v) (tables v') l /\
     forall x, x ∈ seatIds -> owned_by (redis v') e u x = true).

Section Proofs.
Context {S : Type}.
Implicit Types (s : S) (v : SeatView).
Variable md : mode.
Abbreviation spec := (obeys md seat_behaviour).

Lemma locks_added_owned e u se seatIds m m' x :
  locks_added e u se seatIds m m' -> x ∈ seatIds -> owned_by m' e u x = true.
Proof.
  intros [Hm _] Hx. destruct (Hm x Hx) as [now Hn].
  erewrite owned_by_json by exact Hn. apply String.eqb_refl.
Qed.

(** The transaction, from a view with an open empty transaction. *)
Lemma hold_transaction_wp e seatIds u se (Q : result (list string * Z) -> S -> SeatView -> Prop) s v :
  tables_wf (tables v) -> tx v = Some [] ->
  (forall exp l t', hold_made e seatIds u se exp (tables v) t' l ->
     Q (Ok (map sh_id l, exp)) s (mkView t' None (entries_set e seatIds HELD (redis v)))) ->
  (forall err ws, seats_refused e seatIds (tables v) err -> Q (Err err) s (with_tx (Some ws) v)) ->
  (forall err ws, md = Faulty -> Q (Err err) s (with_tx (Some ws) v)) ->
  (forall err exp l t', md = Faulty -> hold_made e seatIds u se exp (tables v) t' l ->
     Q (Err err) s (mkView t' None (redis v))) ->
  wp spec (hold_transaction e seatIds u se) Q s v.
Proof.
  intros Hwf Htx HQ HR HE HC. unfold hold_transaction.
  assert (forall err, md = Faulty -> Q (Err err) s v) as HE0.
  { intros err Hmd. specialize (HE err [] Hmd). unfold with_tx in HE. rewrite <- Htx in HE. by destruct v. }
  wp_step. apply findBySeatIds_wp; [|done]. intros inv Hinv. cbn zeta.
  destruct (Nat.ltb_spec 0 (length (List.filter not_available inv))) as [Hun|Hun].
  { cbn. specialize (HR (BadRequestException ("Seats not available: " +:+
      join ", " (map si_seatId (List.filter not_available inv)))) []).
    unfold with_tx in HR. rewrite <- Htx in HR. replace v with (mkView (tables v) (tx v) (redis v)) by (by destruct v).
    apply HR. apply refused_unavailable.
    - by apply filterb_perm.
    - intros Hn. rewrite Hn in Hun. cbn in Hun. lia. }
  assert (forall r, r ∈ inv -> si_status r = AVAILABLE) as Hav.
  { intros r Hr. assert (List.filter not_available inv = []) as Hn.
    { destruct (List.filter not_available inv); [done|cbn in Hun; lia]. }
    rewrite filterb_nil in Hn. specialize (Hn r Hr). unfold not_available in Hn.
    by apply negb_false_iff, bool_decide_eq_true in Hn. }
  wp_step. wp_step. intros [[]|err] v1 H; seat_sem H; [|destruct H as [-> [[]|[Hmd _]]]; by apply HE0].
  unfold qr_write in H. rewrite Htx in H. subst v1. cbn [app].
  wp_step. wp_step. intros [now|err] v1 H; seat_sem H; [subst v1|by destruct H as [_ [[]|[_ []]]]].
  cbn zeta. wp_step. wp_step.
  destruct (map_result_inv (make_hold_data e u se (map (set_status HELD) inv) (now + HOLD_DURATION_MS)) seatIds)
    as [(ds & -> & Hds)|(err & x & -> & Hx & Herr)].
  2: { apply HR. rewrite (make_hold_data_spec e u se seatIds x (tables v) inv) in Herr by done.
       destruct (seat_at (tables v) e x) as [r|] eqn:Hat; simplify_eq. by apply refused_missing. }
  wp_step. wp_step. intros [l|err] v1 H; seat_sem H; [|destruct H as [-> [[]|[Hmd _]]]; by apply HE].
  destruct H as (Hl & Hf & ->). cbn [qr_tables with_tx tx apply_writes foldl apply_write holds tables] in Hf.
  assert (hold_made e seatIds u se (now + HOLD_DURATION_MS) (tables v)
    (apply_writes [WSeats (map (set_status HELD) inv); WHolds l] (tables v)) l) as Hmade
    by (by eapply hold_commit).
  wp_step. wp_step. intros [[]|err] v1 H; seat_sem H; [|destruct H as [-> [Hn|[Hmd _]]]; [done|by apply HE]].
  destruct H as (ws & Hws & ->). cbn in Hws. apply Some_inj in Hws. subst ws.
  wp_step. apply updateMultipleSeatsStatus_wp.
  - wp_step. by apply HQ.
  - intros err Hmd. by eapply HC.
Qed.

Lemma with_tx_none v : tx v = None -> with_tx None v = v.
Proof. intros Ht. destruct v. cbn in *. by subst. Qed.

Lemma release_qr_wp {A} (r : result A) (Q : result A -> S -> SeatView -> Prop) s v :
  Q r s (with_tx None v) ->
  wp spec (call QrRelease) (fun r' s v => match r' with Ok _ => Q r s v | Err e => Q (Err e) s v end) s v.
Proof.
  intros HQ. wp_step. intros [[]|err] v1 H; seat_sem H; [by subst v1|by destruct H as [_ [[]|[_ []]]]].
Qed.

(** The [catch] and [finally] blocks of [holdSeats] after a failure in the
    transaction. *)
Lemma hold_undo_wp e seatIds u err (Q : result (list string * Z) -> S -> SeatView -> Prop) s v :
  redis_typed (redis v) -> tx v <> None ->
  Q (Err err) s (mkView (tables v) None (drop_locks e u seatIds (redis v))) ->
  (forall err' m', md = Faulty -> redis_typed m' -> Q (Err err') s (mkView (tables v) None m')) ->
  wp spec (call QrRollback ;; releaseLocks e seatIds u ;; Throw err)
    (fun r s v => wp spec (call QrRelease) (fun r' s v =>
       match r' with Ok _ => Q r s v | Err e => Q (Err e) s v end) s v) s v.
Proof.
  intros Ht Htx HQ HE. wp_step. wp_step. intros [[]|err'] v1 H; seat_sem H.
  2: { destruct H as [-> [?|[Hmd _]]]; [done|]. apply release_qr_wp. by apply HE. }
  destruct H as [_ ->]. wp_step. apply releaseLocks_wp; [done| |].
  - cbv iota beta. wp_step. apply release_qr_wp. exact HQ.
  - intros err' pre Hmd Hp. apply release_qr_wp. apply HE; [done|]. by apply typed_drop_locks.
Qed.

(** ... and after a failure that follows the commit: the rollback throws. *)
Lemma hold_committed_wp e seatIds u err (Q : result (list string * Z) -> S -> SeatView -> Prop) s v :
  tx v = None -> (forall err', Q (Err err') s v) ->
  wp spec (call QrRollback ;; releaseLocks e seatIds u ;; Throw err)
    (fun r s v => wp spec (call QrRelease) (fun r' s v =>
       match r' with Ok _ => Q r s v | Err e => Q (Err e) s v end) s v) s v.
Proof.
  intros Htx HQ. wp_step. wp_step. intros [[]|err'] v1 H; seat_sem H; [by destruct H|].
  destruct H as [-> _]. apply release_qr_wp. rewrite with_tx_none by done. apply HQ.
Qed.

(** What a call of [holdSeats] does. *)
Lemma holdSeats_wp e seatIds u se (Q : result (list string * Z) -> S -> SeatView -> Prop) s v :
  view_wf v ->
  (forall exp l t' m, NoDup seatIds -> (forall x, x ∈ seatIds -> redis v !! lock_key e x = None) ->
     locks_added e u se seatIds (redis v) m -> hold_made e seatIds u se exp (tables v) t' l ->
     Q (Ok (map sh_id l, exp)) s (mkView t' None (entries_set e seatIds HELD m))) ->
  (forall err, hold_refused e seatIds v err -> Q (Err err) s v) ->
  (forall err v', md = Faulty -> hold_all_or_nothing e seatIds u se v v' -> Q (Err err) s v') ->
  wp spec (holdSeats e seatIds u se) Q s v.
Proof.
  intros [Hwf Htx Ht] HQ HR HE. unfold holdSeats. wp_step. apply lockSeats_wp.
  2: { intros busy Hb Hne. cbn. apply HR. by apply refused_locked. }
  2: { intros err m Hmd Hm _. apply HE; [done|]. split_and!; [done|by apply Hm|by left]. }
  intros m Hnd Hfree Hm. cbn [negb]. pose proof (typed_locks_added _ _ _ _ _ _ Ht Hm) as Htm.
  assert (forall err m', md = Faulty -> redis_typed m' ->
    Q (Err err) s (mkView (tables v) None m')) as HE0.
  { intros err m' Hmd Hm'. apply HE; [done|]. split_and!; [done|done|by left]. }
  wp_step. wp_step. intros [[]|err] v1 H; seat_sem H;
    [subst v1|destruct H as [-> [[]|[Hmd _]]]; unfold with_redis; rewrite Htx; by apply HE0].
  wp_step. wp_step. intros [[]|err] v1 H; seat_sem H;
    [|destruct H as [-> [?|[Hmd _]]]; [done|]; unfold with_redis; rewrite Htx; by apply HE0].
  destruct H as [_ ->]. wp_step. wp_step. apply hold_transaction_wp; [done|done|..].
  - intros exp l t' Hmade. apply release_qr_wp. cbn. by apply (HQ exp l t' m).
  - intros err ws Href. apply hold_undo_wp; [done|done| |intros err' m'; apply HE0].
    cbn [with_tx with_redis tables tx redis].
    destruct (drop_locks_added e u se seatIds _ _ Hnd Hfree Hm) as [_ ->].
    rewrite <- Htx. replace (mkView (tables v) (tx v) (redis v)) with v by (by destruct v).
    apply HR. by apply refused_seats.
  - intros err ws Hmd. apply hold_undo_wp; [done|done| |intros err' m'; apply HE0].
    apply HE0; [done|]. by apply typed_drop_locks.
  - intros err exp l t' Hmd Hmade. apply hold_committed_wp; [done|]. intros err'. apply HE; [done|].
    split_and!; [done|done|]. right. exists exp, l. split_and!; [done|done|]. intros x Hx.
    by eapply locks_added_owned.
Qed.

Lemma stamp_holds_wp seatIds reason l (Q : result (list SeatHold) -> S -> SeatView -> Prop) s v :
  NoDup (map sh_id l) ->
  (forall now, Q (Ok (map (released_by now seatIds reason) l)) s v) ->
  wp spec (stamp_holds seatIds reason l) Q s v.
Proof.
  revert Q. induction l as [|hd rest IH]; intros Q Hnd HQ; cbn [stamp_holds].
  { cbn. by apply (HQ (fun _ => 0%Z)). }
  cbn in Hnd. apply NoDup_cons in Hnd as [Hid Hnd].
  destruct (includes seatIds (sh_seatId hd)) eqn:Hin.
  - wp_step. wp_step. intros [now|err] v1 H; seat_sem H; [subst v1|by destruct H as [_ [[]|[_ []]]]].
    wp_step. apply IH; [done|]. intros now'. cbn [wp bind].
    specialize (HQ (fun i => if String.eqb i (sh_id hd) then now else now' i)).
    assert (map (released_by now' seatIds reason) rest =
      map (released_by (fun i => if String.eqb i (sh_id hd) then now else now' i) seatIds reason) rest) as ->.
    { apply map_ext_in. intros r Hr%list_elem_of_In. unfold released_by.
      destruct (String.eqb_spec (sh_id r) (sh_id hd)) as [Heq|]; [|done].
      exfalso. apply Hid. apply list_elem_of_fmap. eauto. }
    cbn [map] in HQ. unfold released_by at 1 in HQ. rewrite Hin, String.eqb_refl in HQ. exact HQ.
  - wp_step. apply IH; [done|]. intros now'. cbn [wp bind].
    specialize (HQ now'). cbn [map] in HQ. unfold released_by at 1 in HQ. rewrite Hin in HQ. exact HQ.
Qed.

(** The [catch] and [finally] blocks of [releaseSeats] and [markAsSold]. *)
Lemma end_failed_wp err (Q : result unit -> S -> SeatView -> Prop) s v :
  (forall err', Q (Err err') s (with_tx None v)) ->
  wp spec (call QrRollback ;; Throw err)
    (fun r s v => wp spec (call QrRelease) (fun r' s v =>
       match r' with Ok _ => Q r s v | Err e => Q (Err e) s v end) s v) s v.
Proof.
  intros HQ. wp_step. wp_step. intros [[]|err'] v1 H; seat_sem H.
  - destruct H as [_ ->]. wp_step. apply release_qr_wp. apply HQ.
  - destruct H as [-> _]. apply release_qr_wp. apply HQ.
Qed.

(** A method that opens a transaction and runs [body] in it. *)
Definition in_transaction (body : prog S SeatE unit) : prog S SeatE unit :=
  call QrConnect ;;
  call QrStart ;;
  finally (try_catch body (fun error => call QrRollback ;; Throw error)) (call QrRelease).

Lemma in_transaction_wp body (Q : result unit -> S -> SeatView -> Prop) s v :
  tx v = None ->
  (forall err, md = Faulty -> Q (Err err) s v) ->
  wp spec body (fun r s v' =>
    match r with
    | Ok _ => Q (Ok tt) s (with_tx None v')
    | Err _ => forall err', Q (Err err') s (with_tx None v')
    end) s (with_tx (Some []) v) ->
  wp spec (in_transaction body) Q s v.
Proof.
  intros Htx HE Hb. unfold in_transaction.
  wp_step. wp_step. intros [[]|err] v1 H; seat_sem H; [subst v1|destruct H as [-> [[]|[Hmd _]]]; by apply HE].
  wp_step. wp_step. intros [[]|err] v1 H; seat_sem H; [|destruct H as [-> [?|[Hmd _]]]; [done|]; by apply HE].
  destruct H as [_ ->]. wp_step. wp_step. eapply wp_mono; [exact Hb|].
  intros [[]|err] s' v' H; [by apply release_qr_wp|by apply end_failed_wp].
Qed.

(** The tail of [releaseSeats] and [markAsSold], after the commit. *)
Lemma after_commit_wp e seatIds u st (Q : result unit -> S -> SeatView -> Prop) s v :
  redis_typed (redis v) ->
  Q (Ok tt) s (with_redis (entries_set e seatIds st (drop_locks e u seatIds (redis v))) v) ->
  (forall err m, md = Faulty -> redis_typed m -> Q (Err err) s (with_redis m v)) ->
  wp spec (releaseLocks e seatIds u ;;
           updateMultipleSeatsStatus e (map (status_update st) seatIds)) Q s v.
Proof.
  intros Ht HQ HE. wp_step. apply releaseLocks_wp; [done| |].
  - apply updateMultipleSeatsStatus_wp; [exact HQ|]. intros err Hmd. apply HE; [done|].
    by apply typed_drop_locks.
  - intros err pre Hmd _. apply HE; [done|]. by apply typed_drop_locks.
Qed.

(** What both methods commit. *)
Lemma end_commit e seatIds u reason st t inv hs now :
  tables_wf t -> selects (seat_in e seatIds) (seats t) inv ->
  selects (active_hold e u) (holds t) hs ->
  hold_ended e seatIds u reason st t
    (apply_writes [WHolds (map (released_by now seatIds reason) hs); WSeats (map (set_status st) inv)] t) /\
  hold_ended e seatIds u reason st t
    (apply_writes [WSeats (map (set_status st) inv); WHolds (map (released_by now seatIds reason) hs)] t).
Proof.
  intros Hwf Hi Hhs. cbn.
  rewrite (save_selected si_id (seat_in e seatIds)); [|apply Hwf|done|done].
  rewrite (save_selected sh_id (active_hold e u)); [|apply Hwf|done|].
  - split; exists now; done.
  - intros r. unfold released_by. by destruct (includes seatIds (sh_seatId r)).
Qed.

(** The two methods end holds: all of it is committed or nothing is. *)
Section EndHolds.
Variables (e : string) (seatIds : list string) (u : string) (reason : SeatLockReleaseReason).
Variables (st : SeatStatus) (Q : result unit -> S -> SeatView -> Prop) (s : S) (v : SeatView).
Hypothesis Hv : view_wf v.
Hypothesis HQ : forall t', hold_ended e seatIds u reason st (tables v) t' ->
  Q (Ok tt) s (mkView t' None (entries_set e seatIds st (drop_locks e u seatIds (redis v)))).
Hypothesis HE : forall err t' m, md = Faulty -> redis_typed m ->
  t' = tables v \/ hold_ended e seatIds u reason st (tables v) t' -> Q (Err err) s (mkView t' None m).

Lemma end_aborted err : md = Faulty -> Q (Err err) s (mkView (tables v) None (redis v)).
Proof using Hv HE. intros Hmd. apply HE; [done|apply Hv|by left]. Qed.

Lemma end_committed_wp t' :
  hold_ended e seatIds u reason st (tables v) t' ->
  wp spec (releaseLocks e seatIds u ;;
           updateMultipleSeatsStatus e (map (status_update st) seatIds))
    (fun r s v' =>
      match r with
      | Ok _ => Q (Ok tt) s (with_tx None v')
      | Err _ => forall err', Q (Err err') s (with_tx None v')
      end) s (mkView t' None (redis v)).
Proof using Hv HQ HE.
  intros Ht'. apply after_commit_wp; [apply Hv|by apply HQ|].
  intros err m Hmd Hm err'. apply HE; [done..|by right].
Qed.
End EndHolds.

Lemma releaseSeats_wp e seatIds u reason (Q : result unit -> S -> SeatView -> Prop) s v :
  view_wf v ->
  (forall t', hold_ended e seatIds u reason AVAILABLE (tables v) t' ->
     Q (Ok tt) s (mkView t' None (entries_set e seatIds AVAILABLE (drop_locks e u seatIds (redis v))))) ->
  (forall err t' m, md = Faulty -> redis_typed m ->
     t' = tables v \/ hold_ended e seatIds u reason AVAILABLE (tables v) t' ->
     Q (Err err) s (mkView t' None m)) ->
  wp spec (releaseSeats e seatIds u reason) Q s v.
Proof.
  intros Hv HQ HE. pose proof (end_aborted e seatIds u reason AVAILABLE Q s v Hv HE) as HA.
  pose proof (end_committed_wp e seatIds u reason AVAILABLE Q s v Hv HQ HE) as HC.
  destruct v as [t o m]. destruct Hv as [Hwf Htx Ht]. cbn [tables tx redis] in *. subst o.
  apply in_transaction_wp; [done|auto|]. unfold with_tx; cbn [tables tx redis].
  wp_step. wp_step. intros [hs|err] v1 H; seat_sem H; [|destruct H as [-> [[]|[Hmd _]]]; cbn; auto].
  destruct H as [-> Hhs]. cbn [tables] in Hhs.
  wp_step. apply stamp_holds_wp; [eapply selects_nodup; [apply Hwf|done]|]. intros now.
  wp_step. wp_step. intros [[]|err] v1 H; seat_sem H; [|destruct H as [-> [[]|[Hmd _]]]; cbn; auto].
  subst v1. unfold qr_write. cbn [tx app].
  wp_step. apply findBySeatIds_wp; [|by cbn; auto]. intros inv Hinv. cbn [tables with_tx] in Hinv.
  wp_step. wp_step. intros [[]|err] v1 H; seat_sem H; [|destruct H as [-> [[]|[Hmd _]]]; cbn; auto].
  subst v1. unfold qr_write. cbn [tx app with_tx].
  wp_step. wp_step. intros [[]|err] v1 H; seat_sem H; [|destruct H as [-> [?|[Hmd _]]]; [done|cbn; auto]].
  destruct H as (ws & Hws & ->). cbn [tx with_tx] in Hws. apply Some_inj in Hws. subst ws.
  cbn [tables redis with_tx]. apply HC. by apply (end_commit e seatIds u reason AVAILABLE t inv hs now).
Qed.

Lemma markAsSold_wp e seatIds u (Q : result unit -> S -> SeatView -> Prop) s v :
  view_wf v ->
  (forall t', hold_ended e seatIds u PAYMENT_SUCCESS SOLD (tables v) t' ->
     Q (Ok tt) s (mkView t' None (entries_set e seatIds SOLD (drop_locks e u seatIds (redis v))))) ->
  (forall err t' m, md = Faulty -> redis_typed m ->
     t' = tables v \/ hold_ended e seatIds u PAYMENT_SUCCESS SOLD (tables v) t' ->
     Q (Err err) s (mkView t' None m)) ->
  wp spec (markAsSold e seatIds u) Q s v.
Proof.
  intros Hv HQ HE. pose proof (end_aborted e seatIds u PAYMENT_SUCCESS SOLD Q s v Hv HE) as HA.
  pose proof (end_committed_wp e seatIds u PAYMENT_SUCCESS SOLD Q s v Hv HQ HE) as HC.
  destruct v as [t o m]. destruct Hv as [Hwf Htx Ht]. cbn [tables tx redis] in *. subst o.
  apply in_transaction_wp; [done|auto|]. unfold with_tx; cbn [tables tx redis].
  wp_step. apply findBySeatIds_wp; [|by cbn; auto]. intros inv Hinv. cbn [tables] in Hinv.
  wp_step. wp_step. intros [[]|err] v1 H; seat_sem H; [|destruct H as [-> [[]|[Hmd _]]]; cbn; auto].
  subst v1. unfold qr_write. cbn [tx app].
  wp_step. wp_step. intros [hs|err] v1 H; seat_sem H; [|destruct H as [-> [[]|[Hmd _]]]; cbn; auto].
  destruct H as [-> Hhs]. cbn [tables with_tx] in Hhs.
  wp_step. apply stamp_holds_wp; [eapply selects_nodup; [apply Hwf|done]|]. intros now.
  wp_step. wp_step. intros [[]|err] v1 H; seat_sem H; [|destruct H as [-> [[]|[Hmd _]]]; cbn; auto].
  subst v1. unfold qr_write. cbn [tx app with_tx].
  wp_step. wp_step. intros [[]|err] v1 H; seat_sem H; [|destruct H as [-> [?|[Hmd _]]]; [done|cbn; auto]].
  destruct H as (ws & Hws & ->). cbn [tx with_tx] in Hws. apply Some_inj in Hws. subst ws.
  cbn [tables redis with_tx]. apply HC. by apply (end_commit e seatIds u PAYMENT_SUCCESS SOLD t inv hs now).
Qed.
End Proofs.

Lemma seat_at_seats t t' e x : seats t = seats t' -> seat_at t e x = seat_at t' e x.
Proof. unfold seat_at. by intros ->. Qed.

(** The read model stays coherent when a status is written to both sides. *)
Lemma coherent_after e seatIds st v t' o m :
  view_wf v -> known_seats e seatIds (tables v) -> coherent e v -> redis_typed m ->
  seats t' = seats (statuses_set e seatIds st (tables v)) ->
  m !! avail_key e = redis v !! avail_key e -> m !! detail_key e = redis v !! detail_key e ->
  coherent e (mkView t' o (entries_set e seatIds st m)).
Proof.
  intros [Hwf _ _] Hk [H1 H2] Ht Hs Ha Hd.
  destruct (coherent_status e seatIds st (with_redis m v)) as [C1 C2]; [done..| |].
  - split; intros x; cbn [redis tables with_redis]; unfold hash_at in *; rewrite ?Ha, ?Hd; auto.
  - split; intros x; cbn [redis tables with_redis] in *.
    + rewrite C1. f_equal. by apply seat_at_seats.
    + rewrite C2. f_equal. by apply seat_at_seats.
Qed.

Lemma locks_added_read_model e u se seatIds m m' k :
  locks_added e u se seatIds m m' -> k = avail_key e \/ k = detail_key e -> m' !! k = m !! k.
Proof.
  intros [_ H] Hk. apply H. intros (x & Hx & _)%list_elem_of_fmap.
  destruct Hk as [-> | ->]; symmetry in Hx; revert Hx; [apply lock_avail_ne|apply lock_detail_ne].
Qed.

Lemma drop_locks_read_model e u seatIds m k :
  k = avail_key e \/ k = detail_key e -> drop_locks e u seatIds m !! k = m !! k.
Proof.
  intros Hk. apply drop_locks_other. intros (x & Hx & _)%list_elem_of_fmap.
  destruct Hk as [-> | ->]; symmetry in Hx; revert Hx; [apply lock_avail_ne|apply lock_detail_ne].
Qed.

(** Releasing the locks just taken, with the read model's entries written. *)
Lemma drop_locks_entries e seatIds u se st m m' k :
  NoDup seatIds -> (forall x, x ∈ seatIds -> m !! lock_key e x = None) ->
  locks_added e u se seatIds m m' -> k <> avail_key e ->
  drop_locks e u seatIds (entries_set e seatIds st m') !! k = m !! k.
Proof.
  intros Hnd Hf Hm Hk.
  assert (forall l (m1 m2 : RedisView) k', (forall k', k' <> avail_key e -> m1 !! k' = m2 !! k') ->
    k' <> avail_key e -> drop_locks e u l m1 !! k' = drop_locks e u l m2 !! k') as Hext.
  { induction l as [|x l IH]; intros m1 m2 k' H Hk'; [by apply H|]. cbn. apply IH; [|done].
    intros k2 Hk2.
    assert (owned_by m1 e u x = owned_by m2 e u x) as ->.
    { unfold owned_by, lock_owner, string_at. by rewrite H by apply lock_avail_ne. }
    destruct (owned_by m2 e u x); [|by apply H].
    destruct (decide (lock_key e x = k2)) as [->|Hne]; [by rewrite !lookup_delete_eq|].
    rewrite !lookup_delete_ne by done. by apply H. }
  rewrite (Hext seatIds _ m' k); [|intros; by apply entries_set_other|done].
  by destruct (drop_locks_added e u se seatIds m m' Hnd Hf Hm) as [_ ->].
Qed.

Lemma hold_made_wf e seatIds u se exp t t' l :
  tables_wf t -> hold_made e seatIds u se exp t t' l -> tables_wf t'.
Proof.
  intros Hwf [_ _ _ ->]. pose proof (tables_wf_status e seatIds HELD t Hwf) as [H1 _ H3].
  split; [done|apply upsert_keyed, Hwf|done].
Qed.

Lemma hold_made_status e seatIds u se exp t t' l x :
  tables_wf t -> hold_made e seatIds u se exp t t' l -> x ∈ seatIds ->
  exists r, seat_at t e x = Some r /\ si_status r = AVAILABLE /\ seat_at t' e x = Some (set_status HELD r).
Proof.
  intros Hwf [Ha _ _ ->] Hx. destruct (Ha x Hx) as (r & Hr & Hst). exists r. split_and!; [done..|].
  rewrite (seat_at_seats _ (statuses_set e seatIds HELD t)) by done.
  rewrite seat_at_status, Hr by done. cbn. by rewrite (proj2 (includes_spec _ _) Hx).
Qed.

Lemma hold_ended_wf e seatIds u reason st t t' :
  tables_wf t -> hold_ended e seatIds u reason st t t' -> tables_wf t'.
Proof.
  intros Hwf [now ->]. pose proof (tables_wf_status e seatIds st t Hwf) as [H1 _ H3].
  split; [done| |done]. apply update_where_keyed; [|apply Hwf]. intros r. unfold released_by.
  by destruct (includes seatIds (sh_seatId r)).
Qed.

Lemma hold_ended_status e seatIds u reason st t t' x :
  tables_wf t -> hold_ended e seatIds u reason st t t' -> x ∈ seatIds ->
  seat_at t' e x = set_status st <$> seat_at t e x.
Proof.
  intros Hwf [now ->] Hx. rewrite (seat_at_seats _ (statuses_set e seatIds st t)) by done.
  rewrite seat_at_status by done. by rewrite (proj2 (includes_spec _ _) Hx).
Qed.

(** Setting available seats to held and back restores the rows. *)
Lemma status_restored e seatIds t :
  tables_wf t ->
  (forall x, x ∈ seatIds -> exists r, seat_at t e x = Some r /\ si_status r = AVAILABLE) ->
  seats (statuses_set e seatIds AVAILABLE (statuses_set e seatIds HELD t)) = seats t.
Proof.
  intros Hwf Hav. apply map_eq. intros i. cbn [statuses_set seats]. rewrite !update_where_lookup.
  destruct (seats t !! i) as [r|] eqn:Hi; [|done]. cbn.
  destruct (seat_in e seatIds r) eqn:Hin; [|by rewrite Hin].
  change (seat_in e seatIds (set_status HELD r)) with (seat_in e seatIds r). rewrite Hin.
  unfold seat_in, of_event in Hin. apply andb_true_iff in Hin as [He%String.eqb_eq Hx%includes_spec].
  destruct (Hav _ Hx) as (r' & Hr' & Hst). f_equal.
  assert (Some r' = Some r) as Heq.
  { rewrite <- Hr'. apply seat_at_spec; [done|]. split; [by eapply rows_lookup|]. unfold seat_key. congruence. }
  simplify_eq. destruct r. cbn in *. by rewrite Hst.
Qed.

(** ** Properties *)

Section Properties.
Context {S W : Type} (h : forall X, SeatE X -> W -> result X * W) (view : W -> SeatView).
Variable md : mode.
Hypothesis Hh : conforms md seat_behaviour h view.
Implicit Types (s : S) (w : W).

(** C10: A hold is atomic. If [holdSeats] returns, every seat existed, was
    available and unlocked, and is now held, locked by the caller and recorded
    in one new hold row, and the read model stayed coherent. If it throws, it
    was refused for one of the three documented reasons and changed nothing,
    or an operation failed, and then the tables hold all of the hold or nothing
    of it. *)
Theorem holdSeats_atomic e seatIds u se s w :
  view_wf (view w) ->
  let v := view w in
  let v' := view (final h (holdSeats e seatIds u se) s w) in
  match outcome h (holdSeats e seatIds u se) s w with
  | Ok (holdIds, expiresAt) =>
      NoDup seatIds /\
      (forall x, x ∈ seatIds -> redis v !! lock_key e x = None /\ owned_by (redis v') e u x = true) /\
      (exists l, holdIds = map sh_id l /\ hold_made e seatIds u se expiresAt (tables v) (tables v') l) /\
      view_wf v' /\ (coherent e v -> coherent e v')
  | Err err =>
      (hold_refused e seatIds v err /\ v' = v) \/
      (md = Faulty /\ hold_all_or_nothing e seatIds u se v v')
  end.
Proof.
  intros Hv. cbn zeta. call_wp Hh w. apply holdSeats_wp; [done| |by left|by right].
  intros exp l t' m Hnd Hf Hm Hmade. cbn [tables redis].
  pose proof (typed_locks_added _ _ _ _ _ _ (wf_redis _ Hv) Hm) as Htm.
  split_and!; [done| |by exists l| |].
  - intros x Hx. split; [by apply Hf|]. unfold owned_by, lock_owner, string_at.
    rewrite entries_set_other by apply lock_avail_ne. by eapply locks_added_owned.
  - split; [by eapply hold_made_wf; [apply Hv|]|done|by apply entries_set_typed].
  - intros Hc. eapply coherent_after; [done| |done|done|by destruct Hmade as [_ _ _ ->]|..].
    + intros x Hx. destruct Hmade as [Hav _ _ _]. destruct (Hav x Hx) as (r & -> & _). done.
    + eapply locks_added_read_model; eauto.
    + eapply locks_added_read_model; eauto.
Qed.

(** No double booking: once a hold succeeded, every later hold that shares
    a seat with it fails for as long as the seat's row is not released, even
    when the Redis locks have expired or were lost. *)
Theorem holdSeats_no_double_booking e seatIds seatIds' u se u' se' x s s' w w2 :
  view_wf (view w) ->
  let w1 := final h (holdSeats e seatIds u se) s w in
  is_ok (outcome h (holdSeats e seatIds u se) s w) = true ->
  x ∈ seatIds -> x ∈ seatIds' ->
  view_wf (view w2) -> seats (tables (view w2)) = seats (tables (view w1)) ->
  is_ok (outcome h (holdSeats e seatIds' u' se') s' w2) = false /\
  seats (tables (view (final h (holdSeats e seatIds' u' se') s' w2))) = seats (tables (view w1)).
Proof.
  intros Hv. cbn zeta. intros Hok Hx Hx' Hv2 Hs2.
  assert (exists r, seat_at (tables (view w2)) e x = Some r /\ si_status r = HELD) as (r & Hr & Hst).
  { rewrite (seat_at_seats _ _ e x Hs2). clear Hs2. revert Hok. call_wp Hh w.
    apply holdSeats_wp; [done| |done|done]. intros exp l t' m _ _ _ Hmade _. cbn [tables].
    destruct (hold_made_status _ _ _ _ _ _ _ _ x (wf_tables _ Hv) Hmade Hx) as (r & _ & _ & Hr).
    by eexists. }
  rewrite <- Hs2. call_wp Hh w2.
  assert (forall exp t' l, ~ hold_made e seatIds' u' se' exp (tables (view w2)) t' l) as Hno.
  { intros exp t' l [Hav _ _ _]. destruct (Hav x Hx') as (r' & Hr' & Hst'). congruence. }
  apply holdSeats_wp; [done|..].
  - intros exp l t' m _ _ _ Hmade. by destruct (Hno exp t' l).
  - done.
  - intros err v' Hmd (_ & _ & [->|(exp & l & _ & Hmade & _)]); [done|]. by destruct (Hno exp (tables v') l).
Qed.

(** [releaseSeats] ends the user's active holds on the seats with the
    reason, makes the seats available, drops the user's locks only and keeps
    the read model coherent for existing seats; a failure leaves the tables
    with all of this or nothing of it. *)
Theorem releaseSeats_spec e seatIds u reason s w :
  view_wf (view w) ->
  let v := view w in
  let v' := view (final h (releaseSeats e seatIds u reason) s w) in
  view_wf v' /\
  match outcome h (releaseSeats e seatIds u reason) s w with
  | Ok _ =>
      hold_ended e seatIds u reason AVAILABLE (tables v) (tables v') /\
      redis v' = entries_set e seatIds AVAILABLE (drop_locks e u seatIds (redis v)) /\
      (known_seats e seatIds (tables v) -> coherent e v -> coherent e v')
  | Err _ =>
      md = Faulty /\
      (tables v' = tables v \/ hold_ended e seatIds u reason AVAILABLE (tables v) (tables v'))
  end.
Proof.
  intros Hv. cbn zeta. call_wp Hh w. apply releaseSeats_wp; [done| |].
  - intros t' Ht'. cbn [tables redis].
    assert (redis_typed (drop_locks e u seatIds (redis (view w)))) as Hdt by apply typed_drop_locks, Hv.
    split_and!; [|done|done|].
    + split; [by eapply hold_ended_wf; [apply Hv|]|done|by apply entries_set_typed].
    + intros Hk Hc. destruct Ht' as [now ->]. eapply coherent_after; [done..| |];
        apply drop_locks_read_model; auto.
  - intros err t' m Hmd Hm Ht'. cbn [tables]. split_and!; [|done|done].
    split; [|done|done]. destruct Ht' as [-> |Ht']; [apply Hv|by eapply hold_ended_wf; [apply Hv|]].
Qed.

(** [markAsSold] sells the seats and ends the user's holds on them as paid,
    with the same atomicity. *)
Theorem markAsSold_spec e seatIds u s w :
  view_wf (view w) ->
  let v := view w in
  let v' := view (final h (markAsSold e seatIds u) s w) in
  view_wf v' /\
  match outcome h (markAsSold e seatIds u) s w with
  | Ok _ =>
      (forall x, x ∈ seatIds -> seat_at (tables v') e x = set_status SOLD <$> seat_at (tables v) e x) /\
      hold_ended e seatIds u PAYMENT_SUCCESS SOLD (tables v) (tables v') /\
      redis v' = entries_set e seatIds SOLD (drop_locks e u seatIds (redis v)) /\
      (known_seats e seatIds (tables v) -> coherent e v -> coherent e v')
  | Err _ =>
      md = Faulty /\
      (tables v' = tables v \/ hold_ended e seatIds u PAYMENT_SUCCESS SOLD (tables v) (tables v'))
  end.
Proof.
  intros Hv. cbn zeta. call_wp Hh w. apply markAsSold_wp; [done| |].
  - intros t' Ht'. cbn [tables redis].
    assert (redis_typed (drop_locks e u seatIds (redis (view w)))) as Hdt by apply typed_drop_locks, Hv.
    split_and!; [| |done|done|].
    + split; [by eapply hold_ended_wf; [apply Hv|]|done|by apply entries_set_typed].
    + intros x Hx. by eapply hold_ended_status; [apply Hv|..].
    + intros Hk Hc. destruct Ht' as [now ->]. eapply coherent_after; [done..| |];
        apply drop_locks_read_model; auto.
  - intros err t' m Hmd Hm Ht'. cbn [tables]. split_and!; [|done|done].
    split; [|done|done]. destruct Ht' as [-> |Ht']; [apply Hv|by eapply hold_ended_wf; [apply Hv|]].
Qed.

(** Holding seats and releasing them again restores the seats, the locks
    and a coherent read model, and leaves the hold rows as released. *)
Theorem hold_release_roundtrip e seatIds u se reason s s' w :
  md = Reliable -> view_wf (view w) -> coherent e (view w) ->
  is_ok (outcome h (holdSeats e seatIds u se) s w) = true ->
  let w1 := final h (holdSeats e seatIds u se) s w in
  let w2 := final h (releaseSeats e seatIds u reason) s' w1 in
  seats (tables (view w2)) = seats (tables (view w)) /\
  (forall k, k <> avail_key e -> redis (view w2) !! k = redis (view w) !! k) /\
  coherent e (view w2) /\
  (forall i hd, holds (tables (view w2)) !! i = Some hd ->
     includes seatIds (sh_seatId hd) = true -> active_hold e u hd = false).
Proof.
  intros Hmd Hv Hc Hok w1 w2.
  assert (exists exp l t' m, NoDup seatIds /\ (forall x, x ∈ seatIds -> redis (view w) !! lock_key e x = None) /\
    locks_added e u se seatIds (redis (view w)) m /\ hold_made e seatIds u se exp (tables (view w)) t' l /\
    view w1 = mkView t' None (entries_set e seatIds HELD m)) as (exp & l & t' & m & Hnd & Hf & Hm & Hmade & Hw1).
  { unfold w1. revert Hok. call_wp Hh w. apply holdSeats_wp; [done| |done|congruence].
    intros exp l t' m Hnd Hf Hm Hmade _. by exists exp, l, t', m. }
  pose proof (typed_locks_added _ _ _ _ _ _ (wf_redis _ Hv) Hm) as Htm.
  assert (view_wf (view w1)) as Hv1.
  { rewrite Hw1. split; [by eapply hold_made_wf; [apply Hv|]|done|by apply entries_set_typed]. }
  assert (known_seats e seatIds (tables (view w))) as Hk0.
  { intros x Hx. destruct Hmade as [Hav _ _ _]. destruct (Hav x Hx) as (r & -> & _). done. }
  assert (coherent e (view w1)) as Hc1.
  { rewrite Hw1. eapply (coherent_after _ _ _ (view w)); [done|done|done|done|by destruct Hmade as [_ _ _ ->]| |];
      eapply locks_added_read_model; eauto. }
  assert (known_seats e seatIds (tables (view w1))) as Hk1.
  { intros x Hx. rewrite Hw1. destruct (hold_made_status _ _ _ _ _ _ _ _ x (wf_tables _ Hv) Hmade Hx)
      as (r & _ & _ & Hr). cbn [tables]. by rewrite Hr. }
  unfold w2. call_wp Hh w1. apply releaseSeats_wp; [done| |congruence].
  intros t2 Ht2. assert (Ht2' := Ht2). destruct Ht2 as [now ->]. cbn [tables redis]. split_and!.
  - rewrite Hw1. cbn [tables seats]. destruct Hmade as [Hav _ _ ->].
    apply (status_restored e seatIds _ (wf_tables _ Hv) Hav).
  - intros k Hk. rewrite entries_set_other by done. rewrite Hw1. cbn [redis].
    by eapply drop_locks_entries.
  - eapply (coherent_after _ _ _ (view w1)); [done|done|done|apply typed_drop_locks, Hv1|done| |];
      apply drop_locks_read_model; auto.
  - intros i hd. cbn [holds]. unfold holds_released. rewrite update_where_lookup.
    destruct (holds (tables (view w1)) !! i) as [h0|]; [|done]. cbn. intros [= <-].
    destruct (active_hold e u h0) eqn:Ha; [|by rewrite Ha].
    unfold released_by. destruct (includes seatIds (sh_seatId h0)) eqn:Hi.
    + intros _. unfold active_hold. cbn. by rewrite !andb_false_r.
    + by rewrite Hi.
Qed.

(** [releaseSeats] looks neither at who holds a seat nor at its status: a
    sold seat that any user "releases" is available again, and a hold by
    another user succeeds. *)
Theorem sold_seat_resold e x u u' se reason r s w :
  md = Reliable -> view_wf (view w) ->
  seat_at (tables (view w)) e x = Some r -> si_status r = SOLD ->
  redis (view w) !! lock_key e x = None ->
  let w1 := final h (releaseSeats e [x] u reason) s w in
  is_ok (outcome h (releaseSeats e [x] u reason) s w) = true /\
  is_ok (outcome h (holdSeats e [x] u' se) s w1) = true.
Proof.
  intros Hmd Hv Hr Hst Hl w1.
  assert (view_wf (view w1) /\ seat_at (tables (view w1)) e x = Some (set_status AVAILABLE r) /\
    redis (view w1) !! lock_key e x = None /\
    is_ok (outcome h (releaseSeats e [x] u reason) s w) = true) as (Hv1 & Hr1 & Hl1 & Hok).
  { unfold w1. call_wp Hh w. apply releaseSeats_wp; [done| |congruence]. intros t' Ht'. cbn [tables redis].
    split_and!; [| | |done].
    - split; [by eapply hold_ended_wf; [apply Hv|]|done|]. apply entries_set_typed, typed_drop_locks, Hv.
    - erewrite hold_ended_status; [|apply Hv|done|left]. by rewrite Hr.
    - rewrite entries_set_other by apply lock_avail_ne. by apply drop_locks_none. }
  split; [done|]. call_wp Hh w1. apply holdSeats_wp; [done|done| |congruence].
  intros err Href. exfalso. destruct Href as [busy Hb Hne|err Hs].
  - apply Hne. rewrite Hb. apply free_busy_none. split; [apply NoDup_singleton|].
    intros y ->%list_elem_of_singleton. split; [done|apply not_elem_of_nil].
  - assert (forall y, y ∈ [x] -> seat_at (tables (view w1)) e y = Some (set_status AVAILABLE r)) as Hat
      by (intros y ->%list_elem_of_singleton; done).
    destruct Hs as [rs Hrs Hne|y Hy Hn]; [|by rewrite Hat in Hn].
    destruct rs as [|q rs]; [done|].
    assert (q ∈ q :: rs) as Hq by left. rewrite Hrs in Hq.
    apply elem_of_filterb in Hq as [[Hq Hin]%elem_of_filterb Hna].
    unfold seat_in, of_event in Hin. apply andb_true_iff in Hin as [He%String.eqb_eq Hx%includes_spec].
    assert (seat_at (tables (view w1)) e (si_seatId q) = Some q) as Hat'.
    { apply seat_at_spec; [apply Hv1|]. split; [done|]. unfold seat_key. congruence. }
    rewrite (Hat _ Hx) in Hat'. injection Hat' as <-. done.
Qed.
End Properties.

(** ** Concrete runs *)

Lemma holdSeats_keeps_wf {S W} (h : forall X, SeatE X -> W -> result X * W) (view : W -> SeatView) md
    e seatIds u se (s : S) w :
  conforms md seat_behaviour h view -> view_wf (view w) ->
  is_ok (outcome h (holdSeats e seatIds u se) s w) = true ->
  view_wf (view (final h (holdSeats e seatIds u se) s w)).
Proof.
  intros Hh Hv. call_wp Hh w. apply holdSeats_wp; [done| |done|done].
  intros exp l t' m _ _ Hm Hmade _. split; [by eapply hold_made_wf; [apply Hv|]|done|].
  eapply entries_set_typed, typed_locks_added; [apply Hv|done].
Qed.

Abbreviation demo_hold u := (@holdSeats unit "ev" ["A1"; "A2"]%string u "sess").

(** The demo world with its read model built. *)
Definition warm_world : SeatRefWorld := final seat_run (@warmUpCache unit) tt demo_world.

Lemma warm_world_ok : view_wf (seat_view warm_world) /\ coherent "ev" (seat_view warm_world).
Proof.
  unfold warm_world. assert (conforms Reliable seat_behaviour seat_run seat_view) as Hh by apply seat_run_conforms.
  destruct demo_world_wf as [Hwf Htx Ht]. call_wp Hh demo_world.
  apply warmUpCache_wp; [done..| |done]. intros m Hm Hc. split; [by split|].
  apply Hc. vm_compute. discriminate.
Qed.

Lemma holdSeats_atomic_witness :
  exists l, hold_made "ev" ["A1"; "A2"] "alice" "sess" 601000 (tables (seat_view demo_world))
    (tables (seat_view (final seat_run (demo_hold "alice") tt demo_world))) l.
Proof.
  pose proof (holdSeats_atomic seat_run seat_view Reliable seat_run_conforms
    "ev" ["A1"; "A2"]%string "alice" "sess" tt demo_world demo_world_wf) as H.
  cbn zeta in H. eval_outcome H. destruct H as (_ & _ & (l & _ & H) & _). exists l. exact H.
Defined.

Lemma holdSeats_no_double_booking_witness :
  is_ok (outcome seat_run (@holdSeats unit "ev" ["A2"]%string "bob" "sess2") tt
    (final seat_run (demo_hold "alice") tt demo_world)) = false.
Proof.
  assert (is_ok (outcome seat_run (demo_hold "alice") tt demo_world) = true) as Hok
    by (vm_compute; reflexivity).
  apply (holdSeats_no_double_booking seat_run seat_view Reliable seat_run_conforms
    "ev" ["A1"; "A2"]%string ["A2"]%string "alice" "sess" "bob" "sess2" "A2" tt tt demo_world
    (final seat_run (demo_hold "alice") tt demo_world) demo_world_wf Hok).
  - right; left.
  - left.
  - apply (holdSeats_keeps_wf seat_run seat_view Reliable); [apply seat_run_conforms|apply demo_world_wf|exact Hok].
  - reflexivity.
Defined.

Lemma releaseSeats_spec_witness :
  hold_ended "ev" ["B1"] "alice" USER_CANCEL AVAILABLE (tables (seat_view demo_world))
    (tables (seat_view (final seat_run (@releaseSeats unit "ev" ["B1"]%string "alice" USER_CANCEL) tt demo_world))).
Proof.
  pose proof (releaseSeats_spec seat_run seat_view Reliable seat_run_conforms
    "ev" ["B1"]%string "alice" USER_CANCEL tt demo_world demo_world_wf) as [_ H].
  eval_outcome H. destruct H as [H _]. exact H.
Defined.

Lemma markAsSold_spec_witness :
  si_status <$> seat_at (tables (seat_view
    (final seat_run (@markAsSold unit "ev" ["B1"]%string "alice") tt demo_world))) "ev" "B1" = Some SOLD.
Proof.
  pose proof (markAsSold_spec seat_run seat_view Reliable seat_run_conforms
    "ev" ["B1"]%string "alice" tt demo_world demo_world_wf) as [_ H].
  eval_outcome H. destruct H as [H _]. rewrite (H "B1"%string); [reflexivity|left].
Defined.

Lemma hold_release_roundtrip_witness :
  seats (tables (seat_view (final seat_run (@releaseSeats unit "ev" ["A1"; "A2"]%string "alice" USER_CANCEL) tt
    (final seat_run (demo_hold "alice") tt warm_world)))) = seats (tables (seat_view warm_world)).
Proof.
  apply (hold_release_roundtrip seat_run seat_view Reliable seat_run_conforms
    "ev" ["A1"; "A2"]%string "alice" "sess" USER_CANCEL tt tt warm_world).
  - reflexivity.
  - apply warm_world_ok.
  - apply warm_world_ok.
  - vm_compute. reflexivity.
Defined.

Lemma sold_seat_resold_witness :
  is_ok (outcome seat_run (@holdSeats unit "ev" ["B2"]%string "bob" "sess2") tt
    (final seat_run (@releaseSeats unit "ev" ["B2"]%string "mallory" USER_CANCEL) tt demo_world)) = true.
Proof.
  apply (sold_seat_resold seat_run seat_view Reliable seat_run_conforms
    "ev" "B2" "mallory" "bob" "sess2" USER_CANCEL (plain_seat "r4" "ev" "B2" SOLD) tt demo_world).
  - reflexivity.
  - apply demo_world_wf.
  - vm_compute. reflexivity.
  - reflexivity.
  - apply lookup_empty.
Defined.
