(* ===== verification/HoldExpiry.v ===== *)
(** * HoldExpiryWorker

    apps/seat-inventory-service/src/hold/hold-expiry.worker.ts: every ten
    seconds the holds whose time is over are released, grouped by event and
    user.  The worker's [isProcessing] field is the object of its programs. *)

From Stdlib Require Import Ascii.
From S2P Require Import Prelude Effects JsNumber Json Redis Sql SeatWorld SeatRef SeatLock Availability Inventory Hold.

(** [{ expiresAt: LessThan(now), releasedAt: IsNull() }] *)
Definition expired (now : Z) (hold : SeatHold) : bool :=
  Z.ltb (sh_expiresAt hold) now && match sh_releasedAt hold with None => true | Some _ => false end.

Definition group_key (hold : SeatHold) : string := sh_eventId hold +:+ ":" +:+ sh_userId hold.

(** [if (!grouped.has(key)) grouped.set(key, []); grouped.get(key).push(hold)] *)
Fixpoint add_hold (hold : SeatHold) (grouped : list (string * list SeatHold))
    : list (string * list SeatHold) :=
  match grouped with
  | [] => [(group_key hold, [hold])]
  | (key, holds) :: rest =>
      if String.eqb key (group_key hold) then (key, holds ++ [hold]) :: rest
      else (key, holds) :: add_hold hold rest
  end.

Definition group_holds (holds : list SeatHold) : list (string * list SeatHold) :=
  foldl (fun grouped hold => add_hold hold grouped) [] holds.

(** The body of the loop over the groups. *)
Definition release_group (group : string * list SeatHold) : prog bool SeatE unit :=
  match group.2 with
  | [] => Throw (TypeError "Cannot read properties of undefined (reading 'eventId')")
  | first :: _ =>
      let seatIds := map sh_seatId group.2 in
      try_catch (releaseSeats (sh_eventId first) seatIds (sh_userId first) TIMEOUT)
        (fun error => Ret tt)
  end.

Definition processExpiredHolds : prog bool SeatE unit :=
  isProcessing <- get_local ;;
  if isProcessing : bool then Ret tt
  else
    put_local true ;;
    finally
      (now <- call SNow ;;
       expiredHolds <- call (HoldFind (expired now)) ;;
       if Nat.eqb (length expiredHolds) 0 then Ret tt
       else for_each (group_holds expiredHolds) release_group)
      (put_local false).

(** ** The groups *)

Definition no_colon (s : string) : bool :=
  forallb (fun c => negb (Ascii.eqb c ":"%char)) (String.list_ascii_of_string s).

(** Event ids without a colon (UUIDs, for instance) make the key unambiguous. *)
Lemma group_key_inj e u e' u' :
  no_colon e = true -> no_colon e' = true -> e +:+ ":" +:+ u = e' +:+ ":" +:+ u' -> e = e' /\ u = u'.
Proof.
  revert e'. induction e as [|c e IH]; intros [|c' e'] He He'; rewrite ?string_app_cons, ?string_app_nil_l.
  - by intros [= H].
  - intros [= <- H]. done.
  - intros [= -> H]. done.
  - intros [= <- H]. cbn in He, He'. apply andb_true_iff in He as [_ He], He' as [_ He'].
    destruct (IH e' He He' H) as [-> ->]. done.
Qed.

(** Every group is non-empty, its members share the key, and the groups
    together hold exactly the given holds. *)
Lemma add_hold_spec hold g :
  Forall (fun kh => kh.2 <> [] /\ Forall (fun x => group_key x = kh.1) kh.2) g ->
  Forall (fun kh => kh.2 <> [] /\ Forall (fun x => group_key x = kh.1) kh.2) (add_hold hold g) /\
  concat (map snd (add_hold hold g)) ≡ₚ hold :: concat (map snd g).
Proof.
  induction g as [|[k hs] g IH]; intros Hg; cbn [add_hold].
  - cbn. split; [|done]. repeat constructor; cbn; done.
  - apply Forall_cons in Hg as [[Hne Hk] Hg]. cbn [fst snd] in *.
    destruct (String.eqb_spec k (group_key hold)) as [->|Hkey]; cbn [map concat snd].
    + split.
      * constructor; [|done]. cbn. split; [by destruct hs|]. apply Forall_app. split; [done|].
        by constructor.
      * rewrite <- app_assoc. cbn. by rewrite <- Permutation_middle.
    + destruct (IH Hg) as [H1 H2]. split; [by constructor|]. rewrite H2. by rewrite Permutation_middle.
Qed.

Lemma group_holds_spec l :
  Forall (fun kh => kh.2 <> [] /\ Forall (fun x => group_key x = kh.1) kh.2) (group_holds l) /\
  concat (map snd (group_holds l)) ≡ₚ l.
Proof.
  unfold group_holds.
  assert (forall g, Forall (fun kh => kh.2 <> [] /\ Forall (fun x => group_key x = kh.1) kh.2) g ->
    Forall (fun kh => kh.2 <> [] /\ Forall (fun x => group_key x = kh.1) kh.2)
      (foldl (fun g hold => add_hold hold g) g l) /\
    concat (map snd (foldl (fun g hold => add_hold hold g) g l)) ≡ₚ concat (map snd g) ++ l) as H.
  { induction l as [|hold l IH]; intros g Hg; cbn; [by rewrite app_nil_r|].
    destruct (add_hold_spec hold g Hg) as [H1 H2]. destruct (IH _ H1) as [H3 H4]. split; [done|].
    rewrite H4, H2. cbn. by rewrite Permutation_middle. }
  destruct (H [] (Forall_nil_2 _)) as [H1 H2]. done.
Qed.

(** ** Specification *)

Definition same_seat (hd hx : SeatHold) : Prop :=
  sh_eventId hd = sh_eventId hx /\ sh_userId hd = sh_userId hx /\ sh_seatId hd = sh_seatId hx.

(** How far the release of the expired holds [ex] has come: those in [rest]
    are still to do.  A hold is untouched, or was active, has been stamped with
    [TIMEOUT], and is for the same seat and user as an expired one; the row of a
    seat is untouched, or available now because of an expired hold on it. *)
Record expiry_progress (ex rest : list SeatHold) (t t' : SeatTables) : Prop := {
  ep_holds : forall i hd, holds t !! i = Some hd -> exists hd', holds t' !! i = Some hd' /\
    ((hd' = hd /\ (hd ∈ ex -> hd ∈ rest)) \/
     ((exists at_, hd' = set_released at_ TIMEOUT hd) /\ sh_releasedAt hd = None /\
      exists hx, hx ∈ ex /\ same_seat hd hx));
  ep_new : forall i, holds t !! i = None -> holds t' !! i = None;
  ep_seats : forall e x,
    (seat_at t' e x = seat_at t e x /\
     forall hx, hx ∈ ex -> sh_eventId hx = e -> sh_seatId hx = x -> hx ∈ rest) \/
    (seat_at t' e x = set_status AVAILABLE <$> seat_at t e x /\
     exists hx, hx ∈ ex /\ sh_eventId hx = e /\ sh_seatId hx = x);
}.

Lemma expiry_start ex t : expiry_progress ex ex t t.
Proof. split; [|done|]; [intros i hd Hi; exists hd; auto|intros e x; by left]. Qed.

Lemma set_status_twice st (o : option SeatInventory) : set_status st <$> (set_status st <$> o) = set_status st <$> o.
Proof. by destruct o. Qed.

(** Releasing one group is progress. *)
Lemma expiry_step e u hs ex rest t t' t'' :
  tables_wf t' -> expiry_progress ex (hs ++ rest) t t' ->
  (forall hx, hx ∈ hs -> hx ∈ ex /\ sh_eventId hx = e /\ sh_userId hx = u) ->
  (forall hx, hx ∈ ex -> sh_releasedAt hx = None) ->
  hold_ended e (map sh_seatId hs) u TIMEOUT AVAILABLE t' t'' ->
  expiry_progress ex rest t t''.
Proof.
  intros Hwf [H1 H2 H3] Hhs Hact [now ->]. split.
  - intros i hd Hi. destruct (H1 i hd Hi) as (hd' & Hi' & Hcase). cbn [holds].
    unfold holds_released. rewrite update_where_lookup, Hi'. cbn.
    eexists. split; [done|]. destruct Hcase as [[-> Hin]|((at_ & ->) & Hn & Hx)].
    + destruct (active_hold e u hd) eqn:Ha.
      * unfold active_hold in Ha. rewrite !andb_true_iff, !String.eqb_eq in Ha.
        destruct Ha as [[He Hu] Hrel]. destruct (sh_releasedAt hd) eqn:Hr; [done|].
        unfold released_by. destruct (includes (map sh_seatId hs) (sh_seatId hd)) eqn:Hi2.
        -- right. split; [by eexists|]. split; [done|]. apply includes_spec in Hi2.
           apply list_elem_of_fmap in Hi2 as (hx & Hseat & Hhx).
           destruct (Hhs hx Hhx) as (? & ? & ?). exists hx. split; [done|]. unfold same_seat. by subst.
        -- left. split; [done|]. intros Hex. apply Hin in Hex as [Hex|Hex]%elem_of_app; [|done].
           apply includes_false in Hi2. exfalso. apply Hi2. apply list_elem_of_fmap. eauto.
      * left. split; [done|]. intros Hex. pose proof (Hact hd Hex) as Hr.
        apply Hin in Hex as [Hex|Hex]%elem_of_app; [|done]. exfalso.
        destruct (Hhs hd Hex) as (_ & He & Hu). unfold active_hold in Ha.
        by rewrite He, Hu, Hr, !String.eqb_refl in Ha.
    + right. unfold active_hold. cbn. rewrite andb_false_r. by eauto.
  - intros i Hi. cbn [holds]. unfold holds_released. rewrite update_where_lookup, H2 by done. done.
  - intros e' x. rewrite (seat_at_seats _ (statuses_set e (map sh_seatId hs) AVAILABLE t')) by done.
    destruct (decide (e' = e)) as [->|Hne].
    + rewrite seat_at_status by done. destruct (includes (map sh_seatId hs) x) eqn:Hx.
      * apply includes_spec, list_elem_of_fmap in Hx as (hx & -> & Hhx).
        right. destruct (Hhs hx Hhx) as (? & ? & _). split; [|eauto].
        destruct (H3 e (sh_seatId hx)) as [[-> _]|[-> _]]; [done|apply set_status_twice].
      * apply includes_false in Hx. rewrite option_fmap_id.
        destruct (H3 e x) as [[-> Hr]|?]; [left|by right]. split; [done|]. intros hx Hex He Hs.
        apply (Hr hx Hex He) in Hs as Hin. apply elem_of_app in Hin as [Hin|Hin]; [|done].
        exfalso. apply Hx. apply list_elem_of_fmap. eauto.
    + rewrite seat_at_status_other by done.
      destruct (H3 e' x) as [[-> Hr]|?]; [left|by right]. split; [done|]. intros hx Hex He Hs.
      apply (Hr hx Hex He) in Hs as Hin. apply elem_of_app in Hin as [Hin|Hin]; [|done].
      destruct (Hhs hx Hin) as (_ & ? & _). congruence.
Qed.

(** ** Proofs *)

(** What a run that has nothing left to release has done to the tables it
    started from: [ex] holds exactly the expired holds. *)
Lemma expiry_done now ex t t' :
  (forall hd, hd ∈ ex <-> exists i, holds t !! i = Some hd /\ expired now hd = true) ->
  expiry_progress ex [] t t' ->
  (forall i hd, holds t !! i = Some hd -> expired now hd = true ->
     (exists at_, holds t' !! i = Some (set_released at_ TIMEOUT hd)) /\
     seat_at t' (sh_eventId hd) (sh_seatId hd) =
       set_status AVAILABLE <$> seat_at t (sh_eventId hd) (sh_seatId hd)) /\
  (forall i hd, holds t !! i = Some hd ->
     (forall j hx, holds t !! j = Some hx -> expired now hx = true -> ~ same_seat hd hx) ->
     holds t' !! i = Some hd) /\
  (forall e x,
     (forall j hx, holds t !! j = Some hx -> expired now hx = true ->
        ~ (sh_eventId hx = e /\ sh_seatId hx = x)) ->
     seat_at t' e x = seat_at t e x).
Proof.
  intros Hex [H1 H2 H3]. split_and!.
  - intros i hd Hi Hexp. assert (hd ∈ ex) as Hin by (apply Hex; eauto).
    destruct (H1 i hd Hi) as (hd' & Hi' & Hcase). split.
    + destruct Hcase as [[_ Hr]|((at_ & ->) & _)]; [by apply Hr, elem_of_nil in Hin|eauto].
    + destruct (H3 (sh_eventId hd) (sh_seatId hd)) as [[_ Hr]|[? _]]; [|done].
      by apply (Hr hd) in Hin as ?%elem_of_nil.
  - intros i hd Hi Hno. destruct (H1 i hd Hi) as (hd' & Hi' & [[-> _]|(_ & _ & hx & Hx & Hs)]); [done|].
    apply Hex in Hx as (j & Hj & Hexp). by destruct (Hno j hx Hj Hexp).
  - intros e x Hno. destruct (H3 e x) as [[? _]|(_ & hx & Hx & Hs)]; [done|].
    apply Hex in Hx as (j & Hj & Hexp). by destruct (Hno j hx Hj Hexp).
Qed.

Section Proofs.
Variable md : mode.
Abbreviation spec := (obeys md seat_behaviour).

(** A group whose release fails is skipped; the tables stay well formed. *)
Lemma release_group_wp first hs key (Q : result unit -> bool -> SeatView -> Prop) s v :
  view_wf v ->
  (forall v', view_wf v' ->
     hold_ended (sh_eventId first) (map sh_seatId (first :: hs)) (sh_userId first) TIMEOUT AVAILABLE
       (tables v) (tables v') -> Q (Ok tt) s v') ->
  (forall v', md = Faulty -> view_wf v' ->
     tables v' = tables v \/
     hold_ended (sh_eventId first) (map sh_seatId (first :: hs)) (sh_userId first) TIMEOUT AVAILABLE
       (tables v) (tables v') -> Q (Ok tt) s v') ->
  wp spec (release_group (key, first :: hs)) Q s v.
Proof.
  intros Hv HQ HF. unfold release_group. cbn [snd]. wp_step. apply releaseSeats_wp; [done| |].
  - intros t' Ht'. apply HQ; [|done]. split; [by eapply hold_ended_wf; [apply Hv|]|done|].
    apply entries_set_typed, typed_drop_locks, Hv.
  - intros err t' m Hmd Hm Ht'. cbn. apply HF; [done| |exact Ht']. split; [|done|done].
    destruct Ht' as [-> |Ht']; [apply Hv|by eapply hold_ended_wf; [apply Hv|]].
Qed.

(** The loop over the groups, without failures. *)
Lemma release_groups_wp ex g (Q : result unit -> bool -> SeatView -> Prop) s v0 v :
  view_wf v -> md = Reliable ->
  (forall hx, hx ∈ ex -> sh_releasedAt hx = None /\ no_colon (sh_eventId hx) = true) ->
  Forall (fun kh => kh.2 <> [] /\ Forall (fun x => group_key x = kh.1) kh.2) g ->
  (forall hx, hx ∈ concat (map snd g) -> hx ∈ ex) ->
  expiry_progress ex (concat (map snd g)) (tables v0) (tables v) ->
  (forall v', view_wf v' -> expiry_progress ex [] (tables v0) (tables v') -> Q (Ok tt) s v') ->
  wp spec (for_each g release_group) Q s v.
Proof.
  intros Hv Hmd Hex Hg Hin Hp HQ. revert v Hv Hp Hg Hin.
  induction g as [|[key hs] g IH]; intros v Hv Hp Hg Hin; cbn [for_each].
  { wp_step. by apply HQ. }
  apply Forall_cons in Hg as [[Hne Hk] Hg]. cbn [fst snd map concat] in *.
  destruct hs as [|first hs]; [done|]. wp_step. apply release_group_wp; [done| |congruence].
  intros v' Hv' Hend. apply IH; [done| |done|].
  - eapply expiry_step; [apply Hv|exact Hp| | |exact Hend].
    + intros hx Hhx. assert (hx ∈ ex) as Hxe by (apply Hin, elem_of_app; by left).
      assert (first ∈ ex) as Hfe by (apply Hin, elem_of_app; left; left).
      rewrite Forall_forall in Hk. pose proof (Hk hx Hhx) as Hk1.
      pose proof (Hk first (list_elem_of_here _ _)) as Hk2. unfold group_key in Hk1, Hk2.
      destruct (group_key_inj (sh_eventId hx) (sh_userId hx) (sh_eventId first) (sh_userId first)) as [? ?];
        [by apply Hex..|congruence|done].
    + intros hx Hhx. by apply Hex.
  - intros hx Hhx. apply Hin, elem_of_app. by right.
Qed.
End Proofs.

(** ** Properties *)

Section Properties.
Context {W : Type} (h : forall X, SeatE X -> W -> result X * W) (view : W -> SeatView).
Variable md : mode.
Hypothesis Hh : conforms md seat_behaviour h view.
Implicit Types (w : W).


(** The guard of the expiry worker is released on every path, whichever
    operations fail, so that the next tick runs again; while it is set a tick
    does nothing. *)
Theorem processExpiredHolds_guard w :
  view_wf (view w) ->
  object h processExpiredHolds false w = false /\
  (md = Reliable -> is_ok (outcome h processExpiredHolds false w) = true) /\
  view_wf (view (final h processExpiredHolds false w)) /\
  run h processExpiredHolds true w = (Ok tt, true, w).
Proof.
  intros Hv.
  assert (object h processExpiredHolds false w = false /\
    (md = Reliable -> is_ok (outcome h processExpiredHolds false w) = true) /\
    view_wf (view (final h processExpiredHolds false w))) as (H1 & H2 & H3); [|by split_and!].
  call_object_wp Hh w. unfold processExpiredHolds. cbn [bind wp get_local put_local].
  wp_step. wp_step. wp_step. intros [now|err] v1 H; seat_sem H; [subst v1|by destruct H as [_ [[]|[_ []]]]].
  wp_step. wp_step. intros [l|err] v1 H; seat_sem H;
    [|destruct H as [-> [[]|[Hf _]]]; cbn; split_and!; [done|congruence|done]].
  destruct H as [-> Hl]. destruct (Nat.eqb (length l) 0); [by cbn|].
  destruct (group_holds_spec l) as [Hg _].
  apply (wp_for_each _ _ _ (fun g s v => view_wf v /\
    Forall (fun kh : string * list SeatHold => kh.2 <> [] /\ Forall (fun x => group_key x = kh.1) kh.2) g)).
  - done.
  - intros s v [Hv' _]. cbn. done.
  - intros [key hs] g s v [Hv' [[Hne _] Hg']%Forall_cons]. cbn [snd] in Hne.
    destruct hs as [|first hs]; [done|]. apply release_group_wp; [done| |]; intros v' *; auto.
Qed.
End Properties.

(** ** Concrete runs *)

(** A held seat whose hold ended half a second ago. *)
Definition expiry_world : SeatRefWorld :=
  seat_world [plain_seat "r3" "ev" "B1" HELD]
    [mkSeatHold "h1" "r3" "ev" "B1" "alice" "sess" 0 500 None None] 1000.

Lemma expiry_world_wf : view_wf (seat_view expiry_world).
Proof. apply seat_world_wf. vm_compute. reflexivity. Qed.


(** Where an event id has a colon the key of a group can stand for two pairs of
    an event and a user: the seat S1 of the event [a], which carol bought, is
    released with the hold of another event's seat of the same name. *)
Definition colon_world : SeatRefWorld :=
  seat_world [plain_seat "r1" "a" "S0" HELD; plain_seat "r2" "a" "S1" SOLD; plain_seat "r3" "a:b" "S1" HELD]
    [mkSeatHold "h1" "r1" "a" "S0" "b:c" "sess" 0 500 None None; mkSeatHold "h2" "r3" "a:b" "S1" "c" "sess" 0 500 None None]
    1000.

Theorem colon_frees_sold_seat :
  let t := tables (seat_view (final seat_run processExpiredHolds false colon_world)) in
  si_status <$> seat_at t "a" "S1" = Some AVAILABLE /\ si_status <$> seat_at t "a:b" "S1" = Some HELD.
Proof. vm_compute. split; reflexivity. Qed.

Lemma processExpiredHolds_guard_witness :
  object seat_flaky processExpiredHolds false (expiry_world, [false; false; true; true]) = false.
Proof.
  apply (processExpiredHolds_guard seat_flaky flaky_view Faulty seat_flaky_conforms
    (expiry_world, [false; false; true; true])).
  apply expiry_world_wf.
Defined.
