(* ===== verification/SoldSeats.v ===== *)
(** * What becomes of a sold seat

    The seat inventory as a transition system: the tables change when a hold is
    made, when a user releases seats that are theirs, when seats are sold and when
    the expiry worker ticks ([sale_trans]), and each of these operations, whatever
    fails in it, makes such a transition ([sale_step_wp]).  Transitions keep every
    seat with one holder at most ([one_holder]); hence a sale ends the only active
    hold of the seat, and no later step changes the seat
    ([sold_seat_stays_sold]).  The service does not look at who releases a seat, so
    that this is asked of the users ([allowed]).  That a seat may be taken away
    before it is sold is [PlatformOutbox.expired_before_sold]. *)

From S2P Require Import Prelude Messages Effects JsNumber JsDate Json Redis Sql SeatWorld SeatRef SeatLock Availability Inventory Hold HoldExpiry.

Definition active (hd : SeatHold) : Prop := sh_releasedAt hd = None.

(** The row says SOLD, and no hold of the seat is active. *)
Record sold_seat (e x : string) (t : SeatTables) : Prop := {
  ss_row : exists r, seat_at t e x = Some r /\ si_status r = SOLD;
  ss_idle : forall i hd, holds t !! i = Some hd -> sh_eventId hd = e -> sh_seatId hd = x -> ~ active hd;
}.

(** No event id has a colon, so the worker's groups are the events and users. *)
Definition plain_events (t : SeatTables) : Prop :=
  forall i hd, holds t !! i = Some hd -> no_colon (sh_eventId hd) = true.

(** ** The tables *)

(** A hold that is made is of other seats. *)
Lemma hold_made_sold e x e' ids u se exp t t' l :
  tables_wf t -> hold_made e' ids u se exp t t' l -> sold_seat e x t -> sold_seat e x t'.
Proof.
  intros Hwf [Ha Hrows Hf ->] [(r & Hr & Hst) Hidle].
  assert (~ (e' = e /\ x ∈ ids)) as Hno.
  { intros [-> Hx]. destruct (Ha x Hx) as (r' & Hr' & Hst'). congruence. }
  split.
  - exists r. split; [|done]. rewrite (seat_at_seats _ (statuses_set e' ids HELD t)) by done.
    destruct (decide (e = e')) as [<-|Hne]; [|by rewrite seat_at_status_other].
    rewrite seat_at_status, Hr by done. cbn. destruct (includes ids x) eqn:Hx; [|done].
    apply includes_spec in Hx. by destruct Hno.
  - intros i hd Hi He Hx. cbn [holds] in Hi. destruct (decide (i ∈ map sh_id l)) as [(q & -> & Hq)%list_elem_of_fmap|Hl].
    + rewrite upsert_in in Hi; [|apply Hf|done]. injection Hi as <-.
      apply list_elem_of_lookup in Hq as [n Hq]. destruct (Forall2_lookup_r _ _ _ _ _ Hrows Hq) as (y & Hy & (inv & _ & Hc)).
      rewrite Hc in He, Hx. cbn in He, Hx. subst. destruct Hno. split; [done|]. by eapply list_elem_of_lookup_2.
    + rewrite upsert_notin in Hi by done. by eapply Hidle.
Qed.

Lemma hold_made_plain e' ids u se exp t t' l :
  hold_made e' ids u se exp t t' l -> no_colon e' = true -> plain_events t -> plain_events t'.
Proof.
  intros [_ Hrows Hf ->] He Hp i hd Hi. cbn [holds] in Hi.
  destruct (decide (i ∈ map sh_id l)) as [(q & -> & Hq)%list_elem_of_fmap|Hl].
  - rewrite upsert_in in Hi; [|apply Hf|done]. injection Hi as <-.
    apply list_elem_of_lookup in Hq as [n Hq]. destruct (Forall2_lookup_r _ _ _ _ _ Hrows Hq) as (y & _ & (inv & _ & Hc)).
    by rewrite Hc.
  - rewrite upsert_notin in Hi by done. by eapply Hp.
Qed.

(** Holds that end leave the seat alone, or sell it. *)
Lemma hold_ended_holds e' ids u reason st t t' i hd :
  hold_ended e' ids u reason st t t' -> holds t' !! i = Some hd ->
  exists hd0, holds t !! i = Some hd0 /\ sh_eventId hd = sh_eventId hd0 /\ sh_seatId hd = sh_seatId hd0 /\
    (sh_releasedAt hd0 <> None -> sh_releasedAt hd <> None) /\
    (e' = sh_eventId hd0 -> sh_seatId hd0 ∈ ids -> u = sh_userId hd0 -> sh_releasedAt hd <> None).
Proof.
  intros [now ->] Hi. cbn [holds] in Hi. unfold holds_released in Hi. rewrite update_where_lookup in Hi.
  apply fmap_Some in Hi as (hd0 & Hi & ->). exists hd0. split; [done|]. unfold active_hold, released_by.
  destruct (String.eqb_spec (sh_eventId hd0) e') as [He|He]; cbn [andb]; [|by split_and!].
  destruct (String.eqb_spec (sh_userId hd0) u) as [Hu|Hu]; cbn [andb]; [|by split_and!].
  destruct (sh_releasedAt hd0) eqn:Hr; [split_and!; try done; congruence|].
  destruct (includes ids (sh_seatId hd0)) eqn:Hx; [by split_and!|].
  apply includes_false in Hx. by split_and!.
Qed.

Lemma hold_ended_sold e x e' ids u reason st t t' :
  tables_wf t -> hold_ended e' ids u reason st t t' -> st = SOLD \/ ~ (e' = e /\ x ∈ ids) ->
  sold_seat e x t -> sold_seat e x t'.
Proof.
  intros Hwf Hend Hst [(r & Hr & Hs) Hidle]. split.
  - pose proof Hend as [now Ht']. rewrite (seat_at_seats t' (statuses_set e' ids st t)) by (by rewrite Ht').
    destruct (decide (e = e')) as [<-|Hne]; [|rewrite seat_at_status_other by done; by exists r].
    rewrite seat_at_status, Hr by done. cbn. destruct (includes ids x) eqn:Hx; [|by exists r].
    apply includes_spec in Hx. destruct Hst as [->|Hno]; [by eexists|by destruct Hno].
  - intros i hd Hi He Hx. destruct (hold_ended_holds _ _ _ _ _ _ _ _ _ Hend Hi) as (hd0 & Hi0 & He0 & Hx0 & Hrel & _).
    apply Hrel. eapply Hidle; [done|congruence|congruence].
Qed.

Lemma hold_ended_plain e' ids u reason st t t' :
  hold_ended e' ids u reason st t t' -> plain_events t -> plain_events t'.
Proof.
  intros Hend Hp i hd Hi. destruct (hold_ended_holds _ _ _ _ _ _ _ _ _ Hend Hi) as (hd0 & Hi0 & -> & _). by eapply Hp.
Qed.

(** ** The tables as a transition system *)

(** A tick of the worker: groups of expired holds, which were active when the
    tick began in [t0], are released one after the other; some may fail.  A user
    who gives seats back releases one such group. *)
Inductive expiring (t0 : SeatTables) : SeatTables -> Prop :=
| ExpiringStart : expiring t0 t0
| ExpiringGroup e ids u reason t t' : expiring t0 t -> hold_ended e ids u reason AVAILABLE t t' ->
    (forall x, x ∈ ids -> exists i hd, holds t0 !! i = Some hd /\ active hd /\
       sh_eventId hd = e /\ sh_userId hd = u /\ sh_seatId hd = x) ->
    expiring t0 t'.

Inductive sale_trans (t : SeatTables) : SeatTables -> Prop :=
| NothingDone : sale_trans t t
| HoldMade e ids u se exp l t' : no_colon e = true -> NoDup ids -> hold_made e ids u se exp t t' l -> sale_trans t t'
| SeatsSold e ids u t' : hold_ended e ids u PAYMENT_SUCCESS SOLD t t' -> sale_trans t t'
| HoldsReleased t' : expiring t t' -> sale_trans t t'.

(** Nobody shares a seat: a seat has at most one active hold, and a seat with
    one is not available. *)
Record one_holder (t : SeatTables) : Prop := {
  oh_unique : forall i j hd hd', holds t !! i = Some hd -> holds t !! j = Some hd' -> active hd -> active hd' ->
    sh_eventId hd = sh_eventId hd' -> sh_seatId hd = sh_seatId hd' -> i = j;
  oh_status : forall i hd, holds t !! i = Some hd -> active hd ->
    exists r, seat_at t (sh_eventId hd) (sh_seatId hd) = Some r /\ si_status r <> AVAILABLE;
}.

(** Where an active hold after an ending comes from. *)
Lemma ended_active e ids u reason st t t' i hd :
  hold_ended e ids u reason st t t' -> holds t' !! i = Some hd -> active hd ->
  holds t !! i = Some hd /\ ~ (sh_eventId hd = e /\ sh_userId hd = u /\ sh_seatId hd ∈ ids).
Proof.
  intros [now ->] Hi Ha. cbn [holds] in Hi. unfold holds_released in Hi. rewrite update_where_lookup in Hi.
  apply fmap_Some in Hi as (hd0 & Hi & ->). revert Ha. unfold active, active_hold, released_by.
  destruct (String.eqb_spec (sh_eventId hd0) e) as [He|He]; cbn [andb]; [|intros _; split; [done|naive_solver]].
  destruct (String.eqb_spec (sh_userId hd0) u) as [Hu|Hu]; cbn [andb]; [|intros _; split; [done|naive_solver]].
  destruct (sh_releasedAt hd0) eqn:Hr; [congruence|].
  destruct (includes ids (sh_seatId hd0)) eqn:Hx; [done|]. apply includes_false in Hx. split; [done|naive_solver].
Qed.

Lemma ended_seat_at e ids u reason st t t' e' x :
  tables_wf t -> hold_ended e ids u reason st t t' ->
  seat_at t' e' x = (if decide (e' = e /\ x ∈ ids) then set_status st <$> seat_at t e' x else seat_at t e' x).
Proof.
  intros Hwf [now ->]. rewrite (seat_at_seats _ (statuses_set e ids st t)) by done.
  destruct (decide (e' = e /\ x ∈ ids)) as [[-> Hx]|Hno].
  - rewrite seat_at_status by done. by rewrite (proj2 (includes_spec _ _) Hx).
  - destruct (decide (e' = e)) as [->|Hne]; [|by rewrite seat_at_status_other].
    rewrite seat_at_status by done. rewrite (proj2 (includes_false _ _)) by naive_solver. apply option_fmap_id.
Qed.

Lemma expiring_wf t0 t : expiring t0 t -> tables_wf t0 -> tables_wf t.
Proof. induction 1; [done|]. intros Hwf. eapply hold_ended_wf; [|done]. auto. Qed.

(** The holds that are active during a tick were so before. *)
Lemma expiring_active t0 t i hd : expiring t0 t -> holds t !! i = Some hd -> active hd -> holds t0 !! i = Some hd.
Proof.
  induction 1 as [|e ids u reason t t' _ IH Hend _]; [done|]. intros Hi Ha.
  destruct (ended_active _ _ _ _ _ _ _ _ _ Hend Hi Ha) as [Hi' _]. by apply IH.
Qed.

Lemma expiring_sold e x t0 t : tables_wf t0 -> expiring t0 t -> sold_seat e x t0 -> sold_seat e x t.
Proof.
  intros Hwf H Hs. induction H as [|e' ids u reason t t' Hexp IH Hend Hids]; [done|].
  eapply hold_ended_sold; [by eapply expiring_wf|exact Hend| |by apply IH].
  right. intros [-> Hx]. destruct (Hids x Hx) as (i & hd & Hi & Ha & He & _ & Hxi). by apply (ss_idle _ _ _ Hs i hd).
Qed.

Lemma expiring_one_holder t0 t : tables_wf t0 -> expiring t0 t -> one_holder t0 -> one_holder t.
Proof.
  intros Hwf H [Hu Hst]. split.
  - intros i j hd hd' Hi Hj Ha Ha'. apply (Hu i j hd hd'); by eauto using expiring_active.
  - induction H as [|e ids u reason t t' Hexp IH Hend Hids]; [done|]. intros i hd Hi Ha.
    destruct (ended_active _ _ _ _ _ _ _ _ _ Hend Hi Ha) as [Hi' Hno].
    destruct (IH i hd Hi' Ha) as (r & Hr & Hs). exists r. split; [|done].
    rewrite (ended_seat_at _ _ _ _ _ _ _ _ _ (expiring_wf _ _ Hexp Hwf) Hend).
    destruct (decide _) as [[He Hx]|_]; [|done]. destruct Hno.
    destruct (Hids _ Hx) as (j & hx & Hj & Hax & Hex & Hux & Hxx).
    pose proof (expiring_active _ _ _ _ Hexp Hi' Ha) as Hi0.
    assert (i = j) as -> by (apply (Hu i j hd hx); congruence). by simplify_eq.
Qed.

(** A new hold is of a seat that had none. *)
Lemma made_row e ids u se exp t t' l i hd :
  hold_made e ids u se exp t t' l -> holds t' !! i = Some hd ->
  (~ i ∈ map sh_id l /\ holds t !! i = Some hd) \/
  (i = sh_id hd /\ exists n, l !! n = Some hd /\ sh_eventId hd = e /\ ids !! n = Some (sh_seatId hd)).
Proof.
  intros [_ Hrows Hf ->] Hi. cbn [holds] in Hi.
  destruct (decide (i ∈ map sh_id l)) as [(q & -> & Hq)%list_elem_of_fmap|Hl].
  - rewrite upsert_in in Hi; [|apply Hf|done]. injection Hi as <-. right. split; [done|].
    apply list_elem_of_lookup in Hq as [n Hq]. exists n.
    destruct (Forall2_lookup_r _ _ _ _ _ Hrows Hq) as (y & Hy & (inv & _ & Hc)). rewrite Hy, Hc. by rewrite Hc in Hq.
  - rewrite upsert_notin in Hi by done. by left.
Qed.

Lemma made_one_holder e ids u se exp t t' l :
  tables_wf t -> NoDup ids -> hold_made e ids u se exp t t' l -> one_holder t -> one_holder t'.
Proof.
  intros Hwf Hnd Hm [Hu Hst]. pose proof Hm as [Ha Hrows Hf Ht'].
  assert (forall i hd y, holds t !! i = Some hd -> active hd -> y ∈ ids -> sh_eventId hd = e -> sh_seatId hd <> y) as Hold.
  { intros i hd y Hi Hact Hy <- <-. destruct (Hst i hd Hi Hact) as (r & Hr & Hs).
    destruct (Ha _ Hy) as (r' & Hr' & Hs'). congruence. }
  split.
  - intros i j hd hd' Hi Hj Hact Hact' He Hx.
    destruct (made_row _ _ _ _ _ _ _ _ _ _ Hm Hi) as [[_ Hi0]|(-> & n & Hn & Hen & Hyn)],
      (made_row _ _ _ _ _ _ _ _ _ _ Hm Hj) as [[_ Hj0]|(-> & m & Hm' & Hem & Hym)].
    + by apply (Hu i j hd hd').
    + destruct (Hold i hd (sh_seatId hd') Hi0 Hact); [by eapply list_elem_of_lookup_2|congruence|done].
    + destruct (Hold j hd' (sh_seatId hd) Hj0 Hact'); [by eapply list_elem_of_lookup_2|congruence|done].
    + rewrite <- Hx in Hym. assert (n = m) as -> by (by eapply NoDup_lookup). congruence.
  - intros i hd Hi Hact. assert (forall e' x', seat_at t' e' x' = seat_at (statuses_set e ids HELD t) e' x') as Hat.
    { intros e' x'. apply seat_at_seats. by rewrite Ht'. }
    destruct (made_row _ _ _ _ _ _ _ _ _ _ Hm Hi) as [[_ Hi0]|(-> & n & Hn & Hen & Hyn)].
    + destruct (Hst i hd Hi0 Hact) as (r & Hr & Hs). exists r. split; [|done]. rewrite Hat.
      destruct (decide (sh_eventId hd = e)) as [He|He]; [|by rewrite seat_at_status_other].
      rewrite He, seat_at_status by done. rewrite He in Hr. rewrite Hr. cbn.
      destruct (includes ids (sh_seatId hd)) eqn:Hx; [|done]. apply includes_spec in Hx. by destruct (Hold i hd _ Hi0 Hact Hx).
    + apply list_elem_of_lookup_2 in Hyn as Hin.
      destruct (hold_made_status _ _ _ _ _ _ _ _ _ Hwf Hm Hin) as (r & _ & _ & Hr). rewrite Hen. eexists. by split.
Qed.

Lemma sold_one_holder e ids u t t' :
  tables_wf t -> hold_ended e ids u PAYMENT_SUCCESS SOLD t t' -> one_holder t -> one_holder t'.
Proof.
  intros Hwf Hend [Hu Hst]. split.
  - intros i j hd hd' Hi Hj Ha Ha'. apply (ended_active _ _ _ _ _ _ _ _ _ Hend) in Hi as [Hi _]; [|done].
    apply (ended_active _ _ _ _ _ _ _ _ _ Hend) in Hj as [Hj _]; [|done]. by apply (Hu i j).
  - intros i hd Hi Ha. apply (ended_active _ _ _ _ _ _ _ _ _ Hend) in Hi as [Hi _]; [|done].
    destruct (Hst i hd Hi Ha) as (r & Hr & Hs). rewrite (ended_seat_at _ _ _ _ _ _ _ _ _ Hwf Hend), Hr.
    destruct (decide _); eexists; by split.
Qed.

(** Every transition keeps the tables well formed, event ids plain, seats with
    one holder each, and sold seats sold. *)
Lemma sale_trans_plain t t' : sale_trans t t' -> plain_events t -> plain_events t'.
Proof.
  intros [| |e ids u t'' Hend|t'' H] Hp; [done| | |].
  - by eapply hold_made_plain.
  - by eapply hold_ended_plain.
  - induction H; [done|]. eapply hold_ended_plain; eauto.
Qed.

Lemma sale_trans_one_holder t t' : tables_wf t -> sale_trans t t' -> one_holder t -> one_holder t'.
Proof.
  intros Hwf [|e ids u se exp l t'' _ Hnd Hm|e ids u t'' Hend|t'' H] Ho; [done| | |].
  - by eapply made_one_holder.
  - by eapply sold_one_holder.
  - by eapply expiring_one_holder.
Qed.

Lemma sale_trans_sold e x t t' : tables_wf t -> sale_trans t t' -> sold_seat e x t -> sold_seat e x t'.
Proof.
  intros Hwf [|e' ids u se exp l t'' _ Hnd Hm|e' ids u t'' Hend|t'' H] Hs; [done| | |].
  - by eapply hold_made_sold.
  - eapply hold_ended_sold; eauto.
  - by eapply expiring_sold.
Qed.

(** ** The operations *)

Inductive sale_step :=
| HoldStep (eventId : string) (seatIds : list string) (userId sessionId : string)
| SellStep (eventId : string) (seatIds : list string) (userId : string)
| ReleaseStep (eventId : string) (seatIds : list string) (userId : string) (reason : SeatLockReleaseReason)
| ExpiryTick.

Definition sale_program (st : sale_step) : prog bool SeatE unit :=
  match st with
  | HoldStep e ids u se => holdSeats e ids u se ;; Ret tt
  | SellStep e ids u => markAsSold e ids u
  | ReleaseStep e ids u reason => releaseSeats e ids u reason
  | ExpiryTick => processExpiredHolds
  end.

(** Event ids have no colon, and users release what they hold. *)
Definition allowed (st : sale_step) (t : SeatTables) : Prop :=
  match st with
  | HoldStep e _ _ _ => no_colon e = true
  | ReleaseStep e ids u _ => forall x, x ∈ ids -> exists i hd, holds t !! i = Some hd /\ active hd /\
      sh_eventId hd = e /\ sh_userId hd = u /\ sh_seatId hd = x
  | SellStep _ _ _ | ExpiryTick => True
  end.

(** A group of the worker: not empty, one key, holds that were active in [t]. *)
Definition active_group (t : SeatTables) (kh : string * list SeatHold) : Prop :=
  kh.2 <> [] /\ Forall (fun hd => group_key hd = kh.1) kh.2 /\
  Forall (fun hd => active hd /\ exists i, holds t !! i = Some hd) kh.2.

Lemma active_group_members t key first hs x :
  plain_events t -> active_group t (key, first :: hs) -> x ∈ map sh_seatId (first :: hs) ->
  exists i hd, holds t !! i = Some hd /\ active hd /\
    sh_eventId hd = sh_eventId first /\ sh_userId hd = sh_userId first /\ sh_seatId hd = x.
Proof.
  intros Hp (_ & Hk & Ha) (hd & -> & Hd)%list_elem_of_fmap. cbn [fst snd] in *. rewrite Forall_forall in Hk, Ha.
  pose proof (Hk hd Hd) as K1. pose proof (Hk first (list_elem_of_here _ _)) as K2.
  destruct (Ha hd Hd) as [A1 [i Hi]]. destruct (Ha first (list_elem_of_here _ _)) as [_ [j Hj]].
  unfold group_key in K1, K2.
  destruct (group_key_inj (sh_eventId hd) (sh_userId hd) (sh_eventId first) (sh_userId first)) as [? ?];
    [by eapply Hp|by eapply Hp|congruence|]. by exists i, hd.
Qed.

Lemma group_holds_active now t l :
  (forall hd, hd ∈ l -> exists i, holds t !! i = Some hd /\ expired now hd = true) ->
  Forall (active_group t) (group_holds l).
Proof.
  intros Hl. destruct (group_holds_spec l) as [Hg Hperm]. apply Forall_forall. intros [key hs] Hin.
  rewrite Forall_forall in Hg. destruct (Hg _ Hin) as [Hne Hk]. split_and!; [done|done|].
  apply Forall_forall. intros hd Hd. cbn [snd] in Hd. destruct (Hl hd) as (i & Hi & Hexp).
  - rewrite <- Hperm. apply list_elem_of_In, in_concat. exists hs. split; [|by apply list_elem_of_In].
    apply in_map_iff. exists (key, hs). split; [done|by apply list_elem_of_In].
  - split; [|by exists i]. unfold active, expired in *. apply andb_true_iff in Hexp as [_ Hr]. by destruct (sh_releasedAt hd).
Qed.

Section Steps.
Variable md : mode.
Abbreviation spec := (obeys md seat_behaviour).

Lemma release_groups_expiring t g s v (Q : result unit -> bool -> SeatView -> Prop) :
  plain_events t -> view_wf v -> expiring t (tables v) -> Forall (active_group t) g ->
  (forall s v, view_wf v -> expiring t (tables v) -> Q (Ok tt) s v) -> wp spec (for_each g release_group) Q s v.
Proof.
  intros Hp Hv He Hg HQ.
  apply (wp_for_each _ _ _ (fun g s v => view_wf v /\ expiring t (tables v) /\ Forall (active_group t) g)); [done| |].
  { intros s' v' (? & ? & _). by apply HQ. }
  intros [key hs] g' s' v' (Hv' & He' & [Hkh Hg']%Forall_cons).
  destruct hs as [|first hs]; [by destruct Hkh|].
  assert (forall t', hold_ended (sh_eventId first) (map sh_seatId (first :: hs)) (sh_userId first) TIMEOUT AVAILABLE
    (tables v') t' -> expiring t t') as Hnext.
  { intros t' Hend. eapply ExpiringGroup; [exact He'|exact Hend|]. intros x. by eapply active_group_members. }
  apply release_group_wp; [done| |].
  - intros v1 Hwf1 Hend. by split_and!; [|apply Hnext|].
  - intros v1 _ Hwf1 [Ht|Hend]; split_and!; [done|by rewrite Ht|done|done|by apply Hnext|done].
Qed.

(** What a step does to the tables, whatever fails in it. *)
Lemma sale_step_wp st s v (Q : result unit -> bool -> SeatView -> Prop) :
  view_wf v -> plain_events (tables v) -> allowed st (tables v) -> s = false ->
  (forall r s v', view_wf v' -> sale_trans (tables v) (tables v') -> Q r s v') -> wp spec (sale_program st) Q s v.
Proof.
  intros Hv Hpe Hp -> HQ. pose proof Hv as [Hwf Htx Hrt].
  assert (forall r s v', tx v' = None -> redis_typed (redis v') -> tables v' = tables v -> Q r s v') as HQ0.
  { intros r s v' ? ? Ht. apply HQ; [split; [by rewrite Ht|done|done]|rewrite Ht; by constructor]. }
  destruct st as [e' ids u se|e' ids u|e' ids u reason|]; cbn [sale_program allowed] in *.
  - wp_step. apply holdSeats_wp; [done|..].
    + intros exp l t' m Hnd _ Hm Hmade. wp_step. apply HQ; [split|by eapply HoldMade].
      * by eapply hold_made_wf.
      * done.
      * apply entries_set_typed, (typed_locks_added _ _ _ _ _ _ Hrt Hm).
    + intros err _. by apply HQ0.
    + intros err v' _ (Htx' & Hr & [Ht|(exp & l & Hnd & Hmade & _)]); [by apply HQ0|].
      apply HQ; [split; [by eapply hold_made_wf|done|done]|by eapply HoldMade].
  - apply markAsSold_wp; [done|..].
    + intros t' Ht'. apply HQ; [split; [by eapply hold_ended_wf|done|]|by eapply SeatsSold].
      by apply entries_set_typed, typed_drop_locks.
    + intros err t' m _ Hm [->|Ht']; [by apply HQ0|].
      apply HQ; [split; [by eapply hold_ended_wf|done|done]|by eapply SeatsSold].
  - assert (forall t', hold_ended e' ids u reason AVAILABLE (tables v) t' -> sale_trans (tables v) t') as Hrel.
    { intros t' Ht'. apply HoldsReleased. by eapply ExpiringGroup; [constructor|exact Ht'|]. }
    apply releaseSeats_wp; [done|..].
    + intros t' Ht'. apply HQ; [split; [by eapply hold_ended_wf|done|]|by apply Hrel].
      by apply entries_set_typed, typed_drop_locks.
    + intros err t' m _ Hm [->|Ht']; [by apply HQ0|].
      apply HQ; [split; [by eapply hold_ended_wf|done|done]|by apply Hrel].
  - unfold processExpiredHolds. cbn [bind wp get_local put_local].
    wp_step. wp_step. wp_step. intros [now|err] v1 H; seat_sem H; [subst v1|destruct H as [-> _]; by apply HQ0].
    wp_step. wp_step. intros [l|err] v1 H; seat_sem H; [|destruct H as [-> _]; by apply HQ0].
    destruct H as [-> Hl]. destruct (Nat.eqb (length l) 0); [by apply HQ0|].
    apply (release_groups_expiring (tables v)); [done|done|constructor| |].
    + apply (group_holds_active now). intros hd Hd. unfold selects in Hl.
      rewrite Hl, elem_of_filterb, elem_of_rows_lookup in Hd. destruct Hd as [[i Hi] Hexp]. by exists i.
    + intros s1 v1 Hv1 H1. apply HQ; [done|by apply HoldsReleased].
Qed.
End Steps.

(** ** Properties *)

Section Properties.
Context {W : Type}.
Variable h : forall X, SeatE X -> W -> result X * W.
Variable view : W -> SeatView.
Variable md : mode.
Hypothesis Hh : conforms md seat_behaviour h view.

Definition run_steps (steps : list sale_step) (w : W) : W :=
  foldl (fun w st => final h (sale_program st) false w) w steps.

Fixpoint allowed_run (steps : list sale_step) (w : W) : Prop :=
  match steps with
  | [] => True
  | st :: steps => allowed st (tables (view w)) /\ allowed_run steps (final h (sale_program st) false w)
  end.

(** A property of the tables that every transition keeps is kept by any run. *)
Lemma run_steps_keep (P : SeatTables -> Prop) steps w :
  (forall t t', tables_wf t -> sale_trans t t' -> P t -> P t') ->
  view_wf (view w) -> plain_events (tables (view w)) -> allowed_run steps w -> P (tables (view w)) ->
  view_wf (view (run_steps steps w)) /\ plain_events (tables (view (run_steps steps w))) /\
  P (tables (view (run_steps steps w))).
Proof.
  intros Hkeep. revert w. induction steps as [|st steps IH]; intros w Hv Hpe Hsteps HP; [done|].
  destruct Hsteps as [Hst Hsteps]. cbn.
  assert (view_wf (view (final h (sale_program st) false w)) /\
    sale_trans (tables (view w)) (tables (view (final h (sale_program st) false w)))) as [Hv' Ht].
  { call_wp Hh w. by apply (sale_step_wp md). }
  apply IH; [done|by eapply sale_trans_plain|done|]. eapply Hkeep; [apply Hv|done|done].
Qed.

(** C29: A sold seat stays sold, provided that no event id has a colon and users
    release only seats they hold, until the sale is cancelled.  From an inventory
    that is well-formed and in which every seat has one active hold at most, holds,
    sales, ticks of the expiry worker and such releases come one after the other
    in any order, and any of them may fail half way; at some moment a user whose
    hold of the seat is active pays, and the call that marks the seats as sold
    succeeds.  From then on none of these steps changes it: the seat is SOLD,
    nobody holds it, and the worker will not release it. *)
Theorem sold_seat_stays_sold e ids u x i hd before after w :
  view_wf (view w) -> plain_events (tables (view w)) -> one_holder (tables (view w)) ->
  allowed_run before w ->
  let w1 := run_steps before w in
  let w2 := final h (markAsSold e ids u) false w1 in
  holds (tables (view w1)) !! i = Some hd -> active hd ->
  sh_eventId hd = e -> sh_seatId hd = x -> sh_userId hd = u -> x ∈ ids ->
  outcome h (markAsSold e ids u) false w1 = Ok tt -> allowed_run after w2 ->
  sold_seat e x (tables (view (run_steps after w2))).
Proof.
  intros Hv0 Hp0 Ho0 Hb. cbn zeta. intros Hi Hact He Hxi Hui Hx Hok Ha.
  destruct (run_steps_keep one_holder before w sale_trans_one_holder) as (Hv & Hp & Ho); [done..|].
  revert Hi Hok Ha Hv Hp Ho. generalize (run_steps before w). intros w1 Hi Hok Ha Hv Hp Ho.
  assert (view_wf (view (final h (markAsSold e ids u) false w1)) /\
    hold_ended e ids u PAYMENT_SUCCESS SOLD (tables (view w1)) (tables (view (final h (markAsSold e ids u) false w1))))
    as [Hv2 Hend].
  { revert Hok. call_wp Hh w1. apply markAsSold_wp; [done| |done]. intros t' Hend _. split; [|done].
    split; [by eapply hold_ended_wf; [apply Hv|]|done|]. apply entries_set_typed, typed_drop_locks, Hv. }
  apply (run_steps_keep (sold_seat e x)); [intros t t'; apply sale_trans_sold|done|by eapply hold_ended_plain|done|].
  split.
  - destruct (oh_status _ Ho i hd Hi Hact) as (r & Hr & _). rewrite He, Hxi in Hr.
    erewrite hold_ended_status, Hr; [|apply Hv|exact Hend|done]. by exists (set_status SOLD r).
  - intros j hd' Hj He' Hx' Hact'. destruct (ended_active _ _ _ _ _ _ _ _ _ Hend Hj Hact') as [Hj0 Hno].
    apply Hno. assert (i = j) as <- by (apply (oh_unique _ Ho i j hd hd'); congruence). by simplify_eq.
Qed.
End Properties.

(** ** A concrete run *)

(** Two users try for the same seat; Alice gets it and pays.  Then Bob tries
    again, time passes, the worker ticks, and another seat is held, released, held
    and sold. *)
Definition early_steps : list sale_step :=
  [ExpiryTick; HoldStep "ev" ["A1"] "alice" "sess"; HoldStep "ev" ["A1"; "A2"] "bob" "sess-2"]%string.

Definition later_steps : list sale_step :=
  [HoldStep "ev" ["A1"] "bob" "sess-2"; ExpiryTick; HoldStep "ev" ["A2"] "bob" "sess-2"; ReleaseStep "ev" ["A2"] "bob" USER_CANCEL;
   HoldStep "ev" ["A2"] "bob" "sess-3"; SellStep "ev" ["A2"] "bob"; ExpiryTick]%string.

Definition alice_hold : SeatHold :=
  mkSeatHold "x" "r1" "ev" "A1" "alice" "sess" 1000 601000 None None.

Lemma alice_holds : holds (tables (seat_view (run_steps seat_run early_steps demo_world))) !! "x"%string = Some alice_hold.
Proof. vm_compute. reflexivity. Qed.

Lemma demo_one_holder : one_holder (tables (seat_view demo_world)).
Proof. by split; intros i; intros; cbn in *; rewrite lookup_empty in *. Qed.

Lemma sold_seat_stays_sold_witness :
  sold_seat "ev" "A1" (tables (seat_view (run_steps seat_run later_steps
    (final seat_run (markAsSold "ev" ["A1"]%string "alice") false (run_steps seat_run early_steps demo_world))))).
Proof.
  apply (sold_seat_stays_sold seat_run seat_view Reliable seat_run_conforms "ev" ["A1"]%string "alice" "A1"
    "x"%string alice_hold early_steps later_steps demo_world).
  - exact demo_world_wf.
  - intros i hd' Hi'. cbn in Hi'. by rewrite lookup_empty in Hi'.
  - exact demo_one_holder.
  - by split_and!.
  - exact alice_holds.
  - reflexivity.
  - reflexivity.
  - reflexivity.
  - reflexivity.
  - by left.
  - vm_compute. reflexivity.
  - split; [done|]. split; [done|]. split; [done|]. split; [|by split_and!].
    intros x ->%list_elem_of_singleton. exists "xx"%string. eexists. split; [vm_compute; reflexivity|by split_and!].
Defined.
