(* ===== verification/SeatApi.v ===== *)
(** * The seat inventory service's controllers

    apps/seat-inventory-service/src/inventory/inventory.grpc-controller.ts,
    hold/hold.controller.ts and inventory/inventory.controller.ts, over the
    services of the other files. *)

From S2P Require Import Prelude Messages Effects JsNumber JsDate Json Redis Sql SeatWorld SeatRef SeatLock Availability Inventory Hold.

(** ** Messages and DTOs *)

Record SeatsRequest := mkSeatsRequest {
  sq_eventId : string;
  sq_seatIds : list string;
  sq_userId : string;
}.

Record HoldSeatDto := mkHoldSeatDto {
  hs_eventId : string;
  hs_seatIds : list string;
  hs_userId : string;
  hs_sessionId : string;
}.

Record ReleaseSeatDto := mkReleaseSeatDto {
  rs_userId : string;
  rs_seatIds : list string;
}.

Record HoldSeatsResponse := mkHoldSeatsResponse {
  hr_success : bool;
  hr_holdIds : list string;
  hr_expiresAt : string;
  hr_failedSeatIds : list string;
}.

Definition seat_info (s : SeatInventory) : SeatInfo :=
  mkSeatInfo (si_id s) (si_eventId s) (si_seatId s) (si_sectionId s) (si_sectionName s)
    (si_ticketTypeId s) (si_ticketTypeName s) (si_price s) (si_currency s) (si_row s)
    (si_seatNumber s) (si_seatType s) (seat_status_value (si_status s)).

(** ** InventoryGrpcController *)

Module Grpc.
Section Handlers.
Context {S : Type}.

Definition getSeatsByEvent (eventId : string) : prog S SeatE (list SeatInfo) :=
  seats <- findByEventId eventId ;;
  Ret (map seat_info seats).

Definition getAvailableSeats (eventId : string) : prog S SeatE (list SeatInventory) :=
  getAvailability eventId.

(** [!lock || lock.userId !== userId] *)
Definition lock_refused (lock : option json) (userId : string) : bool :=
  match lock with
  | None => true
  | Some j =>
      negb (json_truthy j) ||
      match member "userId" j with Some (JStr u) => negb (String.eqb u userId) | _ => true end
  end.

Fixpoint verify_loop (eventId : string) (seatIds : list string) (userId : string) : prog S SeatE bool :=
  match seatIds with
  | [] => Ret true
  | seatId :: rest =>
      lock <- getLockInfo eventId seatId ;;
      if lock_refused lock userId then Ret false else verify_loop eventId rest userId
  end.

Definition verifyHold (data : SeatsRequest) : prog S SeatE bool :=
  verify_loop (sq_eventId data) (sq_seatIds data) (sq_userId data).

Definition holdSeats (data : HoldSeatDto) : prog S SeatE HoldSeatsResponse :=
  try_catch
    (result <- Hold.holdSeats (hs_eventId data) (hs_seatIds data) (hs_userId data) (hs_sessionId data) ;;
     let '(holdIds, expiresAt) := result in
     Ret (mkHoldSeatsResponse true holdIds (toISOString expiresAt) []))
    (fun error => Ret (mkHoldSeatsResponse false [] "" (hs_seatIds data))).

Definition releaseSeats (data : SeatsRequest) (reason : SeatLockReleaseReason) : prog S SeatE bool :=
  try_catch
    (Hold.releaseSeats (sq_eventId data) (sq_seatIds data) (sq_userId data) reason ;; Ret true)
    (fun error => Ret false).

Definition markSeatsAsSold (data : SeatsRequest) : prog S SeatE bool :=
  try_catch
    (markAsSold (sq_eventId data) (sq_seatIds data) (sq_userId data) ;; Ret true)
    (fun error => Ret false).

Definition releaseSoldSeats (eventId : string) (seatIds : list string) : prog S SeatE bool :=
  try_catch (relaseSoldSeats eventId seatIds ;; Ret true) (fun error => Ret false).
End Handlers.
End Grpc.

(** ** HoldController *)

Module Http.
Section Handlers.
Context {S : Type}.

Definition holdSeats (dto : HoldSeatDto) : prog S SeatE (list string * Z) :=
  Hold.holdSeats (hs_eventId dto) (hs_seatIds dto) (hs_userId dto) (hs_sessionId dto).

Definition releaseSeats (eventId : string) (body : ReleaseSeatDto) : prog S SeatE unit :=
  Hold.releaseSeats eventId (rs_seatIds body) (rs_userId body) USER_CANCEL.

Fixpoint verify_loop (eventId : string) (seatIds : list string) (userId : string) : prog S SeatE unit :=
  match seatIds with
  | [] => Ret tt
  | seatId :: rest =>
      lock <- getLockInfo eventId seatId ;;
      match lock with
      | Some j =>
          if negb (json_truthy j) then
            Throw (BadRequestException ("Seat " +:+ seatId +:+ " is not held"))
          else if Grpc.lock_refused lock userId then
            Throw (BadRequestException ("Seat " +:+ seatId +:+ " is held by another user"))
          else verify_loop eventId rest userId
      | None => Throw (BadRequestException ("Seat " +:+ seatId +:+ " is not held"))
      end
  end.

Definition verifyHold (dto : SeatsRequest) : prog S SeatE bool :=
  verify_loop (sq_eventId dto) (sq_seatIds dto) (sq_userId dto) ;;
  Ret true.

(** [InventoryController] *)
Definition findByEventRaw (eventId : string) : prog S SeatE (list SeatInventory) := findByEventId eventId.
Definition getAvailability (eventId : string) : prog S SeatE (list json) := getAvailableSeatsDetailed eventId.
Definition getAvailableCount (eventId : string) : prog S SeatE nat := Availability.getAvailableCount eventId.
Definition getSummary (eventId : string) : prog S SeatE Summary := getEventAvailabilitySummary eventId.
Definition findByEvent (eventId : string) : prog S SeatE (list json) := getEventSeatsWithStatus eventId.
End Handlers.
End Http.

(** ** Lemmas *)

Lemma lock_refused_owned e u x i t m :
  m !! lock_key e x = Some (Entry (RStr (lock_value i)) t) ->
  Grpc.lock_refused (Some (lock_json i)) u = negb (owned_by m e u x).
Proof. intros Hx. by rewrite (owned_by_json _ _ u _ _ _ Hx). Qed.

Section Proofs.
Context {S : Type}.
Implicit Types (s : S) (v : SeatView).
Variable md : mode.
Abbreviation spec := (obeys md seat_behaviour).

Lemma verify_loop_wp e seatIds u (Q : result bool -> S -> SeatView -> Prop) s v :
  redis_typed (redis v) ->
  Q (Ok (forallb (owned_by (redis v) e u) seatIds)) s v ->
  (forall err, md = Faulty -> Q (Err err) s v) ->
  wp spec (Grpc.verify_loop e seatIds u) Q s v.
Proof.
  intros Ht HQ HE. induction seatIds as [|x rest IH]; cbn [Grpc.verify_loop]; [exact HQ|].
  cbn [forallb] in HQ. wp_step. apply getLockInfo_wp; [done| | |done].
  - intros i t Hx. rewrite (lock_refused_owned _ _ _ _ _ _ Hx).
    destruct (owned_by (redis v) e u x); cbn [negb]; [by apply IH|exact HQ].
  - intros Hx. rewrite owned_by_none in HQ by done. exact HQ.
Qed.

(** Why the REST check refuses a seat. *)
Definition verify_error (m : RedisView) (e u x : string) (err : exn) : Prop :=
  owned_by m e u x = false /\
  err = match m !! lock_key e x with
        | None => BadRequestException ("Seat " +:+ x +:+ " is not held")
        | Some _ => BadRequestException ("Seat " +:+ x +:+ " is held by another user")
        end.

Lemma http_verify_wp e seatIds u (Q : result unit -> S -> SeatView -> Prop) s v :
  redis_typed (redis v) ->
  ((forall x, x ∈ seatIds -> owned_by (redis v) e u x = true) -> Q (Ok tt) s v) ->
  (forall x err, x ∈ seatIds -> verify_error (redis v) e u x err -> Q (Err err) s v) ->
  (forall err, md = Faulty -> Q (Err err) s v) ->
  wp spec (Http.verify_loop e seatIds u) Q s v.
Proof.
  intros Ht HQ HR HE. induction seatIds as [|x rest IH]; cbn [Http.verify_loop].
  { cbn. apply HQ. by intros x ?%elem_of_nil. }
  wp_step. apply getLockInfo_wp; [done| | |done].
  - intros i t Hx. cbn [json_truthy lock_json negb]. rewrite (lock_refused_owned _ _ _ _ _ _ Hx).
    destruct (owned_by (redis v) e u x) eqn:Ho; cbn [negb].
    + apply IH.
      * intros Hall. apply HQ. intros y [->|Hy]%elem_of_cons; auto.
      * intros y err Hy. apply HR. by right.
    + cbn. apply (HR x); [left|]. split; [done|]. by rewrite Hx.
  - intros Hx. cbn. apply (HR x); [left|]. split; [by apply owned_by_none|]. by rewrite Hx.
Qed.
End Proofs.

(** ** Properties *)

Section Properties.
Context {S W : Type} (h : forall X, SeatE X -> W -> result X * W) (view : W -> SeatView).
Implicit Types (s : S) (w : W).

(** A hold is verified exactly when every seat carries a lock of the user,
    by the RPC and by the REST endpoint alike; the latter names a seat that is
    not held, or held by another user. *)
Theorem verifyHold_spec md d s w :
  conforms md seat_behaviour h view ->
  redis_typed (redis (view w)) ->
  let held x := owned_by (redis (view w)) (sq_eventId d) (sq_userId d) x = true in
  match outcome h (Grpc.verifyHold d) s w with
  | Ok verified => verified = true <-> forall x, x ∈ sq_seatIds d -> held x
  | Err _ => md = Faulty
  end /\
  match outcome h (Http.verifyHold d) s w with
  | Ok verified => verified = true /\ forall x, x ∈ sq_seatIds d -> held x
  | Err err =>
      md = Faulty \/
      exists x, x ∈ sq_seatIds d /\ verify_error (redis (view w)) (sq_eventId d) (sq_userId d) x err
  end.
Proof.
  intros Hh Ht. cbn zeta. split.
  - call_wp Hh w. apply verify_loop_wp; [done| |done]. rewrite forallb_forall.
    setoid_rewrite list_elem_of_In. done.
  - call_wp Hh w. unfold Http.verifyHold. wp_step. apply http_verify_wp; [done| | |by left].
    + intros Hall. by cbn.
    + intros x err Hx He. right. eauto.
Qed.

(** The RPCs that change seats never fail: whatever their operations do
    they reply, with success exactly when the service method returned; the reply
    to a hold carries the service's result, and on failure names all the
    requested seats. *)
Theorem rpc_replies d req reason s w :
  outcome h (Grpc.holdSeats d) s w =
    Ok (match outcome h (Hold.holdSeats (hs_eventId d) (hs_seatIds d) (hs_userId d) (hs_sessionId d)) s w with
        | Ok (ids, exp) => mkHoldSeatsResponse true ids (toISOString exp) []
        | Err _ => mkHoldSeatsResponse false [] "" (hs_seatIds d)
        end) /\
  outcome h (Grpc.releaseSeats req reason) s w =
    Ok (is_ok (outcome h (Hold.releaseSeats (sq_eventId req) (sq_seatIds req) (sq_userId req) reason) s w)) /\
  outcome h (Grpc.markSeatsAsSold req) s w =
    Ok (is_ok (outcome h (markAsSold (sq_eventId req) (sq_seatIds req) (sq_userId req)) s w)) /\
  outcome h (Grpc.releaseSoldSeats (sq_eventId req) (sq_seatIds req)) s w =
    Ok (is_ok (outcome h (relaseSoldSeats (sq_eventId req) (sq_seatIds req)) s w)).
Proof.
  unfold Grpc.holdSeats, Grpc.releaseSeats, Grpc.markSeatsAsSold, Grpc.releaseSoldSeats, outcome.
  rewrite !run_try_catch, !run_bind. split_and!.
  - by destruct (run h (Hold.holdSeats _ _ _ _) s w) as [[[[ids exp]|e] s'] w'].
  - by destruct (run h (Hold.releaseSeats _ _ _ _) s w) as [[[[]|e] s'] w'].
  - by destruct (run h (markAsSold _ _ _) s w) as [[[[]|e] s'] w'].
  - by destruct (run h (relaseSoldSeats _ _) s w) as [[[[]|e] s'] w'].
Qed.

(** The [ReleaseSoldSeats] RPC makes every listed row of the event
    available, whatever its status was, and its reply tells whether the read
    model was updated too. *)
Theorem releaseSoldSeats_spec md e seatIds s w :
  conforms md seat_behaviour h view -> view_wf (view w) ->
  let v := view w in
  let v' := view (final h (Grpc.releaseSoldSeats e seatIds) s w) in
  match outcome h (Grpc.releaseSoldSeats e seatIds) s w with
  | Ok true =>
      tables v' = statuses_set e seatIds AVAILABLE (tables v) /\
      redis v' = entries_set e seatIds AVAILABLE (redis v) /\
      (forall x, x ∈ seatIds -> seat_at (tables v') e x = set_status AVAILABLE <$> seat_at (tables v) e x)
  | Ok false =>
      md = Faulty /\ redis v' = redis v /\
      (tables v' = tables v \/ tables v' = statuses_set e seatIds AVAILABLE (tables v))
  | Err _ => False
  end.
Proof.
  intros Hh Hv. cbn zeta. call_wp Hh w. unfold Grpc.releaseSoldSeats. wp_step. wp_step.
  apply relaseSoldSeats_wp; [apply Hv| |].
  - cbn. split_and!; [done|done|]. intros x Hx. rewrite seat_at_status by apply Hv.
    by rewrite (proj2 (includes_spec _ _) Hx).
  - intros err t Hmd Ht. by cbn.
Qed.

(** The reply of [HoldSeats] can deny a hold that exists: when the update
    of the read model fails after the commit, the client is told that all seats
    failed, while the seat is held and locked for the user. *)
Theorem hold_denied_but_made :
  let w := (demo_world, [false; false; false; false; false; false; false; true]) in
  let m := @Grpc.holdSeats unit (mkHoldSeatDto "ev" ["A1"] "alice" "sess")%string in
  outcome seat_flaky m tt w = Ok (mkHoldSeatsResponse false [] "" ["A1"])%string /\
  si_status <$> seat_at (tables (flaky_view (final seat_flaky m tt w))) "ev" "A1" = Some HELD /\
  owned_by (redis (flaky_view (final seat_flaky m tt w))) "ev" "alice" "A1" = true.
Proof. vm_compute. auto. Qed.
End Properties.

(** ** Concrete runs *)

Lemma verifyHold_spec_witness :
  outcome seat_run (@Grpc.verifyHold unit (mkSeatsRequest "ev" ["A1"] "alice")%string) tt demo_world = Ok false.
Proof.
  pose proof (verifyHold_spec (S := unit) seat_run seat_view Reliable
    (mkSeatsRequest "ev" ["A1"] "alice")%string tt demo_world seat_run_conforms redis_typed_empty) as [H _].
  destruct (outcome seat_run (Grpc.verifyHold _) tt demo_world) as [[]|e].
  - pose proof (proj1 H eq_refl "A1"%string (list_elem_of_here _ _)) as Ho. discriminate Ho.
  - reflexivity.
  - discriminate H.
Defined.

Lemma releaseSoldSeats_spec_witness :
  si_status <$> seat_at (tables (seat_view
    (final seat_run (@Grpc.releaseSoldSeats unit "ev" ["B2"]%string) tt demo_world))) "ev" "B2"
    = Some AVAILABLE.
Proof.
  pose proof (releaseSoldSeats_spec (S := unit) seat_run seat_view Reliable
    "ev" ["B2"]%string tt demo_world seat_run_conforms demo_world_wf) as H.
  cbn zeta in H. eval_outcome H. destruct H as (_ & _ & H). rewrite (H "B2"%string); [reflexivity|left].
Defined.
