(* ===== verification/PaymentWorld.v ===== *)
(** * Payment service: data and outside world

    The entities, enums and gateway interface of apps/payment-service, the
    operations its methods await (the repositories, Redis, the Stripe SDK, the
    Kafka client, the clock) and their documented behaviour. *)

From S2P Require Import Prelude Effects JsNumber JsDate Json Redis Sql.

(** ** Enums and entities *)

Module PaymentStatus.
Inductive t := INITIATED | PROCESSING | SUCCEEDED | FAILED | REFUNDED.

Definition value (s : t) : string :=
  match s with
  | INITIATED => "initiated"
  | PROCESSING => "processing"
  | SUCCEEDED => "succeeded"
  | FAILED => "failed"
  | REFUNDED => "refunded"
  end.

#[global] Instance eq_dec : EqDecision t.
Proof. solve_decision. Defined.
End PaymentStatus.

Module RefundStatus.
Inductive t := PENDING | PROCESSED | FAILED.

#[global] Instance eq_dec : EqDecision t.
Proof. solve_decision. Defined.
End RefundStatus.

Inductive PaymentMethod := CREDIT_CARD | DEBIT_CARD | WALLET | BANK_TRANSFER.

Definition payment_method_value (m : PaymentMethod) : string :=
  match m with
  | CREDIT_CARD => "credit_card"
  | DEBIT_CARD => "debit_card"
  | WALLET => "wallet"
  | BANK_TRANSFER => "bank_transfer"
  end.

Inductive PaymentProvider := STRIPE | IYZICO | MOCK.

Definition provider_value (p : PaymentProvider) : string :=
  match p with STRIPE => "stripe" | IYZICO => "iyzico" | MOCK => "mock" end.

Record Payment := mkPayment {
  p_id : string;
  p_bookingId : string;
  p_idempotencyKey : string;
  p_amount : decimal;
  p_currency : string;
  p_method : PaymentMethod;
  p_status : PaymentStatus.t;
  p_provider : string;
  p_providerTxId : option string;
  p_failureReason : option string;
  p_paidAt : option Z;
}.

Record Refund := mkRefund {
  r_id : string;
  r_paymentId : string;
  r_idempotencyKey : string;
  r_amount : decimal;
  r_reason : option string;
  r_status : RefundStatus.t;
  r_providerRefundId : option string;
  r_failureReason : option string;
}.

(** Assignments to the fields of a payment and of a refund. *)
Definition set_p_status (st : PaymentStatus.t) (p : Payment) : Payment :=
  mkPayment (p_id p) (p_bookingId p) (p_idempotencyKey p) (p_amount p) (p_currency p) (p_method p)
    st (p_provider p) (p_providerTxId p) (p_failureReason p) (p_paidAt p).
Definition set_p_amount (a : decimal) (p : Payment) : Payment :=
  mkPayment (p_id p) (p_bookingId p) (p_idempotencyKey p) a (p_currency p) (p_method p)
    (p_status p) (p_provider p) (p_providerTxId p) (p_failureReason p) (p_paidAt p).
Definition set_p_paid (tx : option string) (at_ : Z) (p : Payment) : Payment :=
  mkPayment (p_id p) (p_bookingId p) (p_idempotencyKey p) (p_amount p) (p_currency p) (p_method p)
    (p_status p) (p_provider p) tx (p_failureReason p) (Some at_).
Definition set_p_failureReason (m : option string) (p : Payment) : Payment :=
  mkPayment (p_id p) (p_bookingId p) (p_idempotencyKey p) (p_amount p) (p_currency p) (p_method p)
    (p_status p) (p_provider p) (p_providerTxId p) m (p_paidAt p).
Definition set_r_status (st : RefundStatus.t) (r : Refund) : Refund :=
  mkRefund (r_id r) (r_paymentId r) (r_idempotencyKey r) (r_amount r) (r_reason r) st
    (r_providerRefundId r) (r_failureReason r).
Definition set_r_amount (a : decimal) (r : Refund) : Refund :=
  mkRefund (r_id r) (r_paymentId r) (r_idempotencyKey r) a (r_reason r) (r_status r)
    (r_providerRefundId r) (r_failureReason r).
Definition set_r_providerRefundId (i : option string) (r : Refund) : Refund :=
  mkRefund (r_id r) (r_paymentId r) (r_idempotencyKey r) (r_amount r) (r_reason r) (r_status r)
    i (r_failureReason r).
Definition set_r_failureReason (m : option string) (r : Refund) : Refund :=
  mkRefund (r_id r) (r_paymentId r) (r_idempotencyKey r) (r_amount r) (r_reason r) (r_status r)
    (r_providerRefundId r) m.

(** The arguments of [paymentRepo.create] and [refundRepo.create]. *)
Record PaymentData := mkPaymentData {
  pd_bookingId : string;
  pd_idempotencyKey : string;
  pd_amount : number;
  pd_currency : string;
  pd_method : PaymentMethod;
  pd_status : PaymentStatus.t;
  pd_provider : string;
}.

Record RefundData := mkRefundData {
  rd_paymentId : string;
  rd_idempotencyKey : string;
  rd_amount : decimal;
  rd_reason : option string;
  rd_status : RefundStatus.t;
}.

(** dto/initiate-payment.dto.ts; the fields are checked by the validation pipe. *)
Record InitiatePaymentDto := mkInitiatePaymentDto {
  ip_bookingId : string;
  ip_idempotencyKey : string;
  ip_amount : number;
  ip_currency : string;
  ip_method : PaymentMethod;
  ip_cardToken : string;
  ip_provider : option string;
}.

(** ** The Stripe SDK and Kafka messages *)

Record ChargeRequest := mkChargeRequest {
  cr_amount : number;
  cr_currency : string;
  cr_payment_method : string;
  cr_idempotencyKey : string;
}.

Record PaymentIntent := mkPaymentIntent { pi_id : string; pi_status : string }.

Record RefundRequest := mkRefundRequest { rq_payment_intent : string; rq_amount : number }.

Record StripeRefund := mkStripeRefund { sr_id : string; sr_status : string }.

Inductive PaymentEvent :=
| PaymentSucceeded (paymentId bookingId : string) (amount : decimal) (currency provider : string)
    (providerTxId : option string) (paidAt : option Z)
| PaymentFailed (paymentId bookingId : string) (reason : option string) (provider : string)
| PaymentRefunded (refundId paymentId bookingId : string) (amount : decimal) (currency : string)
    (providerRefundId : option string).

(** The topic and the key of the message. *)
Definition event_topic (e : PaymentEvent) : string :=
  match e with
  | PaymentSucceeded _ _ _ _ _ _ _ => "payment.succeded"
  | PaymentFailed _ _ _ _ => "payment.failed"
  | PaymentRefunded _ _ _ _ _ _ => "payment.refunded"
  end.

Definition event_key (e : PaymentEvent) : string :=
  match e with
  | PaymentSucceeded id _ _ _ _ _ _ => id
  | PaymentFailed id _ _ _ => id
  | PaymentRefunded id _ _ _ _ _ => id
  end.

(** ** Operations *)

Inductive PaymentE : Type -> Type :=
| PRedis {X} (op : RedisE X) : PaymentE X
| PNow : PaymentE Z
| PSleep (ms : Z) : PaymentE unit
| PayFindOne (p : Payment -> bool) : PaymentE (option Payment)
| PayFind (p : Payment -> bool) : PaymentE (list Payment)
| PayInsert (d : PaymentData) : PaymentE Payment
| PaySave (p : Payment) : PaymentE unit
| RefFindOne (p : Refund -> bool) : PaymentE (option Refund)
| RefInsert (d : RefundData) : PaymentE Refund
| RefSave (r : Refund) : PaymentE unit
| StripeCharge (req : ChargeRequest) : PaymentE (result PaymentIntent)    (* paymentIntents.create *)
| StripeRefundCreate (req : RefundRequest) : PaymentE (result StripeRefund)  (* refunds.create *)
| Emit (e : PaymentEvent) : PaymentE unit.                                (* kafkaClient.emit *)

(** ** The view of the world *)

(** [events] has the messages the Kafka client was handed. *)
Record PaymentView := mkPaymentView {
  payments : gmap string Payment;
  refunds : gmap string Refund;
  pay_redis : RedisView;
  charges : list (ChargeRequest * PaymentIntent);
  refunded : list (RefundRequest * StripeRefund);
  events : list PaymentEvent;
}.

Definition with_payments (t : gmap string Payment) (v : PaymentView) : PaymentView :=
  mkPaymentView t (refunds v) (pay_redis v) (charges v) (refunded v) (events v).
Definition with_refunds (t : gmap string Refund) (v : PaymentView) : PaymentView :=
  mkPaymentView (payments v) t (pay_redis v) (charges v) (refunded v) (events v).
Definition with_pay_redis (m : RedisView) (v : PaymentView) : PaymentView :=
  mkPaymentView (payments v) (refunds v) m (charges v) (refunded v) (events v).
Definition with_charges (l : list (ChargeRequest * PaymentIntent)) (v : PaymentView) : PaymentView :=
  mkPaymentView (payments v) (refunds v) (pay_redis v) l (refunded v) (events v).
Definition with_refunded (l : list (RefundRequest * StripeRefund)) (v : PaymentView) : PaymentView :=
  mkPaymentView (payments v) (refunds v) (pay_redis v) (charges v) l (events v).
Definition with_events (l : list PaymentEvent) (v : PaymentView) : PaymentView :=
  mkPaymentView (payments v) (refunds v) (pay_redis v) (charges v) (refunded v) l.

(** ** Documented behaviour *)

(** An inserted entity carries the data; the row's decimal is text. *)
Definition payment_created (d : PaymentData) (p : Payment) : Prop :=
  p = mkPayment (p_id p) (pd_bookingId d) (pd_idempotencyKey d) (DNum (pd_amount d)) (pd_currency d)
        (pd_method d) (pd_status d) (pd_provider d) None None None.

Definition refund_created (d : RefundData) (r : Refund) : Prop :=
  r = mkRefund (r_id r) (rd_paymentId d) (rd_idempotencyKey d) (rd_amount d) (rd_reason d)
        (rd_status d) None None.

(** The row written for an entity: the changed columns are updated, so the text
    of the decimal stays; a missing row is inserted. *)
Definition payment_row (old : option Payment) (p row : Payment) : Prop :=
  match old with
  | Some o => row = set_p_amount (p_amount o) p
  | None => exists t, row = set_p_amount (DText t) p
  end.

Definition refund_row (old : option Refund) (r row : Refund) : Prop :=
  match old with
  | Some o => row = set_r_amount (r_amount o) r
  | None => exists t, row = set_r_amount (DText t) r
  end.

(** The unique index on [idempotencyKey]. *)
Definition payment_conflict (key : string) (t : gmap string Payment) : Prop :=
  exists i p, t !! i = Some p /\ p_idempotencyKey p = key.

(** Stripe's idempotency keys: a request with a key already used returns the
    first request's intent and charges nothing. *)
Definition charged (req : ChargeRequest) (v : PaymentView) (i : PaymentIntent) (v' : PaymentView) : Prop :=
  (exists req', (req', i) ∈ charges v /\ cr_idempotencyKey req' = cr_idempotencyKey req /\ v' = v) \/
  ((forall ri, ri ∈ charges v -> cr_idempotencyKey ri.1 <> cr_idempotencyKey req) /\
   v' = with_charges (charges v ++ [(req, i)]) v).

Definition pay_ok {X} (op : PaymentE X) (v : PaymentView) : X -> PaymentView -> Prop :=
  match op with
  | PRedis op => fun x v' => exists m, redis_ok op (pay_redis v) x m /\ v' = with_pay_redis m v
  | PNow => fun _ v' => v' = v
  | PSleep _ => fun _ v' => v' = v
  | PayFindOne p => fun o v' => v' = v /\ selects_one p (payments v) o
  | PayFind p => fun l v' => v' = v /\ selects p (payments v) l
  | PayInsert d => fun p v' =>
      ~ payment_conflict (pd_idempotencyKey d) (payments v) /\ payment_created d p /\
      payments v !! p_id p = None /\
      exists row, payment_row None p row /\ v' = with_payments (<[p_id p := row]> (payments v)) v
  | PaySave p => fun _ v' =>
      exists row, payment_row (payments v !! p_id p) p row /\
        v' = with_payments (<[p_id p := row]> (payments v)) v
  | RefFindOne p => fun o v' => v' = v /\ selects_one p (refunds v) o
  | RefInsert d => fun r v' =>
      refund_created d r /\ refunds v !! r_id r = None /\
      exists row, refund_row None r row /\ v' = with_refunds (<[r_id r := row]> (refunds v)) v
  | RefSave r => fun _ v' =>
      exists row, refund_row (refunds v !! r_id r) r row /\
        v' = with_refunds (<[r_id r := row]> (refunds v)) v
  | StripeCharge req => fun x v' =>
      match x with
      | Ok i => charged req v i v'
      | Err _ => v' = v \/ exists i, charged req v i v'   (* declined, or the answer was lost *)
      end
  | StripeRefundCreate req => fun x v' =>
      match x with
      | Ok s => v' = with_refunded (refunded v ++ [(req, s)]) v
      | Err _ => v' = v \/ exists s, v' = with_refunded (refunded v ++ [(req, s)]) v
      end
  | Emit e => fun _ v' => v' = with_events (events v ++ [e]) v
  end.

Definition pay_rejects {X} (op : PaymentE X) (v : PaymentView) : Prop :=
  match op with
  | PRedis op => redis_rejects op (pay_redis v)
  | PayInsert d => payment_conflict (pd_idempotencyKey d) (payments v) \/ unstorable (pd_amount d)
  | _ => False
  end.

Definition pay_fallible {X} (op : PaymentE X) : Prop :=
  match op with
  | PNow | PSleep _ | StripeCharge _ | StripeRefundCreate _ | Emit _ => False
  | _ => True
  end.

Definition pay_behaviour : behaviour PaymentE PaymentView :=
  {| ok := @pay_ok; rejects := @pay_rejects; fallible := @pay_fallible |}.

(** ** Well-formed views *)

Record pay_wf (v : PaymentView) : Prop := {
  wf_payments : keyed p_id (payments v);
  wf_refunds : keyed r_id (refunds v);
  wf_keys : forall i j p q, payments v !! i = Some p -> payments v !! j = Some q ->
    p_idempotencyKey p = p_idempotencyKey q -> i = j;
}.

Ltac pay_sem H :=
  cbn [obeys ok rejects fallible pay_behaviour pay_ok pay_rejects pay_fallible
       redis_ok redis_rejects] in H.
