(* ===== verification/PaymentRef.v ===== *)
(** * A reference environment for the payment service

    A deterministic implementation of the operations of PaymentWorld (a Stripe
    account that declines the card ["card_declined"]), and the same with
    scripted failures.  Only the witnesses run it. *)

From S2P Require Import Prelude Effects JsNumber Json Redis Sql PaymentWorld.

Definition payment_conflictb (key : string) (t : gmap string Payment) : bool :=
  existsb (fun p => String.eqb (p_idempotencyKey p) key) (rows t).

Definition make_payment (id : string) (d : PaymentData) : Payment :=
  mkPayment id (pd_bookingId d) (pd_idempotencyKey d) (DNum (pd_amount d)) (pd_currency d)
    (pd_method d) (pd_status d) (pd_provider d) None None None.

Definition make_refund (id : string) (d : RefundData) : Refund :=
  mkRefund id (rd_paymentId d) (rd_idempotencyKey d) (rd_amount d) (rd_reason d) (rd_status d) None None.

(** The text a decimal is stored as. *)
Definition stored_payment (old : option Payment) (p : Payment) : Payment :=
  match old with
  | Some o => set_p_amount (p_amount o) p
  | None => set_p_amount (DText (decimal_string (p_amount p))) p
  end.

Definition stored_refund (old : option Refund) (r : Refund) : Refund :=
  match old with
  | Some o => set_r_amount (r_amount o) r
  | None => set_r_amount (DText (decimal_string (r_amount r))) r
  end.

Definition card_error : exn :=
  Exn "StripeCardError" "Your card was declined." (Some "StripeCardError"%string) (Some 402%Z).

Definition PaymentRefWorld : Type := PaymentView * Z.

Definition pay_run (X : Type) (op : PaymentE X) (w : PaymentRefWorld) : result X * PaymentRefWorld :=
  let '(v, now) := w in
  match op in PaymentE X return result X * PaymentRefWorld with
  | PRedis op => let (r, m) := redis_run op (pay_redis v) in (r, (with_pay_redis m v, now))
  | PNow => (Ok now, w)
  | PSleep _ => (Ok tt, w)
  | PayFindOne p => (Ok (List.find p (rows (payments v))), w)
  | PayFind p => (Ok (List.filter p (rows (payments v))), w)
  | PayInsert d =>
      if payment_conflictb (pd_idempotencyKey d) (payments v) || unstorableb (pd_amount d)
      then (Err (JsError "QueryFailedError"), w)
      else
        let p := make_payment (List.hd ""%string (new_ids (payments v) 1)) d in
        (Ok p, (with_payments (<[p_id p := stored_payment None p]> (payments v)) v, now))
  | PaySave p =>
      (Ok tt, (with_payments (<[p_id p := stored_payment (payments v !! p_id p) p]> (payments v)) v, now))
  | RefFindOne p => (Ok (List.find p (rows (refunds v))), w)
  | RefInsert d =>
      let r := make_refund (List.hd ""%string (new_ids (refunds v) 1)) d in
      (Ok r, (with_refunds (<[r_id r := stored_refund None r]> (refunds v)) v, now))
  | RefSave r =>
      (Ok tt, (with_refunds (<[r_id r := stored_refund (refunds v !! r_id r) r]> (refunds v)) v, now))
  | StripeCharge req =>
      match List.find (fun ri => String.eqb (cr_idempotencyKey ri.1) (cr_idempotencyKey req)) (charges v) with
      | Some ri => (Ok (Ok ri.2), w)
      | None =>
          if String.eqb (cr_payment_method req) "card_declined" then (Ok (Err card_error), w)
          else
            let i := mkPaymentIntent ("pi_" +:+ N_to_string (N.of_nat (length (charges v)))) "succeeded" in
            (Ok (Ok i), (with_charges (charges v ++ [(req, i)]) v, now))
      end
  | StripeRefundCreate req =>
      let s := mkStripeRefund ("re_" +:+ N_to_string (N.of_nat (length (refunded v)))) "succeeded" in
      (Ok (Ok s), (with_refunded (refunded v ++ [(req, s)]) v, now))
  | Emit e => (Ok tt, (with_events (events v ++ [e]) v, now))
  end.

Definition pay_io (X : Type) (op : PaymentE X) : bool :=
  match op with
  | PNow | PSleep _ | StripeCharge _ | StripeRefundCreate _ | Emit _ => false
  | _ => true
  end.

Definition pay_flaky := flaky pay_run pay_io.
Definition pay_view (w : PaymentRefWorld) : PaymentView := w.1.
Definition pay_flaky_view (w : PaymentRefWorld * list bool) : PaymentView := pay_view w.1.

(** ** Conformance *)

Lemma payment_conflictb_spec key t : payment_conflictb key t = true <-> payment_conflict key t.
Proof.
  unfold payment_conflictb, payment_conflict. rewrite existsb_exists. split.
  - intros (p & Hin%list_elem_of_In%elem_of_rows_lookup & Hk%String.eqb_eq).
    destruct Hin as [i Hi]. eauto.
  - intros (i & p & Hi & Hk). exists p. split; [|by apply String.eqb_eq].
    apply list_elem_of_In. by eapply rows_lookup.
Qed.

Lemma pay_run_conforms : conforms Reliable pay_behaviour pay_run pay_view.
Proof.
  intros X op [v now]. cbn [pay_view fst]. destruct op; cbn; try done;
    try (split; [done|by (apply Permutation_refl || apply find_selects_one)]).
  - pose proof (redis_run_ok op (pay_redis v)) as Hr. destruct (redis_run op (pay_redis v)) as [[x|e] m]; cbn.
    + eauto.
    + destruct Hr as [-> Hr]. split; [by destruct v|by left].
  - destruct (payment_conflictb (pd_idempotencyKey d) (payments v)) eqn:Hc; cbn.
    + split; [done|]. left. left. by apply payment_conflictb_spec.
    + destruct (unstorableb (pd_amount d)) eqn:Hu; cbn.
      * split; [done|]. left. right. by apply unstorableb_spec.
      * split; [rewrite <- payment_conflictb_spec; congruence|].
        split; [done|]. split; [apply new_id_fresh|]. eexists. split; [|done]. by eexists.
  - eexists. split; [|done]. unfold payment_row, stored_payment.
    destruct (payments v !! p_id p); [done|by eexists].
  - split; [done|]. split; [apply new_id_fresh|]. eexists. split; [|done]. by eexists.
  - eexists. split; [|done]. unfold refund_row, stored_refund.
    destruct (refunds v !! r_id r); [done|by eexists].
  - destruct (List.find _ (charges v)) as [[cr i]|] eqn:Hf; cbn.
    + apply find_Some_elem in Hf as [Hin Hk%String.eqb_eq]. left. by exists cr.
    + rewrite find_None_elem in Hf. destruct (String.eqb (cr_payment_method req) "card_declined"); cbn; [by left|].
      right. split; [|done]. intros ri Hin Hk. apply Hf in Hin. by rewrite Hk, String.eqb_refl in Hin.
Qed.

Lemma pay_flaky_conforms : conforms Faulty pay_behaviour pay_flaky pay_flaky_view.
Proof.
  apply (flaky_conforms pay_run pay_io pay_behaviour pay_view); [|apply pay_run_conforms].
  by intros X [].
Qed.

(** ** Concrete worlds *)

Definition empty_payments : PaymentView := mkPaymentView ∅ ∅ ∅ [] [] [].
Definition pay_world : PaymentRefWorld := (empty_payments, 1700000000000%Z).

Lemma pay_world_wf : pay_wf (pay_view pay_world).
Proof. split; [apply keyed_empty..|]. intros i j p q Hi. cbn in Hi. by rewrite lookup_empty in Hi. Qed.

Definition demo_dto : InitiatePaymentDto :=
  mkInitiatePaymentDto "b1" "pay-b1" (num_of_Z 300) "TRY" CREDIT_CARD "pm_card_visa" None.
