(* ===== verification/Gateway.v ===== *)
(** * Payment gateways

    apps/payment-service/src/payment/gateways: the [PaymentGateway] interface,
    its Stripe and Iyzico implementations and the factory.  The service is
    verified against [GatewayLaws], which both implementations discharge. *)

From Stdlib Require Import SpecFloat.
From S2P Require Import Prelude Effects JsNumber Json Redis Sql PaymentWorld.

Record PaymentGatewayRequest := mkGatewayRequest {
  gr_amount : number;
  gr_currency : string;
  gr_cardToken : string;
  gr_idempotencyKey : string;
}.

Record PaymentGatewayResponse := mkGatewayResponse {
  gs_success : bool;
  gs_providerTxId : option string;
  gs_failureReason : option string;
}.

Definition gateway_failure (reason : string) : PaymentGatewayResponse :=
  mkGatewayResponse false None (Some reason).

(** The interface; [refund]'s amount is a [number] for TypeScript, but the
    service passes the decimal of an entity. *)
Record PaymentGateway (S : Type) := mkGateway {
  name : string;
  charge : PaymentGatewayRequest -> prog S PaymentE PaymentGatewayResponse;
  refund : string -> decimal -> prog S PaymentE PaymentGatewayResponse;
}.
Arguments name {S} _.
Arguments charge {S} _ _.
Arguments refund {S} _ _ _.

(** ** StripeGateway *)

Module Stripe.
Definition MAX_RETRIES : nat := 3.
Definition INITIAL_BACKOFF_MS : Z := 500.
Definition RETRYABLE_ERROR_TYPES : list string :=
  ["StripeConnectionError"; "StripeAPIError"; "StripeRateLimitError"]%string.

Definition isRetryable (error : exn) : bool :=
  let errorType := opt_str_or (etype error) (ename error) in
  if includes RETRYABLE_ERROR_TYPES errorType then true
  else if match estatus error with
          | Some code => Z.leb 500 code && Z.ltb code 600
          | None => false
          end then true
  else false.

(** [Math.round(amount * 100)] *)
Definition cents (amount : number) : number := Math_round (num_mul amount (num_of_Z 100)).

Section Gateway.
Context {S : Type}.

Definition doCharge (request : PaymentGatewayRequest) : prog S PaymentE PaymentGatewayResponse :=
  try_catch
    (r <- call (StripeCharge (mkChargeRequest (cents (gr_amount request))
             (toLowerCase (gr_currency request)) (gr_cardToken request) (gr_idempotencyKey request))) ;;
     paymentIntent <- of_result r ;;
     if String.eqb (pi_status paymentIntent) "succeeded"
     then Ret (mkGatewayResponse true (Some (pi_id paymentIntent)) None)
     else Ret (gateway_failure ("Payment status: " +:+ pi_status paymentIntent)))
    (fun error => Ret (gateway_failure (emessage error))).

Definition doRefund (providerTxId : string) (amount : decimal) : prog S PaymentE PaymentGatewayResponse :=
  try_catch
    (r <- call (StripeRefundCreate (mkRefundRequest providerTxId (cents (decimal_number amount)))) ;;
     refund <- of_result r ;;
     Ret (mkGatewayResponse (String.eqb (sr_status refund) "succeeded") (Some (sr_id refund)) None))
    (fun error => Ret (gateway_failure (emessage error))).

(** The loop of [withRetry], over the attempt numbers still to come.  The
    [return] after the [catch] block is inside the loop, so that no attempt
    follows the first one. *)
Definition retry_loop (attempts : list nat) (fn : prog S PaymentE PaymentGatewayResponse)
    (context : string) : prog S PaymentE PaymentGatewayResponse :=
  let after_loop := Ret (gateway_failure ("Failed to " +:+ context +:+ " after 3 attempts")) in
  match attempts with
  | [] => after_loop
  | attempt_ :: _ =>
      r <- attempt fn ;;
      match r with
      | Ok response => Ret response
      | Err error =>
          if negb (isRetryable error) then Ret (gateway_failure (emessage error))
          else if Nat.eqb attempt_ MAX_RETRIES then after_loop
          else
            call (PSleep (INITIAL_BACKOFF_MS * 2 ^ (Z.of_nat attempt_ - 1))) ;;
            Ret (gateway_failure (str_or (emessage error) "Payment failed after retries"))
      end
  end.

Definition withRetry (fn : prog S PaymentE PaymentGatewayResponse) (context : string) :
    prog S PaymentE PaymentGatewayResponse :=
  retry_loop (seq 1 MAX_RETRIES) fn context.

Definition charge (request : PaymentGatewayRequest) : prog S PaymentE PaymentGatewayResponse :=
  withRetry (doCharge request) ("charge:" +:+ gr_idempotencyKey request).

Definition refund (providerTxId : string) (amount : decimal) : prog S PaymentE PaymentGatewayResponse :=
  withRetry (doRefund providerTxId amount) ("refund:" +:+ providerTxId).

Definition gateway : PaymentGateway S := mkGateway S "stripe" charge refund.
End Gateway.
End Stripe.

(** ** IyzicoGateway *)

Module Iyzico.
Section Gateway.
Context {S : Type}.

Definition charge (request : PaymentGatewayRequest) : prog S PaymentE PaymentGatewayResponse :=
  Ret (gateway_failure "Iyzico gateway not implemented yet").

Definition refund (providerTxId : string) (amount : decimal) : prog S PaymentE PaymentGatewayResponse :=
  Ret (gateway_failure "Iyzico refund not implemented yet").

Definition gateway : PaymentGateway S := mkGateway S "iyzico" charge refund.
End Gateway.
End Iyzico.

(** ** PaymentGatewayFactory *)

Section Factory.
(** The gateway works on the object [S'] of the [try] block it is called in. *)
Context {S S' : Type}.
(** [config.get('PAYMENT_DEFAULT_PROVIDER')] *)
Variable PAYMENT_DEFAULT_PROVIDER : option string.

Definition gateways : list (string * PaymentGateway S') :=
  [(provider_value STRIPE, Stripe.gateway); (provider_value IYZICO, Iyzico.gateway)].

Definition defaultProvider : string := opt_str_or PAYMENT_DEFAULT_PROVIDER (provider_value STRIPE).

Definition getByProvider (provider : string) : prog S PaymentE (PaymentGateway S') :=
  match List.find (fun kg => String.eqb kg.1 provider) gateways with
  | Some (_, gateway) => Ret gateway
  | None => Throw (JsError ("Payment provider " +:+ provider +:+ " not support"))
  end.

Definition getDefault : prog S PaymentE (PaymentGateway S') := getByProvider defaultProvider.
Definition getDefaultProviderName : string := defaultProvider.
End Factory.

(** ** What a gateway promises *)

(** A charge reaches the provider at most once, under the request's key, and a
    successful answer is backed by a succeeded intent of that key. *)
Definition charge_answer (req : PaymentGatewayRequest) (v : PaymentView)
    (resp : PaymentGatewayResponse) (v' : PaymentView) : Prop :=
  (v' = v \/
   exists cr i, cr_idempotencyKey cr = gr_idempotencyKey req /\
     (forall ri, ri ∈ charges v -> cr_idempotencyKey ri.1 <> gr_idempotencyKey req) /\
     v' = with_charges (charges v ++ [(cr, i)]) v) /\
  (gs_success resp = true ->
   exists cr i, (cr, i) ∈ charges v' /\ cr_idempotencyKey cr = gr_idempotencyKey req /\
     pi_status i = "succeeded"%string /\ gs_providerTxId resp = Some (pi_id i)).

(** A refund reaches the provider at most once, for the given charge and
    amount.  A successful answer is backed by a succeeded refund; an unsuccessful
    one without a reason by a refund in another state; with a reason, the
    provider was not asked or its answer did not arrive. *)
Definition refund_answer (tx : string) (amount : decimal) (v : PaymentView)
    (resp : PaymentGatewayResponse) (v' : PaymentView) : Prop :=
  let done_with sr :=
    with_refunded (refunded v ++ [(mkRefundRequest tx (Stripe.cents (decimal_number amount)), sr)]) v in
  (v' = v \/ exists sr, v' = done_with sr) /\
  (gs_success resp = true ->
   exists sr, v' = done_with sr /\ sr_status sr = "succeeded"%string /\
     gs_providerTxId resp = Some (sr_id sr)) /\
  (gs_success resp = false -> gs_failureReason resp = None ->
   exists sr, v' = done_with sr /\ sr_status sr <> "succeeded"%string).

(** A gateway answers every call: failures are answers, not exceptions. *)
Class GatewayLaws {S} (g : PaymentGateway S) : Prop := {
  charge_law : forall md req (Q : result PaymentGatewayResponse -> S -> PaymentView -> Prop) s v,
    (forall resp v', charge_answer req v resp v' -> Q (Ok resp) s v') ->
    wp (obeys md pay_behaviour) (charge g req) Q s v;
  refund_law : forall md tx amount (Q : result PaymentGatewayResponse -> S -> PaymentView -> Prop) s v,
    (forall resp v', refund_answer tx amount v resp v' -> Q (Ok resp) s v') ->
    wp (obeys md pay_behaviour) (refund g tx amount) Q s v;
}.

(** ** The implementations keep the promise *)

Section RunStripe.
Context {S W : Type} (h : forall X, PaymentE X -> W -> result X * W).

(** Neither [doCharge] nor [doRefund] throws. *)
Definition answers (m : prog S PaymentE PaymentGatewayResponse) : Prop :=
  forall s w, is_ok (outcome h m s w) = true.

Lemma try_catch_answers m f : answers (try_catch m (fun e => Ret (f e))).
Proof.
  intros s w. unfold outcome. rewrite run_try_catch.
  by destruct (run h m s w) as [[[a|e] s'] w'].
Qed.

Lemma retry_answers m context s w :
  answers m -> run h (Stripe.withRetry m context) s w = run h m s w.
Proof.
  intros Hm. unfold Stripe.withRetry. cbn [seq Stripe.MAX_RETRIES Stripe.retry_loop].
  rewrite run_bind, run_attempt. specialize (Hm s w). unfold outcome in Hm.
  by destruct (run h m s w) as [[[a|e] s'] w'].
Qed.
End RunStripe.

Section Laws.
Context {S : Type}.

Lemma retry_wp (spec : forall X, PaymentE X -> PaymentView -> result X -> PaymentView -> Prop)
    (fn : prog S PaymentE PaymentGatewayResponse) context Q s v :
  wp spec fn (fun r s v => match r with Ok _ => Q r s v | Err _ => False end) s v ->
  wp spec (Stripe.withRetry fn context) Q s v.
Proof.
  intros H. unfold Stripe.withRetry. cbn [seq Stripe.MAX_RETRIES Stripe.retry_loop].
  wp_step. apply wp_attempt. eapply wp_mono; [exact H|]. by intros [a|e] s' v' HQ.
Qed.

#[export] Instance stripe_laws : GatewayLaws (@Stripe.gateway S).
Proof.
  split; intros md * HQ; cbn [charge refund Stripe.gateway]; apply retry_wp.
  - unfold Stripe.doCharge. set (cr0 := mkChargeRequest _ _ _ _).
    assert (cr_idempotencyKey cr0 = gr_idempotencyKey req) as Hk0 by done.
    wp_step. wp_step. wp_step. intros [[i|e]|e] v' H; pay_sem H.
    + wp_step. wp_step. destruct (String.eqb_spec (pi_status i) "succeeded") as [Hs|Hs]; wp_step; apply HQ.
      * split; [|intros _]; destruct H as [(cr & Hin & Hk & ->)|[Hk ->]].
        -- by left.
        -- right. by exists cr0, i.
        -- exists cr, i. done.
        -- exists cr0, i. split_and!; [cbn; apply elem_of_app; right; left|done..].
      * split; [|done]. destruct H as [(cr & Hin & Hk & ->)|[Hk ->]]; [by left|right]. by exists cr0, i.
    + wp_step. wp_step. apply HQ. split; [|done].
      destruct H as [-> |(i & [(cr & Hin & Hk & ->)|[Hk ->]])]; [by left|by left|right]. by exists cr0, i.
    + by destruct H as [_ [[]|[_ []]]].
  - unfold Stripe.doRefund. wp_step. wp_step. wp_step. intros [[sr|e]|e] v' H; pay_sem H.
    + subst v'. wp_step. wp_step. wp_step. apply HQ. split; [right; by exists sr|]. cbn. split.
      * intros Hs%String.eqb_eq. by exists sr.
      * intros Hs%String.eqb_neq _. by exists sr.
    + wp_step. wp_step. apply HQ. split; [|done]. destruct H as [-> |[sr ->]]; [by left|right]. by exists sr.
    + by destruct H as [_ [[]|[_ []]]].
Qed.

#[export] Instance iyzico_laws : GatewayLaws (@Iyzico.gateway S).
Proof. split; intros md * HQ; cbn; apply HQ; (split; [by left|done]). Qed.

End Laws.

Section FactoryLaws.
Context {S : Type}.

(** The factory returns a lawful gateway of the given name, or throws. *)
Lemma getByProvider_wp {S'} spec provider (Q : result (PaymentGateway S') -> S -> PaymentView -> Prop) s v :
  (forall g, GatewayLaws g -> name g = provider -> provider ∈ ["stripe"; "iyzico"]%string -> Q (Ok g) s v) ->
  (provider ∉ ["stripe"; "iyzico"]%string ->
   Q (Err (JsError ("Payment provider " +:+ provider +:+ " not support"))) s v) ->
  wp spec (getByProvider provider) Q s v.
Proof.
  intros HQ HE. unfold getByProvider. cbn [gateways List.find provider_value fst].
  destruct (String.eqb_spec "stripe" provider) as [<-|H1].
  { cbn. apply HQ; [apply stripe_laws|done|left]. }
  destruct (String.eqb_spec "iyzico" provider) as [<-|H2].
  { cbn. apply HQ; [apply iyzico_laws|done|right; left]. }
  cbn. apply HE. intros [?|[?|?%elem_of_nil]%elem_of_cons]%elem_of_cons; congruence.
Qed.
End FactoryLaws.

(** ** Properties *)

Section Properties.
Context {S W : Type} (h : forall X, PaymentE X -> W -> result X * W).

(** The retry loop of the Stripe gateway never retries: whatever the SDK
    does, [charge] and [refund] behave exactly as one [doCharge] or [doRefund],
    which turn every error into an answer before the loop can see it. *)
Theorem stripe_single_attempt req tx amount (s : S) w :
  run h (Stripe.charge req) s w = run h (Stripe.doCharge req) s w /\
  run h (Stripe.refund tx amount) s w = run h (Stripe.doRefund tx amount) s w /\
  is_ok (outcome h (Stripe.charge req) s w) = true /\
  is_ok (outcome h (Stripe.refund tx amount) s w) = true.
Proof.
  assert (answers h (@Stripe.doCharge S req)) as Hc by apply (try_catch_answers h _ (fun e => _)).
  assert (answers h (@Stripe.doRefund S tx amount)) as Hr by apply (try_catch_answers h _ (fun e => _)).
  unfold Stripe.charge, Stripe.refund, outcome.
  rewrite !retry_answers by done. split_and!; [done|done|apply Hc|apply Hr].
Qed.
End Properties.
