(* ===== verification/Payment.v ===== *)
(** * PaymentService

    apps/payment-service/src/payment/payment.service.ts.  The object of the
    [try] block of [initiatePayment] is [savedPayment]: the assignments made to
    it before a throw are seen by the [catch] block. *)

From S2P Require Import Prelude Effects JsNumber Json Redis Sql PaymentWorld PaymentRef Gateway.

Section Service.
Context {S : Type}.
Variable PAYMENT_DEFAULT_PROVIDER : option string.

(** [{ where: { idempotencyKey } }] *)
Definition has_key (key : string) (p : Payment) : bool := String.eqb (p_idempotencyKey p) key.

(** [savedPayment.status = FAILED; savedPayment.failureReason = ...] and what
    follows it, up to the message. *)
Definition record_failure (reason : option string) : prog Payment PaymentE unit :=
  modify (fun p => set_p_failureReason reason (set_p_status PaymentStatus.FAILED p)) ;;
  savedPayment <- get_local ;;
  call (PaySave savedPayment) ;;
  call (Emit (PaymentFailed (p_id savedPayment) (p_bookingId savedPayment) reason (p_provider savedPayment))).

(** The [try] block. *)
Definition charge_payment (dto : InitiatePaymentDto) (gateway : PaymentGateway Payment) :
    prog Payment PaymentE Payment :=
  modify (set_p_status PaymentStatus.PROCESSING) ;;
  savedPayment <- get_local ;;
  call (PaySave savedPayment) ;;
  response <- charge gateway (mkGatewayRequest (ip_amount dto) (ip_currency dto) (ip_cardToken dto)
                                (ip_idempotencyKey dto)) ;;
  (if gs_success response then
     now <- call PNow ;;
     modify (fun p => set_p_paid (gs_providerTxId response) now (set_p_status PaymentStatus.SUCCEEDED p)) ;;
     savedPayment <- get_local ;;
     call (PaySave savedPayment) ;;
     call (Emit (PaymentSucceeded (p_id savedPayment) (p_bookingId savedPayment) (p_amount savedPayment)
                  (p_currency savedPayment) (p_provider savedPayment) (p_providerTxId savedPayment)
                  (p_paidAt savedPayment)))
   else record_failure (gs_failureReason response)) ;;
  get_local.

Definition initiatePayment (dto : InitiatePaymentDto) : prog S PaymentE Payment :=
  existing <- call (PayFindOne (has_key (ip_idempotencyKey dto))) ;;
  match existing with
  | Some existing => Ret existing
  | None =>
      gateway <- (match ip_provider dto with
                  | Some provider =>
                      if truthy provider then getByProvider provider
                      else getDefault PAYMENT_DEFAULT_PROVIDER
                  | None => getDefault PAYMENT_DEFAULT_PROVIDER
                  end) ;;
      savedPayment <- call (PayInsert (mkPaymentData (ip_bookingId dto) (ip_idempotencyKey dto)
                              (ip_amount dto) (ip_currency dto) (ip_method dto)
                              PaymentStatus.INITIATED (name gateway))) ;;
      r <- with_local savedPayment
             (try_catch (charge_payment dto gateway)
               (fun error => record_failure (Some (emessage error)) ;; Throw error)) ;;
      Ret r.1
  end.

Definition findById (id : string) : prog S PaymentE Payment :=
  payment <- call (PayFindOne (fun p => String.eqb (p_id p) id)) ;;
  match payment with
  | None => Throw (NotFoundException "Payment not found")
  | Some payment => Ret payment
  end.

Definition findByBookingId (bookingId : string) : prog S PaymentE (list Payment) :=
  call (PayFind (fun p => String.eqb (p_bookingId p) bookingId)).
End Service.

(** ** Specification *)

(** The payment a request describes, in a given status. *)
Definition payment_of (dto : InitiatePaymentDto) (p : Payment) : Prop :=
  p_bookingId p = ip_bookingId dto /\ p_idempotencyKey p = ip_idempotencyKey dto /\
  p_amount p = DNum (ip_amount dto) /\ p_currency p = ip_currency dto /\ p_method p = ip_method dto.

(** [p] is the only payment added, and its row is up to date. *)
Definition payment_added (p : Payment) (v v' : PaymentView) : Prop :=
  payments v !! p_id p = None /\
  exists a, payments v' = <[p_id p := set_p_amount (DText a) p]> (payments v).

(** At most one request with the key reached Stripe. *)
Definition charged_at_most_once (key : string) (v v' : PaymentView) : Prop :=
  charges v' = charges v \/
  exists cr i, cr_idempotencyKey cr = key /\
    (forall ri, ri ∈ charges v -> cr_idempotencyKey ri.1 <> key) /\ charges v' = charges v ++ [(cr, i)].

(** A succeeded charge of the key, with the transaction id. *)
Definition paid_by (key : string) (tx : option string) (v : PaymentView) : Prop :=
  exists cr i, (cr, i) ∈ charges v /\ cr_idempotencyKey cr = key /\
    pi_status i = "succeeded"%string /\ tx = Some (pi_id i).

(** A completed payment: succeeded with a charge behind it, or failed. *)
Definition payment_settled (p : Payment) (v v' : PaymentView) : Prop :=
  (p_status p = PaymentStatus.SUCCEEDED /\ paid_by (p_idempotencyKey p) (p_providerTxId p) v' /\
   events v' = events v ++ [PaymentSucceeded (p_id p) (p_bookingId p) (p_amount p) (p_currency p)
                              (p_provider p) (p_providerTxId p) (p_paidAt p)]) \/
  (p_status p = PaymentStatus.FAILED /\
   events v' = events v ++ [PaymentFailed (p_id p) (p_bookingId p) (p_failureReason p) (p_provider p)]).

(** What an interrupted payment leaves: a row that is not marked as paid. *)
Definition payment_interrupted (p : Payment) (v v' : PaymentView) : Prop :=
  p_status p <> PaymentStatus.SUCCEEDED /\ p_status p <> PaymentStatus.REFUNDED /\
  payment_added p v v'.

(** Every request that reached Stripe belongs to a payment of its key. *)
Definition charges_recorded (v : PaymentView) : Prop :=
  forall cr i, (cr, i) ∈ charges v -> payment_conflict (cr_idempotencyKey cr) (payments v).

(** ** Proofs of the methods *)

(** The world in which [p] is the only change to the payments of [v]. *)
Definition row_view (v : PaymentView) (p : Payment) (a : string)
    (chs : list (ChargeRequest * PaymentIntent)) (evs : list PaymentEvent) : PaymentView :=
  mkPaymentView (<[p_id p := set_p_amount (DText a) p]> (payments v)) (refunds v) (pay_redis v)
    chs (refunded v) evs.

Section Proofs.
Context {S : Type}.
Variable md : mode.
Abbreviation spec := (obeys md pay_behaviour).

Lemma save_row_wp {S'} (p p' : Payment) a chs evs (Q : result unit -> S' -> PaymentView -> Prop) s v :
  p_id p' = p_id p ->
  Q (Ok tt) s (row_view v p' a chs evs) ->
  (forall e, md = Faulty -> Q (Err e) s (row_view v p a chs evs)) ->
  wp spec (call (PaySave p')) Q s (row_view v p a chs evs).
Proof.
  intros Hid HQ HE. wp_step. intros [[]|e] v1 H; pay_sem H.
  - destruct H as (row & Hrow & ->). cbn [row_view payments] in Hrow.
    rewrite Hid, lookup_insert_eq in Hrow. cbn in Hrow. subst row.
    unfold with_payments, row_view in *. cbn [payments refunds pay_redis charges refunded events].
    rewrite Hid, insert_insert_eq. by rewrite Hid in HQ.
  - destruct H as [-> [[]|[Hmd _]]]. by apply HE.
Qed.

Definition failed (reason : option string) (p : Payment) : Payment :=
  set_p_failureReason reason (set_p_status PaymentStatus.FAILED p).

Definition failed_event (reason : option string) (p : Payment) : PaymentEvent :=
  PaymentFailed (p_id p) (p_bookingId p) reason (p_provider p).

Lemma record_failure_wp reason (p p' : Payment) a chs evs
    (Q : result unit -> Payment -> PaymentView -> Prop) v :
  p_id p' = p_id p ->
  Q (Ok tt) (failed reason p') (row_view v (failed reason p') a chs (evs ++ [failed_event reason p'])) ->
  (forall e, md = Faulty -> Q (Err e) (failed reason p') (row_view v p a chs evs)) ->
  wp spec (record_failure reason) Q p' (row_view v p a chs evs).
Proof.
  intros Hid HQ HE. unfold record_failure. wp_step. cbn [wp modify].
  wp_step. cbn [wp get_local]. wp_step. apply save_row_wp; [done| |done].
  wp_step. intros [[]|e] v1 H; pay_sem H; [|by destruct H as [_ [[]|[_ []]]]].
  subst v1. exact HQ.
Qed.

(** The [try] statement: the payment is settled, or a failed operation
    interrupted it. *)
Lemma charge_try_wp dto (gateway : PaymentGateway Payment) p0 a
    (Q : result Payment -> Payment -> PaymentView -> Prop) v :
  GatewayLaws gateway -> payment_of dto p0 -> p_status p0 = PaymentStatus.INITIATED ->
  (forall p chs evs, payment_of dto p -> p_id p = p_id p0 ->
     charged_at_most_once (ip_idempotencyKey dto) v (row_view v p a chs evs) ->
     payment_settled p v (row_view v p a chs evs) -> Q (Ok p) p (row_view v p a chs evs)) ->
  (forall e o p chs evs, md = Faulty -> payment_of dto p -> p_id p = p_id p0 ->
     p_status p <> PaymentStatus.SUCCEEDED -> p_status p <> PaymentStatus.REFUNDED ->
     charged_at_most_once (ip_idempotencyKey dto) v (row_view v p a chs evs) ->
     Q (Err e) o (row_view v p a chs evs)) ->
  wp spec (try_catch (charge_payment dto gateway)
             (fun error => record_failure (Some (emessage error)) ;; Throw error))
    Q p0 (row_view v p0 a (charges v) (events v)).
Proof.
  intros Hg Hof Hst HQ HE.
  (* what the [catch] block does, from a row [p] and the object [p'] *)
  assert (forall e p p' chs evs, md = Faulty -> payment_of dto p -> payment_of dto p' ->
    p_id p = p_id p0 -> p_id p' = p_id p ->
    p_status p <> PaymentStatus.SUCCEEDED -> p_status p <> PaymentStatus.REFUNDED ->
    charged_at_most_once (ip_idempotencyKey dto) v (row_view v p a chs evs) ->
    wp spec (record_failure (Some (emessage e)) ;; Throw e) Q p' (row_view v p a chs evs)) as Hcatch.
  { intros e p p' chs evs Hmd Hp Hp' Hid Hid' H1 H2 Hc. wp_step. apply record_failure_wp; [done| |].
    - cbn [wp]. apply HE; [done|exact Hp'|by rewrite <- Hid|done..|exact Hc].
    - intros e' _. cbn [wp]. by apply HE. }
  wp_step. unfold charge_payment. wp_step. cbn [wp modify]. wp_step. cbn [wp get_local].
  set (p1 := set_p_status PaymentStatus.PROCESSING p0).
  assert (payment_of dto p1) as Hof1 by exact Hof.
  wp_step. apply save_row_wp; [done| |].
  2: { intros e Hmd. apply Hcatch; [done..| | |by left]; by rewrite Hst. }
  wp_step. apply charge_law. intros resp v1 [Hch Hok].
  assert (exists chs, v1 = row_view v p1 a chs (events v) /\
    forall p evs, charged_at_most_once (ip_idempotencyKey dto) v (row_view v p a chs evs)) as (chs & -> & Hchs).
  { destruct Hch as [-> |(cr & i & Hk & Hn & ->)].
    - exists (charges v). split; [done|]. intros p evs. by left.
    - exists (charges v ++ [(cr, i)]). split; [done|]. intros p evs. right. by exists cr, i. }
  wp_step. destruct (gs_success resp) eqn:Hs.
  - wp_step. wp_step. intros [now|e] v2 H; pay_sem H; [subst v2|by destruct H as [_ [[]|[_ []]]]].
    wp_step. cbn [wp modify]. wp_step. cbn [wp get_local].
    set (p2 := set_p_paid _ now _). assert (payment_of dto p2) as Hof2 by exact Hof.
    wp_step. apply save_row_wp; [done| |].
    2: { intros e Hmd. by apply Hcatch. }
    wp_step. intros [[]|e] v2 H; pay_sem H; [|by destruct H as [_ [[]|[_ []]]]].
    subst v2. cbn [wp get_local].
    apply (HQ p2 chs); [done|done|by apply Hchs|]. left. split; [done|]. split; [|done].
    destruct (Hok eq_refl) as (cr & i & Hin & Hk & Hsi & Htx). exists cr, i.
    split_and!; [exact Hin| |done|exact Htx]. rewrite Hk. symmetry. apply Hof.
  - apply record_failure_wp; [done| |].
    + cbn [wp get_local]. apply (HQ _ chs); [exact Hof1|done|by apply Hchs|]. right. done.
    + intros e Hmd. apply Hcatch; done.
Qed.

(** What a call of [initiatePayment] does. *)
Lemma initiatePayment_wp cfg dto (Q : result Payment -> S -> PaymentView -> Prop) s v :
  (forall i p, payments v !! i = Some p -> p_idempotencyKey p = ip_idempotencyKey dto -> Q (Ok p) s v) ->
  (forall p a chs evs, ~ payment_conflict (ip_idempotencyKey dto) (payments v) ->
     payment_of dto p -> payments v !! p_id p = None ->
     charged_at_most_once (ip_idempotencyKey dto) v (row_view v p a chs evs) ->
     payment_settled p v (row_view v p a chs evs) -> Q (Ok p) s (row_view v p a chs evs)) ->
  (forall e, md = Faulty \/ unstorable (ip_amount dto) \/
     (~ payment_conflict (ip_idempotencyKey dto) (payments v) /\
      exists provider, (provider ∉ ["stripe"; "iyzico"]%string) /\
        e = JsError ("Payment provider " +:+ provider +:+ " not support")) -> Q (Err e) s v) ->
  (forall e p a chs evs, md = Faulty -> ~ payment_conflict (ip_idempotencyKey dto) (payments v) ->
     payment_of dto p -> payment_interrupted p v (row_view v p a chs evs) ->
     charged_at_most_once (ip_idempotencyKey dto) v (row_view v p a chs evs) ->
     Q (Err e) s (row_view v p a chs evs)) ->
  wp spec (initiatePayment cfg dto) Q s v.
Proof.
  intros HX HQ HE HI. unfold initiatePayment. wp_step. wp_step. intros [[p|]|e] v1 H; pay_sem H.
  3: { destruct H as [-> [[]|[Hmd _]]]. apply HE. by left. }
  { destruct H as [-> [Hin Hk%String.eqb_eq]]. cbn [wp].
    apply elem_of_rows_lookup in Hin as [i Hi]. by eapply HX. }
  destruct H as [-> Hnone].
  assert (~ payment_conflict (ip_idempotencyKey dto) (payments v)) as Hnc.
  { intros (i & p & Hi & Hk). assert (p ∈ rows (payments v)) as Hin by (by eapply rows_lookup).
    apply Hnone in Hin. unfold has_key in Hin. by rewrite Hk, String.eqb_refl in Hin. }
  (* the factory *)
  assert (forall provider (k : PaymentGateway Payment -> prog S PaymentE Payment),
    (forall g, GatewayLaws g -> wp spec (k g) Q s v) ->
    wp spec (getByProvider provider) (fun r s v =>
      match r with Ok g => wp spec (k g) Q s v | Err e => Q (Err e) s v end) s v) as Hfac.
  { intros provider k Hk. apply getByProvider_wp; [auto|]. intros Hno. apply HE. right. right. eauto. }
  assert (forall k : PaymentGateway Payment -> prog S PaymentE Payment,
    (forall g, GatewayLaws g -> wp spec (k g) Q s v) ->
    wp spec (match ip_provider dto with
             | Some provider => if truthy provider then getByProvider provider else getDefault cfg
             | None => getDefault cfg
             end) (fun r s v =>
      match r with Ok g => wp spec (k g) Q s v | Err e => Q (Err e) s v end) s v) as Hget.
  { intros k Hk. destruct (ip_provider dto) as [provider|]; [destruct (truthy provider)|]; by apply Hfac. }
  wp_step. apply Hget. intros g Hg.
  wp_step. wp_step. intros [p0|e] v1 H; pay_sem H.
  2: { destruct H as [-> [[Hc|Hu]|[Hmd _]]]; apply HE; [by destruct Hnc|right; by left|by left]. }
  destruct H as (_ & Hcr & Hfresh & row & [a ->] & ->).
  assert (payment_of dto p0 /\ p_status p0 = PaymentStatus.INITIATED) as [Hof Hst].
  { red in Hcr. rewrite Hcr. done. }
  change (with_payments (<[p_id p0:=set_p_amount (DText a) p0]> (payments v)) v)
    with (row_view v p0 a (charges v) (events v)).
  wp_step. wp_step. apply charge_try_wp; [done..| |].
  - intros p chs evs Hp Hid Hc Hset. cbn [wp fst]. apply HQ; [done|done|by rewrite Hid|done..].
  - intros e o p chs evs Hmd Hp Hid H1 H2 Hc. apply HI; [done..| |done].
    red. split_and!; [done|done|]. split; [by rewrite Hid|by exists a].
Qed.
End Proofs.

(** ** Lemmas about the specification *)

Lemma payment_added_wf p v v' :
  pay_wf v -> ~ payment_conflict (p_idempotencyKey p) (payments v) -> payment_added p v v' ->
  refunds v' = refunds v -> pay_wf v'.
Proof.
  intros [H1 H2 H3] Hc [Hf [a Hp]] Hr. split.
  - rewrite Hp. intros i q. destruct (decide (p_id p = i)) as [<-|Hne].
    + rewrite lookup_insert_eq. by intros [= <-].
    + rewrite lookup_insert_ne by done. apply H1.
  - by rewrite Hr.
  - assert (forall i q, payments v !! i = Some q -> p_idempotencyKey q <> p_idempotencyKey p) as Hn
      by (intros i q Hi Hk; apply Hc; by exists i, q).
    intros i j q q'. rewrite Hp. rewrite !lookup_insert_Some.
    intros [[<- <-]|[Hi Hq]] [[<- <-]|[Hj Hq']] Hk; [done| | |by eapply H3].
    + by apply Hn in Hq'.
    + by apply Hn in Hq.
Qed.

Lemma payment_added_conflict p v v' :
  payment_added p v v' -> payment_conflict (p_idempotencyKey p) (payments v').
Proof.
  intros [_ [a ->]]. exists (p_id p). eexists. by rewrite lookup_insert_eq.
Qed.

Lemma payment_added_keeps p v v' key :
  payment_added p v v' -> payment_conflict key (payments v) -> payment_conflict key (payments v').
Proof.
  intros [Hf [a ->]] (i & q & Hi & Hk). exists i, q. split; [|done].
  rewrite lookup_insert_ne; [done|]. intros <-. congruence.
Qed.

Lemma charges_recorded_step p v v' :
  payment_added p v v' -> charged_at_most_once (p_idempotencyKey p) v v' ->
  charges_recorded v -> charges_recorded v'.
Proof.
  intros Ha Hc Hr cr i Hin. destruct Hc as [Hc|(cr0 & i0 & Hk & _ & Hc)]; rewrite Hc in Hin.
  - eapply payment_added_keeps; eauto.
  - apply elem_of_app in Hin as [Hin|Hin%list_elem_of_singleton].
    + eapply payment_added_keeps; eauto.
    + simplify_eq. rewrite Hk. by eapply payment_added_conflict.
Qed.

Definition charge_keys (v : PaymentView) : list string := map (fun ri => cr_idempotencyKey ri.1) (charges v).

Lemma charge_keys_step key v v' :
  charged_at_most_once key v v' -> NoDup (charge_keys v) -> NoDup (charge_keys v').
Proof.
  unfold charge_keys. intros [->|(cr & i & Hk & Hn & ->)] Hnd; [done|].
  rewrite map_app. apply NoDup_app. split_and!; [done| |apply NoDup_singleton].
  intros k (ri & -> & Hin)%list_elem_of_fmap. cbn. rewrite list_elem_of_singleton, Hk. by apply Hn.
Qed.

Lemma row_view_added p a chs evs v :
  payments v !! p_id p = None -> payment_added p v (row_view v p a chs evs).
Proof. intros Hf. split; [done|]. by exists a. Qed.

(** ** Properties *)

Section Properties.
Context {S W : Type} (h : forall X, PaymentE X -> W -> result X * W) (view : W -> PaymentView).
Variable md : mode.
Hypothesis Hh : conforms md pay_behaviour h view.
Variable cfg : option string.
Implicit Types (s : S) (w : W).

(** C27: A payment request is settled or leaves no trace of success. When
    [initiatePayment] returns, it returned the payment already stored under the
    idempotency key and changed nothing, or it added exactly one payment with
    the request's data, which is SUCCEEDED with a succeeded charge of that key
    behind it and one success message, or FAILED with one failure message. When
    it throws, at most one payment was added, and it is not marked as paid. *)
Theorem initiatePayment_spec dto s w :
  pay_wf (view w) ->
  let v := view w in
  let v' := view (final h (initiatePayment cfg dto) s w) in
  pay_wf v' /\ refunds v' = refunds v /\ refunded v' = refunded v /\ pay_redis v' = pay_redis v /\
  match outcome h (initiatePayment cfg dto) s w with
  | Ok p =>
      (v' = v /\ p_idempotencyKey p = ip_idempotencyKey dto /\ payments v !! p_id p = Some p) \/
      (~ payment_conflict (ip_idempotencyKey dto) (payments v) /\ payment_of dto p /\
       payment_added p v v' /\ payment_settled p v v')
  | Err _ =>
      v' = v \/
      (md = Faulty /\ exists p, payment_of dto p /\ payment_interrupted p v v')
  end.
Proof.
  intros Hv. cbn zeta. call_wp Hh w. apply initiatePayment_wp.
  - intros i p Hi Hk. split_and!; [done..|]. left. split_and!; [done..|].
    by rewrite (wf_payments _ Hv _ _ Hi).
  - intros p a chs evs Hn Hof Hf Hc Hset. split_and!; [|done..|].
    + eapply payment_added_wf; [done| |by apply row_view_added|done]. by rewrite (proj1 (proj2 Hof)).
    + right. split_and!; [done|done|by apply row_view_added|done].
  - intros e _. split_and!; [done..|]. by left.
  - intros e p a chs evs Hmd Hn Hof Hi Hc. split_and!; [|done..|].
    + eapply payment_added_wf; [done| |apply Hi|done]. by rewrite (proj1 (proj2 Hof)).
    + right. split; [done|]. by exists p.
Qed.

(** No double charge: under the invariant that every charge sent to Stripe
    belongs to a stored payment, which every call keeps whatever fails, no two
    requests with the same idempotency key ever reach Stripe, and a request
    whose key is stored charges nothing. *)
Theorem initiatePayment_no_double_charge dto s w :
  charges_recorded (view w) -> NoDup (charge_keys (view w)) ->
  let v := view w in
  let v' := view (final h (initiatePayment cfg dto) s w) in
  charges_recorded v' /\ NoDup (charge_keys v') /\
  charged_at_most_once (ip_idempotencyKey dto) v v' /\
  (payment_conflict (ip_idempotencyKey dto) (payments v) -> v' = v).
Proof.
  intros Hr Hnd. cbn zeta. call_wp Hh w. apply initiatePayment_wp.
  - intros i p Hi Hk. split_and!; [done|done|by left|done].
  - intros p a chs evs Hn Hof Hf Hc Hset. split_and!; [|by eapply charge_keys_step|done|done].
    eapply charges_recorded_step; [by apply row_view_added| |done]. by rewrite (proj1 (proj2 Hof)).
  - intros e _. split_and!; [done|done|by left|done].
  - intros e p a chs evs Hmd Hn Hof Hi Hc. split_and!; [|by eapply charge_keys_step|done|done].
    eapply charges_recorded_step; [apply Hi| |done]. by rewrite (proj1 (proj2 Hof)).
Qed.

(** Replaying a request returns the stored payment: after a call that
    returned [p], a later call with the same idempotency key returns the row of
    [p] (its amount is the stored text now) and does nothing else. *)
Theorem initiatePayment_replay dto dto' s s' w :
  pay_wf (view w) ->
  let w1 := final h (initiatePayment cfg dto) s w in
  is_ok (outcome h (initiatePayment cfg dto) s w) = true ->
  ip_idempotencyKey dto' = ip_idempotencyKey dto ->
  match outcome h (initiatePayment cfg dto) s w, outcome h (initiatePayment cfg dto') s' w1 with
  | Ok p, Ok q => set_p_amount (p_amount q) p = q
  | _, Err _ => md = Faulty \/ unstorable (ip_amount dto')
  | Err _, _ => False
  end /\
  view (final h (initiatePayment cfg dto') s' w1) = view w1.
Proof.
  intros Hv. cbn zeta. intros Hok Hkey. set (w1 := final h (initiatePayment cfg dto) s w).
  assert (exists p, outcome h (initiatePayment cfg dto) s w = Ok p /\ pay_wf (view w1) /\
    exists q, payments (view w1) !! p_id p = Some q /\ set_p_amount (p_amount q) p = q /\
      p_idempotencyKey q = ip_idempotencyKey dto) as (p & -> & Hv1 & q & Hq & Hpq & Hqk).
  { revert Hok. unfold w1. call_wp Hh w. apply initiatePayment_wp; [| |done|done].
    - intros i p Hi Hk _. exists p. split_and!; [done..|]. exists p.
      rewrite (wf_payments _ Hv _ _ Hi). split_and!; [done|by destruct p|done].
    - intros p a chs evs Hn Hof Hf Hc Hset _. exists p. split_and!; [done| |].
      + eapply payment_added_wf; [done| |by apply row_view_added|done]. by rewrite (proj1 (proj2 Hof)).
      + eexists. cbn [row_view payments]. rewrite lookup_insert_eq. split_and!; [done|done|apply Hof]. }
  assert (payment_conflict (ip_idempotencyKey dto') (payments (view w1))) as Hc
    by (exists (p_id p), q; by rewrite Hkey).
  call_wp Hh w1. apply initiatePayment_wp.
  - intros i q' Hi Hk. split; [|done].
    assert (i = p_id p) as -> by (eapply (wf_keys _ Hv1); [done..|congruence]). congruence.
  - by intros.
  - intros e [Hmd|[Hu|[Hn _]]]; [split; [by left|done]|split; [by right|done]|done].
  - by intros.
Qed.
End Properties.

(** A charge can be booked as failed: when the database does not store the
    success (here: the update after the charge fails once), the payment is
    marked FAILED and a failure message is sent, although Stripe has taken the
    money; a replay then reports the failed payment. *)
Theorem charged_but_failed :
  let w := (pay_world, [false; false; false; true]) in
  let m := @initiatePayment unit None demo_dto in
  let w1 := final pay_flaky m tt w in
  is_ok (outcome pay_flaky m tt w) = false /\
  map (fun ri => pi_status ri.2) (charges (pay_flaky_view w1)) = ["succeeded"]%string /\
  map p_status (rows (payments (pay_flaky_view w1))) = [PaymentStatus.FAILED] /\
  map event_topic (events (pay_flaky_view w1)) = ["payment.failed"]%string /\
  (match outcome pay_flaky m tt w1 with Ok p => p_status p | Err _ => PaymentStatus.INITIATED end)
    = PaymentStatus.FAILED.
Proof. vm_compute. auto. Qed.

(** ** Concrete runs *)

Lemma initiatePayment_spec_witness :
  match outcome pay_run (@initiatePayment unit None demo_dto) tt pay_world with
  | Ok p => p_status p = PaymentStatus.SUCCEEDED /\
      paid_by "pay-b1" (p_providerTxId p) (pay_view (final pay_run (@initiatePayment unit None demo_dto) tt pay_world))
  | Err _ => False
  end.
Proof.
  pose proof (initiatePayment_spec (S := unit) pay_run pay_view Reliable pay_run_conforms None
    demo_dto tt pay_world pay_world_wf) as (_ & _ & _ & _ & H).
  assert (exists p, outcome pay_run (@initiatePayment unit None demo_dto) tt pay_world = Ok p /\
    p_status p = PaymentStatus.SUCCEEDED /\ p_idempotencyKey p = "pay-b1"%string) as (p & Ho & Hs & Hk).
  { eexists. split; [vm_compute; reflexivity|]. split; reflexivity. }
  rewrite Ho in *. split; [exact Hs|].
  destruct H as [(_ & _ & H)|(_ & _ & _ & [(_ & H & _)|[H _]])].
  - cbn in H. rewrite lookup_empty in H. discriminate H.
  - rewrite Hk in H. exact H.
  - rewrite Hs in H. discriminate H.
Defined.

Lemma initiatePayment_no_double_charge_witness :
  NoDup (charge_keys (pay_flaky_view (final pay_flaky (@initiatePayment unit None demo_dto) tt
    (pay_world, [false; false; false; true])))).
Proof.
  apply (initiatePayment_no_double_charge (S := unit) pay_flaky pay_flaky_view Faulty pay_flaky_conforms None
    demo_dto tt (pay_world, [false; false; false; true])).
  - intros cr i Hin. apply elem_of_nil in Hin. destruct Hin.
  - constructor.
Defined.

Lemma initiatePayment_replay_witness :
  pay_view (final pay_run (@initiatePayment unit None demo_dto) tt
    (final pay_run (@initiatePayment unit None demo_dto) tt pay_world)) =
  pay_view (final pay_run (@initiatePayment unit None demo_dto) tt pay_world).
Proof.
  apply (initiatePayment_replay (S := unit) pay_run pay_view Reliable pay_run_conforms None
    demo_dto demo_dto tt tt pay_world pay_world_wf).
  - vm_compute. reflexivity.
  - reflexivity.
Defined.
