(* ===== verification/RefundService.v ===== *)
(** * RefundService

    apps/payment-service/src/payment/refund.service.ts.  The objects of the
    [try] block are [savedRefund] and [payment]. *)

From S2P Require Import Prelude Effects JsNumber Json Redis Sql PaymentWorld PaymentRef Gateway.

Section Service.
Context {S : Type}.

(** [{ where: { bookingId, status: SUCCEEDED } }] *)
Definition succeeded_for (bookingId : string) (p : Payment) : bool :=
  String.eqb (p_bookingId p) bookingId && bool_decide (p_status p = PaymentStatus.SUCCEEDED).

Definition refund_has_key (key : string) (r : Refund) : bool := String.eqb (r_idempotencyKey r) key.

Definition modify_refund (f : Refund -> Refund) : prog (Refund * Payment) PaymentE unit :=
  modify (fun s => (f s.1, s.2)).

Definition save_refund : prog (Refund * Payment) PaymentE unit :=
  s <- get_local ;; call (RefSave s.1).

(** The [try] block.  [getByProvider] throws for an unknown provider, so the
    check [if (!gateway)] never fires. *)
Definition send_refund : prog (Refund * Payment) PaymentE Refund :=
  s <- get_local ;;
  gateway <- getByProvider (p_provider s.2) ;;
  refundResult <- refund gateway (nullish (p_providerTxId s.2) ""%string) (p_amount s.2) ;;
  (if gs_success refundResult then
     modify_refund (fun r => set_r_providerRefundId (gs_providerTxId refundResult)
                               (set_r_status RefundStatus.PROCESSED r)) ;;
     save_refund ;;
     modify (fun s => (s.1, set_p_status PaymentStatus.REFUNDED s.2)) ;;
     s <- get_local ;;
     call (PaySave s.2) ;;
     call (Emit (PaymentRefunded (r_id s.1) (p_id s.2) (p_bookingId s.2) (p_amount s.2) (p_currency s.2)
                  (r_providerRefundId s.1)))
   else
     modify_refund (fun r => set_r_failureReason (gs_failureReason refundResult)
                               (set_r_status RefundStatus.FAILED r)) ;;
     save_refund) ;;
  s <- get_local ;;
  Ret s.1.

Definition refundByBooking (bookingId idempotencyKey : string) (reason : option string) :
    prog S PaymentE Refund :=
  payment <- call (PayFindOne (succeeded_for bookingId)) ;;
  match payment with
  | None => Throw (BadRequestException ("No succeeded payment found for booking " +:+ bookingId))
  | Some payment =>
      existing <- call (RefFindOne (refund_has_key idempotencyKey)) ;;
      match existing with
      | Some existing => Ret existing
      | None =>
          savedRefund <- call (RefInsert (mkRefundData (p_id payment) idempotencyKey (p_amount payment)
                                 reason RefundStatus.PENDING)) ;;
          r <- with_local (savedRefund, payment)
                 (try_catch send_refund
                   (fun error =>
                      modify_refund (fun r => set_r_failureReason (Some (emessage error))
                                                (set_r_status RefundStatus.FAILED r)) ;;
                      save_refund ;;
                      Throw error)) ;;
          Ret r.1
      end
  end.
End Service.

(** ** Specification *)

(** The refund of a payment that a call adds. *)
Definition refund_of (p : Payment) (key : string) (reason : option string) (r : Refund) : Prop :=
  r_paymentId r = p_id p /\ r_idempotencyKey r = key /\ r_amount r = p_amount p /\ r_reason r = reason.

Definition refund_request (p : Payment) : RefundRequest :=
  mkRefundRequest (nullish (p_providerTxId p) ""%string) (Stripe.cents (decimal_number (p_amount p))).

(** At most one request for the payment reached the provider. *)
Definition refunded_at_most_once (p : Payment) (v v' : PaymentView) : Prop :=
  refunded v' = refunded v \/ exists sr, refunded v' = refunded v ++ [(refund_request p, sr)].

(** [r] is the only refund added. *)
Definition refund_added (r : Refund) (v v' : PaymentView) : Prop :=
  refunds v !! r_id r = None /\
  exists row a, row = set_r_amount (DText a) r /\ refunds v' = <[r_id r := row]> (refunds v).

(** A processed refund: the provider refunded, the payment is marked and one
    message tells of it. *)
Definition refund_processed (p : Payment) (r : Refund) (v v' : PaymentView) : Prop :=
  r_status r = RefundStatus.PROCESSED /\
  (exists sr, sr_status sr = "succeeded"%string /\ r_providerRefundId r = Some (sr_id sr) /\
     refunded v' = refunded v ++ [(refund_request p, sr)]) /\
  payments v' = <[p_id p := set_p_status PaymentStatus.REFUNDED p]> (payments v) /\
  events v' = events v ++ [PaymentRefunded (r_id r) (p_id p) (p_bookingId p) (p_amount p) (p_currency p)
                             (r_providerRefundId r)].

(** A failed one: the payment stays as it was.  Without a reason the provider
    answered that the refund is in another state than succeeded; with one, its
    answer did not arrive, or it was not asked. *)
Definition refund_failed (p : Payment) (r : Refund) (v v' : PaymentView) : Prop :=
  r_status r = RefundStatus.FAILED /\ refunded_at_most_once p v v' /\
  payments v' = payments v /\ events v' = events v /\
  (r_failureReason r = None ->
   exists sr, sr_status sr <> "succeeded"%string /\ refunded v' = refunded v ++ [(refund_request p, sr)]).

(** Why a refund throws: an operation failed, or the payment names a provider
    nobody knows, and then nothing is sent and the refund is marked FAILED. *)
Definition refund_interrupted (md : mode) (p : Payment) (r : Refund) (ps : gmap string Payment)
    (rf : list (RefundRequest * StripeRefund)) (evs : list PaymentEvent) (v : PaymentView) : Prop :=
  md = Faulty \/
  ((p_provider p ∉ ["stripe"; "iyzico"]%string) /\ r_status r = RefundStatus.FAILED /\ ps = payments v /\
   rf = refunded v /\ evs = events v).

(** ** Proofs *)

(** The world in which [r] is the only change to the refunds of [v]. *)
Definition refund_view (v : PaymentView) (r : Refund) (a : string) (ps : gmap string Payment)
    (rf : list (RefundRequest * StripeRefund)) (evs : list PaymentEvent) : PaymentView :=
  mkPaymentView ps (<[r_id r := set_r_amount (DText a) r]> (refunds v)) (pay_redis v) (charges v) rf evs.

Section Proofs.
Context {S : Type}.
Variable md : mode.
Abbreviation spec := (obeys md pay_behaviour).

Lemma save_refund_wp (r r' : Refund) p a ps rf evs
    (Q : result unit -> Refund * Payment -> PaymentView -> Prop) v :
  r_id r' = r_id r ->
  Q (Ok tt) (r', p) (refund_view v r' a ps rf evs) ->
  (forall e, md = Faulty -> Q (Err e) (r', p) (refund_view v r a ps rf evs)) ->
  wp spec save_refund Q (r', p) (refund_view v r a ps rf evs).
Proof.
  intros Hid HQ HE. unfold save_refund. wp_step. cbn [wp get_local fst].
  wp_step. intros [[]|e] v1 H; pay_sem H.
  - destruct H as (row & Hrow & ->). cbn [refund_view refunds] in Hrow.
    rewrite Hid, lookup_insert_eq in Hrow. cbn in Hrow. subst row.
    unfold with_refunds, refund_view in *. cbn [payments refunds pay_redis charges refunded events].
    rewrite Hid, insert_insert_eq. by rewrite Hid in HQ.
  - destruct H as [-> [[]|[Hmd _]]]. by apply HE.
Qed.

Lemma save_payment_wp {S'} p p' r a ps rf evs (Q : result unit -> S' -> PaymentView -> Prop) s v :
  ps !! p_id p = Some p -> p_id p' = p_id p -> p_amount p' = p_amount p ->
  Q (Ok tt) s (refund_view v r a (<[p_id p := p']> ps) rf evs) ->
  (forall e, md = Faulty -> Q (Err e) s (refund_view v r a ps rf evs)) ->
  wp spec (call (PaySave p')) Q s (refund_view v r a ps rf evs).
Proof.
  intros Hp Hid Ha HQ HE. wp_step. intros [[]|e] v1 H; pay_sem H.
  - destruct H as (row & Hrow & ->). cbn [refund_view payments] in Hrow. rewrite Hid, Hp in Hrow.
    cbn in Hrow. subst row. unfold with_payments, refund_view in *.
    cbn [payments refunds pay_redis charges refunded events]. rewrite Hid.
    replace (set_p_amount (p_amount p) p') with p' by (destruct p'; cbn in *; by subst). exact HQ.
  - destruct H as [-> [[]|[Hmd _]]]. by apply HE.
Qed.

(** The [try] statement of [refundByBooking]. *)
Lemma refund_try_wp (p : Payment) r0 a (Q : result Refund -> Refund * Payment -> PaymentView -> Prop) v :
  payments v !! p_id p = Some p ->
  (forall r o ps rf evs, r_id r = r_id r0 -> r_paymentId r = r_paymentId r0 ->
     r_idempotencyKey r = r_idempotencyKey r0 -> r_amount r = r_amount r0 -> r_reason r = r_reason r0 ->
     refund_processed p r v (refund_view v r a ps rf evs) \/
     refund_failed p r v (refund_view v r a ps rf evs) ->
     Q (Ok r) o (refund_view v r a ps rf evs)) ->
  (forall e o r ps rf evs, r_id r = r_id r0 -> r_idempotencyKey r = r_idempotencyKey r0 ->
     refund_interrupted md p r ps rf evs v ->
     refunded_at_most_once p v (refund_view v r a ps rf evs) ->
     ps = payments v \/ ps = <[p_id p := set_p_status PaymentStatus.REFUNDED p]> (payments v) ->
     Q (Err e) o (refund_view v r a ps rf evs)) ->
  wp spec (try_catch send_refund
             (fun error =>
                modify_refund (fun r => set_r_failureReason (Some (emessage error))
                                          (set_r_status RefundStatus.FAILED r)) ;;
                save_refund ;;
                Throw error))
    Q (r0, p) (refund_view v r0 a (payments v) (refunded v) (events v)).
Proof.
  intros Hp HQ HE.
  assert (forall e r r' p' ps rf evs, md = Faulty \/
      ((p_provider p ∉ ["stripe"; "iyzico"]%string) /\ ps = payments v /\ rf = refunded v /\ evs = events v) ->
    r_id r = r_id r0 -> r_idempotencyKey r = r_idempotencyKey r0 ->
    r_id r' = r_id r0 -> r_idempotencyKey r' = r_idempotencyKey r0 ->
    refunded_at_most_once p v (refund_view v r a ps rf evs) ->
    ps = payments v \/ ps = <[p_id p := set_p_status PaymentStatus.REFUNDED p]> (payments v) ->
    wp spec (modify_refund (fun r => set_r_failureReason (Some (emessage e))
                              (set_r_status RefundStatus.FAILED r)) ;; save_refund ;; Throw e)
      Q (r', p') (refund_view v r a ps rf evs)) as Hcatch.
  { intros e r r' p' ps rf evs Hwhy Hid Hk Hid' Hk' Hc Hps. wp_step. cbn [wp modify_refund modify fst snd].
    wp_step. apply save_refund_wp; [cbn; congruence| |].
    - cbn [wp]. apply HE; [done|done| |exact Hc|done]. destruct Hwhy as [?|(? & ? & ? & ?)]; [by left|by right].
    - intros e' Hmd. apply HE; [done|done|by left|exact Hc|done]. }
  wp_step. unfold send_refund. wp_step. cbn [wp get_local snd].
  wp_step. apply getByProvider_wp.
  2: { intros Hno. apply Hcatch; [by right|done..|by left|by left]. }
  intros g Hg _ _. wp_step. apply refund_law. intros resp v1 (Hr & Hok & Hno). wp_step.
  fold (refund_request p) in Hr, Hok, Hno. cbn zeta in Hr, Hok, Hno.
  destruct (gs_success resp) eqn:Hs.
  - destruct (Hok eq_refl) as (sr & -> & Hss & Htx). clear Hr Hno.
    change (with_refunded _ _) with (refund_view v r0 a (payments v)
      (refunded v ++ [(refund_request p, sr)]) (events v)).
    assert (forall r ps evs, refunded_at_most_once p v
      (refund_view v r a ps (refunded v ++ [(refund_request p, sr)]) evs)) as Hone.
    { intros r ps evs. right. by exists sr. }
    wp_step. cbn [wp modify_refund modify fst snd].
    wp_step. apply save_refund_wp; [done| |].
    2: { intros e Hmd. apply Hcatch; [by left|done..|apply Hone|by left]. }
    wp_step. cbn [wp modify fst snd]. wp_step. cbn [wp get_local fst snd].
    wp_step. apply (save_payment_wp p); [done..| |].
    2: { intros e Hmd. apply Hcatch; [by left|done..|apply Hone|by left]. }
    wp_step. intros [[]|e] v2 H; pay_sem H; [|by destruct H as [_ [[]|[_ []]]]].
    subst v2. cbn [wp bind get_local fst].
    change (with_events ?l (refund_view v ?r a ?ps ?rf ?evs)) with (refund_view v r a ps rf l).
    apply HQ; [done..|]. left. split_and!; [done| |done|done].
    exists sr. split_and!; [done|exact Htx|done].
  - clear Hok. specialize (Hno eq_refl).
    assert (exists rf, v1 = refund_view v r0 a (payments v) rf (events v) /\
      forall r, refunded_at_most_once p v (refund_view v r a (payments v) rf (events v))) as (rf & Hv1 & Hone).
    { destruct Hr as [-> |[sr ->]].
      - exists (refunded v). split; [done|]. intros r. by left.
      - exists (refunded v ++ [(refund_request p, sr)]). split; [done|]. intros r. right. by exists sr. }
    assert (gs_failureReason resp = None ->
      exists sr, sr_status sr <> "succeeded"%string /\ rf = refunded v ++ [(refund_request p, sr)]) as Hstate.
    { intros (sr & Hsr & Hst)%Hno. exists sr. split; [done|]. rewrite Hsr in Hv1. by injection Hv1. }
    subst v1. clear Hno.
    wp_step. cbn [wp modify_refund modify fst snd]. apply save_refund_wp; [done| |].
    + cbn [wp bind get_local fst]. apply HQ; [done..|]. right. split_and!; [done|apply Hone|done|done|exact Hstate].
    + intros e Hmd. apply Hcatch; [by left|done..|apply Hone|by left].
Qed.

(** What a call of [refundByBooking] does. *)
Lemma refundByBooking_wp bookingId key reason (Q : result Refund -> S -> PaymentView -> Prop) s v :
  pay_wf v ->
  ((forall i p, payments v !! i = Some p -> succeeded_for bookingId p = false) ->
   Q (Err (BadRequestException ("No succeeded payment found for booking " +:+ bookingId))) s v) ->
  (forall i r p, payments v !! p_id p = Some p -> succeeded_for bookingId p = true ->
     refunds v !! i = Some r -> r_idempotencyKey r = key -> Q (Ok r) s v) ->
  (forall p r a ps rf evs, payments v !! p_id p = Some p -> succeeded_for bookingId p = true ->
     (forall i r, refunds v !! i = Some r -> r_idempotencyKey r <> key) ->
     refund_of p key reason r -> refunds v !! r_id r = None ->
     refund_processed p r v (refund_view v r a ps rf evs) \/
     refund_failed p r v (refund_view v r a ps rf evs) ->
     Q (Ok r) s (refund_view v r a ps rf evs)) ->
  (forall e, md = Faulty -> Q (Err e) s v) ->
  (forall e p r a ps rf evs, payments v !! p_id p = Some p -> succeeded_for bookingId p = true ->
     (forall i r, refunds v !! i = Some r -> r_idempotencyKey r <> key) ->
     refund_interrupted md p r ps rf evs v ->
     r_idempotencyKey r = key -> refunds v !! r_id r = None ->
     refunded_at_most_once p v (refund_view v r a ps rf evs) ->
     ps = payments v \/ ps = <[p_id p := set_p_status PaymentStatus.REFUNDED p]> (payments v) ->
     Q (Err e) s (refund_view v r a ps rf evs)) ->
  wp spec (refundByBooking bookingId key reason) Q s v.
Proof.
  intros Hv HN HX HQ HE HI. unfold refundByBooking. wp_step. wp_step. intros [[p|]|e] v1 H; pay_sem H.
  3: { destruct H as [-> [[]|[Hmd _]]]. auto. }
  2: { destruct H as [-> Hnone]. cbn [wp]. apply HN. intros i q Hi. apply Hnone. by eapply rows_lookup. }
  destruct H as [-> [Hin Hs]]. apply (elem_of_rows p_id) in Hin; [|apply Hv].
  wp_step. wp_step. intros [[r|]|e] v1 H; pay_sem H.
  3: { destruct H as [-> [[]|[Hmd _]]]. auto. }
  { destruct H as [-> [Hr Hk%String.eqb_eq]]. cbn [wp]. apply elem_of_rows_lookup in Hr as [i Hi]. by eapply HX. }
  destruct H as [-> Hnone].
  assert (forall i r, refunds v !! i = Some r -> r_idempotencyKey r <> key) as Hnk.
  { intros i r Hi Hk. assert (r ∈ rows (refunds v)) as Hr by (by eapply rows_lookup).
    apply Hnone in Hr. unfold refund_has_key in Hr. by rewrite Hk, String.eqb_refl in Hr. }
  wp_step. wp_step. intros [r0|e] v1 H; pay_sem H.
  2: { destruct H as [-> [[]|[Hmd _]]]. auto. }
  destruct H as (Hcr & Hfresh & row & [a ->] & ->).
  change (with_refunds _ v) with (refund_view v r0 a (payments v) (refunded v) (events v)).
  assert (refund_of p key reason r0) as Hof by (red in Hcr; rewrite Hcr; done).
  wp_step. wp_step. apply refund_try_wp; [done| |].
  - intros r o ps rf evs Hid Hpid Hk Ham Hre Hres. cbn [wp fst]. apply (HQ p); [done..| | |done].
    + destruct Hof as (? & ? & ? & ?). red. by rewrite Hpid, Hk, Ham, Hre.
    + by rewrite Hid.
  - intros e o r ps rf evs Hid Hk Hwhy Hone Hps. apply (HI e p); [done..| | |done|done].
    + rewrite Hk. apply Hof.
    + by rewrite Hid.
Qed.
End Proofs.

Lemma refund_view_wf v r a ps rf evs :
  pay_wf v -> refunds v !! r_id r = None ->
  ps = payments v \/
  (exists p, payments v !! p_id p = Some p /\ ps = <[p_id p := set_p_status PaymentStatus.REFUNDED p]> (payments v)) ->
  pay_wf (refund_view v r a ps rf evs).
Proof.
  intros [H1 H2 H3] Hf Hps.
  assert (forall i q, ps !! i = Some q -> exists q', payments v !! i = Some q' /\
    p_id q' = p_id q /\ p_idempotencyKey q' = p_idempotencyKey q) as Hback.
  { intros i q. destruct Hps as [->|(p & Hp & ->)]; [by eauto|]. rewrite lookup_insert_Some.
    intros [[<- <-]|[_ Hi]]; [|by eauto]. by exists p. }
  split; cbn [refund_view payments refunds].
  - intros i q (q' & Hq & Hid & _)%Hback. rewrite <- Hid. by apply H1.
  - intros i q. rewrite lookup_insert_Some. intros [[<- <-]|[_ Hi]]; [done|by apply H2].
  - intros i j q q' (o & Ho & _ & Hk)%Hback (o' & Ho' & _ & Hk')%Hback Heq.
    eapply H3; [exact Ho|exact Ho'|congruence].
Qed.

(** ** Properties *)

Section Properties.
Context {S W : Type} (h : forall X, PaymentE X -> W -> result X * W) (view : W -> PaymentView).
Variable md : mode.
Hypothesis Hh : conforms md pay_behaviour h view.
Implicit Types (s : S) (w : W).


(** No double refund: after a call that sent a refund to the provider,
    whatever became of it, no later call with the same idempotency key sends
    another one. *)
Theorem refund_key_once bookingId bookingId' key reason reason' s s' w :
  pay_wf (view w) ->
  let w1 := final h (refundByBooking bookingId key reason) s w in
  refunded (view w1) <> refunded (view w) ->
  refunded (view (final h (refundByBooking bookingId' key reason') s' w1)) = refunded (view w1).
Proof.
  intros Hv. cbn zeta. set (w1 := final h (refundByBooking bookingId key reason) s w). intros Hne.
  assert (pay_wf (view w1) /\ exists i r, refunds (view w1) !! i = Some r /\ r_idempotencyKey r = key)
    as (Hv1 & i & r & Hi & Hk).
  { revert Hne. unfold w1. call_wp Hh w. apply refundByBooking_wp; [done|done|done| |done|].
    - intros p r a ps rf evs Hp _ _ Hof Hf Hres _. split; [|exists (r_id r)].
      + apply refund_view_wf; [done|done|].
        destruct Hres as [(_ & _ & Hps & _)|(_ & _ & Hps & _)]; [right; by exists p|by left].
      + eexists. split; [apply lookup_insert_eq|apply Hof].
    - intros e p r a ps rf evs Hp _ _ _ Hk Hf _ Hps _. split; [|exists (r_id r)].
      + apply refund_view_wf; [done|done|]. destruct Hps as [->| ->]; [by left|right; by exists p].
      + eexists. split; [apply lookup_insert_eq|done]. }
  call_wp Hh w1. apply refundByBooking_wp; [done|done|done| |done|].
  - intros p r' a ps rf evs _ _ Hnk _ _ _. by destruct (Hnk i r Hi).
  - intros e p r' a ps rf evs _ _ Hnk. by destruct (Hnk i r Hi).
Qed.

(** The idempotency key of a refund does not survive success: repeating a
    call whose refund was processed throws, because the payment is no longer
    SUCCEEDED when the key is looked up, unless the booking has another
    succeeded payment. *)
Theorem refund_replay_refused bookingId key reason s s' w r p :
  md = Reliable -> pay_wf (view w) ->
  outcome h (refundByBooking bookingId key reason) s w = Ok r -> r_status r = RefundStatus.PROCESSED ->
  payments (view w) !! p_id p = Some p ->
  (forall i q, payments (view w) !! i = Some q -> succeeded_for bookingId q = true -> q = p) ->
  (forall i q, refunds (view w) !! i = Some q -> r_idempotencyKey q <> key) ->
  outcome h (refundByBooking bookingId key reason) s'
    (final h (refundByBooking bookingId key reason) s w) =
  Err (BadRequestException ("No succeeded payment found for booking " +:+ bookingId)).
Proof.
  intros Hmd Hv Ho Hst Hp Honly Hnk. set (w1 := final h (refundByBooking bookingId key reason) s w).
  assert (pay_wf (view w1) /\ forall i q, payments (view w1) !! i = Some q -> succeeded_for bookingId q = false)
    as [Hv1 Hnone].
  { revert Ho. unfold w1. call_wp Hh w. apply refundByBooking_wp; [done|done| | |done|done].
    - intros i q o _ _ Hi Hk. by destruct (Hnk i q Hi).
    - intros q r' a ps rf evs Hq Hs _ _ Hf Hres [= ->].
      assert (q = p) as -> by (by eapply Honly).
      destruct Hres as [(_ & _ & Hps & _)|(Hfail & _)]; [|congruence]. cbn in Hps. subst ps. split.
      + apply refund_view_wf; [done|done|right; by exists p].
      + intros i q. cbn [refund_view payments]. rewrite lookup_insert_Some.
        intros [[<- <-]|[Hne Hi]].
        * unfold succeeded_for. cbn. by rewrite andb_false_r.
        * apply Bool.not_true_iff_false. intros Hsq. apply Hne. rewrite <- (Honly i q Hi Hsq).
          by apply (wf_payments _ Hv). }
  call_wp Hh w1. apply refundByBooking_wp; [done|done| | | |].
  - intros i q o Ho' Hs. by rewrite (Hnone _ _ Ho') in Hs.
  - intros q r' a ps rf evs Hq Hs. by rewrite (Hnone _ _ Hq) in Hs.
  - congruence.
  - intros e q r' a ps rf evs Hq Hs. by rewrite (Hnone _ _ Hq) in Hs.
Qed.
End Properties.

(** ** Concrete runs *)

(** The demo payment was made and is to be refunded. *)
Definition paid_payment : Payment :=
  mkPayment "p1" "b1" "pay-b1" (DText "300.00") "TRY" CREDIT_CARD PaymentStatus.SUCCEEDED "stripe"
    (Some "pi_0"%string) None (Some 1700000000000%Z).

Definition paid_view : PaymentView :=
  mkPaymentView {["p1"%string := paid_payment]} ∅ ∅ [] [] [].
Definition paid_world : PaymentRefWorld := (paid_view, 1700000000000%Z).

Lemma paid_only i q : payments (pay_view paid_world) !! i = Some q -> i = "p1"%string /\ q = paid_payment.
Proof.
  change (({["p1"%string := paid_payment]} : gmap string Payment) !! i = Some q -> i = "p1"%string /\ q = paid_payment).
  by intros [<- <-]%lookup_singleton_Some.
Qed.

Lemma paid_world_wf : pay_wf (pay_view paid_world).
Proof.
  split; cbn.
  - intros i q [<- <-]%lookup_singleton_Some. done.
  - apply keyed_empty.
  - by intros i j q q' [<- _]%lookup_singleton_Some [<- _]%lookup_singleton_Some _.
Qed.

Abbreviation demo_refund := (@refundByBooking unit "b1" "refund-b1" (Some "cancelled"%string)).

(** Money can go back without being booked: when the payment's update fails
    after the provider refunded, the refund is stored as FAILED and the payment
    stays SUCCEEDED; a retry with the same key then reports the failed refund. *)
Theorem refunded_but_failed :
  let w := (paid_world, [false; false; false; false; true]) in
  let w1 := final pay_flaky demo_refund tt w in
  is_ok (outcome pay_flaky demo_refund tt w) = false /\
  length (refunded (pay_flaky_view w1)) = 1 /\
  map r_status (rows (refunds (pay_flaky_view w1))) = [RefundStatus.FAILED] /\
  map p_status (rows (payments (pay_flaky_view w1))) = [PaymentStatus.SUCCEEDED] /\
  (match outcome pay_flaky demo_refund tt w1 with Ok r => r_status r | Err _ => RefundStatus.PENDING end)
    = RefundStatus.FAILED.
Proof. vm_compute. auto. Qed.


Lemma refund_key_once_witness :
  refunded (pay_view (final pay_run demo_refund tt (final pay_run demo_refund tt paid_world))) =
  refunded (pay_view (final pay_run demo_refund tt paid_world)).
Proof.
  apply (refund_key_once (S := unit) pay_run pay_view Reliable pay_run_conforms "b1" "b1" "refund-b1"
    (Some "cancelled"%string) (Some "cancelled"%string) tt tt paid_world paid_world_wf).
  vm_compute. discriminate.
Defined.

Lemma refund_replay_refused_witness :
  is_ok (outcome pay_run demo_refund tt (final pay_run demo_refund tt paid_world)) = false.
Proof.
  assert (exists r, outcome pay_run demo_refund tt paid_world = Ok r /\ r_status r = RefundStatus.PROCESSED)
    as (r & Ho & Hr) by (eexists; split; [vm_compute; reflexivity|reflexivity]).
  rewrite (refund_replay_refused (S := unit) pay_run pay_view Reliable pay_run_conforms "b1" "refund-b1"
    (Some "cancelled"%string) tt tt paid_world r paid_payment eq_refl paid_world_wf Ho Hr).
  - reflexivity.
  - reflexivity.
  - intros i q Hi _. apply paid_only in Hi as [_ Hi]. exact Hi.
  - intros i q Hi. cbn in Hi. rewrite lookup_empty in Hi. discriminate Hi.
Defined.
