(* ===== verification/PaymentApi.v ===== *)
(** * The payment service's controllers and idempotency interceptor

    apps/payment-service/src/payment/payment.grpc-controller.ts,
    payment.controller.ts and idempotency/idempotency.interceptor.ts. *)

From S2P Require Import Prelude Messages Effects JsNumber JsDate Json Redis Sql PaymentWorld PaymentRef Gateway Payment RefundService.

(** ** PaymentGrpcController *)

Definition toPaymentInfo (payment : Payment) : PaymentInfo :=
  mkPaymentInfo (p_id payment) (p_bookingId payment) (p_idempotencyKey payment)
    (decimal_string (p_amount payment)) (p_currency payment) (payment_method_value (p_method payment))
    (PaymentStatus.value (p_status payment)) (p_provider payment)
    (opt_str_or (p_providerTxId payment) "") (opt_str_or (p_failureReason payment) "")
    (match p_paidAt payment with Some t => toISOString t | None => "" end).

Section Grpc.
Context {S : Type}.
Variable PAYMENT_DEFAULT_PROVIDER : option string.

Definition grpc_initiatePayment (data : InitiatePaymentDto) : prog S PaymentE PaymentReply :=
  payment <- initiatePayment PAYMENT_DEFAULT_PROVIDER data ;;
  Ret (mkPaymentReply (toPaymentInfo payment)).

Definition getPayment (id : string) : prog S PaymentE PaymentReply :=
  payment <- findById id ;;
  Ret (mkPaymentReply (toPaymentInfo payment)).

Definition getPaymentsByBooking (bookingId : string) : prog S PaymentE PaymentsReply :=
  payments <- findByBookingId bookingId ;;
  Ret (mkPaymentsReply (map toPaymentInfo payments)).

Definition refundPayment (bookingId idempotencyKey : string) (reason : option string) :
    prog S PaymentE RefundPaymentResponse :=
  try_catch
    (refund <- refundByBooking bookingId idempotencyKey reason ;;
     Ret (mkRefundResponse (bool_decide (r_status refund = RefundStatus.PROCESSED)) (r_id refund)
            (opt_str_or (r_failureReason refund) "")))
    (fun error => Ret (mkRefundResponse false "" (str_or (emessage error) ""))).
End Grpc.

(** ** IdempotencyInterceptor *)

Definition TTL_SECONDS : Z := 3600.

Definition cache_key (idempotencyKey : string) : string := "idempotency:payment:" +:+ idempotencyKey.

Definition processing_json : json := JObj [("status", JStr "processing")]%string.

Definition completed_json (response : json) : json :=
  JObj [("status", JStr "completed"); ("response", response)]%string.

Section Interceptor.
Context {S : Type}.

(** What is done with a cached entry. *)
Definition cached_response (cached : string) : prog S PaymentE (option json) :=
  match parse cached with
  | None => Throw (SyntaxError "Unexpected token in JSON")
  | Some JNull => Throw (TypeError "Cannot read properties of null (reading 'status')")
  | Some data =>
      match member "status" data with
      | Some (JStr st) =>
          if String.eqb st "processing" then Throw (ConflictException "Payment already in progress")
          else Ret (member "response" data)
      | _ => Ret (member "response" data)
      end
  end.

(** [intercept]: the response of [next], or a cached one; [None] is an
    undefined response.  The write of the completed entry is not awaited, so a
    failure of it is not seen. *)
Definition intercept (idempotencyKey : option string) (next : prog S PaymentE json) :
    prog S PaymentE (option json) :=
  match idempotencyKey with
  | None => response <- next ;; Ret (Some response)
  | Some k =>
      if negb (truthy k) then response <- next ;; Ret (Some response)
      else
        cached <- call (PRedis (RGet (cache_key k))) ;;
        match cached with
        | Some c =>
            if truthy c then cached_response c
            else
              result <- call (PRedis (RSetNxEx (cache_key k) (stringify processing_json) TTL_SECONDS)) ;;
              if negb result then
                Throw (ConflictException "Request with this idempotency key is already being processed")
              else
                response <- next ;;
                attempt (call (PRedis (RSetEx (cache_key k) (stringify (completed_json response)) TTL_SECONDS))) ;;
                Ret (Some response)
        | None =>
            result <- call (PRedis (RSetNxEx (cache_key k) (stringify processing_json) TTL_SECONDS)) ;;
            if negb result then
              Throw (ConflictException "Request with this idempotency key is already being processed")
            else
              response <- next ;;
              attempt (call (PRedis (RSetEx (cache_key k) (stringify (completed_json response)) TTL_SECONDS))) ;;
              Ret (Some response)
        end
  end.
End Interceptor.

(** ** PaymentController *)

Section Http.
Context {S : Type}.
Variable PAYMENT_DEFAULT_PROVIDER : option string.
(** The JSON value of an entity; TypeORM decides the order of its properties
    and adds the generated columns. *)
Variable serialize : Payment -> json.

Definition initiate (idempotencyKey : option string) (dto : InitiatePaymentDto) :
    prog S PaymentE (option json) :=
  intercept idempotencyKey
    (payment <- initiatePayment PAYMENT_DEFAULT_PROVIDER dto ;; Ret (serialize payment)).

Definition http_findById (id : string) : prog S PaymentE Payment := findById id.
Definition http_findByBookingId (bookingId : string) : prog S PaymentE (list Payment) :=
  findByBookingId bookingId.
End Http.

(** ** Specification *)

(** The cache entry of a key. *)
Definition cache_entry (v : PaymentView) (k : string) : option string :=
  string_at (pay_redis v) (cache_key k).

Definition set_entry (k : string) (j : json) (v : PaymentView) : PaymentView :=
  with_pay_redis (<[cache_key k := Entry (RStr (stringify j)) (Some TTL_SECONDS)]> (pay_redis v)) v.

(** ** Proofs *)

Section Proofs.
Context {S : Type}.
Variable md : mode.
Abbreviation spec := (obeys md pay_behaviour).

Lemma stringify_obj_truthy fs : truthy (stringify (JObj fs)) = true.
Proof. done. Qed.

(** The first request with a key: the handler runs between the two writes. *)
Lemma intercept_first_wp k next (Q : result (option json) -> S -> PaymentView -> Prop) s v :
  truthy k = true -> pay_redis v !! cache_key k = None ->
  (forall e, md = Faulty -> Q (Err e) s v) ->
  wp spec next (fun r s v' =>
    match r with
    | Ok response =>
        Q (Ok (Some response)) s (set_entry k (completed_json response) v') /\
        (md = Faulty -> Q (Ok (Some response)) s v')
    | Err e => Q (Err e) s v'
    end) s (set_entry k processing_json v) ->
  wp spec (intercept (Some k) next) Q s v.
Proof.
  intros Hk Hn HE Hnext. unfold intercept. rewrite Hk. cbn [negb].
  wp_step. wp_step. intros [o|e] v1 H; pay_sem H.
  2: { destruct H as [-> [Hw|[Hmd _]]]; [|by apply HE]. unfold is_hash in Hw. by rewrite Hn in Hw. }
  destruct H as (m & [-> ->] & ->). unfold string_at. rewrite Hn.
  replace (with_pay_redis (pay_redis v) v) with v by (by destruct v).
  wp_step. wp_step. intros [b|e] v1 H; pay_sem H.
  2: { destruct H as [-> [[]|[Hmd _]]]. by apply HE. }
  destruct H as (m & H & ->). rewrite Hn in H. destruct H as [-> ->]. cbn [negb].
  wp_step. eapply wp_mono; [exact Hnext|]. intros [response|e] s' v' H; [|done]. destruct H as [H1 H2].
  wp_step. apply wp_attempt. wp_step. intros [[]|e] v1 H; pay_sem H.
  - destruct H as (m & -> & ->). exact H1.
  - destruct H as [-> [[]|[Hmd _]]]. by apply H2.
Qed.

(** A later request with the key. *)
Lemma intercept_cached_wp k next j t (Q : result (option json) -> S -> PaymentView -> Prop) s v :
  truthy k = true -> pay_redis v !! cache_key k = Some (Entry (RStr (stringify j)) t) ->
  truthy (stringify j) = true ->
  wp spec (cached_response (stringify j)) Q s v ->
  (forall e, md = Faulty -> Q (Err e) s v) ->
  wp spec (intercept (Some k) next) Q s v.
Proof.
  intros Hk Hc Htr HQ HE. unfold intercept. rewrite Hk. cbn [negb].
  wp_step. wp_step. intros [o|e] v1 H; pay_sem H.
  - destruct H as (m & [-> ->] & ->). unfold string_at. rewrite Hc, Htr.
    by replace (with_pay_redis (pay_redis v) v) with v by (by destruct v).
  - destruct H as [-> [Hw|[Hmd _]]]; [|by apply HE]. unfold is_hash in Hw. by rewrite Hc in Hw.
Qed.

Lemma cached_processing_wp (Q : result (option json) -> S -> PaymentView -> Prop) s v :
  Q (Err (ConflictException "Payment already in progress")) s v ->
  wp spec (cached_response (stringify processing_json)) Q s v.
Proof. intros HQ. unfold cached_response. by rewrite parse_print. Qed.

Lemma cached_completed_wp j (Q : result (option json) -> S -> PaymentView -> Prop) s v :
  Q (Ok (Some j)) s v -> wp spec (cached_response (stringify (completed_json j))) Q s v.
Proof. intros HQ. unfold cached_response. by rewrite parse_print. Qed.
End Proofs.

(** ** Properties *)

Section Properties.
Context {S W : Type} (h : forall X, PaymentE X -> W -> result X * W) (view : W -> PaymentView).
Variable cfg : option string.
Variable serialize : Payment -> json.
Implicit Types (s : S) (w : W).

(** The idempotency header makes a repeated POST harmless: after a request
    that returned a response, every later request with the same header gets the
    very same response (or an error, if an operation failed) and has no effect:
    no payment, no charge, no message. *)
Theorem initiate_replay md k dto dto' s s' w response :
  conforms md pay_behaviour h view ->
  truthy k = true -> pay_redis (view w) !! cache_key k = None ->
  let w1 := final h (initiate cfg serialize (Some k) dto) s w in
  outcome h (initiate cfg serialize (Some k) dto) s w = Ok (Some response) ->
  match outcome h (initiate cfg serialize (Some k) dto') s' w1 with
  | Ok r => r = Some response
  | Err _ => md = Faulty
  end /\
  view (final h (initiate cfg serialize (Some k) dto') s' w1) = view w1.
Proof.
  intros Hh Hk Hn. cbn zeta. intros Ho. set (w1 := final h (initiate cfg serialize (Some k) dto) s w).
  assert ((exists t, pay_redis (view w1) !! cache_key k =
             Some (Entry (RStr (stringify (completed_json response))) t)) \/
          (md = Faulty /\ exists t, pay_redis (view w1) !! cache_key k =
             Some (Entry (RStr (stringify processing_json)) t))) as Hc.
  { revert Ho. unfold w1. call_wp Hh w. apply intercept_first_wp; [done..|].
    wp_step. apply initiatePayment_wp; cbn [wp].
    - intros i p _ _. split; [intros [= <-]; left|intros Hmd [= <-]; right; split; [done|]];
        eexists; apply lookup_insert_eq.
    - intros p a chs evs _ _ _ _ _. split; [intros [= <-]; left|intros Hmd [= <-]; right; split; [done|]];
        eexists; apply lookup_insert_eq.
    - done.
    - done. }
  destruct Hc as [[t Hc]|[Hmd [t Hc]]]; call_wp Hh w1.
  - eapply intercept_cached_wp; [done|exact Hc|done| |done]. by apply cached_completed_wp.
  - eapply intercept_cached_wp; [done|exact Hc|done| |done]. by apply cached_processing_wp.
Qed.

(** A failed request blocks its header: when the handler throws, the entry
    "processing" stays, and repeating the request is refused as a conflict
    although nothing is in progress, until the entry expires after an hour. *)
Theorem initiate_failure_blocks k dto dto' s s' w e :
  conforms Reliable pay_behaviour h view ->
  truthy k = true -> pay_redis (view w) !! cache_key k = None ->
  let w1 := final h (initiate cfg serialize (Some k) dto) s w in
  outcome h (initiate cfg serialize (Some k) dto) s w = Err e ->
  outcome h (initiate cfg serialize (Some k) dto') s' w1 =
    Err (ConflictException "Payment already in progress") /\
  view w1 = set_entry k processing_json (view w).
Proof.
  intros Hh Hk Hn. cbn zeta. intros Ho. set (w1 := final h (initiate cfg serialize (Some k) dto) s w).
  assert (view w1 = set_entry k processing_json (view w)) as Hv.
  { revert Ho. unfold w1. call_wp Hh w. apply intercept_first_wp; [done..|].
    wp_step. apply initiatePayment_wp; cbn [wp]; done. }
  split; [|done]. call_wp Hh w1. eapply (intercept_cached_wp _ _ _ processing_json); [done| |done| |done].
  - rewrite Hv. apply lookup_insert_eq.
  - by apply cached_processing_wp.
Qed.

(** The RefundPayment RPC always answers; it reports success exactly when
    [refundByBooking] returned a PROCESSED refund, and otherwise the reason. *)
Theorem refundPayment_replies bookingId key reason s w :
  outcome h (refundPayment bookingId key reason) s w =
  Ok (match outcome h (refundByBooking bookingId key reason) s w with
      | Ok r => mkRefundResponse (bool_decide (r_status r = RefundStatus.PROCESSED)) (r_id r)
                  (opt_str_or (r_failureReason r) "")
      | Err e => mkRefundResponse false "" (str_or (emessage e) "")
      end).
Proof.
  unfold refundPayment, outcome. rewrite run_try_catch, run_bind.
  by destruct (run h (refundByBooking bookingId key reason) s w) as [[[r|e] s'] w'].
Qed.
End Properties.

(** ** Concrete runs *)

(** The id and the amount of the entity. *)
Definition brief (p : Payment) : json :=
  JObj [("id", JStr (p_id p)); ("amount", match p_amount p with DNum n => num_json n | DText t => JStr t end)]%string.

Lemma initiate_replay_witness :
  outcome pay_run (@initiate unit None brief (Some "key-1"%string) demo_dto) tt
    (final pay_run (@initiate unit None brief (Some "key-1"%string) demo_dto) tt pay_world) =
  outcome pay_run (@initiate unit None brief (Some "key-1"%string) demo_dto) tt pay_world.
Proof.
  assert (exists j, outcome pay_run (@initiate unit None brief (Some "key-1"%string) demo_dto) tt pay_world
    = Ok (Some j)) as [j Hj] by (eexists; vm_compute; reflexivity).
  pose proof (initiate_replay (S := unit) pay_run pay_view None brief Reliable "key-1" demo_dto demo_dto tt tt
    pay_world j pay_run_conforms eq_refl (lookup_empty _) Hj) as [H _].
  destruct (outcome pay_run (initiate None brief (Some "key-1"%string) demo_dto) tt
    (final pay_run (initiate None brief (Some "key-1"%string) demo_dto) tt pay_world)) as [r|e].
  - rewrite H, Hj. reflexivity.
  - discriminate H.
Defined.

(** A provider that is not registered. *)
Definition mock_dto : InitiatePaymentDto :=
  mkInitiatePaymentDto "b1" "pay-b1" (num_of_Z 300) "TRY" CREDIT_CARD "pm_card_visa" (Some "mock"%string).

Lemma initiate_failure_blocks_witness :
  outcome pay_run (@initiate unit None brief (Some "key-1"%string) mock_dto) tt
    (final pay_run (@initiate unit None brief (Some "key-1"%string) mock_dto) tt pay_world) =
  Err (ConflictException "Payment already in progress").
Proof.
  assert (exists e, outcome pay_run (@initiate unit None brief (Some "key-1"%string) mock_dto) tt pay_world
    = Err e) as [e He] by (eexists; vm_compute; reflexivity).
  apply (initiate_failure_blocks (S := unit) pay_run pay_view None brief "key-1" mock_dto mock_dto tt tt
    pay_world e pay_run_conforms eq_refl (lookup_empty _) He).
Defined.
