(* ===== verification/BookingWorld.v ===== *)
(** * Booking service: data and outside world

    The entities, enums and DTOs of apps/booking-service, the operations its
    methods await (the repositories and the query runner, the gRPC clients of
    the seat inventory and payment services, Kafka, the QR code library, the
    clock and [randomUUID]) and their documented behaviour. *)

From S2P Require Import Prelude Messages Effects JsNumber Json Sql.

(** ** Enums and entities *)

Module BookingStatus.
Inductive t := PENDING | CONFIRMED | CANCELLED | REFUNDED.

Definition value (s : t) : string :=
  match s with
  | PENDING => "pending"
  | CONFIRMED => "confirmed"
  | CANCELLED => "cancelled"
  | REFUNDED => "refunded"
  end.

#[global] Instance eq_dec : EqDecision t.
Proof. solve_decision. Defined.
End BookingStatus.

Module OutboxStatus.
Inductive t := PENDING | PROCESSING | COMPLETED | FAILED.

#[global] Instance eq_dec : EqDecision t.
Proof. solve_decision. Defined.
End OutboxStatus.

Module RefundState.
Inductive t := REFUND_INITIATED | PAYMENT_REFUNDED | SEATS_RELEASED | COMPLETED | FAILED.

#[global] Instance eq_dec : EqDecision t.
Proof. solve_decision. Defined.
End RefundState.

Module TicketStatus.
Inductive t := ACTIVE | USED | CANCELLED | TRANSFERRED.

#[global] Instance eq_dec : EqDecision t.
Proof. solve_decision. Defined.
End TicketStatus.

Record Booking := mkBooking {
  b_id : string;
  b_bookingNumber : string;
  b_userId : string;
  b_eventId : string;
  b_status : BookingStatus.t;
  b_totalAmount : decimal;
  b_currency : string;
  b_expiresAt : Z;
  b_confirmedAt : option Z;
  b_cancelledAt : option Z;
  b_cancellationReason : option string;
  b_refundState : option RefundState.t;
  b_refundIdempotencyKey : option string;
  b_refundRetryCount : Z;
  b_refundLastError : option string;
  b_createdAt : Z;
}.

Record BookingItem := mkBookingItem {
  bi_id : string;
  bi_bookingId : string;
  bi_seatInventoryId : string;
  bi_seatId : string;
  bi_ticketTypeId : string;
  bi_ticketTypeName : string;
  bi_sectionName : string;
  bi_row : string;
  bi_seatNumber : string;
  bi_unitPrice : decimal;
  bi_attendeeName : option string;
  bi_attendeeEmail : option string;
}.

(** A booking loaded with [relations: ['items']]. *)
Record LoadedBooking := mkLoaded { booking : Booking; items : list BookingItem }.

(** The objects the code stores in [payload] and sends as Kafka values; the
    booking's status and the items' [seatId] are not always present. *)
Record PayloadItem := mkPayloadItem {
  pl_seatId : option string;
  pl_sectionName : string;
  pl_row : string;
  pl_seatNumber : string;
  pl_attendeeName : option string;
  pl_attendeeEmail : option string;
}.

Inductive Payload :=
| SeatsPayload (eventId userId : string) (seatIds : list string)
| BookingPayload (bookingId bookingNumber userId eventId : string) (totalAmount : decimal)
    (currency : string) (status : option BookingStatus.t) (items : list PayloadItem).

Record Outbox := mkOutbox {
  o_id : string;
  o_aggregateType : string;
  o_aggregateId : string;
  o_eventType : string;
  o_payload : Payload;
  o_status : OutboxStatus.t;
  o_retryCount : Z;
  o_maxRetries : Z;
  o_lastError : option string;
  o_processedAt : option Z;
  o_createdAt : Z;
}.

Record Ticket := mkTicket {
  t_id : string;
  t_bookingId : string;
  t_seatId : string;
  t_bookingItemId : string;
  t_ticketCode : string;
  t_qrCodeData : option string;
  t_status : TicketStatus.t;
  t_sectionName : string;
  t_row : string;
  t_seatNumber : string;
  t_attendeeName : option string;
  t_attendeeEmail : option string;
  t_checkedInAt : option Z;
}.

(** Assignments to the fields of the entities. *)
Definition set_b_status (st : BookingStatus.t) (b : Booking) : Booking :=
  mkBooking (b_id b) (b_bookingNumber b) (b_userId b) (b_eventId b) st (b_totalAmount b) (b_currency b)
    (b_expiresAt b) (b_confirmedAt b) (b_cancelledAt b) (b_cancellationReason b) (b_refundState b)
    (b_refundIdempotencyKey b) (b_refundRetryCount b) (b_refundLastError b) (b_createdAt b).
Definition set_b_totalAmount (a : decimal) (b : Booking) : Booking :=
  mkBooking (b_id b) (b_bookingNumber b) (b_userId b) (b_eventId b) (b_status b) a (b_currency b)
    (b_expiresAt b) (b_confirmedAt b) (b_cancelledAt b) (b_cancellationReason b) (b_refundState b)
    (b_refundIdempotencyKey b) (b_refundRetryCount b) (b_refundLastError b) (b_createdAt b).
Definition set_b_confirmedAt (at_ : Z) (b : Booking) : Booking :=
  mkBooking (b_id b) (b_bookingNumber b) (b_userId b) (b_eventId b) (b_status b) (b_totalAmount b) (b_currency b)
    (b_expiresAt b) (Some at_) (b_cancelledAt b) (b_cancellationReason b) (b_refundState b)
    (b_refundIdempotencyKey b) (b_refundRetryCount b) (b_refundLastError b) (b_createdAt b).
Definition set_b_cancelledAt (at_ : Z) (b : Booking) : Booking :=
  mkBooking (b_id b) (b_bookingNumber b) (b_userId b) (b_eventId b) (b_status b) (b_totalAmount b) (b_currency b)
    (b_expiresAt b) (b_confirmedAt b) (Some at_) (b_cancellationReason b) (b_refundState b)
    (b_refundIdempotencyKey b) (b_refundRetryCount b) (b_refundLastError b) (b_createdAt b).
Definition set_b_cancellationReason (r : string) (b : Booking) : Booking :=
  mkBooking (b_id b) (b_bookingNumber b) (b_userId b) (b_eventId b) (b_status b) (b_totalAmount b) (b_currency b)
    (b_expiresAt b) (b_confirmedAt b) (b_cancelledAt b) (Some r) (b_refundState b)
    (b_refundIdempotencyKey b) (b_refundRetryCount b) (b_refundLastError b) (b_createdAt b).
Definition set_b_refundState (st : RefundState.t) (b : Booking) : Booking :=
  mkBooking (b_id b) (b_bookingNumber b) (b_userId b) (b_eventId b) (b_status b) (b_totalAmount b) (b_currency b)
    (b_expiresAt b) (b_confirmedAt b) (b_cancelledAt b) (b_cancellationReason b) (Some st)
    (b_refundIdempotencyKey b) (b_refundRetryCount b) (b_refundLastError b) (b_createdAt b).
Definition set_b_refundIdempotencyKey (k : string) (b : Booking) : Booking :=
  mkBooking (b_id b) (b_bookingNumber b) (b_userId b) (b_eventId b) (b_status b) (b_totalAmount b) (b_currency b)
    (b_expiresAt b) (b_confirmedAt b) (b_cancelledAt b) (b_cancellationReason b) (b_refundState b)
    (Some k) (b_refundRetryCount b) (b_refundLastError b) (b_createdAt b).
Definition set_b_refundRetryCount (n : Z) (b : Booking) : Booking :=
  mkBooking (b_id b) (b_bookingNumber b) (b_userId b) (b_eventId b) (b_status b) (b_totalAmount b) (b_currency b)
    (b_expiresAt b) (b_confirmedAt b) (b_cancelledAt b) (b_cancellationReason b) (b_refundState b)
    (b_refundIdempotencyKey b) n (b_refundLastError b) (b_createdAt b).
Definition set_b_refundLastError (m : string) (b : Booking) : Booking :=
  mkBooking (b_id b) (b_bookingNumber b) (b_userId b) (b_eventId b) (b_status b) (b_totalAmount b) (b_currency b)
    (b_expiresAt b) (b_confirmedAt b) (b_cancelledAt b) (b_cancellationReason b) (b_refundState b)
    (b_refundIdempotencyKey b) (b_refundRetryCount b) (Some m) (b_createdAt b).

Definition set_o_status (st : OutboxStatus.t) (o : Outbox) : Outbox :=
  mkOutbox (o_id o) (o_aggregateType o) (o_aggregateId o) (o_eventType o) (o_payload o) st
    (o_retryCount o) (o_maxRetries o) (o_lastError o) (o_processedAt o) (o_createdAt o).
Definition set_o_processedAt (at_ : Z) (o : Outbox) : Outbox :=
  mkOutbox (o_id o) (o_aggregateType o) (o_aggregateId o) (o_eventType o) (o_payload o) (o_status o)
    (o_retryCount o) (o_maxRetries o) (o_lastError o) (Some at_) (o_createdAt o).
Definition set_o_retry (n : Z) (m : string) (o : Outbox) : Outbox :=
  mkOutbox (o_id o) (o_aggregateType o) (o_aggregateId o) (o_eventType o) (o_payload o) (o_status o)
    n (o_maxRetries o) (Some m) (o_processedAt o) (o_createdAt o).

Definition set_t_status (st : TicketStatus.t) (t : Ticket) : Ticket :=
  mkTicket (t_id t) (t_bookingId t) (t_seatId t) (t_bookingItemId t) (t_ticketCode t) (t_qrCodeData t) st
    (t_sectionName t) (t_row t) (t_seatNumber t) (t_attendeeName t) (t_attendeeEmail t) (t_checkedInAt t).
Definition set_t_checkedInAt (at_ : Z) (t : Ticket) : Ticket :=
  mkTicket (t_id t) (t_bookingId t) (t_seatId t) (t_bookingItemId t) (t_ticketCode t) (t_qrCodeData t) (t_status t)
    (t_sectionName t) (t_row t) (t_seatNumber t) (t_attendeeName t) (t_attendeeEmail t) (Some at_).

(** The arguments of the repositories' [create] and of [new BookingItem()]. *)
Record BookingData := mkBookingData {
  bd_bookingNumber : string;
  bd_userId : string;
  bd_eventId : string;
  bd_totalAmount : number;
  bd_currency : string;
  bd_expiresAt : Z;
  bd_status : BookingStatus.t;
}.

Record ItemData := mkItemData {
  id_bookingId : string;
  id_seatInventoryId : string;
  id_seatId : string;
  id_ticketTypeId : string;
  id_ticketTypeName : string;
  id_sectionName : string;
  id_row : string;
  id_seatNumber : string;
  id_unitPrice : number;
  id_attendeeName : option string;
  id_attendeeEmail : option string;
}.

Record OutboxData := mkOutboxData {
  od_aggregateType : string;
  od_aggregateId : string;
  od_eventType : string;
  od_payload : Payload;
  od_status : OutboxStatus.t;
}.

Record TicketData := mkTicketData {
  td_bookingId : string;
  td_bookingItemId : string;
  td_ticketCode : string;
  td_qrCodeData : string;
  td_status : TicketStatus.t;
  td_seatId : string;
  td_sectionName : string;
  td_row : string;
  td_seatNumber : string;
  td_attendeeName : option string;
  td_attendeeEmail : option string;
}.

(** dtos/create-booking.dto.ts *)
Record BookingItemDto := mkItemDto {
  it_seatId : string;
  it_attendeeName : option string;
  it_attendeeEmail : option string;
}.

Record CreateBookingDto := mkCreateBookingDto {
  cb_userId : string;
  cb_eventId : string;
  cb_sessionId : string;
  cb_cardToken : string;
  cb_paymentIdempotencyKey : string;
  cb_paymentProvider : option string;
  cb_items : list BookingItemDto;
}.

(** ** Messages *)

(** [kafkaClient.emit(topic, { key, value })] *)
Record BookingMessage := mkMessage { m_topic : string; m_key : string; m_value : Payload }.

(** ** Operations *)

(** The remote procedures.  An absent repeated field is [None]; an empty one is
    absent on the wire. *)
Inductive RpcE : Type -> Type :=
| GetSeatsByEvent (eventId : string) : RpcE (option (list SeatInfo))
| VerifyHold (eventId : string) (seatIds : list string) (userId : string) : RpcE bool
| InitiatePayment (req : InitiatePaymentRequest) : RpcE (option PaymentInfo)
| RefundPayment (bookingId idempotencyKey reason : string) : RpcE RefundPaymentResponse
| ReleaseSeats (eventId : string) (seatIds : list string) (userId reason : string) : RpcE bool
| ReleaseSoldSeats (eventId : string) (seatIds : list string) : RpcE bool
| MarkSeatsAsSold (eventId : string) (seatIds : list string) (userId : string) : RpcE bool.

Inductive BookingE : Type -> Type :=
| BNow : BookingE Z                                                    (* Date.now(), new Date() *)
| RandomUUID : BookingE string
| QrToDataURL (text : string) : BookingE string                        (* QRCode.toDataURL *)
| Rpc {X} (op : RpcE X) : BookingE (result X)                          (* firstValueFrom(client.method(...)) *)
| BEmit (m : BookingMessage) : BookingE unit                           (* kafkaClient.emit *)
| BookFindOne (p : Booking -> bool) : BookingE (option LoadedBooking)  (* with relations: ['items'] *)
| BookFind (p : Booking -> bool) : BookingE (list LoadedBooking)
| BookFindNewest (p : Booking -> bool) : BookingE (list LoadedBooking) (* order: { createdAt: 'DESC' } *)
| BookSave (b : Booking) : BookingE unit
| OutFindOldest (p : Outbox -> bool) (n : nat) : BookingE (list Outbox) (* order ASC, take: n *)
| OutSave (o : Outbox) : BookingE unit
| ItemFind (p : BookingItem -> bool) : BookingE (list BookingItem)
| TickFind (p : Ticket -> bool) : BookingE (list Ticket)
| TickFindOne (p : Ticket -> bool) : BookingE (option Ticket)
| TickInsert (ds : list TicketData) : BookingE (list Ticket)           (* ticketRepo.save(created) *)
| TickSave (t : Ticket) : BookingE unit
| TickUpdate (p : Ticket -> bool) (st : TicketStatus.t) : BookingE unit
| BQrConnect : BookingE unit
| BQrStart : BookingE unit
| BQrInsertBooking (d : BookingData) : BookingE Booking                (* manager.save(created) *)
| BQrSaveBooking (b : Booking) : BookingE unit                         (* manager.save(Booking, loaded) *)
| BQrInsertItems (ds : list ItemData) : BookingE unit
| BQrInsertOutbox (d : OutboxData) : BookingE unit
| BQrCommit : BookingE unit
| BQrRollback : BookingE unit
| BQrRelease : BookingE unit.

(** ** The view of the world *)

Record BookingTables := mkBookingTables {
  bookings : gmap string Booking;
  booking_items : gmap string BookingItem;
  outbox : gmap string Outbox;
  tickets : gmap string Ticket;
}.

(** Writes of an open transaction. *)
Inductive BookingWrite :=
| WBooking (row : Booking)
| WItems (l : list BookingItem)
| WOutbox (row : Outbox).

(** A remote procedure call and how it completed. *)
Inductive RpcCall :=
| CGetSeatsByEvent (eventId : string) (reply : result (option (list SeatInfo)))
| CVerifyHold (eventId : string) (seatIds : list string) (userId : string) (reply : result bool)
| CInitiatePayment (req : InitiatePaymentRequest) (reply : result (option PaymentInfo))
| CRefundPayment (bookingId idempotencyKey reason : string) (reply : result RefundPaymentResponse)
| CReleaseSeats (eventId : string) (seatIds : list string) (userId reason : string) (reply : result bool)
| CReleaseSoldSeats (eventId : string) (seatIds : list string) (reply : result bool)
| CMarkSeatsAsSold (eventId : string) (seatIds : list string) (userId : string) (reply : result bool).

Definition called {X} (op : RpcE X) : result X -> RpcCall :=
  match op with
  | GetSeatsByEvent e => CGetSeatsByEvent e
  | VerifyHold e s u => CVerifyHold e s u
  | InitiatePayment req => CInitiatePayment req
  | RefundPayment b k r => CRefundPayment b k r
  | ReleaseSeats e s u r => CReleaseSeats e s u r
  | ReleaseSoldSeats e s => CReleaseSoldSeats e s
  | MarkSeatsAsSold e s u => CMarkSeatsAsSold e s u
  end.

(** The committed tables, the open transaction, the remote calls, the messages
    handed to the Kafka client, and those of them the broker received, oldest
    first. *)
Record BookingView := mkBookingView {
  btables : BookingTables;
  btx : option (list BookingWrite);
  calls : list RpcCall;
  messages : list BookingMessage;
  arrived : list BookingMessage;
}.

Definition with_bookings (m : gmap string Booking) (t : BookingTables) : BookingTables :=
  mkBookingTables m (booking_items t) (outbox t) (tickets t).
Definition with_items (m : gmap string BookingItem) (t : BookingTables) : BookingTables :=
  mkBookingTables (bookings t) m (outbox t) (tickets t).
Definition with_outbox (m : gmap string Outbox) (t : BookingTables) : BookingTables :=
  mkBookingTables (bookings t) (booking_items t) m (tickets t).
Definition with_tickets (m : gmap string Ticket) (t : BookingTables) : BookingTables :=
  mkBookingTables (bookings t) (booking_items t) (outbox t) m.

Definition with_btables (t : BookingTables) (v : BookingView) : BookingView :=
  mkBookingView t (btx v) (calls v) (messages v) (arrived v).
Definition with_btx (o : option (list BookingWrite)) (v : BookingView) : BookingView :=
  mkBookingView (btables v) o (calls v) (messages v) (arrived v).
Definition with_call (c : RpcCall) (v : BookingView) : BookingView :=
  mkBookingView (btables v) (btx v) (calls v ++ [c]) (messages v) (arrived v).
(** The message [m] is handed over; [copies] of it reach the broker. *)
Definition with_message (m : BookingMessage) (copies : nat) (v : BookingView) : BookingView :=
  mkBookingView (btables v) (btx v) (calls v) (messages v ++ [m]) (arrived v ++ replicate copies m).

Definition apply_bwrite (t : BookingTables) (w : BookingWrite) : BookingTables :=
  match w with
  | WBooking row => with_bookings (<[b_id row := row]> (bookings t)) t
  | WItems l => with_items (upsert bi_id l (booking_items t)) t
  | WOutbox row => with_outbox (<[o_id row := row]> (outbox t)) t
  end.

Definition apply_bwrites (ws : list BookingWrite) (t : BookingTables) : BookingTables :=
  foldl apply_bwrite t ws.

(** A write through the query runner joins the open transaction; without one
    it is applied at once. *)
Definition bqr_write (w : BookingWrite) (v : BookingView) : BookingView :=
  match btx v with
  | Some ws => with_btx (Some (ws ++ [w])) v
  | None => with_btables (apply_bwrite (btables v) w) v
  end.

(** The tables as the query runner's connection sees them. *)
Definition bqr_tables (v : BookingView) : BookingTables :=
  match btx v with Some ws => apply_bwrites ws (btables v) | None => btables v end.

(** ** Documented behaviour *)

(** Inserted entities carry the data; the database adds the defaults. *)
Definition booking_created (d : BookingData) (b : Booking) : Prop :=
  b = mkBooking (b_id b) (bd_bookingNumber d) (bd_userId d) (bd_eventId d) (bd_status d)
        (DNum (bd_totalAmount d)) (bd_currency d) (bd_expiresAt d) None None None None None 0 None
        (b_createdAt b).

Definition item_created (d : ItemData) (i : BookingItem) : Prop :=
  exists t, i = mkBookingItem (bi_id i) (id_bookingId d) (id_seatInventoryId d) (id_seatId d)
        (id_ticketTypeId d) (id_ticketTypeName d) (id_sectionName d) (id_row d) (id_seatNumber d)
        (DText t) (id_attendeeName d) (id_attendeeEmail d).

Definition outbox_created (d : OutboxData) (o : Outbox) : Prop :=
  o = mkOutbox (o_id o) (od_aggregateType d) (od_aggregateId d) (od_eventType d) (od_payload d)
        (od_status d) 0 5 None None (o_createdAt o).

Definition ticket_created (d : TicketData) (t : Ticket) : Prop :=
  t = mkTicket (t_id t) (td_bookingId d) (td_seatId d) (td_bookingItemId d) (td_ticketCode d)
        (Some (td_qrCodeData d)) (td_status d) (td_sectionName d) (td_row d) (td_seatNumber d)
        (td_attendeeName d) (td_attendeeEmail d) None.

(** The row written for an entity: the text of the decimal stays when the
    column is unchanged, which it is in every update of this service. *)
Definition booking_row (old : option Booking) (b row : Booking) : Prop :=
  match old with
  | Some o => row = set_b_totalAmount (b_totalAmount o) b
  | None => exists t, row = set_b_totalAmount (DText t) b
  end.

(** The relation [items] of a booking. *)
Definition items_of (b : Booking) (i : BookingItem) : bool := String.eqb (bi_bookingId i) (b_id b).

Definition loaded (t : BookingTables) (l : LoadedBooking) : Prop :=
  selects (items_of (booking l)) (booking_items t) (items l).

Definition older (o o' : Outbox) : Prop := (o_createdAt o <= o_createdAt o')%Z.
Definition newer (b b' : LoadedBooking) : Prop := (b_createdAt (booking b') <= b_createdAt (booking b))%Z.

(** The unique index on [bookingNumber]. *)
Definition booking_conflict (number_ : string) (t : gmap string Booking) : Prop :=
  exists i b, t !! i = Some b /\ b_bookingNumber b = number_.

(** [kafkaClient.emit] returns an observable that is already connected; the
    code never subscribes to it, so no failure reaches the caller.  The message
    is handed over; it may be lost on the way to the broker ([copies = 0]) or,
    when the producer retries, arrive more than once. *)
Definition book_ok {X} (op : BookingE X) (v : BookingView) : X -> BookingView -> Prop :=
  match op with
  | BNow => fun _ v' => v' = v
  | RandomUUID => fun _ v' => v' = v
  | QrToDataURL _ => fun _ v' => v' = v
  | Rpc op => fun r v' => v' = with_call (called op r) v
  | BEmit m => fun _ v' => exists copies, v' = with_message m copies v
  | BookFindOne p => fun o v' => v' = v /\
      selects_one p (bookings (btables v)) (booking <$> o) /\
      match o with Some l => loaded (btables v) l | None => True end
  | BookFind p => fun l v' => v' = v /\
      selects p (bookings (btables v)) (map booking l) /\ Forall (loaded (btables v)) l
  | BookFindNewest p => fun l v' => v' = v /\
      selects p (bookings (btables v)) (map booking l) /\ Forall (loaded (btables v)) l /\ Sorted newer l
  | BookSave b => fun _ v' => exists row,
      booking_row (bookings (btables v) !! b_id b) b row /\
      v' = with_btables (with_bookings (<[b_id b := row]> (bookings (btables v))) (btables v)) v
  | OutFindOldest p n => fun l v' => v' = v /\ selects_first p older n (outbox (btables v)) l
  | OutSave o => fun _ v' =>
      v' = with_btables (with_outbox (<[o_id o := o]> (outbox (btables v))) (btables v)) v
  | ItemFind p => fun l v' => v' = v /\ selects p (booking_items (btables v)) l
  | TickFind p => fun l v' => v' = v /\ selects p (tickets (btables v)) l
  | TickFindOne p => fun o v' => v' = v /\ selects_one p (tickets (btables v)) o
  | TickInsert ds => fun l v' =>
      Forall2 ticket_created ds l /\ fresh_rows t_id l (tickets (btables v)) /\
      v' = with_btables (with_tickets (upsert t_id l (tickets (btables v))) (btables v)) v
  | TickSave t => fun _ v' =>
      v' = with_btables (with_tickets (<[t_id t := t]> (tickets (btables v))) (btables v)) v
  | TickUpdate p st => fun _ v' =>
      v' = with_btables (with_tickets (update_where p (set_t_status st) (tickets (btables v))) (btables v)) v
  | BQrConnect => fun _ v' => v' = v
  | BQrStart => fun _ v' => btx v = None /\ v' = with_btx (Some []) v
  | BQrInsertBooking d => fun b v' =>
      ~ booking_conflict (bd_bookingNumber d) (bookings (bqr_tables v)) /\ booking_created d b /\
      bookings (bqr_tables v) !! b_id b = None /\
      exists row, booking_row None b row /\ v' = bqr_write (WBooking row) v
  | BQrSaveBooking b => fun _ v' => exists row,
      booking_row (bookings (bqr_tables v) !! b_id b) b row /\ v' = bqr_write (WBooking row) v
  | BQrInsertItems ds => fun _ v' => exists l,
      Forall2 item_created ds l /\ fresh_rows bi_id l (booking_items (bqr_tables v)) /\
      v' = bqr_write (WItems l) v
  | BQrInsertOutbox d => fun _ v' => exists o,
      outbox_created d o /\ outbox (bqr_tables v) !! o_id o = None /\ v' = bqr_write (WOutbox o) v
  | BQrCommit => fun _ v' => exists ws, btx v = Some ws /\
      v' = with_btables (apply_bwrites ws (btables v)) (with_btx None v)
  | BQrRollback => fun _ v' => btx v <> None /\ v' = with_btx None v
  | BQrRelease => fun _ v' => v' = with_btx None v
  end.

Definition book_rejects {X} (op : BookingE X) (v : BookingView) : Prop :=
  match op with
  | BQrInsertBooking d =>
      booking_conflict (bd_bookingNumber d) (bookings (bqr_tables v)) \/ unstorable (bd_totalAmount d)
  | BQrInsertItems ds => exists d, d ∈ ds /\ unstorable (id_unitPrice d)
  | BQrStart => btx v <> None                  (* TransactionAlreadyStartedError *)
  | BQrCommit | BQrRollback => btx v = None    (* TransactionNotStartedError *)
  | _ => False
  end.

Definition book_fallible {X} (op : BookingE X) : Prop :=
  match op with
  | BNow | RandomUUID | Rpc _ | BEmit _ | BQrRelease => False
  | _ => True
  end.

Definition book_behaviour : behaviour BookingE BookingView :=
  {| ok := @book_ok; rejects := @book_rejects; fallible := @book_fallible |}.

(** ** Well-formed views *)

Record booking_wf (v : BookingView) : Prop := {
  wf_bookings : keyed b_id (bookings (btables v));
  wf_items : keyed bi_id (booking_items (btables v));
  wf_outbox : keyed o_id (outbox (btables v));
  wf_tickets : keyed t_id (tickets (btables v));
  wf_item_booking : forall j i, booking_items (btables v) !! j = Some i ->
    is_Some (bookings (btables v) !! bi_bookingId i);   (* the foreign key *)
  wf_no_tx : btx v = None;
}.

Ltac book_sem H :=
  cbn [obeys ok rejects fallible book_behaviour book_ok book_rejects book_fallible] in H.

(** ** What was sent *)

(** The calls made while the view went from [v] to [v']. *)
Definition new_calls (v v' : BookingView) : list RpcCall := drop (length (calls v)) (calls v').

(** The messages handed to the Kafka client, and those the broker received. *)
Definition new_messages (v v' : BookingView) : list BookingMessage := drop (length (messages v)) (messages v').

Definition new_arrived (v v' : BookingView) : list BookingMessage := drop (length (arrived v)) (arrived v').

(** Calls and messages are only ever added, and nothing arrives that was not
    handed over. *)
Definition grows (v v' : BookingView) : Prop :=
  exists cs ms got, calls v' = calls v ++ cs /\ messages v' = messages v ++ ms /\
    arrived v' = arrived v ++ got /\ got ⊆ ms.

Lemma grows_refl v : grows v v.
Proof. exists [], [], []. by rewrite !app_nil_r. Qed.

Lemma grows_trans v1 v2 v3 : grows v1 v2 -> grows v2 v3 -> grows v1 v3.
Proof.
  intros (c1 & m1 & g1 & Hc1 & Hm1 & Hg1 & H1) (c2 & m2 & g2 & Hc2 & Hm2 & Hg2 & H2).
  exists (c1 ++ c2), (m1 ++ m2), (g1 ++ g2). rewrite Hc2, Hm2, Hg2, Hc1, Hm1, Hg1, !app_assoc.
  split_and!; [done..|]. set_solver.
Qed.

Lemma grows_new v v' : grows v v' -> calls v' = calls v ++ new_calls v v' /\ messages v' = messages v ++ new_messages v v'.
Proof. intros (cs & ms & got & Hc & Hm & _). unfold new_calls, new_messages. by rewrite Hc, Hm, !drop_app_length. Qed.

Lemma grows_arrived v v' : grows v v' -> new_arrived v v' ⊆ new_messages v v'.
Proof. intros (cs & ms & got & _ & Hm & Hg & H). unfold new_arrived, new_messages. by rewrite Hm, Hg, !drop_app_length. Qed.

Lemma grows_call v c : grows v (with_call c v).
Proof. exists [c], [], []. by rewrite !app_nil_r. Qed.

Lemma grows_message v m copies : grows v (with_message m copies v).
Proof.
  exists [], [m], (replicate copies m). rewrite app_nil_r. split_and!; [done..|]. cbn.
  intros x [-> _]%elem_of_replicate. left.
Qed.

(** What was sent in two stages is what was sent in each. *)
Lemma new_sent_app v1 v2 v3 :
  grows v1 v2 -> grows v2 v3 ->
  new_calls v1 v3 = new_calls v1 v2 ++ new_calls v2 v3 /\
  new_messages v1 v3 = new_messages v1 v2 ++ new_messages v2 v3.
Proof.
  intros H1 H2. destruct (grows_new _ _ H1) as [Hc1 Hm1], (grows_new _ _ H2) as [Hc2 Hm2],
    (grows_new _ _ (grows_trans _ _ _ H1 H2)) as [Hc3 Hm3].
  rewrite Hc1, Hc3, <- app_assoc in Hc2. rewrite Hm1, Hm3, <- app_assoc in Hm2.
  by apply app_inv_head in Hc2, Hm2.
Qed.
