(* ===== verification/BookingRef.v ===== *)
(** * A reference environment for the booking service

    A deterministic implementation of the operations of BookingWorld, in which
    the remote procedures answer as a function [answer] says, and the same with
    scripted failures.  Only the witnesses run it. *)

From stdpp Require Import sorting.
From S2P Require Import Prelude Messages Effects JsNumber Json Sql BookingWorld.

Definition make_booking (now : Z) (id : string) (d : BookingData) : Booking :=
  mkBooking id (bd_bookingNumber d) (bd_userId d) (bd_eventId d) (bd_status d) (DNum (bd_totalAmount d))
    (bd_currency d) (bd_expiresAt d) None None None None None 0 None now.

Definition make_item (id : string) (d : ItemData) : BookingItem :=
  mkBookingItem id (id_bookingId d) (id_seatInventoryId d) (id_seatId d) (id_ticketTypeId d)
    (id_ticketTypeName d) (id_sectionName d) (id_row d) (id_seatNumber d)
    (DText (num_to_string (id_unitPrice d))) (id_attendeeName d) (id_attendeeEmail d).

Definition make_outbox (now : Z) (id : string) (d : OutboxData) : Outbox :=
  mkOutbox id (od_aggregateType d) (od_aggregateId d) (od_eventType d) (od_payload d) (od_status d)
    0 5 None None now.

Definition make_ticket (id : string) (d : TicketData) : Ticket :=
  mkTicket id (td_bookingId d) (td_seatId d) (td_bookingItemId d) (td_ticketCode d) (Some (td_qrCodeData d))
    (td_status d) (td_sectionName d) (td_row d) (td_seatNumber d) (td_attendeeName d) (td_attendeeEmail d) None.

Definition stored_booking (old : option Booking) (b : Booking) : Booking :=
  match old with
  | Some o => set_b_totalAmount (b_totalAmount o) b
  | None => set_b_totalAmount (DText (decimal_string (b_totalAmount b))) b
  end.

Definition booking_conflictb (n : string) (t : gmap string Booking) : bool :=
  existsb (fun b => String.eqb (b_bookingNumber b) n) (rows t).

Definition load (t : BookingTables) (b : Booking) : LoadedBooking :=
  mkLoaded b (List.filter (items_of b) (rows (booking_items t))).

#[global] Instance older_dec : RelDecision older := fun o o' => Z_le_dec _ _.
#[global] Instance newer_dec : RelDecision newer := fun b b' => Z_le_dec _ _.
#[global] Instance older_total : Total older.
Proof. intros x y. unfold older. lia. Qed.
#[global] Instance newer_total : Total newer.
Proof. intros x y. unfold newer. lia. Qed.

(** The view and the clock. *)
Definition BookingRefWorld : Type := BookingView * Z.

Section Run.
Variable answer : forall X, RpcE X -> result X.

Definition new_id {R} (t : gmap string R) : string := List.hd ""%string (new_ids t 1).

Definition book_run (X : Type) (op : BookingE X) (w : BookingRefWorld) : result X * BookingRefWorld :=
  let '(v, now) := w in
  let t := btables v in
  match op in BookingE X return result X * BookingRefWorld with
  | BNow => (Ok now, w)
  | RandomUUID => (Ok "9b1deb4d-3b7d-4bad-9bdd-2b0d7b3dcb6d"%string, w)
  | QrToDataURL text => (Ok ("data:image/png;base64," +:+ text), w)
  | Rpc op => (Ok (answer _ op), (with_call (called op (answer _ op)) v, now))
  | BEmit m => (Ok tt, (with_message m 1 v, now))
  | BookFindOne p => (Ok (load t <$> List.find p (rows (bookings t))), w)
  | BookFind p => (Ok (map (load t) (List.filter p (rows (bookings t)))), w)
  | BookFindNewest p => (Ok (merge_sort newer (map (load t) (List.filter p (rows (bookings t))))), w)
  | BookSave b =>
      (Ok tt, (with_btables (with_bookings (<[b_id b := stored_booking (bookings t !! b_id b) b]> (bookings t)) t) v, now))
  | OutFindOldest p n => (Ok (take n (merge_sort older (List.filter p (rows (outbox t))))), w)
  | OutSave o => (Ok tt, (with_btables (with_outbox (<[o_id o := o]> (outbox t)) t) v, now))
  | ItemFind p => (Ok (List.filter p (rows (booking_items t))), w)
  | TickFind p => (Ok (List.filter p (rows (tickets t))), w)
  | TickFindOne p => (Ok (List.find p (rows (tickets t))), w)
  | TickInsert ds =>
      let l := zip_with make_ticket (new_ids (tickets t) (length ds)) ds in
      (Ok l, (with_btables (with_tickets (upsert t_id l (tickets t)) t) v, now))
  | TickSave k => (Ok tt, (with_btables (with_tickets (<[t_id k := k]> (tickets t)) t) v, now))
  | TickUpdate p st =>
      (Ok tt, (with_btables (with_tickets (update_where p (set_t_status st) (tickets t)) t) v, now))
  | BQrConnect => (Ok tt, w)
  | BQrStart =>
      match btx v with
      | None => (Ok tt, (with_btx (Some []) v, now))
      | Some _ => (Err (JsError "TransactionAlreadyStartedError"), w)
      end
  | BQrInsertBooking d =>
      if booking_conflictb (bd_bookingNumber d) (bookings (bqr_tables v)) || unstorableb (bd_totalAmount d)
      then (Err (JsError "QueryFailedError"), w)
      else
        let b := make_booking now (new_id (bookings (bqr_tables v))) d in
        (Ok b, (bqr_write (WBooking (stored_booking None b)) v, now))
  | BQrSaveBooking b =>
      (Ok tt, (bqr_write (WBooking (stored_booking (bookings (bqr_tables v) !! b_id b) b)) v, now))
  | BQrInsertItems ds =>
      let l := zip_with make_item (new_ids (booking_items (bqr_tables v)) (length ds)) ds in
      (Ok tt, (bqr_write (WItems l) v, now))
  | BQrInsertOutbox d =>
      (Ok tt, (bqr_write (WOutbox (make_outbox now (new_id (outbox (bqr_tables v))) d)) v, now))
  | BQrCommit =>
      match btx v with
      | Some ws => (Ok tt, (with_btables (apply_bwrites ws t) (with_btx None v), now))
      | None => (Err (JsError "TransactionNotStartedError"), w)
      end
  | BQrRollback =>
      match btx v with
      | Some _ => (Ok tt, (with_btx None v, now))
      | None => (Err (JsError "TransactionNotStartedError"), w)
      end
  | BQrRelease => (Ok tt, (with_btx None v, now))
  end.

Definition book_io (X : Type) (op : BookingE X) : bool :=
  match op with BNow | RandomUUID | Rpc _ | BEmit _ | BQrRelease => false | _ => true end.

Definition book_flaky := flaky book_run book_io.
Definition book_view (w : BookingRefWorld) : BookingView := w.1.
Definition book_flaky_view (w : BookingRefWorld * list bool) : BookingView := book_view w.1.

(** ** Conformance *)

Lemma booking_conflictb_spec n t : booking_conflictb n t = true <-> booking_conflict n t.
Proof.
  unfold booking_conflictb, booking_conflict. rewrite existsb_exists. split.
  - intros (b & Hin%list_elem_of_In%elem_of_rows_lookup & Hk%String.eqb_eq). destruct Hin as [i Hi]. eauto.
  - intros (i & b & Hi & Hk). exists b. split; [|by apply String.eqb_eq].
    apply list_elem_of_In. by eapply rows_lookup.
Qed.

Lemma map_booking_load t l : map booking (map (load t) l) = l.
Proof. rewrite map_map. apply map_id. Qed.

Lemma loaded_load t b : loaded t (load t b).
Proof. apply Permutation_refl. Qed.

Lemma Forall_loaded t l : Forall (loaded t) (map (load t) l).
Proof. apply Forall_forall. intros x (b & -> & _)%list_elem_of_fmap. apply loaded_load. Qed.

Lemma stored_booking_row old b : booking_row old b (stored_booking old b).
Proof. destruct old; [done|by eexists]. Qed.

Lemma book_run_conforms : conforms Reliable book_behaviour book_run book_view.
Proof.
  intros X op [v now]. cbn [book_view fst]. destruct op; cbn; try done;
    try (split; [done|by (apply Permutation_refl || apply find_selects_one)]);
    try (eexists; split; [apply stored_booking_row|done]).
  - by eexists.
  - split; [done|]. pose proof (find_selects_one p (bookings (btables v))) as Hf.
    destruct (List.find p (rows (bookings (btables v)))) as [b|]; (split; [exact Hf|]); [apply loaded_load|done].
  - split_and!; [done| |apply Forall_loaded]. rewrite map_booking_load. apply Permutation_refl.
  - split_and!; [done| | |apply Sorted_merge_sort; apply _].
    + unfold selects. rewrite merge_sort_Permutation, map_booking_load. done.
    + rewrite merge_sort_Permutation. apply Forall_loaded.
  - split; [done|]. eexists. split; [|done]. split; [apply merge_sort_Permutation|apply Sorted_merge_sort; apply _].
  - destruct (zip_make make_ticket t_id ticket_created (new_ids (tickets (btables v)) (length ds)) ds)
      as [H1 H2]; [done..|apply new_ids_length|]. split_and!; [done| |done]. by eapply new_ids_fresh_rows.
  - destruct (btx v) eqn:Ht; cbn; [|done]. split; [done|]. left. congruence.
  - destruct (booking_conflictb _ _) eqn:Hc; cbn.
    { split; [done|]. left. left. by apply booking_conflictb_spec. }
    destruct (unstorableb _) eqn:Hu; cbn.
    { split; [done|]. left. right. by apply unstorableb_spec. }
    split_and!; [rewrite <- booking_conflictb_spec; congruence|done|apply new_id_fresh|].
    eexists. split; [|done]. by eexists.
  - destruct (zip_make make_item bi_id item_created (new_ids (booking_items (bqr_tables v)) (length ds)) ds)
      as [H1 H2]; [done|by eexists|apply new_ids_length|]. eexists. split_and!; [done| |done].
    by eapply new_ids_fresh_rows.
  - exists (make_outbox now (new_id (outbox (bqr_tables v))) d). split; [done|]. split; [apply new_id_fresh|done].
  - destruct (btx v) eqn:Ht; cbn; [by eauto|]. split; [done|]. by left.
  - destruct (btx v) eqn:Ht; cbn; [split; [congruence|done]|]. split; [done|]. by left.
Qed.

(** The same with a broker that receives nothing. *)
Definition book_lossy (X : Type) (op : BookingE X) (w : BookingRefWorld) : result X * BookingRefWorld :=
  match op in BookingE X return result X * BookingRefWorld with
  | BEmit m => (Ok tt, (with_message m 0 w.1, w.2))
  | op => book_run _ op w
  end.

Lemma book_lossy_conforms : conforms Reliable book_behaviour book_lossy book_view.
Proof.
  intros X op w. destruct op; try apply book_run_conforms. cbn. by eexists.
Qed.

Lemma book_flaky_conforms : conforms Faulty book_behaviour book_flaky book_flaky_view.
Proof.
  apply (flaky_conforms book_run book_io book_behaviour book_view); [|apply book_run_conforms].
  by intros X [].
Qed.
End Run.

(** ** Concrete worlds *)

Definition booking_world (bs : list Booking) (its : list BookingItem) (os : list Outbox) (ts : list Ticket)
    (now : Z) : BookingRefWorld :=
  (mkBookingView (mkBookingTables (upsert b_id bs ∅) (upsert bi_id its ∅) (upsert o_id os ∅) (upsert t_id ts ∅))
     None [] [] [], now).

Definition item_has_booking (bs : list Booking) (i : BookingItem) : bool :=
  existsb (fun b => String.eqb (b_id b) (bi_bookingId i)) bs.

Lemma booking_world_wf bs its os ts now :
  bool_decide (NoDup (map b_id bs)) && bool_decide (NoDup (map bi_id its)) &&
    forallb (item_has_booking bs) its = true ->
  booking_wf (book_view (booking_world bs its os ts now)).
Proof.
  intros [[Hb%bool_decide_eq_true Hi%bool_decide_eq_true]%andb_true_iff Hall]%andb_true_iff.
  split; cbn; try (apply upsert_keyed, keyed_empty); [|done].
  intros j i Hj. assert (fresh_rows bi_id its ∅) as Hf by (split; [done|by intros]).
  apply upsert_fresh_inv in Hj as [Hj|[Hj _]]; [by rewrite lookup_empty in Hj| |done].
  rewrite forallb_forall in Hall. apply list_elem_of_In, Hall in Hj. unfold item_has_booking in Hj.
  apply existsb_exists in Hj as (b & Hin%list_elem_of_In & <-%String.eqb_eq). exists b. by apply upsert_in.
Qed.

(** The services answer as they do when all goes well; the seats A1 and A2 of
    the event are held. *)
Definition held_seat (seatId price : string) : SeatInfo :=
  mkSeatInfo ("row-" +:+ seatId) "ev" seatId "sec-A" "Orchestra" "tt-1" "Standard" price "TRY" "A" seatId "standard" "held".

Definition good_answer (X : Type) (op : RpcE X) : result X :=
  match op with
  | GetSeatsByEvent _ => Ok (Some [held_seat "A1" "149.90"; held_seat "A2" "149.90"; held_seat "A3" "99"])
  | VerifyHold _ _ _ => Ok true
  | InitiatePayment req =>
      Ok (Some (mkPaymentInfo "p1" (ipr_bookingId req) (ipr_idempotencyKey req) (num_to_string (ipr_amount req))
                  (ipr_currency req) (ipr_method req) "succeeded" "stripe" "pi_1" "" ""))
  | RefundPayment _ _ _ => Ok (mkRefundResponse true "r1" "")
  | ReleaseSeats _ _ _ _ => Ok true
  | ReleaseSoldSeats _ _ => Ok true
  | MarkSeatsAsSold _ _ _ => Ok true
  end.

Definition empty_bookings : BookingRefWorld := booking_world [] [] [] [] 1700000000000.

Lemma empty_bookings_wf : booking_wf (book_view empty_bookings).
Proof. by apply booking_world_wf. Qed.

Definition demo_booking_dto : CreateBookingDto :=
  mkCreateBookingDto "u1" "ev" "sess-1" "pm_card_visa" "pay-1" None
    [mkItemDto "A1" (Some "Ada"%string) None; mkItemDto "A2" None None].

(** A confirmed booking of two seats with its tickets. *)
Definition demo_booking (st : BookingStatus.t) (rs : option RefundState.t) (retries : Z) : Booking :=
  mkBooking "b1" "BK-1" "u1" "ev" st (DText "299.80") "TRY" 1700000600000 (Some 1700000000000%Z) None None rs
    (Some "key-1"%string) retries None 1700000000000.

Definition demo_item (id seatId : string) : BookingItem :=
  mkBookingItem id "b1" ("row-" +:+ seatId) seatId "tt-1" "Standard" "Orchestra" "A" seatId (DText "149.90") None None.

Definition demo_ticket (id seatId code : string) (st : TicketStatus.t) : Ticket :=
  mkTicket id "b1" seatId ("i-" +:+ seatId) code None st "Orchestra" "A" seatId None None None.

Definition booked (rs : option RefundState.t) (retries : Z) : BookingRefWorld :=
  booking_world [demo_booking BookingStatus.CONFIRMED rs retries] [demo_item "i1" "A1"; demo_item "i2" "A2"] []
    [demo_ticket "t1" "A1" "TK-1" TicketStatus.ACTIVE; demo_ticket "t2" "A2" "TK-2" TicketStatus.USED] 1700000100000.

Lemma booked_wf rs retries : booking_wf (book_view (booked rs retries)).
Proof. by apply booking_world_wf. Qed.
