(* ===== verification/Tickets.v ===== *)
(** * Tickets

    apps/booking-service/src/ticket/ticket.service.ts: issuing a booking's
    tickets, finding them, checking in and cancelling. *)

From S2P Require Import Prelude Effects JsNumber Json Sql BookingWorld BookingRef.

Section Service.
Context {S : Type}.

Definition of_booking (bookingId : string) (t : Ticket) : bool := String.eqb (t_bookingId t) bookingId.
Definition item_of_booking (bookingId : string) (i : BookingItem) : bool := String.eqb (bi_bookingId i) bookingId.
Definition has_code (ticketCode : string) (t : Ticket) : bool := String.eqb (t_ticketCode t) ticketCode.
Definition active_of (bookingId : string) (t : Ticket) : bool :=
  String.eqb (t_bookingId t) bookingId && bool_decide (t_status t = TicketStatus.ACTIVE).

Definition generateTicketCode : prog S BookingE string :=
  now <- call BNow ;;
  uuid <- call RandomUUID ;;
  Ret ("TK-" +:+ to_base36_upper now +:+ "-" +:+ toUpperCase (slice0 6 uuid)).

(** A nullable string as JSON. *)
Definition json_of_opt (o : option string) : json :=
  match o with Some s => JStr s | None => JNull end.

Definition qrPayload (ticketCode bookingId : string) (bookingItem : BookingItem) : json :=
  JObj [("ticketCode", JStr ticketCode); ("bookingId", JStr bookingId); ("seatId", JStr (bi_seatId bookingItem));
        ("row", JStr (bi_row bookingItem)); ("seatNumber", JStr (bi_seatNumber bookingItem));
        ("attendeeName", json_of_opt (bi_attendeeName bookingItem))]%string.

Definition ticketData (bookingId ticketCode qrCodeData : string) (bookingItem : BookingItem) : TicketData :=
  mkTicketData bookingId (bi_id bookingItem) ticketCode qrCodeData TicketStatus.ACTIVE (bi_seatId bookingItem)
    (bi_sectionName bookingItem) (bi_row bookingItem) (bi_seatNumber bookingItem)
    (bi_attendeeName bookingItem) (bi_attendeeEmail bookingItem).

(** The loop over the items. *)
Fixpoint build_tickets (bookingId : string) (bookingItems : list BookingItem) :
    prog S BookingE (list TicketData) :=
  match bookingItems with
  | [] => Ret []
  | bookingItem :: rest =>
      ticketCode <- generateTicketCode ;;
      qrCodeData <- call (QrToDataURL (stringify (qrPayload ticketCode bookingId bookingItem))) ;;
      tickets <- build_tickets bookingId rest ;;
      Ret (ticketData bookingId ticketCode qrCodeData bookingItem :: tickets)
  end.

Definition generateTicket (bookingId : string) : prog S BookingE (list Ticket) :=
  existing <- call (TickFind (of_booking bookingId)) ;;
  if Nat.ltb 0 (length existing) then Ret existing
  else
    bookingItems <- call (ItemFind (item_of_booking bookingId)) ;;
    if Nat.eqb (length bookingItems) 0 then Ret []
    else
      tickets <- build_tickets bookingId bookingItems ;;
      call (TickInsert tickets).

Definition findByBooking (bookingId : string) : prog S BookingE (list Ticket) :=
  call (TickFind (of_booking bookingId)).

Definition findByCode (ticketCode : string) : prog S BookingE (option Ticket) :=
  call (TickFindOne (has_code ticketCode)).

Definition checkIn (ticketCode : string) : prog S BookingE Ticket :=
  ticket <- findByCode ticketCode ;;
  match ticket with
  | None => Throw (NotFoundException ("Ticket with code " +:+ ticketCode +:+ " not found"))
  | Some ticket =>
      if bool_decide (t_status ticket = TicketStatus.USED) then
        Throw (BadRequestException ("Ticket with code " +:+ ticketCode +:+ " has already been used"))
      else if bool_decide (t_status ticket = TicketStatus.CANCELLED) then
        Throw (BadRequestException ("Ticket with code " +:+ ticketCode +:+ " has been cancelled"))
      else
        now <- call BNow ;;
        let ticket := set_t_checkedInAt now (set_t_status TicketStatus.USED ticket) in
        call (TickSave ticket) ;;
        Ret ticket
  end.

Definition cancelByBooking (bookingId : string) : prog S BookingE unit :=
  call (TickUpdate (active_of bookingId) TicketStatus.CANCELLED).
End Service.

(** ** Specification *)

(** The ticket issued for an item. *)
Definition issued_for (bookingId : string) (i : BookingItem) (t : Ticket) : Prop :=
  t = mkTicket (t_id t) bookingId (bi_seatId i) (bi_id i) (t_ticketCode t) (t_qrCodeData t) TicketStatus.ACTIVE
        (bi_sectionName i) (bi_row i) (bi_seatNumber i) (bi_attendeeName i) (bi_attendeeEmail i) None.

(** The view with other tickets. *)
Definition ticket_view (m : gmap string Ticket) (v : BookingView) : BookingView :=
  with_btables (with_tickets m (btables v)) v.

(** [l] is one ticket per item of the booking, and the tickets are inserted. *)
Definition tickets_issued (bookingId : string) (l : list Ticket) (v v' : BookingView) : Prop :=
  exists is_, selects (item_of_booking bookingId) (booking_items (btables v)) is_ /\ is_ <> [] /\
    Forall2 (issued_for bookingId) is_ l /\ fresh_rows t_id l (tickets (btables v)) /\
    v' = ticket_view (upsert t_id l (tickets (btables v))) v.

(** ** Proofs *)

Section Proofs.
Context {S : Type} (md : mode).
Implicit Types (s : S) (v : BookingView).
Abbreviation spec := (obeys md book_behaviour).

(** A call either completes as specified or throws without effect. *)
Lemma book_call_wp {X} (op : BookingE X) (Q : result X -> S -> BookingView -> Prop) s v :
  (forall x v', book_ok op v x v' -> Q (Ok x) s v') ->
  (forall e, book_rejects op v \/ (md = Faulty /\ book_fallible op) -> Q (Err e) s v) ->
  wp spec (call op) Q s v.
Proof.
  intros HO HE. apply wp_call. intros [x|e] v' H; book_sem H; [by apply HO|]. destruct H as [-> H]. by apply HE.
Qed.

(** The loop has no effect; it fails when the QR library does. *)
Lemma build_tickets_wp bookingId l (Q : result (list TicketData) -> S -> BookingView -> Prop) s v :
  (forall ds, Forall2 (fun i d => d = ticketData bookingId (td_ticketCode d) (td_qrCodeData d) i) l ds ->
     Q (Ok ds) s v) ->
  (forall e, md = Faulty -> Q (Err e) s v) ->
  wp spec (build_tickets bookingId l) Q s v.
Proof.
  intros HO HE. revert Q HO HE. induction l as [|i l IH]; intros Q HO HE; cbn [build_tickets].
  { apply HO. constructor. }
  unfold generateTicketCode. do 2 wp_step. apply book_call_wp; [|by intros e [[]|[_ []]]].
  intros now v' ->. wp_step. apply book_call_wp; [|by intros e [[]|[_ []]]]. intros uuid v' ->. wp_step. wp_step.
  apply book_call_wp; [|by intros e [[]|[Hm _]]; apply HE]. intros qr v' ->. wp_step. apply IH; [|done].
  intros ds Hds. wp_step. apply HO. by constructor.
Qed.

Lemma issued_created bookingId l ds ts :
  Forall2 (fun i d => d = ticketData bookingId (td_ticketCode d) (td_qrCodeData d) i) l ds ->
  Forall2 ticket_created ds ts -> Forall2 (issued_for bookingId) l ts.
Proof.
  intros H. revert ts. induction H as [|i d l ds Hd Hds IH]; intros ts Ht; inversion Ht as [|d' t ds' ts' Hc Hcs];
    subst; constructor; [|by apply IH].
  unfold issued_for, ticket_created in *. rewrite Hc, Hd. done.
Qed.

Lemma generateTicket_wp bookingId (Q : result (list Ticket) -> S -> BookingView -> Prop) s v :
  (forall l, selects (of_booking bookingId) (tickets (btables v)) l -> l <> [] -> Q (Ok l) s v) ->
  (selects (of_booking bookingId) (tickets (btables v)) [] ->
   selects (item_of_booking bookingId) (booking_items (btables v)) [] -> Q (Ok []) s v) ->
  (forall l v', selects (of_booking bookingId) (tickets (btables v)) [] ->
     tickets_issued bookingId l v v' -> Q (Ok l) s v') ->
  (forall e, md = Faulty -> Q (Err e) s v) ->
  wp spec (generateTicket bookingId) Q s v.
Proof.
  intros HX H0 HN HE. unfold generateTicket. wp_step.
  apply book_call_wp; [|by intros e [[]|[Hm _]]; apply HE]. intros l v' [-> Hl].
  destruct l as [|t l]; cbn [length Nat.ltb Nat.leb]; [|by wp_step; apply HX].
  wp_step. apply book_call_wp; [|by intros e [[]|[Hm _]]; apply HE]. intros is_ v' [-> Hi].
  destruct is_ as [|i is_]; cbn [length Nat.eqb]; [by wp_step; apply H0|].
  wp_step. apply build_tickets_wp; [|done]. intros ds Hds.
  apply book_call_wp; [|by intros e [[]|[Hm _]]; apply HE]. intros ts v' (Hc & Hf & ->).
  apply HN; [done|]. exists (i :: is_). split_and!; try done. by eapply issued_created.
Qed.

Lemma checkIn_wp code (Q : result Ticket -> S -> BookingView -> Prop) s v :
  (forall t now, t ∈ rows (tickets (btables v)) -> t_ticketCode t = code ->
     t_status t <> TicketStatus.USED -> t_status t <> TicketStatus.CANCELLED ->
     let t' := set_t_checkedInAt now (set_t_status TicketStatus.USED t) in
     Q (Ok t') s (ticket_view (<[t_id t := t']> (tickets (btables v))) v)) ->
  (forall e, md = Faulty -> Q (Err e) s v) ->
  ((forall t, t ∈ rows (tickets (btables v)) -> t_ticketCode t <> code) ->
   Q (Err (NotFoundException ("Ticket with code " +:+ code +:+ " not found"))) s v) ->
  (forall t, t ∈ rows (tickets (btables v)) -> t_ticketCode t = code -> t_status t = TicketStatus.USED ->
     Q (Err (BadRequestException ("Ticket with code " +:+ code +:+ " has already been used"))) s v) ->
  (forall t, t ∈ rows (tickets (btables v)) -> t_ticketCode t = code -> t_status t = TicketStatus.CANCELLED ->
     Q (Err (BadRequestException ("Ticket with code " +:+ code +:+ " has been cancelled"))) s v) ->
  wp spec (checkIn code) Q s v.
Proof.
  intros HO HE HN HU HC. unfold checkIn, findByCode. wp_step.
  apply book_call_wp; [|by intros e [[]|[Hm _]]; apply HE]. intros [t|] v' [-> Ht]; cbn in Ht.
  - destruct Ht as [Hin Hcode%String.eqb_eq].
    case_bool_decide as Hu; [by wp_step; eapply HU|]. case_bool_decide as Hc; [by wp_step; eapply HC|].
    wp_step. apply book_call_wp; [|by intros e [[]|[_ []]]]. intros now v' ->.
    wp_step. apply book_call_wp; [|by intros e [[]|[Hm _]]; apply HE]. intros [] v' ->. wp_step.
    by apply HO.
  - wp_step. apply HN. intros t Hin Hcode. apply Ht in Hin. unfold has_code in Hin.
    by rewrite Hcode, String.eqb_refl in Hin.
Qed.
End Proofs.

Lemma issued_of_booking bookingId is_ l t :
  Forall2 (issued_for bookingId) is_ l -> t ∈ l -> of_booking bookingId t = true.
Proof.
  intros H. induction H as [|i t' is_ l Hi His IH]; intros Ht; [by apply elem_of_nil in Ht|].
  apply elem_of_cons in Ht as [->|Ht]; [|by apply IH]. unfold of_booking. rewrite Hi. apply String.eqb_refl.
Qed.

Lemma issued_active bookingId is_ l t :
  Forall2 (issued_for bookingId) is_ l -> t ∈ l -> t_status t = TicketStatus.ACTIVE.
Proof.
  intros H. induction H as [|i t' is_ l Hi His IH]; intros Ht; [by apply elem_of_nil in Ht|].
  apply elem_of_cons in Ht as [->|Ht]; [|by apply IH]. rewrite Hi. done.
Qed.

(** ** Properties *)

Section Properties.
Context {S W : Type} (h : forall X, BookingE X -> W -> result X * W) (view : W -> BookingView).
Variable md : mode.
Hypothesis Hh : conforms md book_behaviour h view.
Implicit Types (s : S) (w : W).

(** Tickets are issued once per booking, one active ticket per booked seat:
    a call returns the tickets the booking already has, or inserts exactly one
    ACTIVE ticket for every item in one write, or does nothing (no items, or a
    failed operation). *)
Theorem generateTicket_spec bookingId s w :
  let v := view w in
  let v' := view (final h (generateTicket bookingId) s w) in
  match outcome h (generateTicket bookingId) s w with
  | Ok [] => v' = v /\ selects (item_of_booking bookingId) (booking_items (btables v)) []
  | Ok l => (v' = v /\ selects (of_booking bookingId) (tickets (btables v)) l) \/
            (selects (of_booking bookingId) (tickets (btables v)) [] /\ tickets_issued bookingId l v v')
  | Err _ => v' = v /\ md = Faulty
  end.
Proof.
  cbn zeta. call_wp Hh w. apply generateTicket_wp.
  - intros [|t l] Hl Hne; [done|]. by left.
  - done.
  - intros [|t l] v' Hn Hi; [|by right].
    destruct Hi as (is_ & _ & Hne & Hl & _). apply Forall2_length in Hl. by destruct is_.
  - done.
Qed.

(** C31: Issuing is idempotent, so the outbox may deliver booking.confirmed more
    than once: after a call that returned tickets, every later call changes
    nothing and returns the same tickets. *)
Theorem generateTicket_idempotent bookingId s s' w l :
  keyed t_id (tickets (btables (view w))) ->
  let w1 := final h (generateTicket bookingId) s w in
  outcome h (generateTicket bookingId) s w = Ok l -> l <> [] ->
  view (final h (generateTicket bookingId) s' w1) = view w1 /\
  match outcome h (generateTicket bookingId) s' w1 with
  | Ok l' => l' ≡ₚ l
  | Err _ => md = Faulty
  end.
Proof.
  intros Hk w1 Ho Hne.
  assert (forall l', selects (of_booking bookingId) (tickets (btables (view w1))) l' -> l' ≡ₚ l) as Hsel.
  { revert Ho. unfold w1. call_wp Hh w. apply generateTicket_wp; [| |..|done].
    - intros l0 Hl0 _ [= ->] l' Hl'. unfold selects in *. by rewrite Hl', Hl0.
    - by intros _ _ [= <-].
    - intros l0 v' Hn (is_ & _ & _ & Hl & Hf & ->) [= ->] l'. cbn.
      apply selects_upsert_fresh; [done..|]. intros t. by eapply issued_of_booking. }
  call_wp Hh w1. apply generateTicket_wp.
  - intros l' Hl' _. split; [done|]. by apply Hsel.
  - intros Hn _. split; [done|]. by apply Hsel.
  - intros l' v' Hn _. apply Hsel, Permutation_nil_l in Hn. by destruct l.
  - done.
Qed.

(** A ticket admits once: after a check-in that succeeded, a second one with
    the same code is refused and changes nothing. *)
Theorem checkIn_once code s s' w t :
  keyed t_id (tickets (btables (view w))) ->
  (forall t t', t ∈ rows (tickets (btables (view w))) -> t' ∈ rows (tickets (btables (view w))) ->
     t_ticketCode t = code -> t_ticketCode t' = code -> t = t') ->
  let w1 := final h (checkIn code) s w in
  outcome h (checkIn code) s w = Ok t ->
  view (final h (checkIn code) s' w1) = view w1 /\
  match outcome h (checkIn code) s' w1 with
  | Err e => e = BadRequestException ("Ticket with code " +:+ code +:+ " has already been used") \/ md = Faulty
  | Ok _ => False
  end.
Proof.
  intros Hk Huniq w1 Ho.
  assert (forall t', t' ∈ rows (tickets (btables (view w1))) -> t_ticketCode t' = code ->
    t_status t' = TicketStatus.USED) as Hused.
  { revert Ho. unfold w1. call_wp Hh w. apply checkIn_wp; [|done..].
    intros t0 now Hin Hcode _ _. cbn. intros _ t' (j & Hj)%elem_of_rows_lookup Hc'.
    destruct (decide (j = t_id t0)) as [->|Hne].
    - rewrite lookup_insert_eq in Hj. by injection Hj as <-.
    - rewrite lookup_insert_ne in Hj by done. pose proof (Hk _ _ Hj) as Hid.
      assert (t' = t0) as -> by (apply Huniq; try done; by eapply rows_lookup). by subst j. }
  assert (exists t', t' ∈ rows (tickets (btables (view w1))) /\ t_ticketCode t' = code) as (t' & Ht' & Hc').
  { revert Ho. unfold w1. call_wp Hh w. apply checkIn_wp; [|done..].
    intros t0 now Hin Hcode _ _. cbn zeta. intros _. eexists. split; [eapply rows_lookup, lookup_insert_eq|done]. }
  call_wp Hh w1. apply checkIn_wp.
  - intros t0 now Hin Hcode Hu. by rewrite Hused in Hu.
  - intros e ->. split; [done|by right].
  - intros Hn. by apply Hn in Ht'.
  - intros t0 _ _ _. split; [done|by left].
  - intros t0 Hin Hcode Hc. by rewrite Hused in Hc.
Qed.

(** Cancelling the tickets of a booking locks its holders out: afterwards
    checking in with a code of that booking is refused, unless the ticket was
    in the TRANSFERRED state. *)
Theorem cancelled_ticket_refused bookingId code s s' w :
  (forall t, t ∈ rows (tickets (btables (view w))) -> t_ticketCode t = code ->
     t_bookingId t = bookingId /\ t_status t <> TicketStatus.TRANSFERRED) ->
  let w1 := final h (cancelByBooking bookingId) s w in
  outcome h (cancelByBooking bookingId) s w = Ok tt ->
  is_ok (outcome h (checkIn code) s' w1) = false /\
  view (final h (checkIn code) s' w1) = view w1.
Proof.
  intros Hb w1 Ho.
  assert (forall t, t ∈ rows (tickets (btables (view w1))) -> t_ticketCode t = code ->
    t_status t = TicketStatus.USED \/ t_status t = TicketStatus.CANCELLED) as Hst.
  { revert Ho. unfold w1. call_wp Hh w. unfold cancelByBooking. apply book_call_wp; [|done].
    intros [] v' -> _ t'. cbn. intros (t & Hin & ->)%elem_of_rows_update Hc.
    destruct (active_of bookingId t) eqn:Ha; [by right|].
    destruct (Hb t Hin Hc) as [Hbk Hnt]. unfold active_of in Ha.
    rewrite Hbk, String.eqb_refl in Ha. cbn in Ha. apply bool_decide_eq_false in Ha.
    destruct (t_status t); auto; done. }
  call_wp Hh w1. apply checkIn_wp; try done.
  intros t now Hin Hc Hu Hca. destruct (Hst t Hin Hc); done.
Qed.
End Properties.

(** ** Concrete runs *)

(** A booking of two seats without tickets. *)
Definition unticketed : BookingRefWorld :=
  booking_world [demo_booking BookingStatus.CONFIRMED None 0] [demo_item "i1" "A1"; demo_item "i2" "A2"] [] [] 1700000100000.

Abbreviation issue := (@generateTicket unit "b1").
Abbreviation demo_tickets := (book_run good_answer).

Lemma generateTicket_spec_witness :
  exists l, outcome demo_tickets issue tt unticketed = Ok l /\ length l = 2 /\
    tickets_issued "b1" l (book_view unticketed) (book_view (final demo_tickets issue tt unticketed)).
Proof.
  pose proof (generateTicket_spec (S := unit) demo_tickets book_view Reliable (book_run_conforms good_answer)
    "b1" tt unticketed) as H. cbn zeta in H.
  destruct (outcome demo_tickets issue tt unticketed) as [l|e] eqn:Ho.
  - exists l. split; [reflexivity|].
    assert (length l = 2) as Hl by (vm_compute in Ho; injection Ho as <-; reflexivity). split; [exact Hl|].
    destruct l as [|t l]; [discriminate Hl|]. destruct H as [[_ Hs]|[_ H]]; [|exact H].
    apply (Permutation_length) in Hs. vm_compute in Hs. discriminate Hs.
  - vm_compute in Ho. discriminate Ho.
Defined.

Lemma generateTicket_idempotent_witness :
  exists l l', outcome demo_tickets issue tt unticketed = Ok l /\
    outcome demo_tickets issue tt (final demo_tickets issue tt unticketed) = Ok l' /\ l' ≡ₚ l.
Proof.
  destruct (outcome demo_tickets issue tt unticketed) as [l|e] eqn:Ho; [|vm_compute in Ho; discriminate Ho].
  assert (l <> []) as Hne by (intros ->; vm_compute in Ho; discriminate Ho).
  destruct (generateTicket_idempotent (S := unit) demo_tickets book_view Reliable (book_run_conforms good_answer)
    "b1" tt tt unticketed l (upsert_keyed t_id [] ∅ (keyed_empty t_id)) Ho Hne) as [_ H].
  destruct (outcome demo_tickets issue tt (final demo_tickets issue tt unticketed)) as [l'|e]; [|discriminate H].
  exists l, l'. split; [reflexivity|]. split; [reflexivity|exact H].
Defined.

(** Codes are distinct in the tables of [booked]. *)
Lemma booked_codes (t t' : Ticket) :
  t ∈ rows (tickets (btables (book_view (booked None 0)))) -> t' ∈ rows (tickets (btables (book_view (booked None 0)))) ->
  t_ticketCode t = t_ticketCode t' -> t = t'.
Proof.
  replace (rows (tickets (btables (book_view (booked None 0))))) with
    [demo_ticket "t1" "A1" "TK-1" TicketStatus.ACTIVE; demo_ticket "t2" "A2" "TK-2" TicketStatus.USED]
    by (vm_compute; reflexivity).
  rewrite !elem_of_cons.
  intros [->|[->|?%elem_of_nil]] [->|[->|?%elem_of_nil]] Hcode; try done; by cbn in Hcode.
Qed.

Lemma checkIn_once_witness :
  outcome demo_tickets (@checkIn unit "TK-1") tt (final demo_tickets (@checkIn unit "TK-1") tt (booked None 0)) =
  Err (BadRequestException "Ticket with code TK-1 has already been used").
Proof.
  destruct (outcome demo_tickets (@checkIn unit "TK-1") tt (booked None 0)) as [t|e] eqn:Ho; [|vm_compute in Ho; discriminate Ho].
  destruct (checkIn_once (S := unit) demo_tickets book_view Reliable (book_run_conforms good_answer) "TK-1" tt tt
    (booked None 0) t (upsert_keyed t_id _ ∅ (keyed_empty t_id))) as [_ H].
  - intros t1 t2 H1 H2 Hc1 Hc2. apply booked_codes; [exact H1|exact H2|congruence].
  - exact Ho.
  - destruct (outcome demo_tickets (@checkIn unit "TK-1") tt
      (final demo_tickets (@checkIn unit "TK-1") tt (booked None 0))) as [t'|e]; [destruct H|].
    destruct H as [->|H]; [reflexivity|discriminate H].
Defined.

Lemma cancelled_ticket_refused_witness :
  is_ok (outcome demo_tickets (@checkIn unit "TK-1") tt
    (final demo_tickets (@cancelByBooking unit "b1") tt (booked None 0))) = false.
Proof.
  apply (cancelled_ticket_refused (S := unit) demo_tickets book_view Reliable (book_run_conforms good_answer)
    "b1" "TK-1" tt tt (booked None 0)).
  - intros t Ht Hc.
    assert (forallb (fun t => String.eqb (t_bookingId t) "b1" && negb (bool_decide (t_status t = TicketStatus.TRANSFERRED)))
      (rows (tickets (btables (book_view (booked None 0))))) = true) as H by (vm_compute; reflexivity).
    rewrite forallb_forall in H. apply list_elem_of_In, H, andb_true_iff in Ht as [Hb%String.eqb_eq Hs%negb_true_iff].
    apply bool_decide_eq_false in Hs. split; [exact Hb|exact Hs].
  - reflexivity.
Defined.
