(* ===== verification/BookingCreate.v ===== *)
(** * Creating a booking

    apps/booking-service/src/booking/booking-orchestrator.service.ts:
    [createBooking] with [persistBooking], [confirmBookingWithOutbox] and
    [generateBookingNumber], and the queries [findById] and [findByUserId].

    From the moment the booking is saved the code works on the object
    [savedBooking]: the local state of [pay_booking] and [payment_failed]. *)

From S2P Require Import Prelude Messages Effects JsNumber Json Sql BookingWorld BookingRef Tickets.

(** [await firstValueFrom(client.method(...))] *)
Definition rpc {S X} (op : RpcE X) : prog S BookingE X := r <- call (Rpc op) ;; of_result r.

(** The shape of every transaction of the service: [connect], [startTransaction],
    [try { m } catch (error) { rollbackTransaction; throw } finally { release }]. *)
Definition in_transaction {S A} (m : prog S BookingE A) : prog S BookingE A :=
  call BQrConnect ;;
  call BQrStart ;;
  finally (try_catch m (fun error => call BQrRollback ;; Throw error)) (call BQrRelease).

Definition BOOKING_EXPIRY_MS : Z := 10 * 60 * 1000.

Definition has_id (id : string) (b : Booking) : bool := String.eqb (b_id b) id.

(** [selectedSeats[0].currency] *)
Definition first_currency (selectedSeats : list SeatInfo) : result string :=
  match selectedSeats with
  | seat :: _ => Ok (inf_currency seat)
  | [] => Err (TypeError "Cannot read properties of undefined (reading 'currency')")
  end.

(** [dto.items.map(...)] in [persistBooking]. *)
Fixpoint booking_items_data (bookingId : string) (selectedSeats : list SeatInfo)
    (dto_items : list BookingItemDto) : result (list ItemData) :=
  match dto_items with
  | [] => Ok []
  | item :: rest =>
      match List.find (fun s => String.eqb (inf_seatId s) (it_seatId item)) selectedSeats with
      | None => Err (BadRequestException ("Seat " +:+ it_seatId item +:+ " not found in inventory"))
      | Some seat =>
          match booking_items_data bookingId selectedSeats rest with
          | Err e => Err e
          | Ok ds =>
              Ok (mkItemData bookingId (inf_id seat) (inf_seatId seat) (inf_ticketTypeId seat)
                    (inf_ticketTypeName seat) (inf_sectionName seat) (inf_row seat) (inf_seatNumber seat)
                    (parseFloat (inf_price seat)) (it_attendeeName item) (it_attendeeEmail item) :: ds)
          end
      end
  end.

(** The items of a message; [seatId] only where the code puts it. *)
Definition payload_item (with_seat : bool) (item : BookingItem) : PayloadItem :=
  mkPayloadItem (if with_seat then Some (bi_seatId item) else None) (bi_sectionName item) (bi_row item)
    (bi_seatNumber item) (bi_attendeeName item) (bi_attendeeEmail item).

Definition totalAmount (selectedSeats : list SeatInfo) : number :=
  foldl (fun acc seat => num_add acc (parseFloat (inf_price seat))) (num_of_Z 0) selectedSeats.

Section Service.
Context {S : Type}.

Definition generateBookingNumber : prog S BookingE string :=
  now <- call BNow ;;
  uuid <- call RandomUUID ;;
  Ret ("BK-" +:+ to_base36_upper now +:+ "-" +:+ toUpperCase (slice0 4 uuid)).

(** The statements of the [try] block up to the commit. *)
Definition insert_booking (dto : CreateBookingDto) (selectedSeats : list SeatInfo) (total : number) :
    prog S BookingE Booking :=
  bookingNumber <- generateBookingNumber ;;
  currency <- of_result (first_currency selectedSeats) ;;
  now <- call BNow ;;
  savedBooking <- call (BQrInsertBooking (mkBookingData bookingNumber (cb_userId dto) (cb_eventId dto) total
                          currency (now + BOOKING_EXPIRY_MS) BookingStatus.PENDING)) ;;
  bookingItems <- of_result (booking_items_data (b_id savedBooking) selectedSeats (cb_items dto)) ;;
  call (BQrInsertItems bookingItems) ;;
  call BQrCommit ;;
  Ret savedBooking.

(** The query returned at the end of the [try] block is not awaited in it: it
    is not covered by the [catch]. *)
Definition persistBooking (dto : CreateBookingDto) (selectedSeats : list SeatInfo) (total : number) :
    prog S BookingE (option LoadedBooking) :=
  savedBooking <- in_transaction (insert_booking dto selectedSeats total) ;;
  call (BookFindOne (has_id (b_id savedBooking))).
End Service.

(** The outbox rows of a confirmation. *)
Definition seats_sold_outbox (b : Booking) (eventId userId : string) (seatIds : list string) : OutboxData :=
  mkOutboxData "booking" (b_id b) "seats.mark_sold" (SeatsPayload eventId userId seatIds) OutboxStatus.PENDING.

Definition confirmed_outbox (b : Booking) (eventId : string) (its : list BookingItem) : OutboxData :=
  mkOutboxData "booking" (b_id b) "booking.confirmed"
    (BookingPayload (b_id b) (b_bookingNumber b) (b_userId b) eventId (b_totalAmount b) (b_currency b) None
       (map (payload_item true) its))
    OutboxStatus.PENDING.

(** [confirmBookingWithOutbox]: the [try] block, then the whole. *)
Definition confirm_in_tx (eventId userId : string) (seatIds : list string) : prog LoadedBooking BookingE unit :=
  modify (fun l => mkLoaded (set_b_status BookingStatus.CONFIRMED (booking l)) (items l)) ;;
  now <- call BNow ;;
  modify (fun l => mkLoaded (set_b_confirmedAt now (booking l)) (items l)) ;;
  l <- get_local ;;
  let b := booking l in
  call (BQrSaveBooking b) ;;
  bookingWithItems <- call (BookFindOne (has_id (b_id b))) ;;
  match bookingWithItems with
  | None => Throw (InternalServerErrorException "Booking not found after confirmation")
  | Some bookingWithItems =>
      call (BQrInsertOutbox (seats_sold_outbox b eventId userId seatIds)) ;;
      call (BQrInsertOutbox (confirmed_outbox b eventId (items bookingWithItems))) ;;
      call BQrCommit
  end.

Definition confirmBookingWithOutbox (eventId userId : string) (seatIds : list string) :
    prog LoadedBooking BookingE unit :=
  in_transaction (confirm_in_tx eventId userId seatIds).

(** [savedBooking.status = CANCELLED; .cancelledAt = new Date();
    .cancellationReason = reason; await bookingRepo.save(savedBooking)] *)
Definition cancel_saved (reason : string) : prog LoadedBooking BookingE unit :=
  modify (fun l => mkLoaded (set_b_status BookingStatus.CANCELLED (booking l)) (items l)) ;;
  now <- call BNow ;;
  modify (fun l => mkLoaded (set_b_cancellationReason reason (set_b_cancelledAt now (booking l))) (items l)) ;;
  l <- get_local ;;
  call (BookSave (booking l)).

(** The [try] block of [createBooking]. *)
Definition pay_booking (dto : CreateBookingDto) (selectedSeats : list SeatInfo) (total : number)
    (seatIds : list string) : prog LoadedBooking BookingE unit :=
  l <- get_local ;;
  currency <- of_result (first_currency selectedSeats) ;;
  payment <- rpc (InitiatePayment (mkInitiatePaymentRequest (b_id (booking l)) (cb_paymentIdempotencyKey dto)
                    total currency "credit_card" (cb_cardToken dto) (nullish (cb_paymentProvider dto) ""%string))) ;;
  match payment with
  | None => Throw (InternalServerErrorException "Payment initiation failed")
  | Some payment =>
      if String.eqb (pinf_status payment) "succeeded" then
        confirmBookingWithOutbox (cb_eventId dto) (cb_userId dto) seatIds
      else
        cancel_saved (str_or (pinf_failureReason payment) "Payment failed") ;;
        rpc (ReleaseSeats (cb_eventId dto) seatIds (cb_userId dto) "payment_failed") ;;
        Ret tt
  end.

(** The message of the [catch] block. *)
Definition cancelled_message (b : Booking) (its : list BookingItem) : BookingMessage :=
  mkMessage "booking.cancelled" (b_id b)
    (BookingPayload (b_id b) (b_bookingNumber b) (b_userId b) (b_eventId b) (b_totalAmount b) (b_currency b)
       (Some (b_status b)) (map (payload_item true) its)).

(** The [catch] block of [createBooking]. *)
Definition payment_failed (error : exn) : prog LoadedBooking BookingE unit :=
  cancel_saved ("Payment error: " +:+ emessage error) ;;
  l <- get_local ;;
  bookingWithItems <- call (BookFindOne (has_id (b_id (booking l)))) ;;
  match bookingWithItems with
  | None => Throw (InternalServerErrorException "Booking not found after cancellation")
  | Some bookingWithItems =>
      call (BEmit (cancelled_message (booking l) (items bookingWithItems))) ;;
      Throw (BadRequestException ("Payment failed: " +:+ emessage error))
  end.

Section Create.
Context {S : Type}.

Definition createBooking (dto : CreateBookingDto) : prog S BookingE (option LoadedBooking) :=
  let seatIds := map it_seatId (cb_items dto) in
  response <- rpc (GetSeatsByEvent (cb_eventId dto)) ;;
  match response with
  | None => Throw (TypeError "Cannot read properties of undefined (reading 'filter')")
  | Some seats =>
      let selectedSeats := List.filter (fun s => includes seatIds (inf_seatId s)) seats in
      if negb (Nat.eqb (length selectedSeats) (length seatIds)) then
        let found := map inf_seatId selectedSeats in
        let missing := List.filter (fun id => negb (includes found id)) seatIds in
        Throw (BadRequestException ("Seats " +:+ join ", " missing +:+ " not found in inventory"))
      else
        let notHeld := List.filter (fun seat => negb (String.eqb (inf_status seat) "held")) selectedSeats in
        if Nat.ltb 0 (length notHeld) then
          Throw (BadRequestException ("Seats " +:+ join ", " (map inf_seatId notHeld) +:+ " are not held"))
        else
          verified <- rpc (VerifyHold (cb_eventId dto) seatIds (cb_userId dto)) ;;
          if negb verified then
            Throw (BadRequestException "Hold verification failed — seats not held by this user")
          else
            let total := totalAmount selectedSeats in
            savedBooking <- persistBooking dto selectedSeats total ;;
            match savedBooking with
            | None => Throw (InternalServerErrorException "Booking could not be loaded after persistence")
            | Some savedBooking =>
                with_local savedBooking
                  (try_catch (pay_booking dto selectedSeats total seatIds) payment_failed) ;;
                call (BookFindOne (has_id (b_id (booking savedBooking))))
            end
  end.

Definition findById (id : string) : prog S BookingE LoadedBooking :=
  booking <- call (BookFindOne (has_id id)) ;;
  match booking with
  | None => Throw (NotFoundException "Booking not found")
  | Some booking => Ret booking
  end.

(** TypeORM leaves a condition whose value is undefined out of the query. *)
Definition where_user (userId : option string) (b : Booking) : bool :=
  match userId with Some userId => String.eqb (b_userId b) userId | None => true end.

Definition findByUserId (userId : option string) : prog S BookingE (list LoadedBooking) :=
  call (BookFindNewest (where_user userId)).
End Create.

(** ** Specification *)

(** The item stored for an entry of the request. *)
Definition item_for (bookingId : string) (selectedSeats : list SeatInfo) (d : BookingItemDto) (i : BookingItem) : Prop :=
  exists seat t,
    List.find (fun s => String.eqb (inf_seatId s) (it_seatId d)) selectedSeats = Some seat /\
    i = mkBookingItem (bi_id i) bookingId (inf_id seat) (it_seatId d) (inf_ticketTypeId seat)
          (inf_ticketTypeName seat) (inf_sectionName seat) (inf_row seat) (inf_seatNumber seat) (DText t)
          (it_attendeeName d) (it_attendeeEmail d).

(** A pending booking of the request's user and event. *)
Definition pending_for (dto : CreateBookingDto) (b : Booking) : Prop :=
  b_userId b = cb_userId dto /\ b_eventId b = cb_eventId dto /\ b_status b = BookingStatus.PENDING /\
  b_refundState b = None /\ exists t, b_totalAmount b = DText t.

(** [l] is the booking added to the tables, with its items. *)
Definition persisted (dto : CreateBookingDto) (selectedSeats : list SeatInfo) (l : LoadedBooking)
    (v v' : BookingView) : Prop :=
  let t := btables v in
  let b := booking l in
  pending_for dto b /\ bookings t !! b_id b = None /\
  exists its, Forall2 (item_for (b_id b) selectedSeats) (cb_items dto) its /\ items l ≡ₚ its /\
    fresh_rows bi_id its (booking_items t) /\
    v' = with_btables (with_items (upsert bi_id its (booking_items t))
                        (with_bookings (<[b_id b := b]> (bookings t)) t)) v.

(** ** Proofs *)

Section Proofs.
Context {S : Type} (md : mode).
Implicit Types (s : S) (v u : BookingView).
Abbreviation spec := (obeys md book_behaviour).

Lemma rpc_wp {X} (op : RpcE X) (Q : result X -> S -> BookingView -> Prop) s v :
  (forall r, Q r s (with_call (called op r) v)) -> wp spec (rpc op) Q s v.
Proof.
  intros H. unfold rpc. wp_step. apply book_call_wp; [|by intros e [[]|[_ []]]].
  intros r v' ->. by apply wp_of_result.
Qed.

Lemma now_wp (Q : result Z -> S -> BookingView -> Prop) s v :
  (forall now, Q (Ok now) s v) -> wp spec (call BNow) Q s v.
Proof. intros H. apply book_call_wp; [by intros now v' ->|by intros e [[]|[_ []]]]. Qed.

(** What a transaction does, from what its block does: a block that fails
    leaves the transaction open, and its writes disappear. *)
Lemma booking_tx_wp {A} (m : prog S BookingE A) (Q : result A -> S -> BookingView -> Prop) s v :
  btx v = None ->
  (forall e, md = Faulty -> Q (Err e) s v) ->
  wp spec m (fun r s v' =>
    match r with
    | Ok x => btx v' = None /\ Q (Ok x) s v'
    | Err e => btx v' <> None /\ forall e', e' = e \/ md = Faulty -> Q (Err e') s (with_btx None v')
    end) s (with_btx (Some []) v) ->
  wp spec (in_transaction m) Q s v.
Proof.
  intros Htx HE Hm. unfold in_transaction. wp_step.
  apply book_call_wp; [|by intros e [[]|[Hf _]]; apply HE]. intros [] v0 ->.
  wp_step. apply book_call_wp; [|by intros e [Hr|[Hf _]]; [by destruct Hr|apply HE]]. intros [] v0 [_ ->].
  do 2 wp_step. eapply wp_mono; [exact Hm|]. intros [x|e] s' v'.
  - intros [Hn HQ]. apply book_call_wp; [|by intros e [[]|[_ []]]]. intros [] v'' ->.
    by replace (with_btx None v') with v' by (destruct v'; cbn in Hn; by subst).
  - intros [Hn HQ]. wp_step. apply book_call_wp.
    + intros [] v'' [_ ->]. wp_step. apply book_call_wp; [|by intros e' [[]|[_ []]]]. intros [] v'' ->.
      apply HQ. by left.
    + intros e' [He|[Hf _]]; [done|]. apply book_call_wp; [|by intros e'' [[]|[_ []]]]. intros [] v'' ->.
      apply HQ. by right.
Qed.

(** Finding the row stored under an id. *)
Lemma find_id_wp id b (Q : result (option LoadedBooking) -> S -> BookingView -> Prop) s v :
  keyed b_id (bookings (btables v)) -> bookings (btables v) !! id = Some b ->
  (forall its, selects (items_of b) (booking_items (btables v)) its -> Q (Ok (Some (mkLoaded b its))) s v) ->
  (forall e, md = Faulty -> Q (Err e) s v) ->
  wp spec (call (BookFindOne (has_id id))) Q s v.
Proof.
  intros Hk Hb HO HE. apply book_call_wp; [|by intros e [[]|[Hf _]]; apply HE].
  pose proof (Hk _ _ Hb) as Hid. intros [[b' its]|] v' (-> & Hs & Hl); cbn in Hs, Hl.
  - destruct Hs as [Hin Hi%String.eqb_eq]. apply (elem_of_rows b_id) in Hin; [|done].
    assert (b' = b) as -> by (rewrite Hi, Hb in Hin; by injection Hin). by apply HO.
  - apply rows_lookup, Hs in Hb. unfold has_id in Hb. by rewrite Hid, String.eqb_refl in Hb.
Qed.

Lemma booking_items_data_spec bookingId seats ds l its :
  booking_items_data bookingId seats ds = Ok l -> Forall2 item_created l its ->
  Forall2 (item_for bookingId seats) ds its.
Proof.
  revert l its. induction ds as [|d ds IH]; intros l its; cbn.
  - intros [= <-] H. by inversion H.
  - destruct (List.find _ seats) as [seat|] eqn:Hf; [|done].
    destruct (booking_items_data bookingId seats ds) as [ds'|]; [|done]. intros [= <-] H.
    inversion H as [|d' i ds'' its' [t Hi] Hits]; subst. constructor; [|by eapply IH].
    exists seat, t. split; [done|]. apply find_some in Hf as [_ Hs%String.eqb_eq].
    unfold item_created in Hi. cbn in Hi. rewrite Hi. cbn. by rewrite Hs.
Qed.

Lemma item_for_items_of bookingId seats ds its i :
  Forall2 (item_for bookingId seats) ds its -> i ∈ its -> bi_bookingId i = bookingId.
Proof.
  intros H. induction H as [|d i' ds its Hi His IH]; intros Hin; [by apply elem_of_nil in Hin|].
  apply elem_of_cons in Hin as [->|Hin]; [|by apply IH]. destruct Hi as (seat & t & _ & ->). done.
Qed.

(** Selecting the items of a booking just inserted with them. *)
Lemma new_items_selected t b its its' :
  keyed bi_id (booking_items t) ->
  (forall j i, booking_items t !! j = Some i -> is_Some (bookings t !! bi_bookingId i)) ->
  bookings t !! b_id b = None -> fresh_rows bi_id its (booking_items t) ->
  (forall i, i ∈ its -> bi_bookingId i = b_id b) ->
  selects (items_of b) (upsert bi_id its (booking_items t)) its' -> its' ≡ₚ its.
Proof.
  intros Hk Hfk Hn Hf Hb. apply selects_upsert_fresh; [done..| |].
  - apply selects_nil. intros i (j & Hj)%elem_of_rows_lookup. unfold items_of.
    apply String.eqb_neq. intros He. apply Hfk in Hj as [b' Hb']. congruence.
  - intros i Hi. apply String.eqb_eq. by apply Hb.
Qed.

Lemma insert_booking_wp dto seats total (Q : result Booking -> S -> BookingView -> Prop) s v :
  booking_wf v ->
  (forall b its, pending_for dto b -> bookings (btables v) !! b_id b = None ->
     Forall2 (item_for (b_id b) seats) (cb_items dto) its -> fresh_rows bi_id its (booking_items (btables v)) ->
     forall b0, b_id b0 = b_id b -> Q (Ok b0) s (with_btables (with_items (upsert bi_id its (booking_items (btables v)))
          (with_bookings (<[b_id b := b]> (bookings (btables v))) (btables v))) v)) ->
  (forall e ws, Q (Err e) s (with_btx (Some ws) v)) ->
  wp spec (insert_booking dto seats total) Q s (with_btx (Some []) v).
Proof.
  intros Hwf HO HE. unfold insert_booking, generateBookingNumber. do 2 wp_step.
  apply now_wp. intros now. wp_step. apply book_call_wp; [|by intros e [[]|[_ []]]]. intros uuid v' ->.
  do 2 wp_step. apply wp_of_result. destruct (first_currency seats) as [currency|e]; [|apply HE].
  wp_step. apply now_wp. intros now'. wp_step.
  apply book_call_wp; [|intros e _; apply HE]. intros b0 v' (_ & Hb0 & Hn & row & [t Hrow] & ->). cbn in Hn.
  wp_step. apply wp_of_result. destruct (booking_items_data _ _ _) as [ds|e] eqn:Hds; [|apply HE].
  wp_step. apply book_call_wp; [|intros e _; apply HE]. intros [] v' (its & Hits & Hf & ->). cbn in Hf.
  wp_step. apply book_call_wp; [|intros e _; apply HE]. intros [] v' (ws & Hws & ->). cbn in Hws. injection Hws as <-.
  wp_step. assert (b_id row = b_id b0) as Hid by by rewrite Hrow.
  specialize (HO row its). rewrite Hid in HO. cbn.
  replace (with_btables _ _) with (with_btables (with_items (upsert bi_id its (booking_items (btables v)))
          (with_bookings (<[b_id b0 := row]> (bookings (btables v))) (btables v))) v).
  - apply HO; [|done..|by eapply booking_items_data_spec|done|done].
    red. rewrite Hrow, Hb0. cbn. split_and!; try done. by exists t.
  - pose proof (wf_no_tx _ Hwf). destruct v; cbn in *; subst. by rewrite Hid.
Qed.

Lemma persistBooking_wp dto seats total (Q : result (option LoadedBooking) -> S -> BookingView -> Prop) s v :
  booking_wf v ->
  (forall l v', persisted dto seats l v v' -> Q (Ok (Some l)) s v') ->
  (forall e, Q (Err e) s v) ->
  (forall e l v', persisted dto seats l v v' -> md = Faulty -> Q (Err e) s v') ->
  wp spec (persistBooking dto seats total) Q s v.
Proof.
  intros Hwf HO HE HX. pose proof (wf_no_tx _ Hwf) as Htx. unfold persistBooking. wp_step.
  apply booking_tx_wp; [done|intros e _; apply HE|].
  assert (forall ws, with_btx None (with_btx (Some ws) v) = v) as Hback by (intros ws; destruct v; cbn in *; by subst).
  apply insert_booking_wp; [done| |].
  - intros b its Hb Hn Hits Hf b0 Hid. split; [done|].
    apply (find_id_wp (b_id b0) b).
    + apply keyed_insert, (wf_bookings _ Hwf).
    + cbn. rewrite Hid. apply lookup_insert_eq.
    + intros its' Hs. cbn in Hs. apply HO. split_and!; try done. exists its. split_and!; try done. cbn [items].
      eapply new_items_selected in Hs; try done; [apply (wf_items _ Hwf)|apply (wf_item_booking _ Hwf)|].
      intros i. by eapply item_for_items_of.
    + intros e Hm. apply (HX e (mkLoaded b its)); [|done]. split_and!; try done. exists its. by split_and!.
  - intros e ws. split; [done|]. intros e' _. rewrite Hback. apply HE.
Qed.
End Proofs.

(** *** Confirming *)

Definition confirmed_row (now : Z) (b : Booking) : Booking :=
  set_b_confirmedAt now (set_b_status BookingStatus.CONFIRMED b).

(** The tables of a confirmation: the CONFIRMED row and its two outbox rows. *)
Definition confirmed (eventId userId : string) (seatIds : list string) (b row : Booking)
    (v v' : BookingView) : Prop :=
  exists its o1 o2,
    selects (items_of b) (booking_items (btables v)) its /\
    outbox_created (seats_sold_outbox row eventId userId seatIds) o1 /\
    outbox_created (confirmed_outbox row eventId its) o2 /\
    fresh_rows o_id [o1; o2] (outbox (btables v)) /\
    v' = with_btables (with_outbox (upsert o_id [o1; o2] (outbox (btables v)))
           (with_bookings (<[b_id row := row]> (bookings (btables v))) (btables v))) v.

Lemma amount_same b a : b_totalAmount b = a -> set_b_totalAmount a b = b.
Proof. intros <-. by destruct b. Qed.

Section Confirm.
Context (md : mode).
Implicit Types (l : LoadedBooking) (v : BookingView).
Abbreviation spec := (obeys md book_behaviour).

Lemma confirm_in_tx_wp eventId userId seatIds (Q : result unit -> LoadedBooking -> BookingView -> Prop) l b v :
  booking_wf v ->
  bookings (btables v) !! b_id (booking l) = Some b -> b_totalAmount b = b_totalAmount (booking l) ->
  (forall now v', confirmed eventId userId seatIds b (confirmed_row now (booking l)) v v' ->
     Q (Ok tt) (mkLoaded (confirmed_row now (booking l)) (items l)) v') ->
  (forall e now ws, md = Faulty ->
     Q (Err e) (mkLoaded (confirmed_row now (booking l)) (items l)) (with_btx (Some ws) v)) ->
  wp spec (confirm_in_tx eventId userId seatIds) Q l (with_btx (Some []) v).
Proof.
  intros Hwf Hb Ha HO HE. pose proof (wf_no_tx _ Hwf) as Htx. unfold confirm_in_tx.
  do 3 wp_step. apply now_wp. intros now. do 5 wp_step. cbn [booking items].
  fold (confirmed_row now (booking l)). set (row := confirmed_row now (booking l)).
  apply book_call_wp; [|by intros e [[]|[Hm _]]; apply HE]. intros [] v' (row' & Hrow & ->).
  cbn in Hrow. change (b_id (booking l)) with (b_id row) in *. rewrite Hb in Hrow. cbn in Hrow.
  rewrite Ha, amount_same in Hrow by done. subst row'.
  wp_step. apply (find_id_wp md (b_id row) b); [apply (wf_bookings _ Hwf)|done| |by intros e Hm; apply HE].
  intros its Hits. cbn in Hits. wp_step.
  apply book_call_wp; [|by intros e [[]|[Hm _]]; apply HE]. intros [] v' (o1 & Ho1 & Hn1 & ->). cbn in Hn1.
  wp_step. apply book_call_wp; [|by intros e [[]|[Hm _]]; apply HE]. intros [] v' (o2 & Ho2 & Hn2 & ->). cbn in Hn2.
  apply lookup_insert_None in Hn2 as [Hn2 Hne].
  apply book_call_wp; [|by intros e [Hr|[Hm _]]; [|apply HE]]. intros [] v' (ws & Hws & ->). cbn in Hws. injection Hws as <-.
  apply HO. exists its, o1, o2. split_and!; try done.
  - split.
    + cbn. apply NoDup_cons. split; [|apply NoDup_singleton]. by rewrite list_elem_of_singleton.
    + intros o. rewrite !elem_of_cons. by intros [->|[->|?%elem_of_nil]].
  - destruct v; cbn in *; by subst.
Qed.

Lemma confirm_wp eventId userId seatIds (Q : result unit -> LoadedBooking -> BookingView -> Prop) l b v :
  booking_wf v ->
  bookings (btables v) !! b_id (booking l) = Some b -> b_totalAmount b = b_totalAmount (booking l) ->
  (forall now v', confirmed eventId userId seatIds b (confirmed_row now (booking l)) v v' ->
     Q (Ok tt) (mkLoaded (confirmed_row now (booking l)) (items l)) v') ->
  (forall e b', md = Faulty -> b' = booking l \/ (exists now, b' = confirmed_row now (booking l)) ->
     Q (Err e) (mkLoaded b' (items l)) v) ->
  wp spec (confirmBookingWithOutbox eventId userId seatIds) Q l v.
Proof.
  intros Hwf Hb Ha HO HE. pose proof (wf_no_tx _ Hwf) as Htx. unfold confirmBookingWithOutbox.
  apply booking_tx_wp; [done| |].
  { intros e Hm. specialize (HE e (booking l) Hm). destruct l. apply HE. by left. }
  apply (confirm_in_tx_wp _ _ _ _ _ b); [done..| |].
  - intros now v' Hc. split; [|by apply HO]. destruct Hc as (its & o1 & o2 & _ & _ & _ & _ & ->). done.
  - intros e now ws Hm. split; [done|]. intros e' _.
    replace (with_btx None (with_btx (Some ws) v)) with v by (destruct v; cbn in *; by subst).
    apply HE; [done|]. right. by exists now.
Qed.
End Confirm.

(** *** Settling the booking after the payment *)

(** The same booking with another status and its timestamps. *)
Definition rewritten (st : BookingStatus.t) (b row : Booking) : Prop :=
  exists conf canc reason, row = mkBooking (b_id b) (b_bookingNumber b) (b_userId b) (b_eventId b) st
    (b_totalAmount b) (b_currency b) (b_expiresAt b) conf canc reason (b_refundState b)
    (b_refundIdempotencyKey b) (b_refundRetryCount b) (b_refundLastError b) (b_createdAt b).

(** The view with the booking's row replaced, after calls and messages, of
    which the broker received [got]. *)
Definition after (v : BookingView) (row : Booking) (cs : list RpcCall) (ms got : list BookingMessage) : BookingView :=
  mkBookingView (with_bookings (<[b_id row := row]> (bookings (btables v))) (btables v)) None
    (calls v ++ cs) (messages v ++ ms) (arrived v ++ got).

Definition payment_request (dto : CreateBookingDto) (selectedSeats : list SeatInfo) (b : Booking)
    (req : InitiatePaymentRequest) : Prop :=
  exists currency, first_currency selectedSeats = Ok currency /\
    req = mkInitiatePaymentRequest (b_id b) (cb_paymentIdempotencyKey dto) (totalAmount selectedSeats) currency
            "credit_card" (cb_cardToken dto) (nullish (cb_paymentProvider dto) ""%string).

Definition release_call (dto : CreateBookingDto) (reply : result bool) : RpcCall :=
  CReleaseSeats (cb_eventId dto) (map it_seatId (cb_items dto)) (cb_userId dto) "payment_failed" reply.

(** The payment did not succeed, unless an operation failed after it. *)
Definition unpaid (md : mode) (reply : result (option PaymentInfo)) : Prop :=
  match reply with Ok (Some info) => pinf_status info = "succeeded"%string -> md = Faulty | _ => True end.

(** The calls made after the booking was saved: none, the payment, or the
    payment and the release of the seats. *)
Inductive payment_calls (md : mode) (dto : CreateBookingDto) (selectedSeats : list SeatInfo) (b : Booking) :
    list RpcCall -> Prop :=
| NoCalls : payment_calls md dto selectedSeats b []
| PaymentCall req reply : payment_request dto selectedSeats b req -> unpaid md reply ->
    payment_calls md dto selectedSeats b [CInitiatePayment req reply]
| ReleaseCall req info reply : payment_request dto selectedSeats b req -> pinf_status info <> "succeeded"%string ->
    payment_calls md dto selectedSeats b [CInitiatePayment req (Ok (Some info)); release_call dto reply].

(** How a saved booking [b] ends, from the view [v] in which it was saved. *)
Inductive settled (md : mode) (dto : CreateBookingDto) (selectedSeats : list SeatInfo) (b : Booking) (v : BookingView) :
    BookingStatus.t -> Booking -> BookingView -> Prop :=
| SettledConfirmed req info now v' :
    payment_request dto selectedSeats b req -> pinf_status info = "succeeded"%string ->
    confirmed (cb_eventId dto) (cb_userId dto) (map it_seatId (cb_items dto)) b (confirmed_row now b)
      (with_call (CInitiatePayment req (Ok (Some info))) v) v' ->
    settled md dto selectedSeats b v BookingStatus.CONFIRMED (confirmed_row now b) v'
| SettledCancelled row cs ms got :
    rewritten BookingStatus.CANCELLED b row -> payment_calls md dto selectedSeats b cs ->
    ms = [] /\ got = [] \/
    (exists its copies, ms = [cancelled_message row its] /\ got = replicate copies (cancelled_message row its)) ->
    settled md dto selectedSeats b v BookingStatus.CANCELLED row (after v row cs ms got)
| SettledPending cs :
    payment_calls md dto selectedSeats b cs ->
    settled md dto selectedSeats b v BookingStatus.PENDING b (after v b cs [] []).

Definition cancelled_row (now : Z) (reason : string) (b : Booking) : Booking :=
  set_b_cancellationReason reason (set_b_cancelledAt now (set_b_status BookingStatus.CANCELLED b)).

Lemma cancelled_rewritten now reason st b b' : rewritten st b b' -> rewritten BookingStatus.CANCELLED b (cancelled_row now reason b').
Proof. intros (c1 & c2 & c3 & ->). by eexists _, _, _. Qed.

Lemma rewritten_refl b : rewritten (b_status b) b b.
Proof. exists (b_confirmedAt b), (b_cancelledAt b), (b_cancellationReason b). by destruct b. Qed.

Lemma rewritten_id st b row : rewritten st b row -> b_id row = b_id b.
Proof. by intros (c1 & c2 & c3 & ->). Qed.

Lemma rewritten_amount st b row : rewritten st b row -> b_totalAmount row = b_totalAmount b.
Proof. by intros (c1 & c2 & c3 & ->). Qed.

Lemma after_call v row cs ms got c : with_call c (after v row cs ms got) = after v row (cs ++ [c]) ms got.
Proof. unfold after, with_call. cbn. by rewrite <- app_assoc. Qed.

Lemma after_message v row cs m copies :
  with_message m copies (after v row cs [] []) = after v row cs [m] (replicate copies m).
Proof. unfold after, with_message. cbn. by rewrite !app_nil_r. Qed.

Lemma after_start v b : booking_wf v -> bookings (btables v) !! b_id b = Some b -> v = after v b [] [] [].
Proof.
  intros Hwf Hb. pose proof (wf_no_tx _ Hwf). unfold after, with_bookings. rewrite insert_id, !app_nil_r by done.
  destruct v as [[] ? ? ? ?]. cbn in *. by subst.
Qed.

Lemma after_row v row row' cs ms got :
  b_id row' = b_id row ->
  with_btables (with_bookings (<[b_id row' := row']> (bookings (btables (after v row cs ms got)))) (btables (after v row cs ms got)))
    (after v row cs ms got) = after v row' cs ms got.
Proof. intros He. unfold after, with_btables, with_bookings. cbn. by rewrite He, insert_insert_eq. Qed.

Lemma after_wf v row cs ms got :
  booking_wf v -> is_Some (bookings (btables v) !! b_id row) -> booking_wf (after v row cs ms got).
Proof.
  intros Hwf Hs. destruct Hwf as [H1 H2 H3 H4 H5 H6]. split; cbn; try done.
  - by apply keyed_insert.
  - intros j i Hj. apply H5 in Hj. destruct (decide (b_id row = bi_bookingId i)) as [<-|Hne].
    + rewrite lookup_insert_eq. by eexists.
    + by rewrite lookup_insert_ne.
Qed.

Section Settle.
Context (md : mode) (dto : CreateBookingDto) (selectedSeats : list SeatInfo) (v : BookingView) (b : Booking).
Implicit Types (l : LoadedBooking).
Abbreviation spec := (obeys md book_behaviour).
Hypothesis Hwf : booking_wf v.
Hypothesis Hb : bookings (btables v) !! b_id b = Some b.

Lemma cancel_saved_wp reason (Q : result unit -> LoadedBooking -> BookingView -> Prop) l st st' row cs ms got :
  rewritten st b (booking l) -> rewritten st' b row ->
  (forall now, let row' := cancelled_row now reason (booking l) in
     Q (Ok tt) (mkLoaded row' (items l)) (after v row' cs ms got)) ->
  (forall e now, md = Faulty -> Q (Err e) (mkLoaded (cancelled_row now reason (booking l)) (items l)) (after v row cs ms got)) ->
  wp spec (cancel_saved reason) Q l (after v row cs ms got).
Proof.
  intros Hl Hrow HO HE. unfold cancel_saved. do 3 wp_step. apply now_wp. intros now. do 4 wp_step. cbn [booking items].
  fold (cancelled_row now reason (booking l)). set (row' := cancelled_row now reason (booking l)).
  assert (rewritten BookingStatus.CANCELLED b row') as Hr by by eapply cancelled_rewritten.
  assert (b_id row' = b_id row) as Hid by by rewrite (rewritten_id _ _ _ Hr), (rewritten_id _ _ _ Hrow).
  apply book_call_wp; [|by intros e [[]|[Hm _]]; apply HE]. intros [] v' (row0 & Hrow0 & ->).
  unfold after in Hrow0 at 1. cbn [btables with_bookings bookings] in Hrow0. rewrite Hid, lookup_insert_eq in Hrow0. cbn in Hrow0.
  rewrite amount_same in Hrow0 by (by rewrite (rewritten_amount _ _ _ Hr), (rewritten_amount _ _ _ Hrow)). subst row0.
  rewrite after_row by done. apply HO.
Qed.

Definition seatIds : list string := map it_seatId (cb_items dto).

Lemma pay_booking_wp (Q : result unit -> LoadedBooking -> BookingView -> Prop) its :
  (forall l req info now v', payment_request dto selectedSeats b req -> pinf_status info = "succeeded"%string ->
     confirmed (cb_eventId dto) (cb_userId dto) seatIds b (confirmed_row now b)
       (with_call (CInitiatePayment req (Ok (Some info))) v) v' -> Q (Ok tt) l v') ->
  (forall l row req info reply, rewritten BookingStatus.CANCELLED b row -> payment_request dto selectedSeats b req ->
     pinf_status info <> "succeeded"%string ->
     Q (Ok tt) l (after v row [CInitiatePayment req (Ok (Some info)); release_call dto (Ok reply)] [] [])) ->
  (forall e l st st' row cs, rewritten st b (booking l) -> rewritten st' b row ->
     (st' = BookingStatus.CANCELLED \/ row = b) -> payment_calls md dto selectedSeats b cs ->
     Q (Err e) l (after v row cs [] [])) ->
  wp spec (pay_booking dto selectedSeats (totalAmount selectedSeats) seatIds) Q (mkLoaded b its) v.
Proof.
  intros HC HX HE. pose proof (rewritten_refl b) as Hrefl.
  pose proof (fun e l st cs H1 H2 => HE e l st (b_status b) b cs H1 Hrefl (or_intror eq_refl) H2) as HEb.
  pose proof (after_start _ _ Hwf Hb) as Hv.
  unfold pay_booking. do 3 wp_step. cbn [booking items]. apply wp_of_result.
  destruct (first_currency selectedSeats) as [currency|e] eqn:Hc.
  2: { rewrite Hv. eapply HEb; [exact Hrefl|constructor]. }
  wp_step. apply rpc_wp. intros r. set (req := mkInitiatePaymentRequest _ _ _ _ _ _ _).
  assert (payment_request dto selectedSeats b req) as Hreq by by exists currency.
  assert (forall r, with_call (called (InitiatePayment req) r) v = after v b [CInitiatePayment req r] [] []) as Hcall.
  { intros r0. rewrite Hv at 1. by rewrite after_call. }
  destruct r as [[info|]|e].
  - destruct (String.eqb (pinf_status info) "succeeded") eqn:Hst.
    + apply String.eqb_eq in Hst. apply (confirm_wp _ _ _ _ _ _ b); [|exact Hb|done| |].
      * rewrite Hcall. by apply after_wf; [done|eexists].
      * intros now v' Hcon. by eapply HC.
      * intros e b' Hm Hb'. rewrite Hcall.
        assert (exists st, rewritten st b b') as [st Hr].
        { destruct Hb' as [->|[now ->]]; eexists; [apply Hrefl|]. by eexists _, _, _. }
        eapply HEb; [exact Hr|by apply PaymentCall; [|intros _]].
    + apply String.eqb_neq in Hst. rewrite Hcall. wp_step.
      eapply cancel_saved_wp; [exact Hrefl..| |].
      * intros now. cbn zeta. set (row := cancelled_row _ _ _). wp_step. apply rpc_wp. intros reply.
        rewrite after_call. assert (rewritten BookingStatus.CANCELLED b row) as Hr by by eapply cancelled_rewritten.
        destruct reply as [reply|e]; [wp_step; by apply HX|].
        eapply HE; [exact Hr..|by left|]. by apply ReleaseCall.
      * intros e now Hm. eapply HEb; [by eapply cancelled_rewritten|by apply PaymentCall; [|intros ?]].
  - rewrite Hcall. wp_step. eapply HEb; [exact Hrefl|by apply PaymentCall].
  - rewrite Hcall. eapply HEb; [exact Hrefl|by apply PaymentCall].
Qed.

Lemma payment_failed_wp error (Q : result unit -> LoadedBooking -> BookingView -> Prop) l st st' row cs :
  rewritten st b (booking l) -> rewritten st' b row -> (st' = BookingStatus.CANCELLED \/ row = b) ->
  payment_calls md dto selectedSeats b cs ->
  (forall e l' st'' row' v', settled md dto selectedSeats b v st'' row' v' ->
     (st'' = BookingStatus.CANCELLED /\ e = BadRequestException ("Payment failed: " +:+ emessage error) \/
      st'' <> BookingStatus.CONFIRMED /\ md = Faulty) -> Q (Err e) l' v') ->
  wp spec (payment_failed error) Q l (after v row cs [] []).
Proof.
  intros Hl Hrow Hst Hcs HQ. unfold payment_failed. wp_step. eapply cancel_saved_wp; [exact Hl|exact Hrow| |].
  - intros now. cbn zeta. set (row' := cancelled_row _ _ _).
    assert (rewritten BookingStatus.CANCELLED b row') as Hr by by eapply cancelled_rewritten.
    do 3 wp_step. cbn [booking items]. pose proof (rewritten_id _ _ _ Hr) as Hid.
    apply (find_id_wp md (b_id row') row').
    + apply after_wf; [done|]. rewrite Hid. by eexists.
    + cbn. apply lookup_insert_eq.
    + intros its _. wp_step. apply book_call_wp; [|by intros e [[]|[_ []]]]. intros [] v' [copies ->]. wp_step.
      rewrite after_message. eapply HQ; [|by left]. econstructor; [done..|]. right. by eexists _, _.
    + intros e Hm. eapply HQ; [|right; split; [|done]]; [econstructor; [done..|]; by left|done].
  - intros e now Hm. destruct Hst as [->| ->].
    + eapply HQ; [econstructor; [done..|]; by left|]. by right.
    + eapply HQ; [by constructor|]. by right.
Qed.
End Settle.

(** *** The whole call *)

Definition add_calls (cs : list RpcCall) (v : BookingView) : BookingView :=
  mkBookingView (btables v) (btx v) (calls v ++ cs) (messages v) (arrived v).

Definition check_call (c : RpcCall) : Prop :=
  match c with CGetSeatsByEvent _ _ | CVerifyHold _ _ _ _ => True | _ => False end.

(** The seats of the request were found, are held, and held by the user. *)
Definition hold_checked (dto : CreateBookingDto) (selectedSeats : list SeatInfo) (v v' : BookingView) : Prop :=
  exists all,
    selectedSeats = List.filter (fun s => includes (seatIds dto) (inf_seatId s)) all /\
    length selectedSeats = length (seatIds dto) /\
    (forall s, s ∈ selectedSeats -> inf_status s = "held"%string) /\
    v' = add_calls [CGetSeatsByEvent (cb_eventId dto) (Ok (Some all));
                    CVerifyHold (cb_eventId dto) (seatIds dto) (cb_userId dto) (Ok true)] v.

(** A booking was made: checked, saved, and ended with the status [st] and the row [row]. *)
Definition booking_made (md : mode) (dto : CreateBookingDto) (st : BookingStatus.t) (row : Booking) (its : list BookingItem)
    (v v' : BookingView) : Prop :=
  exists selectedSeats l v0 v1,
    hold_checked dto selectedSeats v v0 /\ persisted dto selectedSeats l v0 v1 /\ items l = its /\
    settled md dto selectedSeats (booking l) v1 st row v'.

(** Nothing but checks happened. *)
Definition only_checked (v v' : BookingView) : Prop := exists cs, Forall check_call cs /\ v' = add_calls cs v.

Lemma add_calls_wf cs v : booking_wf v -> booking_wf (add_calls cs v).
Proof. by intros [H1 H2 H3 H4 H5 H6]. Qed.

Lemma with_call_add cs c v : with_call c (add_calls cs v) = add_calls (cs ++ [c]) v.
Proof. unfold with_call, add_calls. cbn. by rewrite <- app_assoc. Qed.

Lemma persisted_wf dto seats l v v' :
  booking_wf v -> persisted dto seats l v v' ->
  booking_wf v' /\ bookings (btables v') !! b_id (booking l) = Some (booking l).
Proof.
  intros [H1 H2 H3 H4 H5 H6] (_ & Hn & its & Hits & _ & Hf & ->).
  split; [|apply lookup_insert_eq]. split; cbn; auto with ticketing.
  intros j i Hj. apply upsert_fresh_inv in Hj as [Hj|[Hj _]]; [| |done].
  - apply H5 in Hj as [b Hb]. exists b. rewrite lookup_insert_ne; [done|]. congruence.
  - rewrite (item_for_items_of _ _ _ _ _ Hits Hj), lookup_insert_eq. by eexists.
Qed.

Lemma settled_tables md dto seats b v st row v' :
  booking_wf v -> settled md dto seats b v st row v' ->
  b_id row = b_id b /\ b_status row = (if decide (st = BookingStatus.PENDING) then b_status b else st) /\
  bookings (btables v') = <[b_id b := row]> (bookings (btables v)) /\
  booking_items (btables v') = booking_items (btables v).
Proof.
  intros Hwf H. destruct H as [req info now v' _ _ (its & o1 & o2 & _ & _ & _ & _ & ->)|row cs ms got Hr _ _|cs _].
  - done.
  - pose proof (rewritten_id _ _ _ Hr) as Hid. unfold after. cbn. rewrite Hid. split_and!; try done.
    by destruct Hr as (c1 & c2 & c3 & ->).
  - done.
Qed.

Section CreateProofs.
Context {S : Type} (md : mode).
Implicit Types (s : S).
Abbreviation spec := (obeys md book_behaviour).

Lemma createBooking_wp dto (Q : result (option LoadedBooking) -> S -> BookingView -> Prop) s v :
  booking_wf v ->
  (forall e v', only_checked v v' -> Q (Err e) s v') ->
  (forall l its st v', booking_made md dto st (booking l) its v v' -> items l ≡ₚ its -> st <> BookingStatus.PENDING ->
     Q (Ok (Some l)) s v') ->
  (forall e st row its v', booking_made md dto st row its v v' ->
     (exists m, st = BookingStatus.CANCELLED /\ e = BadRequestException ("Payment failed: " +:+ m)) \/ md = Faulty ->
     Q (Err e) s v') ->
  wp spec (createBooking dto) Q s v.
Proof.
  intros Hwf HE HO HX. unfold createBooking. fold (seatIds dto).
  assert (forall e cs, Forall check_call cs -> Q (Err e) s (add_calls cs v)) as HE'
    by (intros e cs Hcs; apply HE; by exists cs).
  assert (v = add_calls [] v) as Hv by (unfold add_calls; rewrite app_nil_r; by destruct v).
  wp_step. apply rpc_wp. intros r. rewrite Hv, with_call_add. cbn [app].
  destruct r as [[all|]|e]; [|by apply HE'; repeat constructor..]. cbn [called].
  set (sel := List.filter _ all). destruct (Nat.eqb (length sel) (length (seatIds dto))) eqn:Hlen; cbn [negb];
    [|by wp_step; apply HE'; repeat constructor]. apply Nat.eqb_eq in Hlen.
  destruct (Nat.ltb 0 _) eqn:Hheld; [by wp_step; apply HE'; repeat constructor|].
  assert (forall x, x ∈ sel -> inf_status x = "held"%string) as Hall.
  { apply Nat.ltb_ge in Hheld. assert (length (List.filter (fun seat => negb (String.eqb (inf_status seat) "held")) sel) = 0) as Hl by lia.
    apply length_zero_iff_nil in Hl. rewrite filterb_nil in Hl. intros x Hx%Hl. apply negb_false_iff in Hx.
    by apply String.eqb_eq. }
  wp_step. apply rpc_wp. intros r. rewrite with_call_add. cbn [app called].
  destruct r as [[|]|e]; cbn [negb]; [|by wp_step; apply HE'; repeat constructor|by apply HE'; repeat constructor].
  set (v0 := add_calls _ v). assert (booking_wf v0) as Hwf0 by by apply add_calls_wf.
  assert (hold_checked dto sel v v0) as Hhold by by exists all.
  wp_step. apply persistBooking_wp; [done| |by intros e; apply HE'; repeat constructor|].
  2: { intros e l v1 Hp Hm. pose proof (persisted_wf _ _ _ _ _ Hwf0 Hp) as [Hwf1 Hb].
       eapply (HX e BookingStatus.PENDING); [|by right]. exists sel, l, v0, v1. split_and!; try done.
       rewrite (after_start v1 (booking l)) at 2 by done. by repeat constructor. }
  intros l v1 Hp. pose proof (persisted_wf _ _ _ _ _ Hwf0 Hp) as [Hwf1 Hb].
  assert (b_status (booking l) = BookingStatus.PENDING) as Hpend by apply Hp.
  assert (forall st row v', settled md dto sel (booking l) v1 st row v' -> booking_made md dto st row (items l) v v') as Hmade
    by (intros st row v' Hs; by exists sel, l, v0, v1).
  assert (forall st row v', settled md dto sel (booking l) v1 st row v' -> st <> BookingStatus.PENDING ->
    wp spec (call (BookFindOne (has_id (b_id (booking l))))) Q s v') as Hend.
  { intros st row v' Hs Hst. pose proof (settled_tables _ _ _ _ _ _ _ _ Hwf1 Hs) as (Hid & Hrst & Hbs & Hits).
    apply (find_id_wp md _ row).
    - rewrite Hbs, <- Hid. apply keyed_insert, (wf_bookings _ Hwf1).
    - rewrite Hbs. apply lookup_insert_eq.
    - intros its Hi. eapply HO; [by apply Hmade| |done]. cbn [items].
      destruct Hp as (_ & Hn & its0 & Hits0 & Hl & Hf & Hv1). rewrite Hl. rewrite Hits, Hv1 in Hi. cbn in Hi.
      eapply (new_items_selected _ row _ _ (wf_items _ Hwf0) (wf_item_booking _ Hwf0)); [by rewrite Hid|exact Hf| |exact Hi].
      intros i Hin. rewrite Hid. by eapply item_for_items_of.
    - intros e Hm. eapply HX; [by apply Hmade|]. by right. }
  do 3 wp_step. destruct l as [b its]. cbn [booking items] in *.
  eapply (pay_booking_wp md dto sel v1 b Hwf1 Hb).
  - intros l' req info now v' Hreq Hinfo Hc. eapply Hend; [by eapply SettledConfirmed|done].
  - intros l' row req info reply Hr Hreq Hinfo. eapply (Hend BookingStatus.CANCELLED); [|done]. apply SettledCancelled; [done| |by left]. by apply ReleaseCall.
  - intros e l' st st' row cs Hl' Hrow Hst Hcs.
    eapply (payment_failed_wp md dto sel v1 b Hwf1 Hb); [exact Hl'|exact Hrow|done|done|].
    intros e' l'' st'' row' v' Hs Hcase. eapply HX; [by apply Hmade|].
    destruct Hcase as [[-> ->]|[_ Hm]]; [left; by eexists|by right].
Qed.
End CreateProofs.

Lemma only_checked_calls v v' c : only_checked v v' -> c ∈ new_calls v v' -> check_call c.
Proof.
  intros (cs & Hcs & ->). unfold new_calls, add_calls. cbn. rewrite drop_app_length. by apply Forall_forall.
Qed.

(** The calls of a booking that was made: the checks, then the payment. *)
Lemma booking_made_calls md dto st row its v v' :
  booking_made md dto st row its v v' ->
  exists all cs, new_calls v v' =
    CGetSeatsByEvent (cb_eventId dto) (Ok (Some all)) ::
    CVerifyHold (cb_eventId dto) (seatIds dto) (cb_userId dto) (Ok true) :: cs /\
    forall id, id ∈ seatIds dto -> exists s, s ∈ all /\ inf_seatId s = id /\ inf_status s = "held"%string.
Proof.
  intros (sel & l & v0 & v1 & (all & Hsel & Hlen & Hheld & Hv0) & Hp & _ & Hs).
  assert (exists cs, calls v' = calls v0 ++ cs) as [cs Hcs].
  { destruct Hp as (_ & _ & is_ & _ & _ & _ & ->).
    destruct Hs as [req info now v' _ _ (its' & o1 & o2 & _ & _ & _ & _ & ->)|row cs ms got _ _ _|cs _]; by eexists. }
  exists all, cs. split.
  - unfold new_calls. rewrite Hcs, Hv0. cbn. by rewrite <- app_assoc, drop_app_length.
  - destruct Hp as (_ & _ & is_ & Hits & _).
    intros id (d & -> & Hd)%list_elem_of_fmap. apply list_elem_of_lookup in Hd as [k Hk].
    destruct (Forall2_lookup_l _ _ _ _ _ Hits Hk) as (i & _ & seat & t & Hf & _).
    apply find_some in Hf as [Hin%list_elem_of_In Heq%String.eqb_eq]. exists seat. split_and!; [|done|by apply Hheld].
    rewrite Hsel in Hin. by apply elem_of_filterb in Hin as [? _].
Qed.

(** ** Properties *)

Section Properties.
Context {S W : Type} (h : forall X, BookingE X -> W -> result X * W) (view : W -> BookingView).
Variable md : mode.
Hypothesis Hh : conforms md book_behaviour h view.
Implicit Types (s : S) (w : W).

(** C19: What createBooking does, on every path.  A call that returns made one
    booking with one item per requested seat and returns it, CONFIRMED or
    CANCELLED.  A call that throws either did nothing but checks, or made a
    booking and cancelled it (the error then says why), or was cut short by a
    failed operation. *)
Theorem createBooking_spec dto s w :
  booking_wf (view w) ->
  let v := view w in
  let v' := view (final h (createBooking dto) s w) in
  match outcome h (createBooking dto) s w with
  | Ok None => False
  | Ok (Some l) => exists st its,
      booking_made md dto st (booking l) its v v' /\ items l ≡ₚ its /\ st <> BookingStatus.PENDING
  | Err e => only_checked v v' \/ exists st row its,
      booking_made md dto st row its v v' /\
      ((exists m, st = BookingStatus.CANCELLED /\ e = BadRequestException ("Payment failed: " +:+ m)) \/ md = Faulty)
  end.
Proof.
  intros Hwf. cbn zeta. call_wp Hh w. apply createBooking_wp; [done|by left|..].
  - intros l its st v' Hm Hl Hst. by exists st, its.
  - intros e st row its v' Hm Hc. right. by exists st, row, its.
Qed.

(** No booking without a verified hold: a row or a payment request appears
    only after the seat inventory reported every requested seat as held and
    verified that the holds are the user's. *)
Theorem createBooking_requires_hold dto s w :
  booking_wf (view w) ->
  let v := view w in
  let v' := view (final h (createBooking dto) s w) in
  btables v' <> btables v \/ (exists req reply, CInitiatePayment req reply ∈ new_calls v v') ->
  CVerifyHold (cb_eventId dto) (seatIds dto) (cb_userId dto) (Ok true) ∈ new_calls v v' /\
  exists all, CGetSeatsByEvent (cb_eventId dto) (Ok (Some all)) ∈ new_calls v v' /\
    forall id, id ∈ seatIds dto -> exists seat, seat ∈ all /\ inf_seatId seat = id /\ inf_status seat = "held"%string.
Proof.
  intros Hwf. cbn zeta.
  assert (forall st row its v', booking_made md dto st row its (view w) v' ->
    CVerifyHold (cb_eventId dto) (seatIds dto) (cb_userId dto) (Ok true) ∈ new_calls (view w) v' /\
    exists all, CGetSeatsByEvent (cb_eventId dto) (Ok (Some all)) ∈ new_calls (view w) v' /\
      forall id, id ∈ seatIds dto -> exists seat, seat ∈ all /\ inf_seatId seat = id /\ inf_status seat = "held"%string) as Hm.
  { intros st row its v' (all & cs & -> & Hall)%booking_made_calls. split; [by right; left|].
    exists all. split; [by left|done]. }
  call_wp Hh w. apply createBooking_wp; [done|..].
  - intros _ v' Hc [Ht|(req & reply & Hin)].
    + destruct Hc as (cs & _ & ->). done.
    + by apply (only_checked_calls _ _ _ Hc) in Hin.
  - intros l its st v' Hb _ _ _. by eapply Hm.
  - intros e st row its v' Hb _ _. by eapply Hm.
Qed.

(** C2: Confirmation is atomic and paid for.  Either no row became CONFIRMED and
    the outbox is as it was, or exactly one new booking is CONFIRMED, the
    payment service answered "succeeded" to the request for it, and exactly the
    two entries seats.mark_sold and booking.confirmed were added. *)
Theorem createBooking_outbox_atomic dto s w :
  booking_wf (view w) ->
  let t := btables (view w) in
  let v' := view (final h (createBooking dto) s w) in
  (outbox (btables v') = outbox t /\
   forall i b, bookings (btables v') !! i = Some b -> b_status b = BookingStatus.CONFIRMED -> bookings t !! i = Some b) \/
  (exists b its o1 o2 req info,
     bookings t !! b_id b = None /\ b_status b = BookingStatus.CONFIRMED /\
     bookings (btables v') = <[b_id b := b]> (bookings t) /\
     outbox_created (seats_sold_outbox b (cb_eventId dto) (cb_userId dto) (seatIds dto)) o1 /\
     outbox_created (confirmed_outbox b (cb_eventId dto) its) o2 /\
     fresh_rows o_id [o1; o2] (outbox t) /\ outbox (btables v') = upsert o_id [o1; o2] (outbox t) /\
     CInitiatePayment req (Ok (Some info)) ∈ new_calls (view w) v' /\ pinf_status info = "succeeded"%string /\
     ipr_bookingId req = b_id b /\ ipr_idempotencyKey req = cb_paymentIdempotencyKey dto).
Proof.
  intros Hwf. cbn zeta.
  pattern (view (final h (createBooking dto) s w)). match goal with |- ?P0 _ => set (P := P0) end.
  assert (forall st row its v', booking_made md dto st row its (view w) v' -> P v') as Hm.
  { intros st row its v' (sel & [b its0] & v0 & v1 & (all & _ & _ & _ & Hv0) & Hp & _ & Hs).
    assert (booking_wf v1 /\ bookings (btables v1) !! b_id b = Some b) as [Hwf1 _]
      by (apply (persisted_wf dto sel (mkLoaded b its0) v0); [subst v0; by apply add_calls_wf|done]).
    destruct Hp as ((_ & _ & Hpend & _) & Hn & is_ & _ & _ & _ & Hv1). subst v0 v1. cbn in *.
    destruct Hs as [req info now v' (cur & _ & Hreq) Hinfo (its' & o1 & o2 & _ & Ho1 & Ho2 & Hf & ->)|row cs ms got Hr _ _|cs _].
    - right. exists (confirmed_row now b), its', o1, o2, req, info. cbn in *. split_and!; try done.
      + unfold with_bookings. cbn. by rewrite insert_insert_eq.
      + unfold new_calls. cbn. rewrite <- !app_assoc, drop_app_length. set_solver.
      + by rewrite Hreq.
      + by rewrite Hreq.
    - left. split; [done|]. pose proof (rewritten_id _ _ _ Hr) as Hid. destruct Hr as (c1 & c2 & c3 & Hr).
      intros i b'. cbn. rewrite Hid, insert_insert_eq, lookup_insert_Some.
      intros [[_ <-]|[_ Hb']] Hst; [|done]. by rewrite Hr in Hst.
    - left. split; [done|]. intros i b'. cbn. rewrite insert_insert_eq, lookup_insert_Some.
      intros [[_ <-]|[_ Hb']] Hst; [|done]. congruence. }
  call_wp Hh w. apply createBooking_wp; [done|..].
  - intros _ v' (cs & _ & ->). left. by split.
  - intros l its st v' Hb _ _. by eapply Hm.
  - intros e st row its v' Hb _. by eapply Hm.
Qed.
End Properties.

(** Money is not taken for nothing: when no database operation fails, a
    booking whose payment succeeded is returned CONFIRMED. *)
Theorem createBooking_paid_confirmed {S W} (h : forall X, BookingE X -> W -> result X * W) view dto (s : S) (w : W) req info :
  conforms Reliable book_behaviour h view ->
  booking_wf (view w) ->
  CInitiatePayment req (Ok (Some info)) ∈ new_calls (view w) (view (final h (createBooking dto) s w)) ->
  pinf_status info = "succeeded"%string ->
  exists l, outcome h (createBooking dto) s w = Ok (Some l) /\ b_status (booking l) = BookingStatus.CONFIRMED.
Proof.
  intros Hh Hwf. revert req info.
  assert (forall st row its v' req info, booking_made Reliable dto st row its (view w) v' ->
    CInitiatePayment req (Ok (Some info)) ∈ new_calls (view w) v' -> pinf_status info = "succeeded"%string ->
    st = BookingStatus.CONFIRMED /\ b_status row = BookingStatus.CONFIRMED) as Hm.
  { intros st row its v' req info (sel & l & v0 & v1 & (all & _ & _ & _ & Hv0) & Hp & _ & Hs) Hin Hinfo.
    assert (forall cs, payment_calls Reliable dto sel (booking l) cs ->
      calls v' = calls v1 ++ cs -> False) as Hno.
    { intros cs Hcs Heq. destruct Hp as (_ & _ & is_ & _ & _ & _ & Hv1).
      unfold new_calls in Hin. rewrite Heq, Hv1, Hv0 in Hin. cbn in Hin.
      rewrite <- app_assoc, drop_app_length in Hin. cbn in Hin.
      assert (CInitiatePayment req (Ok (Some info)) ∈ cs) as Hc
        by (do 2 (apply elem_of_cons in Hin as [?|Hin]; [congruence|]); done).
      destruct Hcs as [|req' reply _ Hu|req' info' reply _ Hne]; [by apply elem_of_nil in Hc| |].
      - apply list_elem_of_singleton in Hc. injection Hc as <- <-. by apply Hu in Hinfo.
      - apply elem_of_cons in Hc as [Hc|Hc]; [congruence|]. by apply list_elem_of_singleton in Hc. }
    destruct Hs as [req' info' now v' _ _ _|row cs ms got _ Hcs _|cs Hcs]; [done|exfalso..]; by apply (Hno cs). }
  call_wp Hh w. apply createBooking_wp; [done|..].
  - intros e v' Hc req info Hin. by apply (only_checked_calls _ _ _ Hc) in Hin.
  - intros l its st v' Hb _ _ req info Hin Hinfo. exists l. split; [done|]. by eapply Hm.
  - intros e st row its v' Hb Hc req info Hin Hinfo. destruct (Hm _ _ _ _ _ _ Hb Hin Hinfo) as [-> _].
    by destruct Hc as [(m & Hx & _)|Hx].
Qed.

(** A payment without a booking.  The commit of the confirmation fails after the
    customer paid: the booking ends CANCELLED, and the only calls made are the
    checks and the payment; nothing asks for the money back. *)
Theorem paid_but_cancelled :
  let h := book_flaky good_answer in
  let w := (empty_bookings, [false; false; false; false; false; false; false; false; false; false; false; true]) in
  let v' := book_flaky_view (final h (@createBooking unit demo_booking_dto) tt w) in
  outcome h (@createBooking unit demo_booking_dto) tt w =
    Err (BadRequestException "Payment failed: Connection terminated unexpectedly") /\
  map b_status (rows (bookings (btables v'))) = [BookingStatus.CANCELLED] /\
  List.filter (fun c => match c with CInitiatePayment _ (Ok (Some info)) => String.eqb (pinf_status info) "succeeded" | _ => false end)
    (calls v') <> [] /\
  length (calls v') = 3.
Proof. vm_compute. split_and!; done. Qed.

(** ** Concrete runs *)

Abbreviation demo_run := (book_run good_answer).
Abbreviation demo_create := (@createBooking unit demo_booking_dto).

Lemma createBooking_spec_witness :
  exists l, outcome demo_run demo_create tt empty_bookings = Ok (Some l) /\
    b_status (booking l) = BookingStatus.CONFIRMED /\ b_totalAmount (booking l) = DText "299.8" /\
    map bi_seatId (items l) = ["A2"; "A1"]%string /\
    exists st its, booking_made Reliable demo_booking_dto st (booking l) its (book_view empty_bookings)
      (book_view (final demo_run demo_create tt empty_bookings)).
Proof.
  pose proof (createBooking_spec (S := unit) demo_run book_view Reliable (book_run_conforms good_answer)
    demo_booking_dto tt empty_bookings empty_bookings_wf) as H. cbn zeta in H.
  destruct (outcome demo_run demo_create tt empty_bookings) as [[l|]|e] eqn:Ho.
  - exists l. split; [reflexivity|]. destruct H as (st & its & H & _).
    assert (outcome demo_run demo_create tt empty_bookings = Ok (Some l)) as Hl by exact Ho.
    vm_compute in Hl. injection Hl as <-. split_and!; try reflexivity. exists st, its. exact H.
  - destruct H.
  - vm_compute in Ho. discriminate Ho.
Defined.

(** The calls of the demonstration. *)
Lemma createBooking_requires_hold_witness :
  CVerifyHold "ev" ["A1"; "A2"]%string "u1" (Ok true) ∈
  new_calls (book_view empty_bookings) (book_view (final demo_run demo_create tt empty_bookings)).
Proof.
  apply (createBooking_requires_hold (S := unit) demo_run book_view Reliable (book_run_conforms good_answer)
    demo_booking_dto tt empty_bookings empty_bookings_wf).
  left. intros H. apply (f_equal (fun t => length (rows (bookings t)))) in H. vm_compute in H. discriminate H.
Defined.

Lemma createBooking_outbox_atomic_witness :
  exists o1 o2, outbox (btables (book_view (final demo_run demo_create tt empty_bookings))) = upsert o_id [o1; o2] ∅ /\
    o_eventType o1 = "seats.mark_sold"%string /\ o_eventType o2 = "booking.confirmed"%string.
Proof.
  pose proof (createBooking_outbox_atomic (S := unit) demo_run book_view Reliable (book_run_conforms good_answer)
    demo_booking_dto tt empty_bookings empty_bookings_wf) as H. cbn zeta in H.
  destruct H as [[H _]|(b & its & o1 & o2 & req & info & _ & _ & _ & Ho1 & Ho2 & _ & Ho & _)].
  - apply (f_equal (fun t => length (rows t))) in H. vm_compute in H. discriminate H.
  - exists o1, o2. split; [exact Ho|]. rewrite Ho1, Ho2. split; reflexivity.
Defined.

Lemma createBooking_paid_confirmed_witness :
  exists l, outcome demo_run demo_create tt empty_bookings = Ok (Some l) /\
    b_status (booking l) = BookingStatus.CONFIRMED.
Proof.
  assert (exists req info, CInitiatePayment req (Ok (Some info)) ∈
      new_calls (book_view empty_bookings) (book_view (final demo_run demo_create tt empty_bookings)) /\
      pinf_status info = "succeeded"%string) as (req & info & Hin & Hs).
  { eexists _, _. split.
    - match goal with |- _ ∈ ?l => let x := eval vm_compute in l in change l with x end. right. right. left.
    - reflexivity. }
  apply (createBooking_paid_confirmed (S := unit) demo_run book_view demo_booking_dto tt empty_bookings req info
    (book_run_conforms good_answer) empty_bookings_wf Hin Hs).
Defined.
