(* ===== verification/BookingRefund.v ===== *)
(** * Cancelling a booking: the refund state machine

    apps/booking-service/src/booking/booking-orchestrator.service.ts:
    [cancelBooking] and [processRefundStateMachine].  The booking object is
    the local state: what a step assigned to it before it threw is saved by the
    [catch] block of the loop. *)

From S2P Require Import Prelude Messages Effects JsNumber Json Sql BookingWorld BookingRef Tickets BookingCreate.

Definition set_booking (f : Booking -> Booking) : prog LoadedBooking BookingE unit :=
  modify (fun l => mkLoaded (f (booking l)) (items l)).

Definition save_booking : prog LoadedBooking BookingE unit :=
  l <- get_local ;; call (BookSave (booking l)).

Definition refunded_outbox (b : Booking) (its : list BookingItem) : OutboxData :=
  mkOutboxData "booking" (b_id b) "booking.refunded"
    (BookingPayload (b_id b) (b_bookingNumber b) (b_userId b) (b_eventId b) (b_totalAmount b) (b_currency b) None
       (map (payload_item false) its))
    OutboxStatus.PENDING.

(** The transaction of the SEATS_RELEASED case.  [ticketService.cancelByBooking]
    uses its own connection. *)
Definition complete_refund : prog LoadedBooking BookingE unit :=
  l <- get_local ;;
  cancelByBooking (b_id (booking l)) ;;
  set_booking (set_b_status BookingStatus.REFUNDED) ;;
  now <- call BNow ;;
  set_booking (fun b => set_b_refundState RefundState.COMPLETED (set_b_cancelledAt now b)) ;;
  l <- get_local ;;
  call (BQrSaveBooking (booking l)) ;;
  call (BQrInsertOutbox (refunded_outbox (booking l) (items l))) ;;
  call BQrCommit.

(** The [try] block of the loop; [true] when the method returns the booking. *)
Definition refund_step (seatIds : list string) : prog LoadedBooking BookingE bool :=
  l <- get_local ;;
  let b := booking l in
  match b_refundState b with
  | Some RefundState.REFUND_INITIATED =>
      answer <- rpc (RefundPayment (b_id b) (nullish (b_refundIdempotencyKey b) ""%string)
                       (opt_str_or (b_cancellationReason b) "User cancellation")) ;;
      if negb (rp_success answer) then
        set_booking (fun b => set_b_refundLastError (rp_failureReason answer) (set_b_refundState RefundState.FAILED b)) ;;
        save_booking ;;
        Throw (BadRequestException ("Refund failed: " +:+ rp_failureReason answer))
      else
        set_booking (set_b_refundState RefundState.PAYMENT_REFUNDED) ;;
        save_booking ;;
        Ret false
  | Some RefundState.PAYMENT_REFUNDED =>
      rpc (ReleaseSoldSeats (b_eventId b) seatIds) ;;
      set_booking (set_b_refundState RefundState.SEATS_RELEASED) ;;
      save_booking ;;
      Ret false
  | Some RefundState.SEATS_RELEASED =>
      in_transaction complete_refund ;;
      Ret true
  | Some RefundState.COMPLETED => Ret true
  | Some RefundState.FAILED =>
      Throw (BadRequestException ("Refund failed: " +:+ nullish (b_refundLastError b) "null"%string))
  | None => Throw (BadRequestException "Invalid refund state: null")
  end.

(** The assignments of the [catch] block. *)
Definition count_failure (error : exn) (b : Booking) : Booking :=
  set_b_refundLastError (emessage error) (set_b_refundRetryCount (b_refundRetryCount b + 1) b).

Fixpoint refund_loop (steps : nat) (seatIds : list string) : prog LoadedBooking BookingE unit :=
  match steps with
  | O => Ret tt
  | S steps =>
      returned <- try_catch (refund_step seatIds)
        (fun error => set_booking (count_failure error) ;; save_booking ;; Throw error) ;;
      if returned : bool then Ret tt else refund_loop steps seatIds
  end.

Definition maxSteps : nat := 5.

Definition processRefundStateMachine : prog LoadedBooking BookingE LoadedBooking :=
  l <- get_local ;;
  refund_loop maxSteps (map bi_seatId (items l)) ;;
  get_local.

(** What [cancelBooking] assigns when no refund was started. *)
Definition start_refund (refundIdempotencyKey : string) (reason : option string) (b : Booking) : Booking :=
  set_b_cancellationReason (opt_str_or reason "User cancellation")
    (set_b_refundIdempotencyKey refundIdempotencyKey (set_b_refundState RefundState.REFUND_INITIATED b)).

Section Cancel.
Context {S : Type}.

Definition cancelBooking (bookingId userId refundIdempotencyKey : string) (reason : option string) :
    prog S BookingE LoadedBooking :=
  booking <- call (BookFindOne (has_id bookingId)) ;;
  match booking with
  | None => Throw (NotFoundException "Booking not found")
  | Some l =>
      if negb (String.eqb (b_userId (BookingWorld.booking l)) userId) then
        Throw (BadRequestException "You are not allowed to cancel this booking")
      else if negb (bool_decide (b_status (BookingWorld.booking l) = BookingStatus.CONFIRMED)) then
        Throw (BadRequestException "Booking is not confirmed and cannot be cancelled")
      else
        r <- with_local l
          (match b_refundState (BookingWorld.booking l) with
           | None => set_booking (start_refund refundIdempotencyKey reason) ;; save_booking
           | Some _ => Ret tt
           end ;;
           processRefundStateMachine) ;;
        Ret r.1
  end.
End Cancel.

(** ** Specification: the machine as a step relation *)

(** Save a booking's row. *)
Definition put (b : Booking) (v : BookingView) : BookingView :=
  with_btables (with_bookings (<[b_id b := b]> (bookings (btables v))) (btables v)) v.

Definition cancel_tickets (id : string) (v : BookingView) : BookingView :=
  ticket_view (update_where (active_of id) (set_t_status TicketStatus.CANCELLED) (tickets (btables v))) v.

Definition refund_call (b : Booking) (reply : result RefundPaymentResponse) : RpcCall :=
  CRefundPayment (b_id b) (nullish (b_refundIdempotencyKey b) ""%string)
    (opt_str_or (b_cancellationReason b) "User cancellation") reply.

Definition seats_call (b : Booking) (its : list BookingItem) (reply : result bool) : RpcCall :=
  CReleaseSoldSeats (b_eventId b) (map bi_seatId its) reply.

Definition completed_row (now : Z) (b : Booking) : Booking :=
  set_b_refundState RefundState.COMPLETED (set_b_cancelledAt now (set_b_status BookingStatus.REFUNDED b)).

(** A booking refunded: its row and the outbox entry, written together. *)
Definition refund_written (row : Booking) (o : Outbox) (v : BookingView) : BookingView :=
  with_btables (with_outbox (<[o_id o := o]> (outbox (btables v)))
    (with_bookings (<[b_id row := row]> (bookings (btables v))) (btables v))) v.

(** One step of the refund, durable when it is made: the payment is returned,
    the seats are freed, the tickets cancelled and the booking closed. *)
Inductive rstep (its : list BookingItem) : Booking * BookingView -> Booking * BookingView -> Prop :=
| PaymentReturned b v answer :
    b_refundState b = Some RefundState.REFUND_INITIATED -> rp_success answer = true ->
    rstep its (b, v) (set_b_refundState RefundState.PAYMENT_REFUNDED b,
      put (set_b_refundState RefundState.PAYMENT_REFUNDED b) (with_call (refund_call b (Ok answer)) v))
| SeatsFreed b v answer :
    b_refundState b = Some RefundState.PAYMENT_REFUNDED ->
    rstep its (b, v) (set_b_refundState RefundState.SEATS_RELEASED b,
      put (set_b_refundState RefundState.SEATS_RELEASED b) (with_call (seats_call b its (Ok answer)) v))
| RefundClosed b v now o :
    b_refundState b = Some RefundState.SEATS_RELEASED ->
    outbox_created (refunded_outbox (completed_row now b) its) o -> outbox (btables v) !! o_id o = None ->
    rstep its (b, v) (completed_row now b, refund_written (completed_row now b) o (cancel_tickets (b_id b) v)).

(** A step that threw [e]: what the object is then, and what was done. *)
Inductive broken (md : mode) (its : list BookingItem) (b : Booking) (v : BookingView) :
    exn -> Booking -> BookingView -> Prop :=
| RefundUnanswered e : b_refundState b = Some RefundState.REFUND_INITIATED ->
    broken md its b v e b (with_call (refund_call b (Err e)) v)
| RefundRefused answer loc e v' :
    b_refundState b = Some RefundState.REFUND_INITIATED -> rp_success answer = false ->
    loc = set_b_refundLastError (rp_failureReason answer) (set_b_refundState RefundState.FAILED b) ->
    (e = BadRequestException ("Refund failed: " +:+ rp_failureReason answer) /\
     v' = put loc (with_call (refund_call b (Ok answer)) v)) \/
    (md = Faulty /\ v' = with_call (refund_call b (Ok answer)) v) ->
    broken md its b v e loc v'
| RefundUnsaved answer e : md = Faulty ->
    b_refundState b = Some RefundState.REFUND_INITIATED -> rp_success answer = true ->
    broken md its b v e (set_b_refundState RefundState.PAYMENT_REFUNDED b) (with_call (refund_call b (Ok answer)) v)
| SeatsUnanswered e : b_refundState b = Some RefundState.PAYMENT_REFUNDED ->
    broken md its b v e b (with_call (seats_call b its (Err e)) v)
| SeatsUnsaved answer e : md = Faulty -> b_refundState b = Some RefundState.PAYMENT_REFUNDED ->
    broken md its b v e (set_b_refundState RefundState.SEATS_RELEASED b) (with_call (seats_call b its (Ok answer)) v)
| CloseFailed e loc v' : md = Faulty -> b_refundState b = Some RefundState.SEATS_RELEASED ->
    (loc = b /\ v' = v) \/ (exists now, loc = completed_row now b /\ v' = cancel_tickets (b_id b) v) ->
    broken md its b v e loc v'
| RefundFinal e : b_refundState b = Some RefundState.FAILED \/ b_refundState b = None ->
    e = BadRequestException (match b_refundState b with
          | None => "Invalid refund state: null"
          | _ => "Refund failed: " +:+ nullish (b_refundLastError b) "null"%string end) ->
    broken md its b v e b v.

(** The end of a run that threw: a prefix of the steps, a broken step, and the
    object saved with the failure counted (unless that save failed too). *)
Definition stopped (md : mode) (its : list BookingItem) (b : Booking) (v : BookingView) (e : exn) (v' : BookingView) : Prop :=
  exists b1 v1 e0 loc v2, rtc (rstep its) (b, v) (b1, v1) /\ broken md its b1 v1 e0 loc v2 /\
    ((e = e0 /\ v' = put (count_failure e0 loc) v2) \/ (md = Faulty /\ v' = v2)).

(** ** Proofs *)

(** The row of the booking [b] carries its id and its amount. *)
Definition stored (b : Booking) (v : BookingView) : Prop :=
  btx v = None /\ exists r, bookings (btables v) !! b_id b = Some r /\ b_totalAmount r = b_totalAmount b.

(** The same booking as far as its identity and its amount go. *)
Definition same_row (b b' : Booking) : Prop := b_id b' = b_id b /\ b_totalAmount b' = b_totalAmount b.

Lemma stored_put b b' v : same_row b b' -> stored b v -> stored b' (put b' v).
Proof. intros [Hid Ha] [Htx _]. split; [done|]. exists b'. split; [apply lookup_insert_eq|done]. Qed.

Lemma stored_same b b' v : same_row b b' -> stored b v -> stored b' v.
Proof. intros [Hid Ha] (Htx & r & Hr & Hra). split; [done|]. exists r. rewrite Hid, Ha. by split. Qed.

Lemma stored_call b c v : stored b v -> stored b (with_call c v).
Proof. done. Qed.

Section Proofs.
Context (md : mode).
Implicit Types (l : LoadedBooking) (v : BookingView).
Abbreviation spec := (obeys md book_behaviour).

Lemma save_booking_wp (Q : result unit -> LoadedBooking -> BookingView -> Prop) l v :
  stored (booking l) v ->
  Q (Ok tt) l (put (booking l) v) ->
  (forall e, md = Faulty -> Q (Err e) l v) ->
  wp spec save_booking Q l v.
Proof.
  intros (_ & r & Hr & Ha) HO HE. unfold save_booking. do 2 wp_step.
  apply book_call_wp; [|by intros e [[]|[Hm _]]; apply HE]. intros [] v' (row & Hrow & ->).
  rewrite Hr in Hrow. cbn in Hrow. by rewrite Ha, amount_same in Hrow by done; subst row.
Qed.

Lemma complete_refund_wp (Q : result unit -> LoadedBooking -> BookingView -> Prop) b its v :
  stored b v -> b_refundState b = Some RefundState.SEATS_RELEASED ->
  (forall row v', rstep its (b, v) (row, v') -> b_refundState row = Some RefundState.COMPLETED ->
     Q (Ok tt) (mkLoaded row its) v') ->
  (forall e loc v', broken md its b v e loc v' -> Q (Err e) (mkLoaded loc its) v') ->
  wp spec (in_transaction complete_refund) Q (mkLoaded b its) v.
Proof.
  intros Hst Hb HO HE. destruct Hst as (Htx & r & Hr & Ha).
  assert (forall e loc v', md = Faulty -> (loc = b /\ v' = v) \/
    (exists now, loc = completed_row now b /\ v' = cancel_tickets (b_id b) v) -> Q (Err e) (mkLoaded loc its) v') as HF
    by (intros e loc v' Hm Hl; by apply HE, CloseFailed).
  apply booking_tx_wp; [done|intros e Hm; apply HF; [done|by left]|].
  assert (forall ws, with_btx None (with_btx (Some ws) v) = v) as Hback by (intros ws; destruct v; cbn in *; by subst).
  unfold complete_refund, cancelByBooking, set_booking. do 3 wp_step.
  apply book_call_wp.
  2: { intros e [[]|[Hm _]]. split; [done|]. intros e' _. rewrite Hback. apply HF; [done|by left]. }
  intros [] v' ->. do 2 wp_step. wp_step. apply now_wp. intros now. do 5 wp_step. cbn [booking items].
  fold (completed_row now b).
  set (u := with_btables _ _).
  assert (forall e ws, md = Faulty -> forall e', e' = e \/ md = Faulty ->
    Q (Err e') (mkLoaded (completed_row now b) its) (with_btx None (with_btx (Some ws) u))) as HF'.
  { intros e ws Hm e' _. apply HF; [done|]. right. exists now. split; [done|]. destruct v; cbn in *; by subst. }
  apply book_call_wp; [|by intros e [[]|[Hm _]]; split; [|by apply (HF' e [])]]. intros [] v' (row & Hrow & ->). cbn in Hrow.
  change (b_id (completed_row now b)) with (b_id b) in Hrow. rewrite Hr in Hrow. cbn in Hrow.
  rewrite amount_same in Hrow by done. subst row.
  wp_step. apply book_call_wp; [|by intros e [[]|[Hm _]]; split; [|by apply (HF' e [_])]].
  intros [] v' (o & Ho & Hn & ->). cbn in Hn.
  apply book_call_wp; [|by intros e [Hx|[Hm _]]; [done|split; [|by apply (HF' e [_; _])]]].
  intros [] v' (ws & Hws & ->). cbn in Hws. injection Hws as <-. split; [done|]. apply HO; [|done].
  replace (with_btables _ _) with (refund_written (completed_row now b) o (cancel_tickets (b_id b) v));
    [by apply RefundClosed|]. destruct v; cbn in *; by subst.
Qed.

(** One turn of the loop. *)
Lemma refund_step_wp (Q : result bool -> LoadedBooking -> BookingView -> Prop) b its v :
  stored b v ->
  (forall b' v', rstep its (b, v) (b', v') -> stored b' v' ->
     Q (Ok (bool_decide (b_refundState b' = Some RefundState.COMPLETED))) (mkLoaded b' its) v') ->
  (b_refundState b = Some RefundState.COMPLETED -> Q (Ok true) (mkLoaded b its) v) ->
  (forall e loc v', broken md its b v e loc v' -> stored loc v' -> Q (Err e) (mkLoaded loc its) v') ->
  wp spec (refund_step (map bi_seatId its)) Q (mkLoaded b its) v.
Proof.
  intros Hst HO HC HE. unfold refund_step, set_booking. do 2 wp_step. cbn [booking items].
  destruct (b_refundState b) as [[]|] eqn:Hs.
  - wp_step. apply rpc_wp. intros r. fold (refund_call b r).
    change (called _ r) with (refund_call b r). destruct r as [answer|e]; [|by apply HE; [by constructor|]].
    destruct (rp_success answer) eqn:Ha; cbn [negb].
    + do 2 wp_step. wp_step. apply save_booking_wp; cbn [booking].
      * by apply stored_call.
      * wp_step. apply (HO _ _ (PaymentReturned its b v answer Hs Ha)). by eapply stored_put; [|apply stored_call].
      * intros e Hm. apply HE; [by apply RefundUnsaved|]. by apply stored_call.
    + do 2 wp_step. wp_step. apply save_booking_wp; cbn [booking].
      * by apply stored_call.
      * wp_step. apply HE; [|by eapply stored_put; [|apply stored_call]]. eapply RefundRefused; [done..|by left].
      * intros e Hm. apply HE; [|by apply stored_call]. eapply RefundRefused; [done..|by right].
  - wp_step. apply rpc_wp. intros r. change (called _ r) with (seats_call b its r).
    destruct r as [answer|e]; [|by apply HE; [by constructor|]].
    do 2 wp_step. wp_step. apply save_booking_wp; cbn [booking].
    + by apply stored_call.
    + wp_step. apply (HO _ _ (SeatsFreed its b v answer Hs)). by eapply stored_put; [|apply stored_call].
    + intros e Hm. apply HE; [by apply SeatsUnsaved|]. by apply stored_call.
  - wp_step. apply complete_refund_wp; [done..| |].
    + intros row v' Hr Hc. wp_step. rewrite <- (bool_decide_eq_true_2 (b_refundState row = Some RefundState.COMPLETED)) by done.
      apply HO; [done|]. inversion Hr; subst; try congruence. split; [apply Hst|].
      eexists. split; [apply lookup_insert_eq|done].
    + intros e loc v' Hbr. apply HE; [done|]. inversion Hbr; subst; try congruence; try done.
      match goal with Hl : _ \/ _ |- _ => destruct Hl as [[-> ->]|(now & -> & ->)] end; [done|]. by apply (stored_same b).
  - wp_step. by apply HC.
  - wp_step. apply HE; [|done]. apply RefundFinal; [by left|by rewrite Hs].
  - wp_step. apply HE; [|done]. apply RefundFinal; [by right|by rewrite Hs].
Qed.

(** The turns the machine still needs: it never runs out of its five. *)
Definition turns (b : Booking) : nat :=
  match b_refundState b with
  | Some RefundState.REFUND_INITIATED => 3
  | Some RefundState.PAYMENT_REFUNDED => 2
  | _ => 1
  end.

Lemma rstep_turns its b v b' v' :
  rstep its (b, v) (b', v') -> b_refundState b' = Some RefundState.COMPLETED \/ S (turns b') = turns b.
Proof. intros H. inversion H; subst; unfold turns; cbn; repeat case_match; auto; congruence. Qed.

Lemma refund_loop_wp n (Q : result unit -> LoadedBooking -> BookingView -> Prop) b its v :
  stored b v -> turns b <= n ->
  (forall b' v', rtc (rstep its) (b, v) (b', v') -> b_refundState b' = Some RefundState.COMPLETED ->
     Q (Ok tt) (mkLoaded b' its) v') ->
  (forall e l v', stopped md its b v e v' -> Q (Err e) l v') ->
  wp spec (refund_loop n (map bi_seatId its)) Q (mkLoaded b its) v.
Proof.
  revert b v. induction n as [|n IH]; intros b v Hst Hn HO HE.
  { unfold turns in Hn. repeat case_match; lia. }
  cbn [refund_loop]. do 2 wp_step. apply refund_step_wp; [done|..].
  - intros b' v' Hr Hst'. case_bool_decide as Hc.
    + wp_step. apply HO; [by apply rtc_once|done].
    + apply IH; [done| |intros; apply HO; [by eapply rtc_l|done]|].
      * apply rstep_turns in Hr as [?|?]; [done|lia].
      * intros e l v'' (b1 & v1 & e0 & loc & v2 & Hrtc & Hrest). apply HE.
        exists b1, v1, e0, loc, v2. split; [by eapply rtc_l|done].
  - intros Hc. wp_step. by apply HO.
  - intros e loc v' Hb Hst'. unfold set_booking. do 3 wp_step. cbn [booking items]. apply save_booking_wp; [done|..].
    + wp_step. apply HE. exists b, v, e, loc, v'. split; [done|]. split; [done|by left].
    + intros e' Hm. apply HE. exists b, v, e, loc, v'. split; [done|]. split; [done|by right].
Qed.

Lemma machine_wp (Q : result LoadedBooking -> LoadedBooking -> BookingView -> Prop) b its v :
  stored b v ->
  (forall b' v', rtc (rstep its) (b, v) (b', v') -> b_refundState b' = Some RefundState.COMPLETED ->
     Q (Ok (mkLoaded b' its)) (mkLoaded b' its) v') ->
  (forall e l v', stopped md its b v e v' -> Q (Err e) l v') ->
  wp spec processRefundStateMachine Q (mkLoaded b its) v.
Proof.
  intros Hst HO HE. unfold processRefundStateMachine. do 2 wp_step. cbn [items]. wp_step.
  apply refund_loop_wp; [done| | |done].
  - unfold turns, maxSteps. repeat case_match; lia.
  - intros b' v' Hr Hc. wp_step. by apply HO.
Qed.
End Proofs.

(** Cancelling: the booking with the refund started, saved if it was not before. *)
Definition refund_begun (key : string) (reason : option string) (b b' : Booking) (v v' : BookingView) : Prop :=
  match b_refundState b with
  | None => b' = start_refund key reason b /\ v' = put b' v
  | Some _ => b' = b /\ v' = v
  end.

Section CancelProof.
Context {S : Type} (md : mode).
Implicit Types (s : S).
Abbreviation spec := (obeys md book_behaviour).

Lemma cancelBooking_wp id userId key reason (Q : result LoadedBooking -> S -> BookingView -> Prop) s v :
  booking_wf v ->
  (bookings (btables v) !! id = None -> Q (Err (NotFoundException "Booking not found")) s v) ->
  (forall b, bookings (btables v) !! id = Some b -> b_userId b <> userId ->
     Q (Err (BadRequestException "You are not allowed to cancel this booking")) s v) ->
  (forall b, bookings (btables v) !! id = Some b -> b_userId b = userId -> b_status b <> BookingStatus.CONFIRMED ->
     Q (Err (BadRequestException "Booking is not confirmed and cannot be cancelled")) s v) ->
  (forall e, md = Faulty -> Q (Err e) s v) ->
  (forall b its b0 v0, bookings (btables v) !! id = Some b -> b_userId b = userId ->
     b_status b = BookingStatus.CONFIRMED -> selects (items_of b) (booking_items (btables v)) its ->
     refund_begun key reason b b0 v v0 ->
     (forall b' v', rtc (rstep its) (b0, v0) (b', v') -> b_refundState b' = Some RefundState.COMPLETED ->
        Q (Ok (mkLoaded b' its)) s v') /\
     (forall e v', stopped md its b0 v0 e v' -> Q (Err e) s v')) ->
  wp spec (cancelBooking id userId key reason) Q s v.
Proof.
  intros Hwf HN HU HS HE HR. unfold cancelBooking. wp_step.
  destruct (bookings (btables v) !! id) as [b|] eqn:Hb.
  - apply (find_id_wp md id b); [apply (wf_bookings _ Hwf)|done| |done].
    intros its Hits. cbn [booking]. destruct (String.eqb (b_userId b) userId) eqn:Hu; cbn [negb].
    2: { wp_step. apply String.eqb_neq in Hu. by eapply HU. }
    apply String.eqb_eq in Hu. case_bool_decide as Hs; cbn [negb]; [|wp_step; by eapply HS].
    pose proof (wf_bookings _ Hwf _ _ Hb) as Hid. specialize (HR b its).
    assert (stored b v) as Hst by (split; [apply (wf_no_tx _ Hwf)|exists b; rewrite Hid; by split]).
    assert (forall b0 v0, stored b0 v0 -> refund_begun key reason b b0 v v0 ->
      wp spec processRefundStateMachine (fun r (_ : LoadedBooking) v' =>
        match r with Ok a => Q (Ok a) s v' | Err e => Q (Err e) s v' end) (mkLoaded b0 its) v0) as Hm.
    { intros b0 v0 Hst0 Hbeg. destruct (HR b0 v0 eq_refl Hu Hs Hits Hbeg) as [HO HX].
      apply machine_wp; [done| |]; [intros b' v' H1 H2; by apply HO|intros e l v' H1; by apply HX]. }
    do 3 wp_step. unfold refund_begun in Hm. destruct (b_refundState b) eqn:Hr.
    + wp_step. eapply wp_mono; [by apply Hm|]. by intros [a|e] l' v'.
    + unfold set_booking. do 2 wp_step. cbn [booking items]. apply save_booking_wp; [by apply (stored_same b)| |].
      * cbn [booking]. eapply wp_mono; [apply Hm; [|done]; by apply (stored_put b)|]. by intros [a|e] l' v'.
      * done.
  - apply book_call_wp; [|by intros e [[]|[Hm _]]; apply HE].
    intros [[b its]|] v' (-> & Hs & _); cbn in Hs; [|by wp_step; apply HN].
    destruct Hs as [Hin Hi%String.eqb_eq]. apply (elem_of_rows b_id) in Hin; [|apply (wf_bookings _ Hwf)]. congruence.
Qed.
End CancelProof.

(** The remote calls of a run that began with the booking [b]: the payment is
    returned only from REFUND_INITIATED, the seats are freed only from
    PAYMENT_REFUNDED or after the payment service confirmed the refund. *)
Definition call_allowed (b : Booking) (its : list BookingItem) (cs : list RpcCall) (c : RpcCall) : Prop :=
  match c with
  | CRefundPayment _ _ _ reply =>
      b_refundState b = Some RefundState.REFUND_INITIATED /\ c = refund_call b reply
  | CReleaseSoldSeats _ _ reply =>
      c = seats_call b its reply /\
      (b_refundState b = Some RefundState.PAYMENT_REFUNDED \/
       exists answer, refund_call b (Ok answer) ∈ cs /\ rp_success answer = true)
  | _ => False
  end.

(** The fields the calls are made from. *)
Definition same_calls (b b1 : Booking) : Prop :=
  b_id b1 = b_id b /\ b_eventId b1 = b_eventId b /\ b_refundIdempotencyKey b1 = b_refundIdempotencyKey b /\
  b_cancellationReason b1 = b_cancellationReason b.

Definition paid_back (b b1 : Booking) (cs : list RpcCall) : Prop :=
  match b_refundState b1 with
  | Some RefundState.REFUND_INITIATED => b_refundState b = Some RefundState.REFUND_INITIATED
  | Some RefundState.PAYMENT_REFUNDED =>
      b_refundState b = Some RefundState.PAYMENT_REFUNDED \/
      exists answer, refund_call b (Ok answer) ∈ cs /\ rp_success answer = true
  | Some RefundState.FAILED | None => b1 = b
  | _ => True
  end.

Lemma call_allowed_app b its cs cs' c : call_allowed b its cs c -> call_allowed b its (cs ++ cs') c.
Proof.
  destruct c; cbn; try done. intros [-> [H|(a & H & Ha)]]; split; auto. right. exists a. split; [|done].
  apply elem_of_app. by left.
Qed.

Lemma allowed_snoc b its cs c :
  (forall c, c ∈ cs -> call_allowed b its cs c) -> call_allowed b its (cs ++ [c]) c ->
  forall c', c' ∈ cs ++ [c] -> call_allowed b its (cs ++ [c]) c'.
Proof.
  intros H Hc c' [Hin| ->%list_elem_of_singleton]%elem_of_app; [|done]. by apply call_allowed_app, H.
Qed.

Lemma same_refund_call b b1 r : same_calls b b1 -> refund_call b1 r = refund_call b r.
Proof. intros (H1 & _ & H3 & H4). unfold refund_call. by rewrite H1, H3, H4. Qed.

Lemma same_seats_call b b1 its r : same_calls b b1 -> seats_call b1 its r = seats_call b its r.
Proof. intros (_ & H2 & _). unfold seats_call. by rewrite H2. Qed.

Lemma rtc_calls its b v b1 v1 :
  rtc (rstep its) (b, v) (b1, v1) ->
  exists cs, calls v1 = calls v ++ cs /\ same_calls b b1 /\ paid_back b b1 cs /\
    forall c, c ∈ cs -> call_allowed b its cs c.
Proof.
  enough (forall p1, rtc (rstep its) (b, v) p1 ->
    exists cs, calls p1.2 = calls v ++ cs /\ same_calls b p1.1 /\ paid_back b p1.1 cs /\
      forall c, c ∈ cs -> call_allowed b its cs c) as H by apply (H (b1, v1)).
  apply rtc_ind_r; cbn [fst snd].
  - exists []. rewrite app_nil_r. split_and!; try done.
    + unfold paid_back. destruct (b_refundState b) as [[]|]; auto.
    + by intros c ?%elem_of_nil.
  - intros [b2 v2] p1 _ Hstep (cs & Hcs & Hsame & Hp & Hall). cbn [fst snd] in *.
    inversion Hstep as [b' v' answer Hs Ha|b' v' answer Hs|b' v' now o Hs Ho Hn]; subst; unfold paid_back in Hp; rewrite Hs in Hp.
    + exists (cs ++ [refund_call b (Ok answer)]). cbn. rewrite Hcs, (same_refund_call b b2), app_assoc by done.
      split_and!; try done.
      * right. exists answer. split; [apply elem_of_app; right; left|done].
      * by apply allowed_snoc.
    + exists (cs ++ [seats_call b its (Ok answer)]). cbn. rewrite Hcs, (same_seats_call b b2), app_assoc by done.
      split_and!; try done. apply allowed_snoc; [done|]. split; [done|].
      destruct Hp as [Hp|(a & Hin & Ha)]; [by left|right; exists a; split; [by apply elem_of_app; left|done]].
    + exists cs. by split_and!.
Qed.

Lemma broken_calls md its b b1 v v1 e loc v2 cs :
  broken md its b1 v1 e loc v2 -> calls v1 = calls v ++ cs -> same_calls b b1 -> paid_back b b1 cs ->
  (forall c, c ∈ cs -> call_allowed b its cs c) ->
  exists cs', calls v2 = calls v ++ cs' /\ forall c, c ∈ cs' -> call_allowed b its cs' c.
Proof.
  intros Hb Hcs Hsame Hp Hall.
  assert (forall r, b_refundState b1 = Some RefundState.REFUND_INITIATED ->
    calls (with_call (refund_call b1 r) v1) = calls v ++ (cs ++ [refund_call b r]) /\
    forall c, c ∈ cs ++ [refund_call b r] -> call_allowed b its (cs ++ [refund_call b r]) c) as Hr.
  { intros r Hs. unfold paid_back in Hp. rewrite Hs in Hp. cbn. rewrite Hcs, (same_refund_call b b1), app_assoc by done.
    split; [done|]. by apply allowed_snoc. }
  assert (forall r, b_refundState b1 = Some RefundState.PAYMENT_REFUNDED ->
    calls (with_call (seats_call b1 its r) v1) = calls v ++ (cs ++ [seats_call b its r]) /\
    forall c, c ∈ cs ++ [seats_call b its r] -> call_allowed b its (cs ++ [seats_call b its r]) c) as Hse.
  { intros r Hs. unfold paid_back in Hp. rewrite Hs in Hp. cbn. rewrite Hcs, (same_seats_call b b1), app_assoc by done.
    split; [done|]. apply allowed_snoc; [done|]. split; [done|].
    destruct Hp as [Hp|(a & Hin & Ha)]; [by left|right; exists a; split; [by apply elem_of_app; left|done]]. }
  destruct Hb as [e Hs|answer loc e v2 Hs _ _ Hv|answer e _ Hs _|e Hs|answer e _ Hs|e loc v2 _ _ Hv|e _ _];
    try (eexists; by apply Hr); try (eexists; by apply Hse); try (exists cs; by split).
  - destruct Hv as [[_ ->]|[_ ->]]; eexists; by apply Hr.
  - destruct Hv as [[_ ->]|(now & _ & ->)]; by exists cs.
Qed.

(** Both ways a run can end. *)
Definition run_ended (md : mode) (its : list BookingItem) (b : Booking) (v v' : BookingView) : Prop :=
  (exists b', rtc (rstep its) (b, v) (b', v')) \/ (exists e, stopped md its b v e v').

Lemma run_ended_calls md its b v v' :
  run_ended md its b v v' -> forall c, c ∈ new_calls v v' -> call_allowed b its (new_calls v v') c.
Proof.
  intros H.
  assert (exists cs, calls v' = calls v ++ cs /\ forall c, c ∈ cs -> call_allowed b its cs c) as (cs & Hcs & Hall).
  { destruct H as [[b' Hrtc]|(e & b1 & v1 & e0 & loc & v2 & Hrtc & Hb & Hend)];
      destruct (rtc_calls _ _ _ _ _ Hrtc) as (cs & Hcs & Hsame & Hp & Hall); [by exists cs|].
    destruct (broken_calls _ _ _ _ _ _ _ _ _ _ Hb Hcs Hsame Hp Hall) as (cs' & Hcs' & Hall').
    exists cs'. split; [|done]. by destruct Hend as [[_ ->]|[_ ->]]. }
  unfold new_calls. by rewrite Hcs, drop_app_length.
Qed.

(** ** Properties *)

Section Properties.
Context {W : Type} (h : forall X, BookingE X -> W -> result X * W) (view : W -> BookingView).
Variable md : mode.
Hypothesis Hh : conforms md book_behaviour h view.
Implicit Types (w : W).

(** C17: The refund loop implements the refund state machine, and five turns are
    always enough.  When it returns, the booking went through steps of the
    machine and is COMPLETED; when it throws, it went through steps up to a
    broken one, whose failure is counted on the saved booking. *)
Theorem processRefundStateMachine_refines b its w :
  stored b (view w) ->
  let v := view w in
  let v' := view (final h processRefundStateMachine (mkLoaded b its) w) in
  match outcome h processRefundStateMachine (mkLoaded b its) w with
  | Ok l => items l = its /\ rtc (rstep its) (b, v) (booking l, v') /\
            b_refundState (booking l) = Some RefundState.COMPLETED
  | Err e => stopped md its b v e v'
  end.
Proof.
  intros Hst. cbn zeta. call_wp Hh w. apply machine_wp; [done| |done]. intros b' v' Hr Hc. by split_and!.
Qed.

(** C6: A resumed refund repeats nothing and skips nothing, however the run
    ends: the payment is returned only by a run that starts in
    REFUND_INITIATED, with the booking's own id and idempotency key, and the
    seats are given back only once the payment service confirmed the refund,
    in this run or in an earlier one. *)
Theorem refund_calls_in_order b its w :
  stored b (view w) ->
  let v := view w in
  let v' := view (final h processRefundStateMachine (mkLoaded b its) w) in
  forall c, c ∈ new_calls v v' -> call_allowed b its (new_calls v v') c.
Proof.
  intros Hst. cbn zeta.
  assert (run_ended md its b (view w) (view (final h processRefundStateMachine (mkLoaded b its) w))) as H.
  { call_wp Hh w. apply machine_wp; [done|intros b' v' Hr _; left; by exists b'|intros e l v' Hs; right; by exists e]. }
  by eapply run_ended_calls.
Qed.

(** Only the owner cancels, only a CONFIRMED booking, and only once: for a
    booking that is missing, someone else's or not confirmed the call throws
    and changes nothing; otherwise the refund is begun (keeping the key of a
    refund begun before) and the machine runs on it. *)
Theorem cancelBooking_spec {S} id userId key reason (s : S) w :
  booking_wf (view w) ->
  let v := view w in
  let v' := view (final h (cancelBooking id userId key reason) s w) in
  let r := outcome h (cancelBooking id userId key reason) s w in
  (is_ok r = false /\ v' = v /\
   (md = Faulty \/
    match bookings (btables v) !! id with
    | None => r = Err (NotFoundException "Booking not found")
    | Some b =>
        (b_userId b <> userId /\ r = Err (BadRequestException "You are not allowed to cancel this booking")) \/
        (b_userId b = userId /\ b_status b <> BookingStatus.CONFIRMED /\
         r = Err (BadRequestException "Booking is not confirmed and cannot be cancelled"))
    end)) \/
  (exists b its b0 v0, bookings (btables v) !! id = Some b /\ b_userId b = userId /\
     b_status b = BookingStatus.CONFIRMED /\ selects (items_of b) (booking_items (btables v)) its /\
     refund_begun key reason b b0 v v0 /\
     match r with
     | Ok l => items l = its /\ rtc (rstep its) (b0, v0) (booking l, v') /\
               b_refundState (booking l) = Some RefundState.COMPLETED
     | Err e => stopped md its b0 v0 e v'
     end).
Proof.
  intros Hwf. cbn zeta. call_wp Hh w. apply cancelBooking_wp; [done|..].
  - intros ->. left. split_and!; try done. by right.
  - intros b -> Hu. left. split_and!; try done. right. by left.
  - intros b -> Hu Hs. left. split_and!; try done. right. right. by split_and!.
  - intros e Hm. left. split_and!; try done. by left.
  - intros b its b0 v0 Hb Hu Hs Hits Hbeg. split.
    + intros b' v' Hr Hc. right. exists b, its, b0, v0. by split_and!.
    + intros e v' Hstop. right. exists b, its, b0, v0. by split_and!.
Qed.
End Properties.

(** A reply that lets the refund go on. *)
Definition call_succeeded (c : RpcCall) : bool :=
  match c with
  | CRefundPayment _ _ _ (Ok answer) => rp_success answer
  | CReleaseSoldSeats _ _ (Ok _) => true
  | _ => false
  end.

Lemma rstep_state its b v b' v' st :
  rtc (rstep its) (b, v) (b', v') -> b_refundState b <> st -> st = None \/ st = Some RefundState.FAILED ->
  b_refundState b' <> st.
Proof.
  intros Hr Hb Hst.
  assert (forall p, rtc (rstep its) (b, v) p -> b_refundState p.1 <> st) as H; [|by apply (H (b', v'))].
  apply rtc_ind_r; [done|]. intros [b1 v1] p _ Hstep _. inversion Hstep; subst; by destruct Hst as [->| ->].
Qed.

Lemma stopped_refused its b v e v' :
  stopped Reliable its b v e v' -> b_refundState b <> None -> b_refundState b <> Some RefundState.FAILED ->
  exists c, c ∈ new_calls v v' /\ call_succeeded c = false.
Proof.
  intros (b1 & v1 & e0 & loc & v2 & Hr & Hb & Hend) Hn Hf.
  pose proof (rstep_state _ _ _ _ _ _ Hr Hn (or_introl eq_refl)) as Hn1.
  pose proof (rstep_state _ _ _ _ _ _ Hr Hf (or_intror eq_refl)) as Hf1.
  destruct (rtc_calls _ _ _ _ _ Hr) as (cs & Hcs & _).
  assert (calls v' = calls v2) as Hv by (destruct Hend as [[_ ->]|[? _]]; done).
  assert (forall c, calls v2 = calls v1 ++ [c] -> call_succeeded c = false ->
    exists c, c ∈ new_calls v v' /\ call_succeeded c = false) as Hlast.
  { intros c Hc Hfail. exists c. split; [|done]. unfold new_calls.
    rewrite Hv, Hc, Hcs, <- app_assoc, drop_app_length. apply elem_of_app. right. left. }
  destruct Hb as [e0 _|answer loc e0 v2 _ Ha _ Hx|? ? ? _ _|e0 _|? ? ? _|? ? ? ? _ _|e0 Hs _]; try done.
  - by eapply Hlast.
  - destruct Hx as [[_ ->]|[? _]]; [|done]. by eapply Hlast.
  - by eapply Hlast.
  - by destruct Hs.
Qed.

(** The refund completes: when no database operation fails and both services
    answer positively, a booking whose refund was begun and not refused ends
    REFUNDED and COMPLETED. *)
Theorem refund_completes {W} (h : forall X, BookingE X -> W -> result X * W) view b its (w : W) :
  conforms Reliable book_behaviour h view ->
  stored b (view w) -> b_refundState b <> None -> b_refundState b <> Some RefundState.FAILED ->
  forallb call_succeeded (new_calls (view w) (view (final h processRefundStateMachine (mkLoaded b its) w))) = true ->
  exists l, outcome h processRefundStateMachine (mkLoaded b its) w = Ok l /\
    b_refundState (booking l) = Some RefundState.COMPLETED.
Proof.
  intros Hh Hst Hn Hf. call_wp Hh w. apply machine_wp; [done| |].
  - intros b' v' _ Hc _. by exists (mkLoaded b' its).
  - intros e l v' Hs Hall. destruct (stopped_refused _ _ _ _ _ Hs Hn Hf) as (c & Hc & Hfail).
    rewrite forallb_forall in Hall. apply list_elem_of_In, Hall in Hc. congruence.
Qed.

(** The exception to the outbox guarantee.  When the transaction of the last
    step fails after the object was changed, the [catch] block saves the object:
    the booking is REFUNDED and COMPLETED, but no booking.refunded entry exists,
    and neither a retry nor the recovery worker will write one. *)
Theorem refund_closed_without_message :
  let h := book_flaky good_answer in
  let script := [false; false; false; false; false; false; false; false; true] in
  let m := @cancelBooking unit "b1" "u1" "key-1" None in
  let t := btables (book_flaky_view (final h m tt (booked None 0, script))) in
  is_ok (outcome h m tt (booked None 0, script)) = false /\
  map (fun b => (b_status b, b_refundState b)) (rows (bookings t)) =
    [(BookingStatus.REFUNDED, Some RefundState.COMPLETED)] /\
  rows (outbox t) = [].
Proof. vm_compute. split_and!; done. Qed.

(** The services of [good_answer], but the seats are not released. *)
Definition stubborn_answer (X : Type) (op : RpcE X) : result X :=
  match op with
  | ReleaseSoldSeats _ _ => Ok false
  | op => good_answer _ op
  end.

(** The reply of ReleaseSoldSeats is not looked at: the refund completes and
    the tickets are cancelled although the seat inventory answered
    success:false. *)
Theorem refund_ignores_refused_release :
  let h := book_run stubborn_answer in
  let m := @cancelBooking unit "b1" "u1" "key-1" None in
  let v' := book_view (final h m tt (booked None 0)) in
  is_ok (outcome h m tt (booked None 0)) = true /\
  map b_status (rows (bookings (btables v'))) = [BookingStatus.REFUNDED] /\
  List.filter (fun c => match c with CReleaseSoldSeats _ _ (Ok false) => true | _ => false end) (calls v') <> [].
Proof. vm_compute. split_and!; done. Qed.

(** ** Concrete runs *)

(** The booking and items of [booked], as loaded. *)
Abbreviation refund_demo := (demo_booking BookingStatus.CONFIRMED (Some RefundState.PAYMENT_REFUNDED) 1).
Abbreviation refund_items := [demo_item "i1" "A1"; demo_item "i2" "A2"].

Lemma refund_demo_stored : stored refund_demo (book_view (booked (Some RefundState.PAYMENT_REFUNDED) 1)).
Proof. split; [done|]. exists refund_demo. split; reflexivity. Qed.

Lemma processRefundStateMachine_refines_witness :
  exists l, outcome (book_run good_answer) processRefundStateMachine (mkLoaded refund_demo refund_items)
      (booked (Some RefundState.PAYMENT_REFUNDED) 1) = Ok l /\
    b_status (booking l) = BookingStatus.REFUNDED /\
    rtc (rstep refund_items) (refund_demo, book_view (booked (Some RefundState.PAYMENT_REFUNDED) 1))
      (booking l, book_view (final (book_run good_answer) processRefundStateMachine
                               (mkLoaded refund_demo refund_items) (booked (Some RefundState.PAYMENT_REFUNDED) 1))).
Proof.
  pose proof (processRefundStateMachine_refines (book_run good_answer) book_view Reliable
    (book_run_conforms good_answer) refund_demo refund_items _ refund_demo_stored) as H. cbn zeta in H.
  destruct (outcome (book_run good_answer) processRefundStateMachine (mkLoaded refund_demo refund_items)
    (booked (Some RefundState.PAYMENT_REFUNDED) 1)) as [l|e] eqn:Ho.
  - exists l. split; [reflexivity|]. destruct H as (_ & H & _). split; [|exact H].
    vm_compute in Ho. injection Ho as <-. reflexivity.
  - vm_compute in Ho. discriminate Ho.
Defined.

Lemma refund_calls_in_order_witness :
  let v := book_view (booked (Some RefundState.PAYMENT_REFUNDED) 1) in
  let v' := book_view (final (book_run good_answer) processRefundStateMachine (mkLoaded refund_demo refund_items)
                         (booked (Some RefundState.PAYMENT_REFUNDED) 1)) in
  length (new_calls v v') = 1 /\ forall c, c ∈ new_calls v v' -> call_allowed refund_demo refund_items (new_calls v v') c.
Proof.
  split; [vm_compute; reflexivity|].
  apply (refund_calls_in_order (book_run good_answer) book_view Reliable
    (book_run_conforms good_answer) refund_demo refund_items _ refund_demo_stored).
Defined.

Lemma cancelBooking_spec_witness :
  is_ok (outcome (book_run good_answer) (@cancelBooking unit "b1" "u2" "key-2" None) tt (booked None 0)) = false /\
  book_view (final (book_run good_answer) (@cancelBooking unit "b1" "u2" "key-2" None) tt (booked None 0)) =
  book_view (booked None 0).
Proof.
  destruct (cancelBooking_spec (book_run good_answer) book_view Reliable (book_run_conforms good_answer)
    "b1" "u2" "key-2" None tt (booked None 0) (booked_wf _ _)) as [(H1 & H2 & _)|(b & its & b0 & v0 & Hb & Hu & _)].
  - exact (conj H1 H2).
  - vm_compute in Hb. injection Hb as <-. discriminate Hu.
Defined.

Lemma refund_completes_witness :
  exists l, outcome (book_run good_answer) processRefundStateMachine (mkLoaded refund_demo refund_items)
      (booked (Some RefundState.PAYMENT_REFUNDED) 1) = Ok l /\ b_refundState (booking l) = Some RefundState.COMPLETED.
Proof.
  apply (refund_completes (book_run good_answer) book_view refund_demo refund_items _ (book_run_conforms good_answer)
    refund_demo_stored); [discriminate|discriminate|vm_compute; reflexivity].
Defined.
