(* ===== verification/RefundTermination.v ===== *)
(** * The bound of the refund state machine

    [processRefundStateMachine] runs its loop at most [maxSteps] times.  What is
    shown here assumes nothing of the database, the services or the order of
    failures: the handler of the operations is arbitrary. *)

From S2P Require Import Prelude Messages Effects JsNumber Json Sql BookingWorld BookingRef Tickets BookingCreate BookingRefund.

(** Operations of which nothing is known. *)
Definition anything (X : Type) (op : BookingE X) (v : unit) (r : result X) (v' : unit) : Prop := True.

(** What a turn of the loop does to the object when it does not throw: it
    advances by one state, or the refund is complete. *)
Definition advanced (l : LoadedBooking) (r : result bool) (l' : LoadedBooking) (v' : unit) : Prop :=
  match r with
  | Ok true => b_refundState (booking l') = Some RefundState.COMPLETED
  | Ok false => S (turns (booking l')) = turns (booking l)
  | Err _ => True
  end.

Lemma save_booking_any (Q : result unit -> LoadedBooking -> unit -> Prop) l :
  (forall r, Q r l tt) -> wp anything save_booking Q l tt.
Proof. intros HQ. unfold save_booking. do 2 wp_step. wp_step. by intros r [] _. Qed.

Lemma complete_refund_any (Q : result unit -> LoadedBooking -> unit -> Prop) l :
  (forall l', b_refundState (booking l') = Some RefundState.COMPLETED -> Q (Ok tt) l' tt) ->
  (forall e l', Q (Err e) l' tt) ->
  wp anything complete_refund Q l tt.
Proof.
  intros HQ HE. unfold complete_refund, cancelByBooking, set_booking. do 4 wp_step.
  intros [[]|e] [] _; [|done]. do 3 wp_step. wp_step. intros [now|e] [] _; [|done]. do 2 wp_step.
  do 2 wp_step. wp_step. wp_step. intros [x|e] [] _; [|done]. wp_step. wp_step. intros [y|e] [] _; [|done].
  wp_step. intros [[]|e] [] _; [by apply HQ|done].
Qed.

Lemma refund_step_any seatIds l : wp anything (refund_step seatIds) (advanced l) l tt.
Proof.
  unfold refund_step. do 2 wp_step. unfold rpc, set_booking.
  destruct (b_refundState (booking l)) as [[]|] eqn:Hs; try by wp_step.
  - do 2 wp_step. wp_step. intros [r|e] [] _; [|done]. wp_step. destruct r as [a|e]; [|done].
    destruct (negb (rp_success a)).
    + do 2 wp_step. wp_step. apply save_booking_any. intros [[]|e]; [by wp_step|done].
    + do 2 wp_step. wp_step. apply save_booking_any. intros [[]|e]; [|done]. wp_step. unfold advanced, turns. by rewrite Hs.
  - do 2 wp_step. wp_step. intros [r|e] [] _; [|done]. wp_step. destruct r as [a|e]; [|done].
    do 2 wp_step. wp_step. apply save_booking_any. intros [[]|e]; [|done]. wp_step. unfold advanced, turns. by rewrite Hs.
  - wp_step. unfold in_transaction. do 2 wp_step. intros [[]|e] [] _; [|done]. do 2 wp_step. intros [[]|e] [] _; [|done].
    do 2 wp_step. apply complete_refund_any.
    + intros l' Hc. wp_step. intros [[]|e] [] _; [|done]. by wp_step.
    + intros e l'. do 2 wp_step. intros [[]|e'] [] _.
      * wp_step. wp_step. by intros [[]|e'] [] _.
      * wp_step. by intros [[]|e''] [] _.
Qed.

Section Termination.
Context {W : Type}.
Variable h : forall X, BookingE X -> W -> result X * W.

Lemma refund_step_run seatIds l w :
  advanced l (run h (refund_step seatIds) l w).1.1 (run h (refund_step seatIds) l w).1.2 tt.
Proof. exact (wp_run anything h (fun _ => tt) _ (advanced l) l w (fun _ _ _ => I) (refund_step_any seatIds l)). Qed.

(** A turn and what follows it. *)
Lemma refund_loop_run n seatIds l w :
  run h (refund_loop (S n) seatIds) l w =
  match run h (refund_step seatIds) l w with
  | (Ok true, l', w') => (Ok tt, l', w')
  | (Ok false, l', w') => run h (refund_loop n seatIds) l' w'
  | (Err e, l', w') =>
      match run h (set_booking (count_failure e) ;; save_booking) l' w' with
      | (Ok _, l'', w'') => (Err e, l'', w'')
      | (Err e', l'', w'') => (Err e', l'', w'')
      end
  end.
Proof.
  cbn [refund_loop]. rewrite run_bind, run_try_catch.
  destruct (run h (refund_step seatIds) l w) as [[[[]|e] l'] w']; [done|done|].
  rewrite !run_bind. destruct (run h (set_booking (count_failure e)) l' w') as [[[x|e'] l''] w'']; [|done].
  rewrite run_bind. by destruct (run h save_booking l'' w'') as [[[y|e'] l3] w3].
Qed.

Lemma refund_loop_bound seatIds n m l w :
  turns (booking l) <= n -> turns (booking l) <= m ->
  run h (refund_loop n seatIds) l w = run h (refund_loop m seatIds) l w.
Proof.
  revert m l w. induction n as [|n IH]; intros m l w Hn Hm.
  { unfold turns in Hn. repeat case_match; lia. }
  destruct m as [|m]; [unfold turns in Hm; repeat case_match; lia|].
  rewrite !refund_loop_run. pose proof (refund_step_run seatIds l w) as Ha.
  destruct (run h (refund_step seatIds) l w) as [[[[]|e] l'] w']; [done| |done].
  cbn in Ha. apply IH; lia.
Qed.

Lemma refund_loop_completed seatIds n l w l' w' :
  turns (booking l) <= n -> run h (refund_loop n seatIds) l w = (Ok tt, l', w') ->
  b_refundState (booking l') = Some RefundState.COMPLETED.
Proof.
  revert l w. induction n as [|n IH]; intros l w Hn.
  { unfold turns in Hn. repeat case_match; lia. }
  rewrite refund_loop_run. pose proof (refund_step_run seatIds l w) as Ha.
  destruct (run h (refund_step seatIds) l w) as [[[[]|e] l1] w1]; cbn in Ha.
  - by intros [= <- <-].
  - apply IH. lia.
  - destruct (run h _ l1 w1) as [[[x|e'] l2] w2]; by intros [=].
Qed.

Lemma turns_le b : turns b <= 3.
Proof. unfold turns. repeat case_match; lia. Qed.

(** C18: The bound of the refund machine is never what ends it.  Whatever the
    database and the services do, more steps than [maxSteps] change nothing,
    three would already do, and a machine that returns instead of throwing has
    reached COMPLETED. *)
Theorem refund_machine_terminates l w :
  (forall n seatIds, 3 <= n -> run h (refund_loop n seatIds) l w = run h (refund_loop maxSteps seatIds) l w) /\
  forall l', outcome h processRefundStateMachine l w = Ok l' ->
    b_refundState (booking l') = Some RefundState.COMPLETED.
Proof.
  pose proof (turns_le (booking l)). split; [intros n seatIds Hn; apply refund_loop_bound; unfold maxSteps; lia|].
  intros l'. unfold outcome, processRefundStateMachine. rewrite run_bind. cbn [run get_local]. rewrite run_bind.
  destruct (run h (refund_loop maxSteps (map bi_seatId (items l))) l w) as [[[[]|e] l1] w1] eqn:Hr; [|done].
  cbn. intros [= <-]. eapply refund_loop_completed; [|exact Hr]. unfold maxSteps. lia.
Qed.
End Termination.

Lemma refund_machine_terminates_witness :
  let h := book_run good_answer in
  let l := mkLoaded refund_demo refund_items in
  let w := booked (Some RefundState.PAYMENT_REFUNDED) 1 in
  run h (refund_loop 7 ["A1"%string]) l w = run h (refund_loop maxSteps ["A1"%string]) l w /\
  exists l', outcome h processRefundStateMachine l w = Ok l' /\
    b_refundState (booking l') = Some RefundState.COMPLETED.
Proof.
  cbv zeta. split.
  - apply (refund_machine_terminates (book_run good_answer)). lia.
  - assert (exists l', outcome (book_run good_answer) processRefundStateMachine (mkLoaded refund_demo refund_items)
      (booked (Some RefundState.PAYMENT_REFUNDED) 1) = Ok l') as [l' Hl] by (eexists; vm_compute; reflexivity).
    exists l'. split; [exact Hl|]. exact (proj2 (refund_machine_terminates (book_run good_answer) _ _) l' Hl).
Defined.
