(* ===== verification/OutboxWorker.v ===== *)
(** * The outbox worker

    apps/booking-service/src/booking/outbox.worker.ts: the job that takes the
    oldest pending entries of the outbox and performs their effects.  The entry
    object is the local state of [process_one]. *)

From S2P Require Import Prelude Messages Effects JsNumber Json Sql BookingWorld BookingRef Tickets BookingCreate.

(** [const { eventId, userId, seatIds } = entry.payload] *)
Definition payload_eventId (p : Payload) : string :=
  match p with SeatsPayload eventId _ _ => eventId | BookingPayload _ _ _ eventId _ _ _ _ => eventId end.
Definition payload_userId (p : Payload) : string :=
  match p with SeatsPayload _ userId _ => userId | BookingPayload _ _ userId _ _ _ _ _ => userId end.
Definition payload_seatIds (p : Payload) : option (list string) :=
  match p with SeatsPayload _ _ seatIds => Some seatIds | BookingPayload _ _ _ _ _ _ _ _ => None end.

Section Handlers.
Context {S : Type}.

(** The log line after the call reads [seatIds.length]. *)
Definition handleSeatsSold (entry : Outbox) : prog S BookingE unit :=
  let p := o_payload entry in
  success <- rpc (MarkSeatsAsSold (payload_eventId p) (nullish (payload_seatIds p) []) (payload_userId p)) ;;
  if negb success then Throw (JsError "markSeatsAsSold gRPC call failed")
  else
    match payload_seatIds p with
    | Some _ => Ret tt
    | None => Throw (TypeError "Cannot read properties of undefined (reading 'length')")
    end.

Definition handleBookingConfirmed (entry : Outbox) : prog S BookingE unit :=
  generateTicket (o_aggregateId entry) ;;
  call (BEmit (mkMessage "booking.confirmed" (o_aggregateId entry) (o_payload entry))).

Definition handleBookingRefunded (entry : Outbox) : prog S BookingE unit :=
  call (BEmit (mkMessage "booking.refunded" (o_aggregateId entry) (o_payload entry))).

Definition processEntry (entry : Outbox) : prog S BookingE unit :=
  if String.eqb (o_eventType entry) "seats.mark_sold" then handleSeatsSold entry
  else if String.eqb (o_eventType entry) "booking.confirmed" then handleBookingConfirmed entry
  else if String.eqb (o_eventType entry) "booking.refunded" then handleBookingRefunded entry
  else Ret tt.
End Handlers.

Definition save_entry : prog Outbox BookingE unit := entry <- get_local ;; call (OutSave entry).

(** [entry.retryCount += 1; entry.lastError = error.message; entry.status = ...] *)
Definition give_back (error : exn) (entry : Outbox) : Outbox :=
  let entry := set_o_retry (o_retryCount entry + 1) (emessage error) entry in
  if Z.leb (o_maxRetries entry) (o_retryCount entry) then set_o_status OutboxStatus.FAILED entry
  else set_o_status OutboxStatus.PENDING entry.

(** The body of the loop.  The first save is outside the [try] block. *)
Definition process_one : prog Outbox BookingE unit :=
  modify (set_o_status OutboxStatus.PROCESSING) ;;
  save_entry ;;
  try_catch
    (entry <- get_local ;;
     processEntry entry ;;
     modify (set_o_status OutboxStatus.COMPLETED) ;;
     now <- call BNow ;;
     modify (set_o_processedAt now) ;;
     save_entry)
    (fun error => modify (give_back error) ;; save_entry).

Definition pending (entry : Outbox) : bool := bool_decide (o_status entry = OutboxStatus.PENDING).

Definition processOutbox {S} : prog S BookingE unit :=
  pendingEntries <- call (OutFindOldest pending 10) ;;
  if Nat.eqb (length pendingEntries) 0 then Ret tt
  else for_each pendingEntries (fun entry => with_local entry process_one ;; Ret tt).

(** ** Specification *)

Definition put_entry (e : Outbox) (v : BookingView) : BookingView :=
  with_btables (with_outbox (<[o_id e := e]> (outbox (btables v))) (btables v)) v.

Definition sold_call (e : Outbox) (reply : result bool) : RpcCall :=
  CMarkSeatsAsSold (payload_eventId (o_payload e)) (nullish (payload_seatIds (o_payload e)) [])
    (payload_userId (o_payload e)) reply.

Definition entry_message (e : Outbox) : BookingMessage := mkMessage (o_eventType e) (o_aggregateId e) (o_payload e).

(** The booking has its tickets: they were there, or it has no items, or they
    were issued just now. *)
Definition tickets_ready (bookingId : string) (v v' : BookingView) : Prop :=
  (v' = v /\ (selects (item_of_booking bookingId) (booking_items (btables v)) [] \/
              exists l, l <> [] /\ selects (of_booking bookingId) (tickets (btables v)) l)) \/
  exists l, tickets_issued bookingId l v v'.

(** The effect of an entry was performed, as far as the code looks: of a
    message, that it was handed to the Kafka client, whatever number of
    [copies] reach the broker. *)
Inductive performed (e : Outbox) (v : BookingView) : BookingView -> Prop :=
| SoldPerformed : o_eventType e = "seats.mark_sold"%string -> is_Some (payload_seatIds (o_payload e)) ->
    performed e v (with_call (sold_call e (Ok true)) v)
| ConfirmedPerformed v0 copies : o_eventType e = "booking.confirmed"%string ->
    tickets_ready (o_aggregateId e) v v0 -> performed e v (with_message (entry_message e) copies v0)
| RefundedPerformed copies : o_eventType e = "booking.refunded"%string ->
    performed e v (with_message (entry_message e) copies v)
| UnknownSkipped : (o_eventType e ∉ ["seats.mark_sold"; "booking.confirmed"; "booking.refunded"]%string) ->
    performed e v v.

(** It was not: the seat inventory refused or could not be asked, or an
    operation failed before anything was done. *)
Inductive unperformed (md : mode) (e : Outbox) (v : BookingView) : BookingView -> Prop :=
| SoldRefused reply : o_eventType e = "seats.mark_sold"%string ->
    reply <> Ok true \/ payload_seatIds (o_payload e) = None ->
    unperformed md e v (with_call (sold_call e reply) v)
| TicketsFailed : md = Faulty -> o_eventType e = "booking.confirmed"%string -> unperformed md e v v.

Definition taken (e : Outbox) : Outbox := set_o_status OutboxStatus.PROCESSING e.
Definition closed (now : Z) (e : Outbox) : Outbox :=
  set_o_processedAt now (set_o_status OutboxStatus.COMPLETED (taken e)).

(** What happens to an entry the worker takes: its effect is performed and it
    is COMPLETED, or it is given back with the failure counted. *)
Inductive entry_step (md : mode) (e : Outbox) (v : BookingView) : BookingView -> Prop :=
| EntryCompleted now v1 : performed e (put_entry (taken e) v) v1 -> entry_step md e v (put_entry (closed now e) v1)
| EntryRefused error v1 : unperformed md e (put_entry (taken e) v) v1 ->
    entry_step md e v (put_entry (give_back error (taken e)) v1)
| EntryUnsaved error now v1 : md = Faulty -> performed e (put_entry (taken e) v) v1 ->
    entry_step md e v (put_entry (give_back error (closed now e)) v1).

(** The tick is aborted at an entry by a save that failed; the entry may be
    left PROCESSING. *)
Definition entry_aborted (md : mode) (e : Outbox) (v v' : BookingView) : Prop :=
  md = Faulty /\
  (v' = v \/ performed e (put_entry (taken e) v) v' \/ unperformed md e (put_entry (taken e) v) v').

Inductive ticked (md : mode) : list Outbox -> BookingView -> BookingView -> Prop :=
| TickDone v : ticked md [] v v
| TickEntry e es v v1 v2 : ticked md es v v1 -> entry_step md e v1 v2 -> ticked md (es ++ [e]) v v2.

(** ** Proofs *)

Section Proofs.
Context (md : mode).
Implicit Types (v : BookingView).
Abbreviation spec := (obeys md book_behaviour).

Lemma processEntry_wp {S} e (Q : result unit -> S -> BookingView -> Prop) s v :
  (forall v', performed e v v' -> Q (Ok tt) s v') ->
  (forall x v', unperformed md e v v' -> Q (Err x) s v') ->
  wp spec (processEntry e) Q s v.
Proof.
  intros HO HE. unfold processEntry.
  destruct (String.eqb (o_eventType e) "seats.mark_sold") eqn:H1.
  { apply String.eqb_eq in H1. unfold handleSeatsSold. wp_step. apply rpc_wp. intros reply.
    change (called _ reply) with (sold_call e reply).
    destruct reply as [[|]|x]; cbn [negb].
    - destruct (payload_seatIds (o_payload e)) eqn:Hp; wp_step.
      + apply HO, SoldPerformed; [done|]. rewrite Hp. by eexists.
      + apply HE. apply SoldRefused; [done|by right].
    - wp_step. apply HE, SoldRefused; [done|by left].
    - apply HE, SoldRefused; [done|by left]. }
  destruct (String.eqb (o_eventType e) "booking.confirmed") eqn:H2.
  { apply String.eqb_eq in H2. unfold handleBookingConfirmed. wp_step.
    assert (forall v0, tickets_ready (o_aggregateId e) v v0 ->
      wp spec (call (BEmit (mkMessage "booking.confirmed" (o_aggregateId e) (o_payload e)))) Q s v0) as Hemit.
    { intros v0 Hr. apply book_call_wp; [|by intros x [[]|[_ []]]]. intros [] v' [copies ->].
      apply HO. rewrite <- H2. by eapply ConfirmedPerformed. }
    apply generateTicket_wp.
    - intros l Hl Hne. apply Hemit. left. split; [done|]. right. by exists l.
    - intros _ Hi. apply Hemit. left. split; [done|]. by left.
    - intros l v' _ Hi. apply Hemit. right. by exists l.
    - intros x Hm. by apply HE, TicketsFailed. }
  destruct (String.eqb (o_eventType e) "booking.refunded") eqn:H3.
  { apply String.eqb_eq in H3. unfold handleBookingRefunded. apply book_call_wp; [|by intros x [[]|[_ []]]].
    intros [] v' [copies ->]. apply HO. rewrite <- H3. by apply RefundedPerformed. }
  wp_step. apply String.eqb_neq in H1, H2, H3. apply HO, UnknownSkipped.
  rewrite !not_elem_of_cons. split_and!; [done..|apply not_elem_of_nil].
Qed.

Lemma save_entry_wp (Q : result unit -> Outbox -> BookingView -> Prop) e v :
  Q (Ok tt) e (put_entry e v) -> (forall x, md = Faulty -> Q (Err x) e v) -> wp spec save_entry Q e v.
Proof.
  intros HO HE. unfold save_entry. do 2 wp_step. apply book_call_wp; [by intros [] v' ->|].
  by intros x [[]|[Hm _]]; apply HE.
Qed.

Lemma performed_taken e v v' : performed (taken e) v v' -> performed e v v'.
Proof.
  intros [He Hp|v0 n He Hr|n He|He]; [exact (SoldPerformed e v He Hp)|exact (ConfirmedPerformed e v v0 n He Hr)|exact (RefundedPerformed e v n He)|exact (UnknownSkipped e v He)].
Qed.

Lemma unperformed_taken e v v' : unperformed md (taken e) v v' -> unperformed md e v v'.
Proof. intros [reply He Hr|Hm He]; [exact (SoldRefused md e v reply He Hr)|exact (TicketsFailed md e v Hm He)]. Qed.

Lemma process_one_wp (Q : result unit -> Outbox -> BookingView -> Prop) e v :
  (forall e' v', entry_step md e v v' -> Q (Ok tt) e' v') ->
  (forall x e' v', entry_aborted md e v v' -> Q (Err x) e' v') ->
  wp spec process_one Q e v.
Proof.
  intros HO HE. unfold process_one. do 3 wp_step. fold (taken e).
  apply save_entry_wp; [|intros x Hm; apply HE; split; [done|by left]].
  do 4 wp_step. apply processEntry_wp.
  - intros v1 Hd%performed_taken. do 3 wp_step. apply now_wp. intros now. do 2 wp_step. fold (closed now e).
    apply save_entry_wp; [by eapply HO, EntryCompleted|]. intros x Hm. do 2 wp_step.
    apply save_entry_wp; [by eapply HO, EntryUnsaved|]. intros x' _. apply HE. split; [done|]. by right; left.
  - intros x v1 Hd%unperformed_taken. do 2 wp_step.
    apply save_entry_wp; [by eapply HO, EntryRefused|]. intros x' Hm. apply HE. split; [done|]. by right; right.
Qed.

Lemma processOutbox_wp {S} (Q : result unit -> S -> BookingView -> Prop) s v :
  (forall es v', selects_first pending older 10 (outbox (btables v)) es -> ticked md es v v' -> Q (Ok tt) s v') ->
  (forall x es e es' v1 v', selects_first pending older 10 (outbox (btables v)) (es ++ e :: es') ->
     ticked md es v v1 -> entry_aborted md e v1 v' -> Q (Err x) s v') ->
  (forall x, md = Faulty -> Q (Err x) s v) ->
  wp spec processOutbox Q s v.
Proof.
  intros HO HA HE. unfold processOutbox. wp_step.
  apply book_call_wp; [|by intros x [[]|[Hm _]]; apply HE]. intros es v0 [-> Hes].
  destruct (Nat.eqb (length es) 0) eqn:Hl.
  { apply Nat.eqb_eq, length_zero_iff_nil in Hl as ->. wp_step. by apply (HO []), TickDone. }
  apply (wp_for_each _ es _ (fun rest s' v' => s' = s /\ exists done_, es = done_ ++ rest /\ ticked md done_ v v')).
  - split; [done|]. exists []. split; [done|constructor].
  - intros s' v' [-> (done_ & He & Ht)]. rewrite app_nil_r in He. subst done_. by apply (HO es).
  - intros e rest s' v' [-> (done_ & -> & Ht)]. do 2 wp_step. apply process_one_wp.
    + intros e' v'' Hs. wp_step. split; [done|]. exists (done_ ++ [e]). rewrite <- app_assoc. split; [done|].
      by eapply TickEntry.
    + intros x e' v'' Ha. by apply (HA x done_ e rest v').
Qed.
End Proofs.

(** *** What the steps leave alone *)

(** Calls and messages are only added, and no item or ticket goes. *)
Record onward (v v' : BookingView) : Prop := {
  onward_grows : grows v v';
  onward_items : booking_items (btables v') = booking_items (btables v);
  onward_tickets : tickets (btables v) ⊆ tickets (btables v');
}.

Lemma onward_refl v : onward v v.
Proof. by split; [apply grows_refl|..]. Qed.

Lemma onward_trans v1 v2 v3 : onward v1 v2 -> onward v2 v3 -> onward v1 v3.
Proof.
  intros [G1 I1 T1] [G2 I2 T2]. split; [by eapply grows_trans|congruence|by etrans].
Qed.

Lemma onward_call v c : onward v (with_call c v).
Proof. by split; [apply grows_call|..]. Qed.

Lemma onward_message v m copies : onward v (with_message m copies v).
Proof. by split; [apply grows_message|..]. Qed.

Lemma put_entry_onward e v v' : onward (put_entry e v) v' -> onward v v'.
Proof. intros [G I T]. by split. Qed.

Lemma onward_put_entry e v v' : onward v v' -> onward v (put_entry e v').
Proof. intros [G I T]. by split. Qed.

(** The booking has a ticket, or no items. *)
Definition ticketed (bookingId : string) (v : BookingView) : Prop :=
  (exists i t, tickets (btables v) !! i = Some t /\ of_booking bookingId t = true) \/
  forall j it, booking_items (btables v) !! j = Some it -> item_of_booking bookingId it = false.

Lemma ticketed_mono id v v' : onward v v' -> ticketed id v -> ticketed id v'.
Proof.
  intros [_ I T] [(i & t & Hi & Ht)|Hno]; [left|right; by rewrite I].
  exists i, t. split; [|done]. by eapply lookup_weaken.
Qed.

Lemma tickets_ready_frame id v v' :
  tickets_ready id v v' -> onward v v' /\ outbox (btables v') = outbox (btables v) /\ ticketed id v'.
Proof.
  intros [[-> H]|(l & is_ & _ & Hne & Hl & Hf & ->)].
  - split_and!; [apply onward_refl|done|]. destruct H as [H|(l & Hne & H)].
    + right. rewrite selects_nil in H. intros j it Hj. by eapply H, rows_lookup.
    + left. destruct l as [|t l]; [done|]. assert (t ∈ List.filter (of_booking id) (rows (tickets (btables v)))) as Hin
        by (rewrite <- H; left).
      apply list_elem_of_In, filter_In in Hin as [Hin Ht]. apply list_elem_of_In, elem_of_rows_lookup in Hin as [i Hi].
      by exists i, t.
  - split_and!; [split; [apply (grows_refl v)|done|]|done|].
    + apply map_subseteq_spec. intros i t Hi. by apply upsert_fresh_old.
    + left. destruct Hl as [|it t is_ l Hit _]; [done|]. exists (t_id t), t. split; [apply upsert_in; [apply Hf|left]|].
      unfold issued_for in Hit. rewrite Hit. apply String.eqb_refl.
Qed.

Lemma performed_frame e v v' : performed e v v' -> onward v v' /\ outbox (btables v') = outbox (btables v).
Proof.
  intros [_ _|v0 n _ Hr|n _|_].
  - split; [apply onward_call|done].
  - apply tickets_ready_frame in Hr as (Hg & <- & _). split; [|done]. eapply onward_trans; [exact Hg|apply onward_message].
  - split; [apply onward_message|done].
  - split; [apply onward_refl|done].
Qed.

Lemma unperformed_frame md e v v' : unperformed md e v v' -> onward v v' /\ outbox (btables v') = outbox (btables v).
Proof. intros [reply _ _|_ _]; (split; [apply onward_call || apply onward_refl|done]). Qed.

(** The effect of the entry [o] took place between [v] and [v']: the seat
    inventory confirmed the sale; the booking has its tickets; the message was
    handed to the Kafka client. *)
Record carried_out (o : Outbox) (v v' : BookingView) : Prop := {
  sale_confirmed : o_eventType o = "seats.mark_sold"%string ->
    is_Some (payload_seatIds (o_payload o)) /\ sold_call o (Ok true) ∈ new_calls v v';
  tickets_there : o_eventType o = "booking.confirmed"%string -> ticketed (o_aggregateId o) v';
  handed_over : o_eventType o = "booking.confirmed"%string \/ o_eventType o = "booking.refunded"%string ->
    entry_message o ∈ new_messages v v';
}.

Lemma carried_out_mono o v v1 v2 : onward v v1 -> onward v1 v2 -> carried_out o v v1 -> carried_out o v v2.
Proof.
  intros H1 H2 [Hs Ht Hm]. destruct (new_sent_app _ _ _ (onward_grows _ _ H1) (onward_grows _ _ H2)) as [Hc Hms].
  split; rewrite ?Hc, ?Hms.
  - intros He. destruct (Hs He) as [Hp Hin]. split; [done|]. apply elem_of_app. by left.
  - intros He. by eapply ticketed_mono; [|apply Ht].
  - intros He. apply elem_of_app. left. by apply Hm.
Qed.

Lemma carried_out_later o v v1 v2 : onward v v1 -> onward v1 v2 -> carried_out o v1 v2 -> carried_out o v v2.
Proof.
  intros H1 H2 [Hs Ht Hm]. destruct (new_sent_app _ _ _ (onward_grows _ _ H1) (onward_grows _ _ H2)) as [Hc Hms].
  split; rewrite ?Hc, ?Hms; [|done|].
  - intros He. destruct (Hs He) as [Hp Hin]. split; [done|]. apply elem_of_app. by right.
  - intros He. apply elem_of_app. right. by apply Hm.
Qed.

Lemma performed_carried_out e v v' : performed e v v' -> carried_out e v v'.
Proof.
  intros [He Hp|v0 n He Hr|n He|Hnone].
  - split; [|congruence|intros [?|?]; congruence]. intros _. split; [done|]. unfold new_calls. cbn. rewrite drop_app_length. left.
  - apply tickets_ready_frame in Hr as (Hg & _ & Ht). split; [congruence|by intros _|]. intros _.
    destruct (new_sent_app _ _ _ (onward_grows _ _ Hg) (grows_message v0 (entry_message e) n)) as [_ ->].
    apply elem_of_app. right. unfold new_messages. cbn. rewrite drop_app_length. left.
  - split; [congruence..|]. intros _. unfold new_messages. cbn. rewrite drop_app_length. left.
  - rewrite !not_elem_of_cons in Hnone. destruct Hnone as (H1 & H2 & H3 & _). split; [done..|]. by intros [?|?].
Qed.

(** The row of the entry after a step, and nothing else in the outbox. *)
Lemma entry_step_frame md e v v' :
  entry_step md e v v' ->
  onward v v' /\ exists row, o_id row = o_id e /\ outbox (btables v') = <[o_id e := row]> (outbox (btables v)) /\
    (o_status row = OutboxStatus.COMPLETED -> carried_out row v v') /\
    (o_status row = OutboxStatus.COMPLETED \/ exists x e0, row = give_back x e0 /\ o_retryCount e0 = o_retryCount e /\
       o_maxRetries e0 = o_maxRetries e).
Proof.
  intros [now v1 Hd|x v1 Hu|x now v1 _ Hd].
  - pose proof (performed_frame _ _ _ Hd) as [Hg Ho]. split; [by apply (put_entry_onward (taken e)), onward_put_entry|]. exists (closed now e). split; [done|].
    cbn. rewrite Ho. split; [apply insert_insert_eq|]. split; [|by left]. intros _.
    destruct (performed_carried_out _ _ _ Hd) as [H1 H2 H3]. by split.
  - apply unperformed_frame in Hu as [Hg Ho]. split; [by apply (put_entry_onward (taken e)), onward_put_entry|]. exists (give_back x (taken e)).
    assert (o_id (give_back x (taken e)) = o_id e) as Hid by (unfold give_back; by case_match).
    split; [done|]. cbn. rewrite Hid, Ho. split; [apply insert_insert_eq|].
    split; [unfold give_back; by case_match|]. right. by exists x, (taken e).
  - apply performed_frame in Hd as [Hg Ho]. split; [by apply (put_entry_onward (taken e)), onward_put_entry|]. exists (give_back x (closed now e)).
    assert (o_id (give_back x (closed now e)) = o_id e) as Hid by (unfold give_back; by case_match).
    split; [done|]. cbn. rewrite Hid, Ho. split; [apply insert_insert_eq|].
    split; [unfold give_back; by case_match|]. right. by exists x, (closed now e).
Qed.

Lemma entry_aborted_frame md e v v' :
  entry_aborted md e v v' ->
  onward v v' /\ (outbox (btables v') = outbox (btables v) \/
                 outbox (btables v') = <[o_id e := taken e]> (outbox (btables v))).
Proof.
  intros [_ [->|[Hd|Hu]]]; [split; [apply onward_refl|by left]|..].
  - apply performed_frame in Hd as [Hg Ho]. split; [by eapply put_entry_onward|by right].
  - apply unperformed_frame in Hu as [Hg Ho]. split; [by eapply put_entry_onward|by right].
Qed.

Lemma ticked_onward md es v v' : ticked md es v v' -> onward v v'.
Proof.
  induction 1 as [v|e es v v1 v2 _ IH Hs]; [apply onward_refl|].
  eapply onward_trans; [exact IH|]. by apply entry_step_frame in Hs as [Hg _].
Qed.

(** A row the tick left COMPLETED was so before, or its effect took place. *)
Lemma ticked_completed md es v v' i o :
  ticked md es v v' -> outbox (btables v') !! i = Some o -> o_status o = OutboxStatus.COMPLETED ->
  outbox (btables v) !! i = Some o \/ carried_out o v v'.
Proof.
  intros H. revert i o. induction H as [v|e es v v1 v2 Ht IH Hs]; intros i o Ho Hc; [by left|].
  pose proof (ticked_onward _ _ _ _ Ht) as Hg1.
  apply entry_step_frame in Hs as (Hg & row & Hid & Hrow & Hsent & _).
  rewrite Hrow in Ho. apply lookup_insert_Some in Ho as [[_ <-]|[_ Ho]].
  - right. by eapply carried_out_later; [| |apply Hsent].
  - destruct (IH _ _ Ho Hc) as [?|?]; [by left|]. right. by eapply carried_out_mono.
Qed.

(** The worker asks for nothing but sales. *)
Definition is_sale (c : RpcCall) : Prop := match c with CMarkSeatsAsSold _ _ _ _ => True | _ => False end.

Definition sales_only (v v' : BookingView) : Prop := grows v v' /\ Forall is_sale (new_calls v v').

Lemma sales_only_refl v : sales_only v v.
Proof. split; [apply grows_refl|]. unfold new_calls. by rewrite drop_all. Qed.

Lemma sales_only_trans v1 v2 v3 : sales_only v1 v2 -> sales_only v2 v3 -> sales_only v1 v3.
Proof.
  intros [H1 F1] [H2 F2]. split; [by eapply grows_trans|]. destruct (new_sent_app _ _ _ H1 H2) as [-> _].
  by apply Forall_app.
Qed.

Lemma sales_only_call e r v : sales_only v (with_call (sold_call e r) v).
Proof. split; [apply grows_call|]. unfold new_calls. cbn. rewrite drop_app_length. by repeat constructor. Qed.

Lemma sales_only_message m n v : sales_only v (with_message m n v).
Proof. split; [apply grows_message|]. unfold new_calls. cbn. by rewrite drop_all. Qed.

Lemma performed_sales e v v' : performed e v v' -> sales_only v v'.
Proof.
  intros [_ _|v0 n _ Hr|n _|_]; [apply sales_only_call| |apply sales_only_message|apply sales_only_refl].
  eapply sales_only_trans; [|apply sales_only_message].
  destruct Hr as [[-> _]|(l & is_ & _ & _ & _ & _ & ->)]; apply (sales_only_refl v).
Qed.

Lemma unperformed_sales md e v v' : unperformed md e v v' -> sales_only v v'.
Proof. intros [reply _ _|_ _]; [apply sales_only_call|apply sales_only_refl]. Qed.

Lemma entry_step_sales md e v v' : entry_step md e v v' -> sales_only v v'.
Proof. by intros [now v1 Hd%performed_sales|x v1 Hu%unperformed_sales|x now v1 _ Hd%performed_sales]. Qed.

Lemma ticked_sales md es v v' : ticked md es v v' -> sales_only v v'.
Proof.
  induction 1 as [v|e es v v1 v2 _ IH Hs%entry_step_sales]; [apply sales_only_refl|by eapply sales_only_trans].
Qed.

Lemma entry_aborted_sales md e v v' : entry_aborted md e v v' -> sales_only v v'.
Proof. by intros [_ [->|[Hd%performed_sales|Hu%unperformed_sales]]]; [apply sales_only_refl|..]. Qed.

(** However a tick ends: the effect of what it completed took place, and it made
    no call but sales. *)
Lemma processOutbox_carried_wp {S} md (s : S) v :
  wp (obeys md book_behaviour) processOutbox (fun _ _ v' =>
    sales_only v v' /\
    forall i o, outbox (btables v') !! i = Some o -> o_status o = OutboxStatus.COMPLETED ->
      outbox (btables v) !! i = Some o \/ carried_out o v v') s v.
Proof.
  apply processOutbox_wp.
  - intros es v' _ Ht. split; [by eapply ticked_sales|]. intros i o. by eapply ticked_completed.
  - intros x es e es' v1 v' _ Ht Ha. split.
    { eapply sales_only_trans; [by eapply ticked_sales|by eapply entry_aborted_sales]. }
    intros i o Ho Hc. pose proof (ticked_onward _ _ _ _ Ht) as Hg1.
    apply entry_aborted_frame in Ha as [Hg [Hout|Hout]]; rewrite Hout in Ho.
    + destruct (ticked_completed _ _ _ _ _ _ Ht Ho Hc) as [?|?]; [by left|right; by eapply carried_out_mono].
    + apply lookup_insert_Some in Ho as [[_ <-]|[_ Ho]]; [done|].
      destruct (ticked_completed _ _ _ _ _ _ Ht Ho Hc) as [?|?]; [by left|right; by eapply carried_out_mono].
  - intros x _. split; [apply sales_only_refl|]. intros i o Ho _. by left.
Qed.

Definition not_refused (c : RpcCall) : Prop :=
  match c with CMarkSeatsAsSold _ _ _ reply => reply = Ok true | _ => True end.

Definition well_shaped (o : Outbox) : Prop :=
  o_eventType o = "seats.mark_sold"%string -> is_Some (payload_seatIds (o_payload o)).

Lemma ticked_drains es v v' :
  ticked Reliable es v v' -> (forall c, c ∈ new_calls v v' -> not_refused c) -> (forall e, e ∈ es -> well_shaped e) ->
  (forall i, i ∉ map o_id es -> outbox (btables v') !! i = outbox (btables v) !! i) /\
  (forall e, e ∈ es -> exists o, outbox (btables v') !! o_id e = Some o /\ o_status o = OutboxStatus.COMPLETED).
Proof.
  intros H. induction H as [v|e es v v1 v2 Ht IH Hs]; intros Hall Hshape.
  { split; [done|]. by intros e ?%elem_of_nil. }
  pose proof (ticked_onward _ _ _ _ Ht) as Hg1. destruct (entry_step_frame _ _ _ _ Hs) as [Hg _].
  destruct (new_sent_app _ _ _ (onward_grows _ _ Hg1) (onward_grows _ _ Hg)) as [Hc2 _]. rewrite Hc2 in Hall.
  destruct IH as [IHo IHc].
  { intros c Hc. apply Hall, elem_of_app. by left. }
  { intros e' He'. apply Hshape, elem_of_app. by left. }
  assert (exists now v0, v2 = put_entry (closed now e) v0 /\ outbox (btables v0) = <[o_id e := taken e]> (outbox (btables v1)))
    as (now & v0 & -> & Ho).
  { destruct Hs as [now v0 Hd|x v0 Hu|x now v0 Hm _]; [|exfalso|done].
    - apply performed_frame in Hd as [_ Ho]. by exists now, v0.
    - destruct Hu as [reply He [Hr|Hr]|Hm _]; [| |done].
      + apply Hr. apply (Hall (sold_call e reply)), elem_of_app. right. unfold new_calls. cbn. rewrite drop_app_length. left.
      + apply (Hshape e) in He; [|apply elem_of_app; right; left]. rewrite Hr in He. by destruct He. }
  cbn. rewrite Ho, insert_insert_eq. split.
  - intros i Hi. rewrite map_app, not_elem_of_app in Hi. destruct Hi as [Hi He]. cbn in He.
    rewrite list_elem_of_singleton in He. rewrite lookup_insert_ne by done. by apply IHo.
  - intros e' [He'| ->%list_elem_of_singleton]%elem_of_app.
    + destruct (decide (o_id e = o_id e')) as [Heq|Hne].
      * rewrite <- Heq, lookup_insert_eq. by eexists.
      * rewrite lookup_insert_ne by done. by apply IHc.
    + rewrite lookup_insert_eq. by eexists.
Qed.

(** ** Properties *)

Section Properties.
Context {S W : Type} (h : forall X, BookingE X -> W -> result X * W) (view : W -> BookingView).
Variable md : mode.
Hypothesis Hh : conforms md book_behaviour h view.
Implicit Types (s : S) (w : W).

(** A tick of the outbox worker takes the (at most ten) oldest PENDING
    entries in order; each one has its effect performed and becomes COMPLETED,
    or is given back with the failure counted.  The tick throws only when a
    database operation failed, after some of the entries. *)
Theorem processOutbox_spec s w :
  let v := view w in
  let v' := view (final h processOutbox s w) in
  match outcome h processOutbox s w with
  | Ok _ => exists es, selects_first pending older 10 (outbox (btables v)) es /\ ticked md es v v'
  | Err _ => md = Faulty /\
      (v' = v \/ exists es e es' v1, selects_first pending older 10 (outbox (btables v)) (es ++ e :: es') /\
         ticked md es v v1 /\ entry_aborted md e v1 v')
  end.
Proof.
  cbn zeta. call_wp Hh w. apply processOutbox_wp.
  - intros es v' Hes Ht. by exists es.
  - intros x es e es' v1 v' Hes Ht Ha. split; [apply Ha|]. right. by exists es, e, es', v1.
  - intros x Hm. split; [done|by left].
Qed.


End Properties.

(** C21: The outbox drains: when no database operation fails and the seat
    inventory refuses nothing, one tick completes every pending entry, if there
    are no more than ten. *)
Theorem outbox_drains {S W} (h : forall X, BookingE X -> W -> result X * W) view (s : S) (w : W) :
  conforms Reliable book_behaviour h view ->
  let v := view w in
  let v' := view (final h processOutbox s w) in
  keyed o_id (outbox (btables v)) ->
  (forall i o, outbox (btables v) !! i = Some o -> well_shaped o) ->
  length (List.filter pending (rows (outbox (btables v)))) <= 10 ->
  (forall c, c ∈ new_calls v v' -> not_refused c) ->
  outcome h processOutbox s w = Ok tt /\
  forall i o, outbox (btables v) !! i = Some o ->
    exists o', outbox (btables v') !! i = Some o' /\
      (o_status o = OutboxStatus.PENDING -> o_status o' = OutboxStatus.COMPLETED) /\
      (o_status o <> OutboxStatus.PENDING -> o' = o).
Proof.
  intros Hh. cbn zeta. intros Hk Hshape Hlen. call_wp Hh w. apply processOutbox_wp.
  - intros es v' (all & [Hall _] & ->) Ht Hc. split; [done|]. unfold selects in Hall.
    rewrite firstn_all2 in Ht by (rewrite Hall; done).
    assert (forall e, e ∈ all <-> outbox (btables (view w)) !! o_id e = Some e /\ pending e = true) as Hsel
      by (intros e; by apply selects_elem).
    destruct (ticked_drains _ _ _ Ht Hc) as [Ho He].
    { intros e Hin. apply Hsel in Hin as [Hin _]. by eapply Hshape. }
    intros i o Hi. pose proof (Hk _ _ Hi) as Hid. destruct (pending o) eqn:Hp.
    + assert (o ∈ all) as Hin by (apply Hsel; by rewrite Hid). destruct (He o Hin) as (o' & Ho' & Hst).
      rewrite Hid in Ho'. exists o'. split_and!; [done|done|]. unfold pending in Hp.
      apply bool_decide_eq_true in Hp. done.
    + exists o. unfold pending in Hp. apply bool_decide_eq_false in Hp. split_and!; [|done|done].
      rewrite Ho; [done|]. intros (e & Heq & Hin)%list_elem_of_fmap. apply Hsel in Hin as [Hin Hpe].
      rewrite <- Heq, Hi in Hin. injection Hin as <-. unfold pending in Hpe. by apply bool_decide_eq_true in Hpe.
  - intros x es e es' v1 v' _ _ [Hm _]. done.
  - done.
Qed.

(** ** Concrete runs *)

Definition demo_entry (id eventType : string) (p : Payload) (createdAt : Z) : Outbox :=
  mkOutbox id "booking" "b1" eventType p OutboxStatus.PENDING 0 5 None None createdAt.

(** The entries of a booking just confirmed. *)
Definition outbox_world : BookingRefWorld :=
  booking_world [demo_booking BookingStatus.CONFIRMED None 0] [demo_item "i1" "A1"; demo_item "i2" "A2"]
    [demo_entry "o1" "seats.mark_sold" (SeatsPayload "ev" "u1" ["A1"; "A2"]%string) 1;
     demo_entry "o2" "booking.confirmed"
       (BookingPayload "b1" "BK-1" "u1" "ev" (DText "299.80") "TRY" None []) 2]
    [] 1700000100000.

Lemma outbox_world_keyed : keyed o_id (outbox (btables (book_view outbox_world))).
Proof. apply upsert_keyed, keyed_empty. Qed.

(** The exception to the guarantee of eventual delivery.  An entry is marked
    PROCESSING before its effect is tried; when saving its result fails, it
    stays PROCESSING, and no later tick, even without any failure, takes it up
    again. *)
Theorem processing_entry_stuck :
  let h := book_flaky good_answer in
  let w1 := final h (@processOutbox unit) tt (outbox_world, [false; false; true; true]) in
  let w2 := final h (@processOutbox unit) tt (w1.1, []) in
  let w3 := final h (@processOutbox unit) tt (w2.1, []) in
  let status w := map (fun o => (o_id o, o_status o)) (rows (outbox (btables (book_flaky_view w)))) in
  status w1 = [("o1", OutboxStatus.PROCESSING); ("o2", OutboxStatus.PENDING)]%string /\
  status w3 = [("o1", OutboxStatus.PROCESSING); ("o2", OutboxStatus.COMPLETED)]%string.
Proof. vm_compute. split; reflexivity. Qed.

Abbreviation tick := (@processOutbox unit).

Lemma processOutbox_spec_witness :
  exists es, selects_first pending older 10 (outbox (btables (book_view outbox_world))) es /\
    ticked Reliable es (book_view outbox_world) (book_view (final (book_run good_answer) tick tt outbox_world)).
Proof.
  pose proof (processOutbox_spec (S := unit) (book_run good_answer) book_view Reliable
    (book_run_conforms good_answer) tt outbox_world) as H. cbn zeta in H.
  destruct (outcome (book_run good_answer) tick tt outbox_world) as [x|e].
  - exact H.
  - destruct H as [H _]. discriminate H.
Defined.

(** A confirmed booking's entry is COMPLETED although the broker never received
    its message. *)
Lemma completed_message_lost :
  let v' := book_view (final (book_lossy good_answer) tick tt outbox_world) in
  (exists o, outbox (btables v') !! "o2"%string = Some o /\ o_eventType o = "booking.confirmed"%string /\
     o_status o = OutboxStatus.COMPLETED) /\
  length (messages v') = 1 /\ arrived v' = [].
Proof.
  cbn zeta. split; [|by vm_compute]. eexists. split; [vm_compute; reflexivity|]. by split.
Qed.


Lemma outbox_drains_witness :
  outcome (book_run good_answer) tick tt outbox_world = Ok tt /\
  exists o, outbox (btables (book_view (final (book_run good_answer) tick tt outbox_world))) !! "o2"%string = Some o /\
    o_status o = OutboxStatus.COMPLETED.
Proof.
  destruct (outbox_drains (S := unit) (book_run good_answer) book_view tt outbox_world (book_run_conforms good_answer)
    outbox_world_keyed) as [Ho Hall].
  - intros i o Hi.
    assert (forallb (fun o => negb (String.eqb (o_eventType o) "seats.mark_sold") ||
      match payload_seatIds (o_payload o) with Some _ => true | None => false end)
      (rows (outbox (btables (book_view outbox_world)))) = true) as H by (vm_compute; reflexivity).
    apply (rows_forallb _ _ _ _ H) in Hi. intros He. rewrite He in Hi. cbn in Hi.
    destruct (payload_seatIds (o_payload o)); [by eexists|discriminate Hi].
  - vm_compute. lia.
  - intros c Hc.
    assert (forallb (fun c => match c with CMarkSeatsAsSold _ _ _ (Ok true) => true | CMarkSeatsAsSold _ _ _ _ => false | _ => true end)
      (new_calls (book_view outbox_world) (book_view (final (book_run good_answer) tick tt outbox_world))) = true) as H
      by (vm_compute; reflexivity).
    rewrite forallb_forall in H. apply list_elem_of_In in Hc. apply H in Hc.
    destruct c as [| | | | | |e i u [[|]|]]; try exact I; [reflexivity|discriminate Hc..].
  - split; [exact Ho|]. assert (exists o, outbox (btables (book_view outbox_world)) !! "o2"%string = Some o /\
      o_status o = OutboxStatus.PENDING) as (o & Hi & Hp) by (eexists; split; [vm_compute; reflexivity|reflexivity]).
    destruct (Hall _ _ Hi) as (o' & Ho' & Hc & _). exists o'. split; [exact Ho'|]. exact (Hc Hp).
Defined.
