(* ===== verification/RefundRecovery.v ===== *)
(** * The refund recovery worker

    apps/booking-service/src/booking/refund-recovery.worker.ts: the job that
    runs the refund state machine again on bookings whose refund was begun and
    not finished.  The local state is the flag [isProcessing]. *)

From S2P Require Import Prelude Messages Effects JsNumber Json Sql BookingWorld BookingRef Tickets BookingCreate BookingRefund.

Definition MAX_RETRIES : Z := 5.

(** [{ refundState: In([...]) }] *)
Definition stuck (b : Booking) : bool :=
  match b_refundState b with
  | Some RefundState.REFUND_INITIATED | Some RefundState.PAYMENT_REFUNDED | Some RefundState.SEATS_RELEASED => true
  | _ => false
  end.

(** The body of the loop. *)
Definition recover_one (l : LoadedBooking) : prog bool BookingE unit :=
  if Z.leb MAX_RETRIES (b_refundRetryCount (booking l)) then Ret tt
  else
    try_catch
      (with_local l processRefundStateMachine ;; Ret tt)
      (fun error => Ret tt).

Definition recoveryStuckRefunds : prog bool BookingE unit :=
  isProcessing <- get_local ;;
  if isProcessing : bool then Ret tt
  else
    put_local true ;;
    finally
      (stuckBookings <- call (BookFind stuck) ;;
       if Nat.eqb (length stuckBookings) 0 then Ret tt
       else for_each stuckBookings recover_one)
      (put_local false).

(** ** Specification *)

(** The loop over the bookings it found: those out of retries are skipped, the
    others go through the machine, successfully or not. *)
Inductive recovered (md : mode) : list LoadedBooking -> BookingView -> BookingView -> Prop :=
| NoneLeft v : recovered md [] v v
| Skipped l ls v v' : (MAX_RETRIES <= b_refundRetryCount (booking l))%Z ->
    recovered md ls v v' -> recovered md (ls ++ [l]) v v'
| Finished l ls v v1 v' b' : (b_refundRetryCount (booking l) < MAX_RETRIES)%Z -> recovered md ls v v1 ->
    rtc (rstep (items l)) (booking l, v1) (b', v') -> b_refundState b' = Some RefundState.COMPLETED ->
    recovered md (ls ++ [l]) v v'
| Broke l ls v v1 v' e : (b_refundRetryCount (booking l) < MAX_RETRIES)%Z -> recovered md ls v v1 ->
    stopped md (items l) (booking l) v1 e v' -> recovered md (ls ++ [l]) v v'.

(** ** Proofs *)

(** Only the row of the booking changes. *)
Definition framed (id : string) (v v' : BookingView) : Prop :=
  btx v' = btx v /\ forall i, i <> id -> bookings (btables v') !! i = bookings (btables v) !! i.

Lemma framed_refl id v : framed id v v.
Proof. done. Qed.

Lemma framed_trans id v1 v2 v3 : framed id v1 v2 -> framed id v2 v3 -> framed id v1 v3.
Proof. intros [H1 H2] [H3 H4]. split; [congruence|]. intros i Hi. by rewrite H4, H2. Qed.

Lemma framed_put b v : framed (b_id b) v (put b v).
Proof. split; [done|]. intros i Hi. cbn. by rewrite lookup_insert_ne. Qed.

Lemma rtc_framed its b v b' v' :
  rtc (rstep its) (b, v) (b', v') ->
  b_id b' = b_id b /\ framed (b_id b) v v' /\
  (b' = b /\ v' = v \/ bookings (btables v') !! b_id b = Some b').
Proof.
  intros H. enough (forall p, rtc (rstep its) (b, v) p -> b_id p.1 = b_id b /\ framed (b_id b) v p.2 /\
    (p.1 = b /\ p.2 = v \/ bookings (btables p.2) !! b_id b = Some p.1)) as Hp by apply (Hp (b', v') H).
  apply rtc_ind_r; [split_and!; auto using framed_refl|]. cbn [fst snd].
  intros [b1 v1] p _ Hs (Hid & Hf & _). cbn [fst snd] in *.
  inversion Hs as [? ? ans ? ?|? ? ans ?|? ? now o ? ? ?]; subst; cbn [fst snd]; (split; [done|]);
    (split; [eapply framed_trans; [exact Hf|]; rewrite <- Hid|right; cbn; rewrite Hid; apply lookup_insert_eq]).
  all: split; [done|]; intros i Hi; cbn; by rewrite lookup_insert_ne.
Qed.

Lemma broken_framed md its b v e loc v' : broken md its b v e loc v' -> b_id loc = b_id b /\ framed (b_id b) v v'.
Proof.
  intros [? ?|ans ? ? ? ? ? -> Hv|ans ? ? ? ?|? ?|ans ? ? ?|? ? ? ? ? Hv|? ? ?]; try (by split).
  - split; [done|]. destruct Hv as [[_ ->]|[_ ->]]; [|done].
    split; [done|]. intros i Hi. cbn. by rewrite lookup_insert_ne.
  - destruct Hv as [[-> ->]|(now & -> & ->)]; by split.
Qed.

Lemma stopped_framed md its b v e v' : stopped md its b v e v' -> framed (b_id b) v v'.
Proof.
  intros (b1 & v1 & e0 & loc & v2 & Hr & Hb & Hend). apply rtc_framed in Hr as (Hid & Hf & _).
  apply broken_framed in Hb as [Hid' Hf']. rewrite Hid in Hid', Hf'.
  eapply framed_trans; [exact Hf|]. eapply framed_trans; [exact Hf'|].
  destruct Hend as [[_ ->]|[_ ->]]; [|done]. rewrite <- Hid'. apply (framed_put (count_failure e0 loc)).
Qed.

(** The loop changes the rows of the bookings it runs the machine on only. *)
Definition eligible (l : LoadedBooking) : bool := Z.ltb (b_refundRetryCount (booking l)) MAX_RETRIES.

Lemma recovered_framed md ls v v' :
  recovered md ls v v' ->
  btx v' = btx v /\
  forall i, i ∉ map (fun l => b_id (booking l)) (List.filter eligible ls) ->
    bookings (btables v') !! i = bookings (btables v) !! i.
Proof.
  assert (forall ls l, (b_refundRetryCount (booking l) < MAX_RETRIES)%Z ->
    List.filter eligible (ls ++ [l]) = List.filter eligible ls ++ [l]) as Hf.
  { intros ls0 l Hl. rewrite List.filter_app. cbn. unfold eligible at 2. apply Z.ltb_lt in Hl. by rewrite Hl. }
  induction 1 as [v|l ls v v' Hl _ IH|l ls v v1 v' b' Hl _ IH Hr _|l ls v v1 v' e Hl _ IH Hs].
  - done.
  - rewrite List.filter_app. cbn. unfold eligible at 2. apply Z.ltb_ge in Hl. by rewrite Hl, app_nil_r.
  - rewrite Hf by done. apply rtc_framed in Hr as (_ & [Htx Hb] & _). destruct IH as [IH1 IH2].
    split; [congruence|]. intros i. rewrite map_app, not_elem_of_app. intros [Hi Hn]. cbn in Hn.
    rewrite list_elem_of_singleton in Hn. by rewrite Hb, IH2.
  - rewrite Hf by done. apply stopped_framed in Hs as [Htx Hb]. destruct IH as [IH1 IH2].
    split; [congruence|]. intros i. rewrite map_app, not_elem_of_app. intros [Hi Hn]. cbn in Hn.
    rewrite list_elem_of_singleton in Hn. by rewrite Hb, IH2.
Qed.

Section Proofs.
Context (md : mode).
Implicit Types (v : BookingView).
Abbreviation spec := (obeys md book_behaviour).

Lemma recovery_wp (Q : result unit -> bool -> BookingView -> Prop) v :
  booking_wf v ->
  (forall ls v', selects stuck (bookings (btables v)) (map booking ls) -> Forall (loaded (btables v)) ls ->
     recovered md ls v v' -> Q (Ok tt) false v') ->
  (forall e, md = Faulty -> Q (Err e) false v) ->
  wp spec recoveryStuckRefunds Q false v.
Proof.
  intros Hwf HO HE. unfold recoveryStuckRefunds. do 2 wp_step. do 2 wp_step. do 2 wp_step.
  apply book_call_wp; [|by intros e [[]|[Hm _]]; cbn [wp put_local]; apply HE]. intros ls v0 (-> & Hls & Hload).
  destruct (Nat.eqb (length ls) 0) eqn:Hlen.
  { apply Nat.eqb_eq, length_zero_iff_nil in Hlen as ->. cbn. by apply (HO []), NoneLeft. }
  assert (NoDup (map (fun l => b_id (booking l)) ls)) as Hnd.
  { rewrite <- (map_map booking b_id). eapply selects_nodup; [apply (wf_bookings _ Hwf)|exact Hls]. }
  assert (forall l, l ∈ ls -> bookings (btables v) !! b_id (booking l) = Some (booking l)) as Hrow.
  { intros l Hl. apply (selects_elem b_id _ _ _ (booking l) (wf_bookings _ Hwf) Hls).
    apply list_elem_of_fmap. by exists l. }
  apply (wp_for_each _ ls _ (fun rest (_ : bool) v' => exists done_, ls = done_ ++ rest /\ recovered md done_ v v')).
  - exists []. split; [done|constructor].
  - intros s' v' (done_ & He & Ht). rewrite app_nil_r in He. subst done_. cbn. by apply (HO ls).
  - intros l rest s' v' (done_ & Hls' & Hr).
    assert (forall v'', recovered md (done_ ++ [l]) v v'' -> exists d, ls = d ++ rest /\ recovered md d v v'') as Hnext.
    { intros v'' H. exists (done_ ++ [l]). split; [|done]. by rewrite <- app_assoc. }
    unfold recover_one. destruct (Z.leb MAX_RETRIES (b_refundRetryCount (booking l))) eqn:Hret.
    { wp_step. apply Hnext, Skipped; [by apply Z.leb_le|done]. }
    apply Z.leb_gt in Hret. do 3 wp_step. destruct l as [b its]. cbn [booking items] in *.
    apply machine_wp.
    + destruct (recovered_framed _ _ _ _ Hr) as [Htx Hb]. split; [rewrite Htx; apply (wf_no_tx _ Hwf)|].
      exists b. split; [|done]. rewrite Hb.
      * apply (Hrow (mkLoaded b its)). rewrite Hls'. apply elem_of_app. right. left.
      * intros (l' & Heq & Hin)%list_elem_of_fmap. apply elem_of_filterb in Hin as [Hin _].
        rewrite Hls', map_app in Hnd. apply NoDup_app in Hnd as (_ & Hnd & _). apply (Hnd (b_id b)); [|cbn; left].
        rewrite Heq. apply list_elem_of_fmap. by exists l'.
    + intros b' v'' Hrtc Hc. wp_step. apply Hnext. by eapply (Finished md (mkLoaded b its)).
    + intros e l v'' Hs. wp_step. apply Hnext. by eapply (Broke md (mkLoaded b its)).
Qed.
End Proofs.

Lemma rtc_grows its b v b' v' : rtc (rstep its) (b, v) (b', v') -> grows v v'.
Proof.
  intros H. enough (forall p, rtc (rstep its) (b, v) p -> grows v p.2) as Hp by apply (Hp (b', v') H).
  apply rtc_ind_r; [apply grows_refl|]. intros [b1 v1] p _ Hs Hg. cbn [snd] in Hg.
  inversion Hs as [? ? ans ? ?|? ? ans ?|? ? now o ? ? ?]; subst; cbn [snd]; (eapply grows_trans; [exact Hg|]).
  - apply (grows_call v1 (refund_call b1 (Ok ans))).
  - apply (grows_call v1 (seats_call b1 its (Ok ans))).
  - apply (grows_refl v1).
Qed.

Lemma broken_grows md its b v e loc v' : broken md its b v e loc v' -> grows v v'.
Proof.
  intros [? ?|ans ? ? ? ? ? -> Hv|ans ? ? ? ?|? ?|ans ? ? ?|? ? ? ? ? Hv|? ? ?]; try apply grows_call; try apply grows_refl.
  - destruct Hv as [[_ ->]|[_ ->]]; apply (grows_call v (refund_call b (Ok ans))).
  - destruct Hv as [[_ ->]|(now & _ & ->)]; apply (grows_refl v).
Qed.

Lemma stopped_grows md its b v e v' : stopped md its b v e v' -> grows v v'.
Proof.
  intros (b1 & v1 & e0 & loc & v2 & Hr & Hb & Hend). apply rtc_grows in Hr. apply broken_grows in Hb.
  eapply grows_trans; [exact Hr|]. destruct Hend as [[_ ->]|[_ ->]]; exact Hb.
Qed.

Lemma recovered_grows md ls v v' : recovered md ls v v' -> grows v v'.
Proof.
  induction 1 as [v|l ls v v' Hl _ IH|l ls v v1 v' b' Hl _ IH Hr _|l ls v v1 v' e Hl _ IH Hs].
  - apply grows_refl.
  - exact IH.
  - eapply grows_trans; [exact IH|]. by eapply rtc_grows.
  - eapply grows_trans; [exact IH|]. by eapply stopped_grows.
Qed.

(** When every call succeeds, the eligible bookings end COMPLETED. *)
Lemma recovered_completes ls v v' :
  recovered Reliable ls v v' ->
  NoDup (map (fun l => b_id (booking l)) ls) -> (forall l, l ∈ ls -> stuck (booking l) = true) ->
  (forall c, c ∈ new_calls v v' -> call_succeeded c = true) ->
  forall l, l ∈ ls -> eligible l = true ->
  exists b', bookings (btables v') !! b_id (booking l) = Some b' /\ b_refundState b' = Some RefundState.COMPLETED.
Proof.
  assert (forall l, stuck (booking l) = true -> b_refundState (booking l) <> None /\
    b_refundState (booking l) <> Some RefundState.FAILED /\ b_refundState (booking l) <> Some RefundState.COMPLETED) as Hst.
  { intros l. unfold stuck. by destruct (b_refundState (booking l)) as [[]|]. }
  assert (forall l0 (x : LoadedBooking) ls, NoDup (map (fun l => b_id (booking l)) (ls ++ [x])) -> l0 ∈ ls ->
    b_id (booking l0) <> b_id (booking x)) as Hne.
  { intros l0 x ls0 Hnd Hin Heq. rewrite map_app in Hnd. apply NoDup_app in Hnd as (_ & Hnd & _).
    apply (Hnd (b_id (booking l0))); [by apply list_elem_of_fmap; exists l0|]. cbn. rewrite Heq. left. }
  assert (forall (x : LoadedBooking) ls, NoDup (map (fun l => b_id (booking l)) (ls ++ [x])) ->
    NoDup (map (fun l => b_id (booking l)) ls)) as Hnd' by (intros x ls0; rewrite map_app; by intros (? & _)%NoDup_app).
  induction 1 as [v|x ls v v' Hx Hr IH|x ls v v1 v' b' Hx Hr IH Hs Hc|x ls v v1 v' e Hx Hr IH Hs];
    intros Hnd Hstuck Hall l Hl He.
  - by apply elem_of_nil in Hl.
  - apply elem_of_app in Hl as [Hl| ->%list_elem_of_singleton].
    + apply IH; [by eapply Hnd'|intros y Hy; apply Hstuck, elem_of_app; by left|done..].
    + unfold eligible in He. apply Z.ltb_lt in He. lia.
  - pose proof (recovered_grows _ _ _ _ Hr) as Hg1. pose proof (rtc_grows _ _ _ _ _ Hs) as Hg2.
    destruct (new_sent_app _ _ _ Hg1 Hg2) as [Hcalls _]. rewrite Hcalls in Hall.
    apply rtc_framed in Hs as (_ & [_ Hf] & Hrow). apply elem_of_app in Hl as [Hl| ->%list_elem_of_singleton].
    + rewrite Hf by by eapply Hne. apply IH; [by eapply Hnd'|intros y Hy; apply Hstuck, elem_of_app; by left| |done..].
      intros c Hcc. apply Hall, elem_of_app. by left.
    + destruct Hrow as [[-> _]|Hrow]; [|by exists b']. exfalso.
      assert (stuck (booking x) = true) as Hxs by (apply Hstuck, elem_of_app; right; left). by apply Hst in Hxs as (_ & _ & ?).
  - exfalso. pose proof (recovered_grows _ _ _ _ Hr) as Hg1. pose proof (stopped_grows _ _ _ _ _ _ Hs) as Hg2.
    destruct (new_sent_app _ _ _ Hg1 Hg2) as [Hcalls _]. rewrite Hcalls in Hall.
    assert (stuck (booking x) = true) as Hxs by (apply Hstuck, elem_of_app; right; left).
    apply Hst in Hxs as (Hn & Hf & _). destruct (stopped_refused _ _ _ _ _ Hs Hn Hf) as (c & Hcc & Hfail).
    rewrite Hall in Hfail; [done|]. apply elem_of_app. by right.
Qed.

(** ** Properties *)

Section Properties.
Context {W : Type} (h : forall X, BookingE X -> W -> result X * W) (view : W -> BookingView).
Implicit Types (w : W).

(** A tick of the recovery worker does nothing while another one runs;
    otherwise it runs the state machine on the bookings whose refund is
    unfinished and that have retries left, whatever happens to the single
    ones, changes no other booking, and always clears its guard. *)
Theorem recovery_spec md busy w :
  conforms md book_behaviour h view ->
  booking_wf (view w) ->
  let v := view w in
  let v' := view (final h recoveryStuckRefunds busy w) in
  object h recoveryStuckRefunds busy w = busy /\
  (busy = true -> outcome h recoveryStuckRefunds busy w = Ok tt /\ v' = v) /\
  (busy = false ->
   match outcome h recoveryStuckRefunds busy w with
   | Ok _ => exists ls, selects stuck (bookings (btables v)) (map booking ls) /\ Forall (loaded (btables v)) ls /\
       recovered md ls v v' /\
       forall i, i ∉ map (fun l => b_id (booking l)) (List.filter eligible ls) ->
         bookings (btables v') !! i = bookings (btables v) !! i
   | Err _ => md = Faulty /\ v' = v
   end).
Proof.
  intros Hh Hwf. cbn zeta. call_object_wp Hh w. destruct busy; [by unfold recoveryStuckRefunds; cbn|].
  apply recovery_wp; [done| |by intros e Hm].
  intros ls v' Hls Hload Hr. split_and!; try done. intros _. exists ls. split_and!; try done.
  intros i. by eapply recovered_framed.
Qed.

(** C22: An interrupted refund is finished by the worker: when no database
    operation fails and both services answer positively, one tick completes
    every booking whose refund was begun and not refused and that failed fewer
    than five times. *)
Theorem recovery_completes w :
  conforms Reliable book_behaviour h view ->
  booking_wf (view w) ->
  let v := view w in
  let v' := view (final h recoveryStuckRefunds false w) in
  (forall c, c ∈ new_calls v v' -> call_succeeded c = true) ->
  forall b, bookings (btables v) !! b_id b = Some b -> (b_refundRetryCount b < 5)%Z ->
  b_refundState b ∈ [Some RefundState.REFUND_INITIATED; Some RefundState.PAYMENT_REFUNDED; Some RefundState.SEATS_RELEASED] ->
  exists b', bookings (btables v') !! b_id b = Some b' /\ b_refundState b' = Some RefundState.COMPLETED.
Proof.
  intros Hh Hwf. cbn zeta. call_wp Hh w. apply recovery_wp; [done| |done].
  intros ls v' Hls _ Hr Hall b Hb Hn Hst.
  assert (stuck b = true) as Hs.
  { unfold stuck. rewrite !elem_of_cons, elem_of_nil in Hst. by destruct Hst as [->|[->|[->|[]]]]. }
  assert (b ∈ map booking ls) as Hin by by apply (selects_elem b_id _ _ _ b (wf_bookings _ Hwf) Hls).
  apply list_elem_of_fmap in Hin as (l & -> & Hl).
  apply (recovered_completes _ _ _ Hr); [| |done|done|by apply Z.ltb_lt].
  - rewrite <- (map_map booking b_id). eapply selects_nodup; [apply (wf_bookings _ Hwf)|exact Hls].
  - intros x Hx. apply (selects_elem b_id _ _ _ (booking x) (wf_bookings _ Hwf) Hls), list_elem_of_fmap. by exists x.
Qed.
End Properties.

(** ** Concrete runs *)

Lemma recovery_spec_witness :
  object (book_run good_answer) recoveryStuckRefunds false (booked (Some RefundState.PAYMENT_REFUNDED) 5) = false /\
  bookings (btables (book_view (final (book_run good_answer) recoveryStuckRefunds false (booked (Some RefundState.PAYMENT_REFUNDED) 5))))
    !! "b1"%string = Some (demo_booking BookingStatus.CONFIRMED (Some RefundState.PAYMENT_REFUNDED) 5).
Proof.
  destruct (recovery_spec (book_run good_answer) book_view Reliable false (booked (Some RefundState.PAYMENT_REFUNDED) 5)
    (book_run_conforms good_answer) (booked_wf _ _)) as (H & _ & _).
  split; [exact H|vm_compute; reflexivity].
Defined.

Lemma recovery_completes_witness :
  exists b', bookings (btables (book_view (final (book_run good_answer) recoveryStuckRefunds false
      (booked (Some RefundState.SEATS_RELEASED) 4)))) !! "b1"%string = Some b' /\
    b_refundState b' = Some RefundState.COMPLETED.
Proof.
  apply (recovery_completes (book_run good_answer) book_view (booked (Some RefundState.SEATS_RELEASED) 4)
    (book_run_conforms good_answer) (booked_wf _ _))
    with (b := demo_booking BookingStatus.CONFIRMED (Some RefundState.SEATS_RELEASED) 4).
  - intros c Hc. assert (forallb call_succeeded (new_calls (book_view (booked (Some RefundState.SEATS_RELEASED) 4))
      (book_view (final (book_run good_answer) recoveryStuckRefunds false (booked (Some RefundState.SEATS_RELEASED) 4)))) = true)
      as H by (vm_compute; reflexivity).
    rewrite forallb_forall in H. apply H. by apply list_elem_of_In.
  - reflexivity.
  - reflexivity.
  - right. right. left.
Defined.
