(* ===== verification/BookingApi.v ===== *)
(** * The booking service's controllers

    apps/booking-service/src/booking/booking.controller.ts and
    ticket/ticket.controller.ts.  The user id is what the decorator
    [CurrentUser('id')] extracts from the request; [None] is undefined, which
    where a text is sent or compared is the empty text: a proto3 field that is
    not set reads so, and no user has this id.  BookingHttp puts the guard in
    front. *)

From S2P Require Import Prelude Messages Effects JsNumber Json Sql BookingWorld BookingRef Tickets BookingCreate BookingRefund.

(** dtos/cancel-booking.dto.ts *)
Record CancelBookingDto := mkCancelBookingDto {
  cd_reason : option string;
  cd_refundIdempotencyKey : string;
}.

(** [dto.userId = userId] *)
Definition set_cb_userId (userId : string) (dto : CreateBookingDto) : CreateBookingDto :=
  mkCreateBookingDto userId (cb_eventId dto) (cb_sessionId dto) (cb_cardToken dto)
    (cb_paymentIdempotencyKey dto) (cb_paymentProvider dto) (cb_items dto).

Definition text_or_empty (x : option string) : string := nullish x ""%string.

Module BookingController.
Section Handlers.
Context {S : Type}.

Definition create (dto : CreateBookingDto) (userId : option string) : prog S BookingE (option LoadedBooking) :=
  createBooking (set_cb_userId (text_or_empty userId) dto).

Definition findMyBookings (userId : option string) : prog S BookingE (list LoadedBooking) := findByUserId userId.

Definition findById (id : string) : prog S BookingE LoadedBooking := BookingCreate.findById id.

Definition findByUser (userId : string) : prog S BookingE (list LoadedBooking) := findByUserId (Some userId).

Definition cancel (id : string) (dto : CancelBookingDto) (userId : option string) : prog S BookingE LoadedBooking :=
  cancelBooking id (text_or_empty userId) (cd_refundIdempotencyKey dto) (cd_reason dto).
End Handlers.
End BookingController.

Module TicketController.
Section Handlers.
Context {S : Type}.

Definition findByBooking (bookingId : string) : prog S BookingE (list Ticket) := Tickets.findByBooking bookingId.
Definition findByCode (ticketCode : string) : prog S BookingE (option Ticket) := Tickets.findByCode ticketCode.
Definition checkIn (ticketCode : string) : prog S BookingE Ticket := Tickets.checkIn ticketCode.
End Handlers.
End TicketController.
