(* ===== verification/Sha256.v ===== *)
(** * SHA-256

    Node's [createHash('sha256').update(s).digest('hex')] (FIPS 180-4), over
    the bytes of the string.  Words are [Z]s below 2^32 with the wrap-around
    written out. *)

From S2P Require Import Prelude.
From Stdlib Require Import Ascii.

Module Sha256.
Local Open Scope Z_scope.

Definition w32 (x : Z) : Z := Z.land x 0xffffffff.
Definition add32 (x y : Z) : Z := w32 (x + y).
Definition rotr (n x : Z) : Z := Z.lor (Z.shiftr x n) (w32 (Z.shiftl x (32 - n))).
Definition not32 (x : Z) : Z := Z.lxor x 0xffffffff.

Definition xor3 (a b c : Z) : Z := Z.lxor (Z.lxor a b) c.
Definition Ch (x y z : Z) : Z := Z.lxor (Z.land x y) (Z.land (not32 x) z).
Definition Maj (x y z : Z) : Z := xor3 (Z.land x y) (Z.land x z) (Z.land y z).
Definition Sigma0 (x : Z) : Z := xor3 (rotr 2 x) (rotr 13 x) (rotr 22 x).
Definition Sigma1 (x : Z) : Z := xor3 (rotr 6 x) (rotr 11 x) (rotr 25 x).
Definition sigma0 (x : Z) : Z := xor3 (rotr 7 x) (rotr 18 x) (Z.shiftr x 3).
Definition sigma1 (x : Z) : Z := xor3 (rotr 17 x) (rotr 19 x) (Z.shiftr x 10).

(** ** The constants *)

(** The first [count] primes not below [n], by trial division. *)
Fixpoint primes (fuel : nat) (n : Z) (found : list Z) (count : nat) : list Z :=
  match fuel, count with
  | O, _ | _, O => found
  | S fuel, S rest =>
      if existsb (fun p => n mod p =? 0) found then primes fuel (n + 1) found count
      else primes fuel (n + 1) (found ++ [n]) rest
  end.

(** The largest [y] with [y^k <= n] among those that agree with [x] above [bits] bits. *)
Fixpoint root (k n : Z) (bits : nat) (x : Z) : Z :=
  match bits with
  | O => x
  | S bits =>
      let y := x + 2 ^ Z.of_nat bits in
      root k n bits (if y ^ k <=? n then y else x)
  end.

(** The first 32 bits of the fractional part of the [k]-th root of [p]. *)
Definition fraction (k p : Z) : Z := w32 (root k (p * 2 ^ (32 * k)) 37 0).

(** Cube roots of the first 64 primes and square roots of the first eight
    (FIPS 180-4, 4.2.2 and 5.3.3). *)
Definition K : list Z := Eval vm_compute in map (fraction 3) (primes 400 2 [] 64).
Definition H0 : list Z := Eval vm_compute in map (fraction 2) (primes 400 2 [] 8).

(** The message as bytes, padded to a whole number of 64-byte blocks. *)
Fixpoint bytes (s : string) : list Z :=
  match s with
  | EmptyString => []
  | String c s => Z.of_N (N_of_ascii c) :: bytes s
  end.

Fixpoint big_endian (n : nat) (x : Z) (acc : list Z) : list Z :=
  match n with
  | O => acc
  | S n => big_endian n (Z.shiftr x 8) (Z.land x 255 :: acc)
  end.

Definition padded (bs : list Z) : list Z :=
  let len := Z.of_nat (length bs) in
  bs ++ 128 :: replicate (Z.to_nat ((55 - len) mod 64)) 0 ++ big_endian 8 (8 * len) [].

Fixpoint words (bs : list Z) : list Z :=
  match bs with
  | a :: b :: c :: d :: bs =>
      (Z.shiftl a 24 + Z.shiftl b 16 + Z.shiftl c 8 + d) :: words bs
  | _ => []
  end.

(** The message schedule: [w] is the list of the last sixteen words, newest
    first, and [acc] all words, newest first. *)
Fixpoint schedule (n : nat) (acc : list Z) : list Z :=
  match n with
  | O => rev acc
  | S n =>
      let at_ k := nth (k - 1)%nat acc 0 in
      let w := add32 (add32 (sigma1 (at_ 2%nat)) (at_ 7%nat)) (add32 (sigma0 (at_ 15%nat)) (at_ 16%nat)) in
      schedule n (w :: acc)
  end.

Record state := mkState { sa : Z; sb : Z; sc : Z; sd : Z; se : Z; sf : Z; sg : Z; sh : Z }.

Definition round (s : state) (kw : Z * Z) : state :=
  let '(mkState a b c d e f g h) := s in
  let t1 := add32 (add32 h (Sigma1 e)) (add32 (Ch e f g) (add32 kw.1 kw.2)) in
  let t2 := add32 (Sigma0 a) (Maj a b c) in
  mkState (add32 t1 t2) a b c (add32 d t1) e f g.

Definition of_words (l : list Z) : state :=
  match l with
  | [a; b; c; d; e; f; g; h] => mkState a b c d e f g h
  | _ => mkState 0 0 0 0 0 0 0 0
  end.

Definition add_state (s t : state) : state :=
  mkState (add32 (sa s) (sa t)) (add32 (sb s) (sb t)) (add32 (sc s) (sc t)) (add32 (sd s) (sd t))
    (add32 (se s) (se t)) (add32 (sf s) (sf t)) (add32 (sg s) (sg t)) (add32 (sh s) (sh t)).

Definition compress (s : state) (block : list Z) : state :=
  add_state s (foldl round s (zip K (schedule 48 (rev block)))).

(** [fuel] bounds the number of blocks; the message has no more blocks than words. *)
Fixpoint blocks (fuel : nat) (s : state) (ws : list Z) : state :=
  match fuel, ws with
  | O, _ | _, [] => s
  | S fuel, ws => blocks fuel (compress s (take 16 ws)) (drop 16 ws)
  end.

Definition hex_digit (d : Z) : ascii :=
  ascii_of_N (Z.to_N (if d <? 10 then 48 + d else 87 + d)).

Fixpoint hex_word (n : nat) (x : Z) (acc : string) : string :=
  match n with
  | O => acc
  | S n => hex_word n (Z.shiftr x 4) (String (hex_digit (Z.land x 15)) acc)
  end.

Definition digest_hex (s : state) : string :=
  foldr (fun w acc => hex_word 8 w acc) EmptyString
    [sa s; sb s; sc s; sd s; se s; sf s; sg s; sh s].

Definition sha256_hex (m : string) : string :=
  let ws := words (padded (bytes m)) in
  digest_hex (blocks (length ws) (of_words H0) ws).

Example sha256_abc :
  sha256_hex "abc" = "ba7816bf8f01cfea414140de5dae2223b00361a396177a9cb410ff61f20015ad"%string.
Proof. vm_compute. reflexivity. Qed.

(** A message of two blocks. *)
Example sha256_two_blocks :
  sha256_hex "abcdbcdecdefdefgefghfghighijhijkijkljklmklmnlmnomnopnopq" =
  "248d6a61d20638b8e5c026930c3e6039a33ce45964ff2167f6ecedd419db06c1"%string.
Proof. vm_compute. reflexivity. Qed.

Lemma hex_word_length n x acc : String.length (hex_word n x acc) = (n + String.length acc)%nat.
Proof. revert x acc. induction n as [|n IH]; intros x acc; cbn; [done|]. rewrite IH. cbn. lia. Qed.

(** A digest has sixty-four characters, whatever the message. *)
Lemma sha256_hex_length m : String.length (sha256_hex m) = 64%nat.
Proof.
  unfold sha256_hex, digest_hex. cbn [foldr]. rewrite !hex_word_length. reflexivity.
Qed.

End Sha256.

#[global] Opaque Sha256.sha256_hex.
