(* ===== verification/AuthWorld.v ===== *)
(** * Authentication service: data and outside world

    The entities, DTOs and JWT payload of apps/auth-service, the operations its
    methods await (the two repositories, bcrypt, the JWT and Kafka clients, the
    clock and the random source) and their documented behaviour.

    bcrypt and jsonwebtoken are third-party code.  What is relied on: a hash
    has sixty characters and [compare] accepts the password it was made from;
    a signed token is recorded with its payload, so that what the guard reads
    can be compared with what the service signed. *)

From S2P Require Import Prelude Effects JsNumber JsDate Sql Sha256.

(** ** Entities *)

Module UserRole.
Inductive t := USER | ADMIN | ORGANIZER.

Definition value (r : t) : string :=
  match r with USER => "user" | ADMIN => "admin" | ORGANIZER => "organizer" end.

#[global] Instance eq_dec : EqDecision t.
Proof. solve_decision. Defined.
End UserRole.

(** entities/user.entity.ts; the two timestamps are never read. *)
Record User := mkUser {
  u_id : string;
  u_email : string;
  u_passwordHash : string;
  u_fullName : string;
  u_phone : option string;
  u_role : UserRole.t;
  u_emailVerified : bool;
  u_emailVerificationToken : option string;
  u_emailVerificationExpires : option Z;
  u_passwordResetToken : option string;
  u_passwordResetExpires : option Z;
}.

(** entities/refresh-token.entity.ts *)
Record RefreshToken := mkRefreshToken {
  t_id : string;
  t_userId : string;
  t_tokenHash : string;
  t_deviceInfo : option string;
  t_expiresAt : Z;
  t_revokedAt : option Z;
}.

Record JwtPayload := mkJwtPayload {
  sub : string;
  jp_email : string;
  jp_role : string;
  jp_emailVerified : bool;
}.

(** The columns an update of a user sets. *)
Definition set_u_verified (u : User) : User :=
  mkUser (u_id u) (u_email u) (u_passwordHash u) (u_fullName u) (u_phone u) (u_role u)
    true None None (u_passwordResetToken u) (u_passwordResetExpires u).
Definition set_u_verification (tokenHash : string) (expires : Z) (u : User) : User :=
  mkUser (u_id u) (u_email u) (u_passwordHash u) (u_fullName u) (u_phone u) (u_role u)
    (u_emailVerified u) (Some tokenHash) (Some expires) (u_passwordResetToken u) (u_passwordResetExpires u).
Definition set_u_reset (tokenHash : string) (expires : Z) (u : User) : User :=
  mkUser (u_id u) (u_email u) (u_passwordHash u) (u_fullName u) (u_phone u) (u_role u)
    (u_emailVerified u) (u_emailVerificationToken u) (u_emailVerificationExpires u)
    (Some tokenHash) (Some expires).
Definition set_u_password (passwordHash : string) (u : User) : User :=
  mkUser (u_id u) (u_email u) passwordHash (u_fullName u) (u_phone u) (u_role u)
    (u_emailVerified u) (u_emailVerificationToken u) (u_emailVerificationExpires u) None None.
Definition set_t_revoked (at_ : Z) (t : RefreshToken) : RefreshToken :=
  mkRefreshToken (t_id t) (t_userId t) (t_tokenHash t) (t_deviceInfo t) (t_expiresAt t) (Some at_).

(** The arguments of the two [create] calls. *)
Record UserData := mkUserData {
  ud_email : string;
  ud_passwordHash : string;
  ud_fullName : string;
  ud_phone : option string;
  ud_role : UserRole.t;
}.

Record TokenData := mkTokenData {
  td_userId : string;
  td_tokenHash : string;
  td_expiresAt : Z;
}.

(** The row and entity of a [create]d user or token. *)
Definition user_of (id : string) (d : UserData) : User :=
  mkUser id (ud_email d) (ud_passwordHash d) (ud_fullName d) (ud_phone d) (ud_role d)
    false None None None None.

Definition token_of (id : string) (d : TokenData) : RefreshToken :=
  mkRefreshToken id (td_userId d) (td_tokenHash d) None (td_expiresAt d) None.

(** ** Kafka messages *)

(** 'auth.email_verification' and 'auth.password_reset'; the key is the user's id. *)
Inductive AuthEvent :=
| EmailVerification (userId email fullName verificationUrl expiresAt : string)
| PasswordReset (userId email fullName resetUrl expiresAt : string).

Definition auth_topic (e : AuthEvent) : string :=
  match e with
  | EmailVerification _ _ _ _ _ => "auth.email_verification"
  | PasswordReset _ _ _ _ _ => "auth.password_reset"
  end.

(** ** Local time *)

(** The host's time zone: the local time of an instant and the instant of a
    local time (ECMA-262, LocalTime and UTC). *)
Class TimeZone := { LocalTime : Z -> Z; UTC : Z -> Z }.

(** A zone with a fixed offset from UTC. *)
Definition fixed_zone (offset : Z) : TimeZone :=
  {| LocalTime t := (t + offset)%Z; UTC t := (t - offset)%Z |}.

Section Dates.
Context {tz : TimeZone}.
Local Open Scope Z_scope.

Definition getHours (t : Z) : Z := LocalTime t / 3600000 mod 24.
Definition setHours (h t : Z) : Z :=
  let l := LocalTime t in UTC (l / 86400000 * 86400000 + h * 3600000 + l mod 3600000).
Definition getDate (t : Z) : Z := (civil (LocalTime t / 86400000)).2.
Definition setDate (d t : Z) : Z := UTC (LocalTime t + (d - getDate t) * 86400000).

(** [date.setHours(date.getHours() + n)] moves the local time by [n] hours. *)
Lemma setHours_plus n t : setHours (getHours t + n) t = UTC (LocalTime t + n * 3600000).
Proof.
  unfold setHours, getHours. f_equal. set (l := LocalTime t).
  replace 86400000 with (3600000 * 24) by reflexivity.
  rewrite <- Z.div_div by lia.
  pose proof (Z.div_mod l 3600000 ltac:(lia)). pose proof (Z.div_mod (l / 3600000) 24 ltac:(lia)). lia.
Qed.

Lemma setDate_plus n t : setDate (getDate t + n) t = UTC (LocalTime t + n * 86400000).
Proof. unfold setDate. f_equal. lia. Qed.
End Dates.

(** ** Operations *)

Inductive AuthE : Type -> Type :=
| ANow : AuthE Z
| ARandomUUID : AuthE string
| ABcryptHash (data : string) (rounds : Z) : AuthE string
| ABcryptCompare (data encrypted : string) : AuthE bool
| AJwtSign (payload : JwtPayload) (expiresIn : string) : AuthE string
| UserFindOne (p : User -> bool) : AuthE (option User)
| UserInsert (d : UserData) : AuthE User
| UserUpdate (p : User -> bool) (g : User -> User) : AuthE unit
| TokFindOne (p : RefreshToken -> bool) : AuthE (option RefreshToken)
| TokInsert (d : TokenData) : AuthE RefreshToken
| TokSave (t : RefreshToken) : AuthE unit
| TokUpdate (p : RefreshToken -> bool) (g : RefreshToken -> RefreshToken) : AuthE unit
| AEmit (e : AuthEvent) : AuthE unit.

(** ** The view of the world *)

(** [auth_events] has the messages the Kafka client was handed. *)
Record AuthView := mkAuthView {
  users : gmap string User;
  tokens : gmap string RefreshToken;
  signed : list (string * JwtPayload * string);   (* JWT, payload, expiresIn *)
  auth_events : list AuthEvent;
}.

Definition with_users (t : gmap string User) (v : AuthView) : AuthView :=
  mkAuthView t (tokens v) (signed v) (auth_events v).
Definition with_tokens (t : gmap string RefreshToken) (v : AuthView) : AuthView :=
  mkAuthView (users v) t (signed v) (auth_events v).
Definition with_signed (l : list (string * JwtPayload * string)) (v : AuthView) : AuthView :=
  mkAuthView (users v) (tokens v) l (auth_events v).
Definition with_auth_events (l : list AuthEvent) (v : AuthView) : AuthView :=
  mkAuthView (users v) (tokens v) (signed v) l.

(** bcrypt's [compare]. *)
Class Bcrypt := bcrypt_compare : string -> string -> bool.

(** The unique index on [email]. *)
Definition email_taken (email : string) (t : gmap string User) : Prop :=
  exists i u, t !! i = Some u /\ u_email u = email.

Section Behaviour.
Context {bc : Bcrypt}.

Definition auth_ok {X} (op : AuthE X) (v : AuthView) : X -> AuthView -> Prop :=
  match op with
  | ANow => fun _ v' => v' = v
  | ARandomUUID => fun _ v' => v' = v
  | ABcryptHash data _ => fun h v' =>
      v' = v /\ String.length h = 60%nat /\ bcrypt_compare data h = true
  | ABcryptCompare data encrypted => fun b v' => v' = v /\ b = bcrypt_compare data encrypted
  | AJwtSign payload expiresIn => fun t v' => v' = with_signed (signed v ++ [(t, payload, expiresIn)]) v
  | UserFindOne p => fun o v' => v' = v /\ selects_one p (users v) o
  | UserInsert d => fun u v' =>
      ~ email_taken (ud_email d) (users v) /\ u = user_of (u_id u) d /\ users v !! u_id u = None /\
      v' = with_users (<[u_id u := u]> (users v)) v
  | UserUpdate p g => fun _ v' => v' = with_users (update_where p g (users v)) v
  | TokFindOne p => fun o v' => v' = v /\ selects_one p (tokens v) o
  | TokInsert d => fun t v' =>
      t = token_of (t_id t) d /\ tokens v !! t_id t = None /\
      v' = with_tokens (<[t_id t := t]> (tokens v)) v
  | TokSave t => fun _ v' => v' = with_tokens (<[t_id t := t]> (tokens v)) v
  | TokUpdate p g => fun _ v' => v' = with_tokens (update_where p g (tokens v)) v
  | AEmit e => fun _ v' => v' = with_auth_events (auth_events v ++ [e]) v
  end.

Definition auth_rejects {X} (op : AuthE X) (v : AuthView) : Prop :=
  match op with
  | UserInsert d => email_taken (ud_email d) (users v)
  | _ => False
  end.

(** bcrypt and [jwtService.sign] can throw (a missing secret); the clock, the
    random source and the unawaited [emit] do not. *)
Definition auth_fallible {X} (op : AuthE X) : Prop :=
  match op with
  | ANow | ARandomUUID | AEmit _ => False
  | _ => True
  end.

Definition auth_behaviour : behaviour AuthE AuthView :=
  {| ok := @auth_ok; rejects := @auth_rejects; fallible := @auth_fallible |}.
End Behaviour.

(** ** Well-formed views *)

(** Rows are stored under their ids, an email and a pending token belong to one
    user, and every stored refresh token is a SHA-256 digest in hexadecimal. *)
Record auth_wf (v : AuthView) : Prop := {
  wf_users : keyed u_id (users v);
  wf_tokens : keyed t_id (tokens v);
  wf_emails : forall i j u w, users v !! i = Some u -> users v !! j = Some w -> u_email u = u_email w -> i = j;
  wf_digests : forall i t, tokens v !! i = Some t -> String.length (t_tokenHash t) = 64%nat;
}.

Ltac auth_sem H :=
  cbn [obeys ok rejects fallible auth_behaviour auth_ok auth_rejects auth_fallible] in H.
