(* ===== verification/AuthRef.v ===== *)
(** * A reference environment for the authentication service

    A deterministic implementation of the operations of AuthWorld and the same
    with scripted failures.  Its bcrypt pads the password to sixty characters,
    its random source counts.  Only the witnesses run it. *)

From S2P Require Import Prelude Effects JsNumber JsDate Sql Sha256 AuthWorld.

(** Sixty characters: the scheme, the data and padding. *)
Definition demo_hash (data : string) : string :=
  String.substring 0 60 ("$2b$" +:+ data +:+ repeat_char 60).

Lemma substring_length n s : String.length (String.substring 0 n s) = Nat.min n (String.length s).
Proof. revert s. induction n as [|n IH]; intros [|c s]; cbn; auto. Qed.

Lemma demo_hash_length data : String.length (demo_hash data) = 60%nat.
Proof.
  unfold demo_hash. rewrite substring_length, !string_length_app, repeat_char_length.
  change (String.length "$2b$") with 4%nat. lia.
Qed.

#[global] Instance demo_bcrypt : Bcrypt := fun data encrypted => String.eqb (demo_hash data) encrypted.
#[global] Instance demo_zone : TimeZone := fixed_zone 0.

Definition email_takenb (email : string) (t : gmap string User) : bool :=
  existsb (fun u => String.eqb (u_email u) email) (rows t).

(** The view, the clock and the number of random values drawn. *)
Definition AuthRefWorld : Type := AuthView * Z * N.

Definition auth_run (X : Type) (op : AuthE X) (w : AuthRefWorld) : result X * AuthRefWorld :=
  let '(v, now, n) := w in
  match op in AuthE X return result X * AuthRefWorld with
  | ANow => (Ok now, w)
  | ARandomUUID => (Ok ("uuid-" +:+ N_to_string n), (v, now, (n + 1)%N))
  | ABcryptHash data _ => (Ok (demo_hash data), w)
  | ABcryptCompare data encrypted => (Ok (bcrypt_compare data encrypted), w)
  | AJwtSign payload expiresIn =>
      let t := "jwt-" +:+ N_to_string (N.of_nat (length (signed v))) in
      (Ok t, (with_signed (signed v ++ [(t, payload, expiresIn)]) v, now, n))
  | UserFindOne p => (Ok (List.find p (rows (users v))), w)
  | UserInsert d =>
      if email_takenb (ud_email d) (users v) then (Err (JsError "QueryFailedError"), w)
      else
        let u := user_of (List.hd ""%string (new_ids (users v) 1)) d in
        (Ok u, (with_users (<[u_id u := u]> (users v)) v, now, n))
  | UserUpdate p g => (Ok tt, (with_users (update_where p g (users v)) v, now, n))
  | TokFindOne p => (Ok (List.find p (rows (tokens v))), w)
  | TokInsert d =>
      let t := token_of (List.hd ""%string (new_ids (tokens v) 1)) d in
      (Ok t, (with_tokens (<[t_id t := t]> (tokens v)) v, now, n))
  | TokSave t => (Ok tt, (with_tokens (<[t_id t := t]> (tokens v)) v, now, n))
  | TokUpdate p g => (Ok tt, (with_tokens (update_where p g (tokens v)) v, now, n))
  | AEmit e => (Ok tt, (with_auth_events (auth_events v ++ [e]) v, now, n))
  end.

Definition auth_io (X : Type) (op : AuthE X) : bool :=
  match op with
  | ANow | ARandomUUID | AEmit _ => false
  | _ => true
  end.

Definition auth_flaky := flaky auth_run auth_io.
Definition auth_view (w : AuthRefWorld) : AuthView := w.1.1.
Definition auth_flaky_view (w : AuthRefWorld * list bool) : AuthView := auth_view w.1.

(** ** Conformance *)

Lemma email_takenb_spec email t : email_takenb email t = true <-> email_taken email t.
Proof.
  unfold email_takenb, email_taken. rewrite existsb_exists. split.
  - intros (u & Hin%list_elem_of_In%elem_of_rows_lookup & Hk%String.eqb_eq).
    destruct Hin as [i Hi]. eauto.
  - intros (i & u & Hi & Hk). exists u. split; [|by apply String.eqb_eq].
    apply list_elem_of_In. by eapply rows_lookup.
Qed.

Lemma auth_run_conforms : conforms Reliable auth_behaviour auth_run auth_view.
Proof.
  intros X op [[v now] n]. cbn [auth_view fst]. destruct op; cbn; try done;
    try (split; [done|apply find_selects_one]).
  - split_and!; [done|apply demo_hash_length|apply String.eqb_refl].
  - destruct (email_takenb (ud_email d) (users v)) eqn:Hc; cbn.
    + split; [done|]. left. by apply email_takenb_spec.
    + split_and!; [rewrite <- email_takenb_spec; congruence|done|apply new_id_fresh|done].
  - split_and!; [done|apply new_id_fresh|done].
Qed.

Lemma auth_flaky_conforms : conforms Faulty auth_behaviour auth_flaky auth_flaky_view.
Proof.
  apply (flaky_conforms auth_run auth_io auth_behaviour auth_view); [|apply auth_run_conforms].
  by intros X [].
Qed.

(** ** Concrete worlds *)

Definition empty_auth : AuthView := mkAuthView ∅ ∅ [] [].

(** 2023-11-14T22:13:20Z *)
Definition demo_now : Z := 1700000000000.
Definition auth_world : AuthRefWorld := (empty_auth, demo_now, 0%N).

Lemma empty_auth_wf : auth_wf empty_auth.
Proof.
  split; [apply keyed_empty..| |].
  - intros i j u w Hi. cbn in Hi. by rewrite lookup_empty in Hi.
  - intros i t Hi. cbn in Hi. by rewrite lookup_empty in Hi.
Qed.

(** A user of the seed data with the password "Password123!". *)
Definition demo_user : User :=
  mkUser "u1" "a@x.io" (demo_hash "Password123!") "Ada" None UserRole.USER false None None None None.
Definition demo_auth : AuthView := with_users {["u1" := demo_user]} empty_auth.
Definition demo_world : AuthRefWorld := (demo_auth, demo_now, 0%N).

Lemma demo_auth_wf : auth_wf demo_auth.
Proof.
  split; [|apply keyed_empty| |].
  - intros i u Hi. cbn in Hi. by apply lookup_singleton_Some in Hi as [<- <-].
  - intros i j u w Hi Hj. cbn in Hi, Hj.
    by apply lookup_singleton_Some in Hi as [<- _]; apply lookup_singleton_Some in Hj as [<- _].
  - intros i t Hi. cbn in Hi. by rewrite lookup_empty in Hi.
Qed.
