(* ===== verification/UserService.v ===== *)
(** * UserService

    apps/auth-service/src/user/user.service.ts: the users table behind the
    authentication service. *)

From S2P Require Import Prelude Effects JsNumber JsDate Sql Sha256 AuthWorld AuthRef.

(** user/dto/create-user.dto.ts *)
Record CreateUserDto := mkCreateUserDto {
  cu_email : string;
  cu_password : string;
  cu_fullName : string;
  cu_phone : option string;
}.

(** [const { passwordHash, ...userWithoutPassword } = user] *)
Record PublicUser := mkPublicUser {
  pu_id : string;
  pu_email : string;
  pu_fullName : string;
  pu_phone : option string;
  pu_role : UserRole.t;
  pu_emailVerified : bool;
  pu_emailVerificationToken : option string;
  pu_emailVerificationExpires : option Z;
  pu_passwordResetToken : option string;
  pu_passwordResetExpires : option Z;
}.

Definition userWithoutPassword (u : User) : PublicUser :=
  mkPublicUser (u_id u) (u_email u) (u_fullName u) (u_phone u) (u_role u) (u_emailVerified u)
    (u_emailVerificationToken u) (u_emailVerificationExpires u)
    (u_passwordResetToken u) (u_passwordResetExpires u).

(** The [where] clauses. *)
Definition has_email (email : string) (u : User) : bool := String.eqb (u_email u) email.
Definition has_id (id : string) (u : User) : bool := String.eqb (u_id u) id.
Definition has_verification (tokenHash : string) (u : User) : bool :=
  bool_decide (u_emailVerificationToken u = Some tokenHash).
Definition has_reset (tokenHash : string) (u : User) : bool :=
  bool_decide (u_passwordResetToken u = Some tokenHash).

Section Service.
Context {S : Type}.

Definition findByEmail (email : string) : prog S AuthE (option User) :=
  call (UserFindOne (has_email email)).

Definition findById (id : string) : prog S AuthE (option User) :=
  call (UserFindOne (has_id id)).

Definition findByEmailVerificationToken (tokenHash : string) : prog S AuthE (option User) :=
  call (UserFindOne (has_verification tokenHash)).

Definition findByPasswordResetToken (tokenHash : string) : prog S AuthE (option User) :=
  call (UserFindOne (has_reset tokenHash)).

Definition create (dto : CreateUserDto) : prog S AuthE PublicUser :=
  existing <- findByEmail (cu_email dto) ;;
  match existing with
  | Some _ => Throw (ConflictException "User with this email already exists")
  | None =>
      passwordHash <- call (ABcryptHash (cu_password dto) 12) ;;
      saved <- call (UserInsert (mkUserData (cu_email dto) passwordHash (cu_fullName dto)
                                   (cu_phone dto) UserRole.USER)) ;;
      Ret (userWithoutPassword saved)
  end.

Definition markEmailVerified (userId : string) : prog S AuthE unit :=
  call (UserUpdate (has_id userId) set_u_verified).

Definition setPasswordResetToken (userId tokenHash : string) (expires : Z) : prog S AuthE unit :=
  call (UserUpdate (has_id userId) (set_u_reset tokenHash expires)).

Definition updatePassword (userId newPassword : string) : prog S AuthE unit :=
  passwordHash <- call (ABcryptHash newPassword 12) ;;
  call (UserUpdate (has_id userId) (set_u_password passwordHash)).

Definition validatePassword (user : User) (password : string) : prog S AuthE bool :=
  call (ABcryptCompare password (u_passwordHash user)).

Definition setEmailVerificationToken (userId tokenHash : string) (expires : Z) : prog S AuthE unit :=
  call (UserUpdate (has_id userId) (set_u_verification tokenHash expires)).
End Service.

(** ** The users table *)

(** The user with an email, if there is one. *)
Lemma selects_email v email o :
  auth_wf v -> selects_one (has_email email) (users v) o ->
  match o with
  | Some u => users v !! u_id u = Some u /\ u_email u = email
  | None => ~ email_taken email (users v)
  end.
Proof.
  intros [Hk _ _ _] H. destruct o as [u|]; cbn in H.
  - destruct H as [Hin He%String.eqb_eq]. split; [|done]. by apply (elem_of_rows u_id).
  - intros (i & u & Hi & <-). pose proof (H u (rows_lookup _ _ _ Hi)) as Hf. unfold has_email in Hf.
    by rewrite String.eqb_refl in Hf.
Qed.

Lemma update_id t id g :
  keyed u_id t -> update_where (has_id id) g t = alter g id t.
Proof.
  intros Hk. apply map_eq. intros i. rewrite update_where_lookup. destruct (decide (id = i)) as [->|Hne].
  - rewrite lookup_alter_eq. destruct (t !! i) as [u|] eqn:Hi; cbn; [|done].
    unfold has_id. by rewrite (Hk i u Hi), String.eqb_refl.
  - rewrite lookup_alter_ne by done. destruct (t !! i) as [u|] eqn:Hi; cbn; [|done].
    unfold has_id. rewrite (Hk i u Hi). by destruct (String.eqb_spec i id); [congruence|].
Qed.

(** The updates of the service keep a user's id, email and role. *)
Definition keeps_identity (g : User -> User) : Prop :=
  forall u, u_id (g u) = u_id u /\ u_email (g u) = u_email u /\ u_role (g u) = u_role u.

Lemma identity_verified : keeps_identity set_u_verified.
Proof. done. Qed.
Lemma identity_verification h e : keeps_identity (set_u_verification h e).
Proof. done. Qed.
Lemma identity_reset h e : keeps_identity (set_u_reset h e).
Proof. done. Qed.
Lemma identity_password h : keeps_identity (set_u_password h).
Proof. done. Qed.
Create HintDb auth.
#[export] Hint Resolve identity_verified identity_verification identity_reset identity_password : auth.

Lemma wf_alter_user v id g :
  keeps_identity g -> auth_wf v -> auth_wf (with_users (alter g id (users v)) v).
Proof.
  intros Hg [Hu Ht He Hd]. split; cbn [users tokens with_users]; try done.
  - intros i u Hi. apply lookup_alter_Some in Hi as [(-> & w & Hw & ->)|[_ Hi]]; [|by apply Hu].
    rewrite (proj1 (Hg w)). by apply Hu.
  - assert (forall i u, alter g id (users v) !! i = Some u ->
      exists u0, users v !! i = Some u0 /\ u_email u0 = u_email u) as Hold.
    { intros i u [(-> & w & Hw & ->)|[_ Hi]]%lookup_alter_Some; [|by exists u].
      exists w. split; [done|]. symmetry. apply Hg. }
    intros i j u w (u0 & Hi & Hu0)%Hold (w0 & Hj & Hw0)%Hold Heq. eapply He; [exact Hi|exact Hj|congruence].
Qed.

Lemma wf_insert_user v u :
  auth_wf v -> ~ email_taken (u_email u) (users v) -> users v !! u_id u = None ->
  auth_wf (with_users (<[u_id u := u]> (users v)) v).
Proof.
  intros [Hu Ht He Hd] Hn Hf. split; cbn [users tokens with_users]; try done.
  - by apply keyed_insert.
  - intros i j u1 u2 [[<- <-]|[Hni Hi]]%lookup_insert_Some [[<- <-]|[Hnj Hj]]%lookup_insert_Some Heq.
    + done.
    + exfalso. apply Hn. by exists j, u2.
    + exfalso. apply Hn. by exists i, u1.
    + by eapply He.
Qed.

(** ** Proof rules *)

Section Proofs.
Context {bc : Bcrypt} {S : Type}.
Variable md : mode.
Abbreviation spec := (obeys md auth_behaviour).

Lemma find_user_wp p (Q : result (option User) -> S -> AuthView -> Prop) s v :
  (forall o, selects_one p (users v) o -> Q (Ok o) s v) ->
  (forall e, md = Faulty -> Q (Err e) s v) ->
  wp spec (call (UserFindOne p)) Q s v.
Proof.
  intros HQ HE. wp_step. intros [o|e] v1 H; auth_sem H.
  - destruct H as [-> Ho]. by apply HQ.
  - destruct H as [-> [[]|[Hmd _]]]. by apply HE.
Qed.

Lemma update_user_wp id g (Q : result unit -> S -> AuthView -> Prop) s v :
  auth_wf v -> keeps_identity g ->
  (forall v', v' = with_users (alter g id (users v)) v -> auth_wf v' -> Q (Ok tt) s v') ->
  (forall e, md = Faulty -> Q (Err e) s v) ->
  wp spec (call (UserUpdate (has_id id) g)) Q s v.
Proof.
  intros Hwf Hg HQ HE. wp_step. intros [[]|e] v1 H; auth_sem H.
  - rewrite update_id in H by apply Hwf. apply HQ; [done|]. subst v1. by apply wf_alter_user.
  - destruct H as [-> [[]|[Hmd _]]]. by apply HE.
Qed.

Lemma create_wp dto (Q : result PublicUser -> S -> AuthView -> Prop) s v :
  auth_wf v ->
  (email_taken (cu_email dto) (users v) ->
     Q (Err (ConflictException "User with this email already exists")) s v) ->
  (forall u, ~ email_taken (cu_email dto) (users v) -> users v !! u_id u = None ->
     u = user_of (u_id u) (mkUserData (cu_email dto) (u_passwordHash u) (cu_fullName dto) (cu_phone dto) UserRole.USER) ->
     bcrypt_compare (cu_password dto) (u_passwordHash u) = true ->
     auth_wf (with_users (<[u_id u := u]> (users v)) v) ->
     Q (Ok (userWithoutPassword u)) s (with_users (<[u_id u := u]> (users v)) v)) ->
  (forall e, md = Faulty -> Q (Err e) s v) ->
  wp spec (create dto) Q s v.
Proof.
  intros Hwf HC HQ HE. unfold create, findByEmail. wp_step. apply find_user_wp; [|done].
  intros o Ho. pose proof (selects_email v _ o Hwf Ho) as He. destruct o as [u|].
  { cbn. apply HC. destruct He as [Hi He]. by exists (u_id u), u. }
  wp_step. wp_step. intros [h|e] v1 H; auth_sem H; [|destruct H as [-> [[]|[Hmd _]]]; by apply HE].
  destruct H as (-> & _ & Hc). wp_step. wp_step.
  intros [u|e] v1 H; auth_sem H; [|destruct H as [-> [Ht|[Hmd _]]]; [done|by apply HE]].
  destruct H as (Hn & Hu & Hf & ->). cbn [ud_email] in Hn. wp_step.
  assert (u_email u = cu_email dto) as Hue by (by rewrite Hu).
  assert (u_passwordHash u = h) as Huh by (by rewrite Hu).
  apply HQ; [done|done|by rewrite Huh|by rewrite Huh|]. apply wf_insert_user; [done|by rewrite Hue|done].
Qed.
End Proofs.
