(* ===== verification/AuthService.v ===== *)
(** * AuthService

    apps/auth-service/src/auth/auth.service.ts: registration, login, refresh
    tokens, email verification and password reset.  Tokens are stored as
    SHA-256 digests; [refresh] alone hashes with bcrypt, see
    [refresh_never_succeeds]. *)

From S2P Require Import Prelude Effects JsNumber JsDate Sql Sha256 AuthWorld AuthRef UserService.

(** The value of REFRESH_TOKEN_EXPIRY_DAYS: the number given as the default,
    or the environment's text, which [ConfigService] does not convert.  The
    text is taken to consist of decimal digits. *)
Inductive ExpiryDays := DaysNumber (n : Z) | DaysText (digits : list N).

(** [expiresAt.getDate() + this.refreshTokenExpiryDays], as the number
    [setDate] makes of it: with a text the plus is a concatenation. *)
Definition plus_days (date : Z) (days : ExpiryDays) : Z :=
  match days with
  | DaysNumber n => (date + n)%Z
  | DaysText digits => Z.of_N (eval_digits 10 (radix 10 (Z.to_N date) ++ digits))
  end.

(** What the constructor reads from the configuration. *)
Record AuthConfig := mkAuthConfig {
  refreshTokenExpiryDays : ExpiryDays;
  appUrl : string;
  jwtAccessExpiry : string;
}.

(** The configuration when no variable is set. *)
Definition default_config : AuthConfig := mkAuthConfig (DaysNumber 1) "http://localhost:8080" "15m".

Record Tokens := mkTokens { accessToken : string; refreshToken : string }.

Record LoginUser := mkLoginUser {
  lu_id : string;
  lu_email : string;
  lu_role : UserRole.t;
  lu_fullName : string;
  lu_emailVerified : bool;
}.

Definition hashToken (token : string) : string := Sha256.sha256_hex token.

(** [{ tokenHash, revokedAt: IsNull() }] *)
Definition live_token (tokenHash : string) (t : RefreshToken) : bool :=
  String.eqb (t_tokenHash t) tokenHash &&
  match t_revokedAt t with None => true | Some _ => false end.

(** [{ tokenHash, revokedAt: null }]: TypeORM leaves a null out of the clause. *)
Definition any_token (tokenHash : string) (t : RefreshToken) : bool :=
  String.eqb (t_tokenHash t) tokenHash.

(** [{ userId, revokedAt: IsNull() }] *)
Definition live_of_user (userId : string) (t : RefreshToken) : bool :=
  String.eqb (t_userId t) userId &&
  match t_revokedAt t with None => true | Some _ => false end.

(** [expires && expires < new Date()] *)
Definition expired (expires : option Z) (now : Z) : bool :=
  match expires with Some e => Z.ltb e now | None => false end.

Section Service.
Context {tz : TimeZone} {S : Type}.
Variable config : AuthConfig.

Definition generateTokens (userId email role : string) (emailVerified : bool) : prog S AuthE Tokens :=
  let payload := mkJwtPayload userId email role emailVerified in
  accessToken <- call (AJwtSign payload (jwtAccessExpiry config)) ;;
  refreshToken <- call ARandomUUID ;;
  let refreshTokenHash := hashToken refreshToken in
  expiresAt <- call ANow ;;
  let expiresAt := setDate (plus_days (getDate expiresAt) (refreshTokenExpiryDays config)) expiresAt in
  _ <- call (TokInsert (mkTokenData userId refreshTokenHash expiresAt)) ;;
  Ret (mkTokens accessToken refreshToken).

Definition verification_event (userId email fullName token : string) (expires : Z) : AuthEvent :=
  EmailVerification userId email fullName
    (appUrl config +:+ "/auth/verify-email?token=" +:+ token) (toISOString expires).

Definition register (email password fullName : string) : prog S AuthE PublicUser :=
  user <- create (mkCreateUserDto email password fullName None) ;;
  token <- call ARandomUUID ;;
  let tokenHash := hashToken token in
  expires <- call ANow ;;
  let expires := setHours (getHours expires + 24) expires in
  setEmailVerificationToken (pu_id user) tokenHash expires ;;
  call (AEmit (verification_event (pu_id user) (pu_email user) (pu_fullName user) token expires)) ;;
  Ret user.

Definition login (email password : string) : prog S AuthE (LoginUser * Tokens) :=
  user <- findByEmail email ;;
  match user with
  | None => Throw (UnauthorizedException "Invalid credentials")
  | Some user =>
      isPasswordValid <- validatePassword user password ;;
      if negb isPasswordValid then Throw (UnauthorizedException "Invalid credentials")
      else
        tokens <- generateTokens (u_id user) (u_email user) (UserRole.value (u_role user)) (u_emailVerified user) ;;
        Ret (mkLoginUser (u_id user) (u_email user) (u_role user) (u_fullName user) (u_emailVerified user), tokens)
  end.

Definition refresh (refreshToken : string) : prog S AuthE Tokens :=
  tokenHash <- call (ABcryptHash refreshToken 10) ;;
  storedTokens <- call (TokFindOne (any_token tokenHash)) ;;
  match storedTokens with
  | None => Throw (UnauthorizedException "Invalid refresh token")
  | Some storedTokens =>
      now <- call ANow ;;
      if Z.ltb (t_expiresAt storedTokens) now then Throw (UnauthorizedException "Refresh token expired")
      else
        now <- call ANow ;;
        call (TokSave (set_t_revoked now storedTokens)) ;;
        user <- findById (t_userId storedTokens) ;;
        match user with
        | None => Throw (UnauthorizedException "User not found")
        | Some user =>
            generateTokens (u_id user) (u_email user) (UserRole.value (u_role user)) (u_emailVerified user)
        end
  end.

Definition logout (refreshToken : string) : prog S AuthE unit :=
  let tokenHash := hashToken refreshToken in
  storedToken <- call (TokFindOne (live_token tokenHash)) ;;
  match storedToken with
  | Some storedToken =>
      now <- call ANow ;;
      call (TokSave (set_t_revoked now storedToken))
  | None => Ret tt
  end.

(** The common tail of [resendVerification] and [requestEmailVerification]. *)
Definition send_verification (userId : string) (user : User) (message : string) : prog S AuthE string :=
  token <- call ARandomUUID ;;
  let tokenHash := hashToken token in
  expires <- call ANow ;;
  let expires := setHours (getHours expires + 24) expires in
  setEmailVerificationToken userId tokenHash expires ;;
  call (AEmit (verification_event userId (u_email user) (u_fullName user) token expires)) ;;
  Ret message.

Definition resendVerification (userId : string) : prog S AuthE string :=
  user <- findById userId ;;
  match user with
  | None => Throw (UnauthorizedException "User not found")
  | Some user =>
      if u_emailVerified user then Ret "Email already verified"%string
      else send_verification userId user "Email verification email resent"
  end.

Definition requestEmailVerification (userId : string) : prog S AuthE string :=
  user <- findById userId ;;
  match user with
  | None => Throw (UnauthorizedException "User not found")
  | Some user => send_verification userId user "Email verification email sent"
  end.

(** [!user || (user.expires && user.expires < new Date())]; the clock is read
    when there is a user with an expiry date. *)
Definition check_expiry (user : option User) (expires : User -> option Z) : prog S AuthE User :=
  match user with
  | None => Throw (UnauthorizedException "Invalid or expired token")
  | Some user =>
      match expires user with
      | None => Ret user
      | Some e =>
          now <- call ANow ;;
          if Z.ltb e now then Throw (UnauthorizedException "Invalid or expired token") else Ret user
      end
  end.

Definition verifyEmail (token : string) : prog S AuthE string :=
  let tokenHash := hashToken token in
  user <- findByEmailVerificationToken tokenHash ;;
  user <- check_expiry user u_emailVerificationExpires ;;
  markEmailVerified (u_id user) ;;
  Ret "Email verified successfully"%string.

Definition requestPasswordReset (email : string) : prog S AuthE string :=
  user <- findByEmail email ;;
  match user with
  | None => Ret "If themail exists, a reset link has been sent"%string
  | Some user =>
      token <- call ARandomUUID ;;
      let tokenHash := hashToken token in
      expires <- call ANow ;;
      let expires := setHours (getHours expires + 1) expires in
      setPasswordResetToken (u_id user) tokenHash expires ;;
      call (AEmit (PasswordReset (u_id user) (u_email user) (u_fullName user)
                     (appUrl config +:+ "/reset-password?token=" +:+ token) (toISOString expires))) ;;
      Ret "If the email exists, a reset link has been sent"%string
  end.

Definition resetPassword (token newPassword : string) : prog S AuthE string :=
  let tokenHash := hashToken token in
  user <- findByPasswordResetToken tokenHash ;;
  user <- check_expiry user u_passwordResetExpires ;;
  updatePassword (u_id user) newPassword ;;
  now <- call ANow ;;
  call (TokUpdate (live_of_user (u_id user)) (set_t_revoked now)) ;;
  Ret "Password reset successfully"%string.
End Service.

(** ** Specification *)

Definition payload_of (u : User) : JwtPayload :=
  mkJwtPayload (u_id u) (u_email u) (UserRole.value (u_role u)) (u_emailVerified u).

Definition login_user (u : User) : LoginUser :=
  mkLoginUser (u_id u) (u_email u) (u_role u) (u_fullName u) (u_emailVerified u).

(** [v'] is [v] with a session of [u] opened: a JWT with the user's data was
    signed, and a live refresh token is stored under the digest of the one
    returned. *)
Definition session_opened {tz : TimeZone} (config : AuthConfig) (u : User) (r : Tokens) (v v' : AuthView) : Prop :=
  exists id now,
    tokens v !! id = None /\
    let t := token_of id (mkTokenData (u_id u) (hashToken (refreshToken r))
               (setDate (plus_days (getDate now) (refreshTokenExpiryDays config)) now)) in
    v' = mkAuthView (users v) (<[id := t]> (tokens v))
           (signed v ++ [(accessToken r, payload_of u, jwtAccessExpiry config)]) (auth_events v).

(** The part of the view the service's users see is unchanged; a JWT may have
    been signed for an answer that was not sent. *)
Definition only_signed (v v' : AuthView) : Prop := exists l, v' = with_signed l v.

(** A verification link was sent to the user: the digest of its token is
    stored with an expiry of [n] hours. *)
Definition verification_sent {tz : TimeZone} (config : AuthConfig) (id : string) (u : User) (v v' : AuthView) : Prop :=
  exists token now,
    let expires := UTC (LocalTime now + 24 * 3600000) in
    v' = mkAuthView (alter (set_u_verification (hashToken token) expires) id (users v)) (tokens v) (signed v)
           (auth_events v ++ [verification_event config id (u_email u) (u_fullName u) token expires]).

Definition reset_sent {tz : TimeZone} (config : AuthConfig) (u : User) (v v' : AuthView) : Prop :=
  exists token now,
    let expires := UTC (LocalTime now + 1 * 3600000) in
    v' = mkAuthView (alter (set_u_reset (hashToken token) expires) (u_id u) (users v)) (tokens v) (signed v)
           (auth_events v ++ [PasswordReset (u_id u) (u_email u) (u_fullName u)
              (appUrl config +:+ "/reset-password?token=" +:+ token) (toISOString expires)]).

(** Every live refresh token of the user is revoked at [now]. *)
Definition sessions_revoked (userId : string) (now : Z) (v : AuthView) : gmap string RefreshToken :=
  update_where (live_of_user userId) (set_t_revoked now) (tokens v).

(** What any request keeps, whatever its answer: users keep their id, email and
    role, new users have the role USER, and refresh tokens keep their owner,
    digest and expiry and are never revived. *)
Record auth_keeps (v v' : AuthView) : Prop := {
  keeps_wf : auth_wf v';
  keeps_users : forall i u, users v !! i = Some u ->
    exists u', users v' !! i = Some u' /\ u_email u' = u_email u /\ u_role u' = u_role u;
  keeps_new : forall i u', users v' !! i = Some u' -> users v !! i = None -> u_role u' = UserRole.USER;
  keeps_tokens : forall i t, tokens v !! i = Some t ->
    exists t', tokens v' !! i = Some t' /\ t_userId t' = t_userId t /\ t_tokenHash t' = t_tokenHash t /\
      t_expiresAt t' = t_expiresAt t /\ (t_revokedAt t <> None -> t_revokedAt t' <> None);
}.

(** ** Lemmas *)

Lemma hashToken_length token : String.length (hashToken token) = 64%nat.
Proof. apply Sha256.sha256_hex_length. Qed.

Lemma auth_keeps_refl v : auth_wf v -> auth_keeps v v.
Proof. intros Hwf. split; [done|by eauto|by intros i u' ->|]. intros i t Hi. exists t. by split_and!. Qed.

Lemma auth_keeps_trans v1 v2 v3 : auth_keeps v1 v2 -> auth_keeps v2 v3 -> auth_keeps v1 v3.
Proof.
  intros [_ Hu1 Hn1 Ht1] [Hwf Hu2 Hn2 Ht2]. split; [done|..].
  - intros i u (u' & Hi' & ? & ?)%Hu1. destruct (Hu2 i u' Hi') as (u'' & Hi'' & ? & ?).
    exists u''. split_and!; [done|congruence..].
  - intros i u Hi Hnone. destruct (users v2 !! i) as [u2|] eqn:H2; [|by eapply Hn2].
    destruct (Hu2 i u2 H2) as (u3 & H3 & _ & Hr). simplify_eq. rewrite Hr. by eapply Hn1.
  - intros i t (t' & Hi' & ? & ? & ? & ?)%Ht1. destruct (Ht2 i t' Hi') as (t'' & Hi'' & ? & ? & ? & ?).
    exists t''. split_and!; [done|congruence..|auto].
Qed.

Lemma keeps_signed v l : auth_wf v -> auth_keeps v (with_signed l v).
Proof. intros Hwf. pose proof (auth_keeps_refl v Hwf) as [[] ? ? ?]. by repeat split. Qed.

Lemma keeps_events v l : auth_wf v -> auth_keeps v (with_auth_events l v).
Proof. intros Hwf. pose proof (auth_keeps_refl v Hwf) as [[] ? ? ?]. by repeat split. Qed.

Lemma keeps_alter_user v id g :
  keeps_identity g -> auth_wf v -> auth_keeps v (with_users (alter g id (users v)) v).
Proof.
  intros Hg Hwf. split; [by apply wf_alter_user|..]; cbn [users tokens with_users].
  - intros i u Hi. destruct (decide (id = i)) as [->|Hne].
    + exists (g u). rewrite lookup_alter_eq, Hi. split; [done|]. split; apply Hg.
    + exists u. by rewrite lookup_alter_ne.
  - intros i u' [(-> & u & Hu & _)|[_ Hi]]%lookup_alter_Some Hn; congruence.
  - intros i t Hi. exists t. by split_and!.
Qed.

Lemma keeps_update_emit v id g l :
  keeps_identity g -> auth_wf v ->
  auth_keeps v (with_auth_events l (with_users (alter g id (users v)) v)).
Proof.
  intros Hg Hwf. eapply auth_keeps_trans; [by apply (keeps_alter_user v id g)|].
  exact (keeps_events (with_users (alter g id (users v)) v) l (wf_alter_user v id g Hg Hwf)).
Qed.

Lemma keeps_insert_user v u :
  auth_wf v -> ~ email_taken (u_email u) (users v) -> users v !! u_id u = None -> u_role u = UserRole.USER ->
  auth_keeps v (with_users (<[u_id u := u]> (users v)) v).
Proof.
  intros Hwf Hn Hf Hr. split; [by apply wf_insert_user|..]; cbn [users tokens with_users].
  - intros i u0 Hi. exists u0. split; [|done]. rewrite lookup_insert_ne; [done|congruence].
  - intros i u' [[_ <-]|[_ Hi]]%lookup_insert_Some Hnone; [done|congruence].
  - intros i t Hi. exists t. by split_and!.
Qed.

Lemma wf_with_tokens v m :
  auth_wf v -> keyed t_id m -> (forall i t, m !! i = Some t -> String.length (t_tokenHash t) = 64%nat) ->
  auth_wf (with_tokens m v).
Proof. intros [Hu Ht He Hd] Hk Hm. by split. Qed.

Lemma keeps_insert_token v t :
  auth_wf v -> tokens v !! t_id t = None -> String.length (t_tokenHash t) = 64%nat ->
  auth_keeps v (with_tokens (<[t_id t := t]> (tokens v)) v).
Proof.
  intros Hwf Hf Hl. split; cbn [users tokens with_tokens].
  - apply wf_with_tokens; [done|apply keyed_insert, Hwf|].
    intros i t' [[_ <-]|[_ Hi]]%lookup_insert_Some; [done|by eapply wf_digests].
  - intros i u Hi. by exists u.
  - intros i u' Hi Hn. congruence.
  - intros i t' Hi. exists t'. split_and!; try done. rewrite lookup_insert_ne; [done|congruence].
Qed.

(** Revoking some of the tokens. *)
Lemma keeps_revoked v p now :
  auth_wf v -> auth_keeps v (with_tokens (update_where p (set_t_revoked now) (tokens v)) v).
Proof.
  intros Hwf. assert (forall i t, tokens v !! i = Some t -> t_id t = i) as Hk by apply Hwf.
  split; cbn [users tokens with_tokens].
  - apply wf_with_tokens; [done|by apply update_where_keyed; [|apply Hwf]|].
    intros i t. rewrite update_where_lookup. destruct (tokens v !! i) as [t0|] eqn:Hi; cbn; [|done].
    intros [= <-]. by destruct (p t0); cbn; eapply wf_digests.
  - intros i u Hi. by exists u.
  - intros i u' Hi Hn. congruence.
  - intros i t Hi. exists (if p t then set_t_revoked now t else t). rewrite update_where_lookup, Hi.
    split; [done|]. by destruct (p t).
Qed.

Lemma save_revoked v t now :
  auth_wf v -> tokens v !! t_id t = Some t ->
  <[t_id t := set_t_revoked now t]> (tokens v) =
  update_where (fun r => String.eqb (t_id r) (t_id t)) (set_t_revoked now) (tokens v).
Proof.
  intros Hwf Ht. apply map_eq. intros i. rewrite update_where_lookup.
  destruct (decide (t_id t = i)) as [<-|Hne].
  - rewrite lookup_insert_eq, Ht. cbn. by rewrite String.eqb_refl.
  - rewrite lookup_insert_ne by done. destruct (tokens v !! i) as [r|] eqn:Hi; cbn; [|done].
    rewrite (wf_tokens v Hwf i r Hi). by destruct (String.eqb_spec i (t_id t)); [congruence|].
Qed.

Lemma selects_token v p o :
  auth_wf v -> selects_one p (tokens v) o ->
  match o with
  | Some t => tokens v !! t_id t = Some t /\ p t = true
  | None => forall i t, tokens v !! i = Some t -> p t = false
  end.
Proof.
  intros Hwf H. destruct o as [t|]; cbn in H.
  - destruct H as [Hin Hp]. split; [|done]. apply (elem_of_rows t_id); [apply Hwf|done].
  - intros i t Hi. by eapply H, rows_lookup.
Qed.

Lemma selects_user v p o :
  auth_wf v -> selects_one p (users v) o ->
  match o with
  | Some u => users v !! u_id u = Some u /\ p u = true
  | None => forall i u, users v !! i = Some u -> p u = false
  end.
Proof.
  intros Hwf H. destruct o as [u|]; cbn in H.
  - destruct H as [Hin Hp]. split; [|done]. apply (elem_of_rows u_id); [apply Hwf|done].
  - intros i u Hi. by eapply H, rows_lookup.
Qed.

Section Proofs.
Context {bc : Bcrypt} {tz : TimeZone} {S : Type}.
Variable md : mode.
Variable config : AuthConfig.
Abbreviation spec := (obeys md auth_behaviour).

(** The operations that cannot fail, and the others. *)
Lemma total_wp {X} (op : AuthE X) (Q : result X -> S -> AuthView -> Prop) s v :
  ~ auth_fallible op -> (forall v, ~ auth_rejects op v) ->
  (forall x v', auth_ok op v x v' -> Q (Ok x) s v') ->
  wp spec (call op) Q s v.
Proof.
  intros Hf Hr HQ. wp_step. intros [x|e] v1 H; [by apply HQ|].
  destruct H as [_ [H|[_ H]]]; [by apply Hr in H|by apply Hf in H].
Qed.

Lemma io_wp {X} (op : AuthE X) (Q : result X -> S -> AuthView -> Prop) s v :
  (forall v, ~ auth_rejects op v) ->
  (forall x v', auth_ok op v x v' -> Q (Ok x) s v') ->
  (forall e, md = Faulty -> Q (Err e) s v) ->
  wp spec (call op) Q s v.
Proof.
  intros Hr HQ HE. wp_step. intros [x|e] v1 H; [by apply HQ|].
  destruct H as [-> [H|[Hmd _]]]; [by apply Hr in H|by apply HE].
Qed.

Lemma auth_now_wp (Q : result Z -> S -> AuthView -> Prop) s v :
  (forall now, Q (Ok now) s v) -> wp spec (call ANow) Q s v.
Proof. intros HQ. apply total_wp; [by intros []|by intros ? []|]. intros x v' ->. apply HQ. Qed.

Lemma uuid_wp (Q : result string -> S -> AuthView -> Prop) s v :
  (forall token, Q (Ok token) s v) -> wp spec (call ARandomUUID) Q s v.
Proof. intros HQ. apply total_wp; [by intros []|by intros ? []|]. intros x v' ->. apply HQ. Qed.

Lemma emit_wp e (Q : result unit -> S -> AuthView -> Prop) s v :
  Q (Ok tt) s (with_auth_events (auth_events v ++ [e]) v) -> wp spec (call (AEmit e)) Q s v.
Proof. intros HQ. apply total_wp; [by intros []|by intros ? []|]. by intros [] v' ->. Qed.

Lemma generateTokens_wp u (Q : result Tokens -> S -> AuthView -> Prop) s v :
  (forall r v', session_opened config u r v v' -> Q (Ok r) s v') ->
  (forall e v', md = Faulty -> only_signed v v' -> Q (Err e) s v') ->
  wp spec (generateTokens config (u_id u) (u_email u) (UserRole.value (u_role u)) (u_emailVerified u)) Q s v.
Proof.
  intros HQ HE. unfold generateTokens.
  wp_step. apply io_wp; [by intros ? []| |].
  2: { intros e Hmd. apply HE; [done|]. exists (signed v). by destruct v. }
  intros jwt v' ->. cbv beta iota. wp_step. apply uuid_wp. intros token. wp_step. apply auth_now_wp. intros now.
  wp_step. apply io_wp; [by intros ? []| |].
  2: { intros e Hmd. apply HE; [done|]. by eexists. }
  intros t v' (Ht & Hf & ->). wp_step. apply HQ. exists (t_id t), now. split; [done|].
  cbv zeta. by rewrite Ht.
Qed.

Lemma login_wp email password (Q : result (LoginUser * Tokens) -> S -> AuthView -> Prop) s v :
  auth_wf v ->
  (forall u r v', users v !! u_id u = Some u -> u_email u = email ->
     bcrypt_compare password (u_passwordHash u) = true -> session_opened config u r v v' ->
     Q (Ok (login_user u, r)) s v') ->
  ((forall i u, users v !! i = Some u -> u_email u = email -> bcrypt_compare password (u_passwordHash u) = false) ->
     Q (Err (UnauthorizedException "Invalid credentials")) s v) ->
  (forall e v', md = Faulty -> only_signed v v' -> Q (Err e) s v') ->
  wp spec (login config email password) Q s v.
Proof.
  intros Hwf HQ HR HE. unfold login, findByEmail.
  assert (forall e, md = Faulty -> Q (Err e) s v) as HE0.
  { intros e Hmd. apply HE; [done|]. exists (signed v). by destruct v. }
  wp_step. apply find_user_wp; [|done]. intros o Ho.
  pose proof (selects_email v email o Hwf Ho) as He. destruct o as [u|].
  2: { cbn. apply HR. intros i u Hi Hu. destruct He. by exists i, u. }
  destruct He as [Hi He]. wp_step. unfold validatePassword. apply io_wp; [by intros ? []| |done].
  intros b v' [-> Hb]. cbv beta iota. destruct b; cbn [negb].
  - wp_step. apply generateTokens_wp; [|done]. intros r v' Hr. wp_step. by apply HQ.
  - cbn. apply HR. intros j w Hj Hw. assert (u_id u = j) as <-
      by (eapply (wf_emails v Hwf); [exact Hi|exact Hj|congruence]). congruence.
Qed.
(** The common tail of [register], [resendVerification] and
    [requestEmailVerification]: store the digest of a fresh token, send it. *)
Lemma verification_wp {A} id email fullName (k : prog S AuthE A) u (Q : result A -> S -> AuthView -> Prop) s v :
  auth_wf v -> email = u_email u -> fullName = u_fullName u ->
  (forall v', verification_sent config id u v v' -> auth_keeps v v' -> wp spec k Q s v') ->
  (forall e, md = Faulty -> Q (Err e) s v) ->
  wp spec
    (token <- call ARandomUUID ;;
     expires <- call ANow ;;
     setEmailVerificationToken id (hashToken token) (setHours (getHours expires + 24) expires) ;;
     call (AEmit (verification_event config id email fullName token
                    (setHours (getHours expires + 24) expires))) ;;
     k) Q s v.
Proof.
  intros Hwf -> -> HQ HE. wp_step. apply uuid_wp. intros token. wp_step. apply auth_now_wp. intros now.
  unfold setEmailVerificationToken. wp_step. apply update_user_wp; [done|auto with auth| |done].
  intros v' -> Hwf'. wp_step. apply emit_wp. rewrite setHours_plus. apply HQ; [by exists token, now|].
  apply keeps_update_emit; auto with auth.
Qed.

Lemma register_wp email password fullName (Q : result PublicUser -> S -> AuthView -> Prop) s v :
  auth_wf v ->
  (email_taken email (users v) -> Q (Err (ConflictException "User with this email already exists")) s v) ->
  (forall u v1 v', ~ email_taken email (users v) -> users v !! u_id u = None ->
     u = user_of (u_id u) (mkUserData email (u_passwordHash u) fullName None UserRole.USER) ->
     bcrypt_compare password (u_passwordHash u) = true ->
     v1 = with_users (<[u_id u := u]> (users v)) v -> auth_keeps v v1 -> auth_keeps v v' ->
     verification_sent config (u_id u) u v1 v' -> Q (Ok (userWithoutPassword u)) s v') ->
  (forall e, md = Faulty -> Q (Err e) s v) ->
  (forall e u, md = Faulty -> ~ email_taken email (users v) -> users v !! u_id u = None ->
     u = user_of (u_id u) (mkUserData email (u_passwordHash u) fullName None UserRole.USER) ->
     auth_keeps v (with_users (<[u_id u := u]> (users v)) v) ->
     Q (Err e) s (with_users (<[u_id u := u]> (users v)) v)) ->
  wp spec (register config email password fullName) Q s v.
Proof.
  intros Hwf HC HQ HE HP. unfold register. wp_step. apply create_wp; [done|done| |done].
  cbn [cu_email cu_password cu_fullName cu_phone]. intros u Hn Hf Hu Hc Hwf1.
  assert (auth_keeps v (with_users (<[u_id u := u]> (users v)) v)) as Hk
    by (apply keeps_insert_user; [done|by rewrite Hu|done|by rewrite Hu]).
  cbv beta iota zeta. apply (verification_wp (u_id u) _ _ _ u); [done..| |].
  - intros v' Hs Hk'. cbn. eapply HQ; [done..|by eapply auth_keeps_trans|done].
  - intros e Hmd. by apply HP.
Qed.

Lemma findById_wp id (Q : result (option User) -> S -> AuthView -> Prop) s v :
  auth_wf v ->
  (forall o, o = users v !! id -> Q (Ok o) s v) ->
  (forall e, md = Faulty -> Q (Err e) s v) ->
  wp spec (findById id) Q s v.
Proof.
  intros Hwf HQ HE. unfold findById. apply find_user_wp; [|done]. intros o Ho. apply HQ.
  pose proof (selects_user v _ o Hwf Ho) as H. destruct o as [u|].
  - destruct H as [Hi Hp%String.eqb_eq]. by rewrite <- Hp.
  - destruct (users v !! id) as [u|] eqn:Hi; [|done]. specialize (H id u Hi). unfold has_id in H.
    by rewrite (wf_users v Hwf id u Hi), String.eqb_refl in H.
Qed.

(** The two entry points that send the link again. *)
Lemma sendVerification_wp (m : User -> prog S AuthE string) id (Q : result string -> S -> AuthView -> Prop) s v :
  auth_wf v ->
  (users v !! id = None -> Q (Err (UnauthorizedException "User not found")) s v) ->
  (forall u, users v !! id = Some u -> wp spec (m u) Q s v) ->
  (forall e, md = Faulty -> Q (Err e) s v) ->
  wp spec (user <- findById id ;;
           match user with
           | None => Throw (UnauthorizedException "User not found")
           | Some user => m user
           end) Q s v.
Proof.
  intros Hwf HN HQ HE. wp_step. apply findById_wp; [done| |done]. intros o Ho.
  destruct o as [u|]; [by apply HQ|by apply HN].
Qed.

(** The lookup of a pending token and the test of its expiry. *)
Lemma pending_wp (p : User -> bool) (expires : User -> option Z) (Q : result User -> S -> AuthView -> Prop) s v :
  auth_wf v ->
  (forall u now, users v !! u_id u = Some u -> p u = true -> expired (expires u) now = false -> Q (Ok u) s v) ->
  ((forall i u, users v !! i = Some u -> p u = false) \/
   (exists u now, users v !! u_id u = Some u /\ p u = true /\ expired (expires u) now = true) ->
     Q (Err (UnauthorizedException "Invalid or expired token")) s v) ->
  (forall e, md = Faulty -> Q (Err e) s v) ->
  wp spec (user <- call (UserFindOne p) ;; check_expiry user expires) Q s v.
Proof.
  intros Hwf HQ HR HE. wp_step. apply find_user_wp; [|done]. intros o Ho.
  pose proof (selects_user v p o Hwf Ho) as H. destruct o as [u|]; cbn [check_expiry].
  2: { cbn. apply HR. by left. }
  destruct H as [Hi Hp]. destruct (expires u) as [e|] eqn:He.
  2: { cbn. apply (HQ u 0%Z); [done|done|by rewrite He]. }
  wp_step. apply auth_now_wp. intros now. destruct (Z.ltb e now) eqn:Hlt; cbn.
  - apply HR. right. exists u, now. by rewrite He.
  - apply (HQ u now); [done|done|by rewrite He].
Qed.

(** [wp] of a program that starts with the two steps above. *)
Lemma wp_pending {A} (p : User -> bool) (expires : User -> option Z) (k : User -> prog S AuthE A)
    (Q : result A -> S -> AuthView -> Prop) s v :
  wp spec (user <- call (UserFindOne p) ;; check_expiry user expires)
    (fun r s v => match r with Ok u => wp spec (k u) Q s v | Err e => Q (Err e) s v end) s v ->
  wp spec (user <- call (UserFindOne p) ;; user <- check_expiry user expires ;; k user) Q s v.
Proof.
  intros H. cbn in H |- *. intros r v' Hr. specialize (H r v' Hr). destruct r as [o|e]; [|done].
  cbn [of_result bind] in *. by apply wp_bind.
Qed.

Lemma verifyEmail_wp token (Q : result string -> S -> AuthView -> Prop) s v :
  auth_wf v ->
  (forall u now v', users v !! u_id u = Some u -> u_emailVerificationToken u = Some (hashToken token) ->
     expired (u_emailVerificationExpires u) now = false ->
     v' = with_users (alter set_u_verified (u_id u) (users v)) v ->
     auth_keeps v v' -> Q (Ok "Email verified successfully"%string) s v') ->
  ((forall i u, users v !! i = Some u -> u_emailVerificationToken u <> Some (hashToken token)) \/
   (exists u now, users v !! u_id u = Some u /\ u_emailVerificationToken u = Some (hashToken token) /\
      expired (u_emailVerificationExpires u) now = true) ->
     Q (Err (UnauthorizedException "Invalid or expired token")) s v) ->
  (forall e, md = Faulty -> Q (Err e) s v) ->
  wp spec (verifyEmail token) Q s v.
Proof.
  intros Hwf HQ HR HE. unfold verifyEmail, findByEmailVerificationToken. cbv zeta.
  apply wp_pending, pending_wp; [done|..|done].
  - intros u now Hi Hp%bool_decide_eq_true He. unfold markEmailVerified. wp_step.
    apply update_user_wp; [done|auto with auth| |done]. intros v' Hv' Hwf'. wp_step.
    eapply HQ; [done..|]. subst v'. by apply keeps_alter_user; [auto with auth|].
  - intros [H|(u & now & Hi & Hp%bool_decide_eq_true & He)]; apply HR.
    + left. intros i u Hi Heq. specialize (H i u Hi). unfold has_verification in H.
      by rewrite bool_decide_eq_true_2 in H.
    + right. by exists u, now.
Qed.

Lemma requestPasswordReset_wp email (Q : result string -> S -> AuthView -> Prop) s v :
  auth_wf v ->
  (~ email_taken email (users v) -> Q (Ok "If themail exists, a reset link has been sent"%string) s v) ->
  (forall u v', users v !! u_id u = Some u -> u_email u = email -> reset_sent config u v v' -> auth_keeps v v' ->
     Q (Ok "If the email exists, a reset link has been sent"%string) s v') ->
  (forall e, md = Faulty -> Q (Err e) s v) ->
  wp spec (requestPasswordReset config email) Q s v.
Proof.
  intros Hwf HN HQ HE. unfold requestPasswordReset, findByEmail. wp_step. apply find_user_wp; [|done].
  intros o Ho. pose proof (selects_email v email o Hwf Ho) as He. destruct o as [u|]; [|by apply HN].
  destruct He as [Hi He]. wp_step. apply uuid_wp. intros token. wp_step. apply auth_now_wp. intros now.
  unfold setPasswordResetToken. wp_step. apply update_user_wp; [done|auto with auth| |done].
  intros v' -> Hwf'. wp_step. apply emit_wp. rewrite setHours_plus. wp_step.
  apply (HQ u); [done|done|by exists token, now|].
  apply keeps_update_emit; auto with auth.
Qed.

Lemma resetPassword_wp token newPassword (Q : result string -> S -> AuthView -> Prop) s v :
  auth_wf v ->
  (forall u t0 h now v1 v', users v !! u_id u = Some u -> u_passwordResetToken u = Some (hashToken token) ->
     expired (u_passwordResetExpires u) t0 = false -> bcrypt_compare newPassword h = true ->
     v1 = with_users (alter (set_u_password h) (u_id u) (users v)) v ->
     v' = with_tokens (sessions_revoked (u_id u) now v) v1 -> auth_keeps v v' ->
     Q (Ok "Password reset successfully"%string) s v') ->
  ((forall i u, users v !! i = Some u -> u_passwordResetToken u <> Some (hashToken token)) \/
   (exists u now, users v !! u_id u = Some u /\ u_passwordResetToken u = Some (hashToken token) /\
      expired (u_passwordResetExpires u) now = true) ->
     Q (Err (UnauthorizedException "Invalid or expired token")) s v) ->
  (forall e, md = Faulty -> Q (Err e) s v) ->
  (forall e u h v', md = Faulty -> users v !! u_id u = Some u -> u_passwordResetToken u = Some (hashToken token) ->
     bcrypt_compare newPassword h = true ->
     v' = with_users (alter (set_u_password h) (u_id u) (users v)) v -> auth_keeps v v' -> Q (Err e) s v') ->
  wp spec (resetPassword token newPassword) Q s v.
Proof.
  intros Hwf HQ HR HE HP. unfold resetPassword, findByPasswordResetToken. cbv zeta.
  apply wp_pending, pending_wp; [done|..|done].
  - intros u t0 Hi Hp%bool_decide_eq_true He. unfold updatePassword. wp_step. wp_step.
    apply io_wp; [by intros ? []| |done]. intros h v' (-> & _ & Hc). cbv beta iota.
    apply update_user_wp; [done|auto with auth| |done]. intros v' Hv' Hwf'.
    assert (auth_keeps v v') as Hk by (subst v'; by apply keeps_alter_user; [auto with auth|]).
    wp_step. apply auth_now_wp. intros now. wp_step. apply io_wp; [by intros ? []| |].
    + intros [] v2 ->. wp_step. eapply HQ; [done..|by subst v'|].
      eapply auth_keeps_trans; [exact Hk|]. by apply keeps_revoked.
    + intros e Hmd. by eapply HP.
  - intros [H|(u & now & Hi & Hp%bool_decide_eq_true & He)]; apply HR.
    + left. intros i u Hi Heq. specialize (H i u Hi). unfold has_reset in H.
      by rewrite bool_decide_eq_true_2 in H.
    + right. by exists u, now.
Qed.

Lemma logout_wp token (Q : result unit -> S -> AuthView -> Prop) s v :
  auth_wf v ->
  (forall t now v', tokens v !! t_id t = Some t -> live_token (hashToken token) t = true ->
     v' = with_tokens (<[t_id t := set_t_revoked now t]> (tokens v)) v -> auth_keeps v v' -> Q (Ok tt) s v') ->
  ((forall i t, tokens v !! i = Some t -> live_token (hashToken token) t = false) -> Q (Ok tt) s v) ->
  (forall e, md = Faulty -> Q (Err e) s v) ->
  wp spec (logout token) Q s v.
Proof.
  intros Hwf HQ HN HE. unfold logout. wp_step. apply io_wp; [by intros ? []| |done].
  intros o v' [-> Ho]. pose proof (selects_token v _ o Hwf Ho) as H. cbv beta iota.
  destruct o as [t|]; [|by apply HN]. destruct H as [Hi Hl]. wp_step. apply auth_now_wp. intros now.
  apply io_wp; [by intros ? []| |done]. intros [] v' ->.
  change (t_id (set_t_revoked now t)) with (t_id t). eapply HQ; [done..|].
  rewrite save_revoked by done. by apply keeps_revoked.
Qed.

(** A bcrypt hash is never a stored digest: the lengths differ. *)
Lemma refresh_wp token (Q : result Tokens -> S -> AuthView -> Prop) s v :
  auth_wf v ->
  Q (Err (UnauthorizedException "Invalid refresh token")) s v ->
  (forall e, md = Faulty -> Q (Err e) s v) ->
  wp spec (refresh config token) Q s v.
Proof.
  intros Hwf HQ HE. unfold refresh. wp_step. apply io_wp; [by intros ? []| |done].
  intros h v' (-> & Hl & _). cbv beta iota. wp_step. apply io_wp; [by intros ? []| |done].
  intros o v' [-> Ho]. pose proof (selects_token v _ o Hwf Ho) as H. cbv beta iota.
  destruct o as [t|]; [|done]. destruct H as [Hi Hp%String.eqb_eq].
  pose proof (wf_digests v Hwf _ _ Hi) as Hd. rewrite Hp in Hd. lia.
Qed.
End Proofs.

(** ** Lemmas on the described changes *)

Lemma session_keeps {tz : TimeZone} config u r v v' : auth_wf v -> session_opened config u r v v' -> auth_keeps v v'.
Proof.
  intros Hwf (id & now & Hf & ->). cbv zeta.
  set (t := token_of id _).
  pose proof (keeps_insert_token v t Hwf Hf (hashToken_length _)) as Hk.
  eapply auth_keeps_trans; [exact Hk|].
  exact (keeps_signed _ (signed v ++ [(accessToken r, payload_of u, jwtAccessExpiry config)]) (keeps_wf _ _ Hk)).
Qed.

Lemma sessions_revoked_dead userId now v i t :
  sessions_revoked userId now v !! i = Some t -> t_userId t = userId -> t_revokedAt t <> None.
Proof.
  unfold sessions_revoked. rewrite update_where_lookup. destruct (tokens v !! i) as [t0|]; [|done].
  cbn. intros [= <-] Hu. destruct (live_of_user userId t0) eqn:Hl; [done|].
  unfold live_of_user in Hl. rewrite Hu, String.eqb_refl in Hl. cbn in Hl. by destruct (t_revokedAt t0).
Qed.

(** ** The service as a whole *)

(** The calls the controllers and the module's clients can make. *)
Inductive AuthRequest :=
| RRegister (email password fullName : string)
| RLogin (email password : string)
| RRefresh (token : string)
| RLogout (token : string)
| RResendVerification (userId : string)
| RRequestVerification (userId : string)
| RVerifyEmail (token : string)
| RForgotPassword (email : string)
| RResetPassword (token newPassword : string).

Definition ignore {S E A} (m : prog S E A) : prog S E unit := _ <- m ;; Ret tt.

Definition serve {tz : TimeZone} (config : AuthConfig) (r : AuthRequest) : prog unit AuthE unit :=
  match r with
  | RRegister email password fullName => ignore (register config email password fullName)
  | RLogin email password => ignore (login config email password)
  | RRefresh token => ignore (refresh config token)
  | RLogout token => logout token
  | RResendVerification userId => ignore (resendVerification config userId)
  | RRequestVerification userId => ignore (requestEmailVerification config userId)
  | RVerifyEmail token => ignore (verifyEmail token)
  | RForgotPassword email => ignore (requestPasswordReset config email)
  | RResetPassword token newPassword => ignore (resetPassword token newPassword)
  end.

(** A history of requests, served one after the other. *)
Definition serve_all {tz : TimeZone} {W} (h : forall X, AuthE X -> W -> result X * W)
    (config : AuthConfig) (rs : list AuthRequest) (w : W) : W :=
  foldl (fun w r => final h (serve config r) tt w) w rs.

Lemma wp_ignore {S E V A} (spec : forall X, E X -> V -> result X -> V -> Prop) (m : prog S E A) (R : V -> Prop) s v :
  wp spec m (fun _ _ v' => R v') s v -> wp spec (ignore m) (fun _ _ v' => R v') s v.
Proof. intros H. apply wp_bind. eapply wp_mono; [exact H|]. by intros [a|e]. Qed.

Lemma serve_keeps {bc : Bcrypt} {tz : TimeZone} md config r v :
  auth_wf v -> wp (obeys md auth_behaviour) (serve config r) (fun _ _ v' => auth_keeps v v') tt v.
Proof.
  intros Hwf. pose proof (auth_keeps_refl v Hwf) as Hr.
  assert (forall v', only_signed v v' -> auth_keeps v v') as Hs by (intros v' [l ->]; by apply keeps_signed).
  destruct r; cbn [serve]; try apply wp_ignore.
  - by apply register_wp.
  - apply login_wp; auto. intros u r v' _ _ _ Ho. by eapply session_keeps.
  - by apply refresh_wp.
  - by apply logout_wp.
  - apply sendVerification_wp; [done..| |done]. intros u Hu. destruct (u_emailVerified u); [done|].
    by apply (verification_wp md config userId _ _ _ u).
  - apply sendVerification_wp; [done..| |done]. intros u Hu.
    by apply (verification_wp md config userId _ _ _ u).
  - by apply verifyEmail_wp.
  - by apply requestPasswordReset_wp.
  - by apply resetPassword_wp.
Qed.

(** ** Properties *)

Section Properties.
Context {bc : Bcrypt} {tz : TimeZone} {S W : Type}.
Variable h : forall X, AuthE X -> W -> result X * W.
Variable view : W -> AuthView.
Variable md : mode.
Hypothesis Hh : conforms md auth_behaviour h view.
Variable config : AuthConfig.

(** A history keeps what each request keeps. *)
Lemma serve_all_keeps rs w :
  auth_wf (view w) -> auth_keeps (view w) (view (serve_all h config rs w)).
Proof.
  unfold serve_all. revert w. induction rs as [|r rs IH]; intros w Hwf; cbn; [by apply auth_keeps_refl|].
  assert (auth_keeps (view w) (view (final h (serve config r) tt w))) as Hk.
  { call_wp Hh w. by apply serve_keeps. }
  eapply auth_keeps_trans; [exact Hk|]. apply IH, Hk.
Qed.


(** Registration and login agree: after a registration that succeeded, the
    same email and password log in as that user, who has the role USER and an
    unverified email; only a failing operation can prevent it. *)
Theorem register_then_login email password fullName s s' w pu :
  auth_wf (view w) ->
  let w1 := final h (register (S := S) config email password fullName) s w in
  outcome h (register (S := S) config email password fullName) s w = Ok pu ->
  pu_email pu = email /\ pu_role pu = UserRole.USER /\ pu_emailVerified pu = false /\
  users (view w) !! pu_id pu = None /\
  match outcome h (login (S := S) config email password) s' w1 with
  | Ok (lu, _) => lu = mkLoginUser (pu_id pu) email UserRole.USER fullName false
  | Err _ => md = Faulty
  end.
Proof.
  intros Hwf w1 Ho.
  assert (auth_wf (view w1) /\ users (view w) !! pu_id pu = None /\ exists u g,
    pu = userWithoutPassword u /\ users (view w1) !! u_id u = Some g /\
    u_email u = email /\ u_role u = UserRole.USER /\ u_emailVerified u = false /\
    login_user g = mkLoginUser (u_id u) email UserRole.USER fullName false /\ u_email g = email /\
    bcrypt_compare password (u_passwordHash g) = true)
    as (Hwf1 & Hf & u & g & -> & Hg & He & Hr & Hv & Hlg & Heg & Hc).
  { revert Ho. unfold w1. call_wp Hh w. apply register_wp; [done|done| |done|done].
    intros u v1 v' Hn Hf Hu Hc -> Hk1 Hk (token & now & ->) [= <-]. cbn [users with_users].
    split; [apply Hk|]. split; [done|].
    exists u, (set_u_verification (hashToken token) (UTC (LocalTime now + 24 * 3600000)) u).
    assert (u_email u = email /\ u_role u = UserRole.USER /\ u_fullName u = fullName /\
      u_emailVerified u = false) as (He & Hr & Hfn & Hv) by (by rewrite Hu).
    rewrite lookup_alter_eq, lookup_insert_eq. unfold login_user. cbn. rewrite He, Hr, Hfn, Hv.
    by split_and!. }
  split_and!; [done..|]. call_wp Hh w1. apply login_wp; [done|..|done].
  - intros u' r v' Hi He' _ _.
    assert (u_id u' = u_id u) as Hid by (eapply (wf_emails _ Hwf1); [exact Hi|exact Hg|congruence]).
    rewrite Hid, Hg in Hi. injection Hi as <-. done.
  - intros Hn. by rewrite (Hn _ _ Hg Heg) in Hc.
Qed.

(** C23: A password reset works and ends every session: after it succeeded, the
    new password logs the user in, and no refresh token the user had is live. *)
Theorem reset_then_login token newPassword s s' w m :
  auth_wf (view w) ->
  let w1 := final h (resetPassword (S := S) token newPassword) s w in
  outcome h (resetPassword (S := S) token newPassword) s w = Ok m ->
  exists u, users (view w) !! u_id u = Some u /\ u_passwordResetToken u = Some (hashToken token) /\
    (forall i t, tokens (view w1) !! i = Some t -> t_userId t = u_id u -> t_revokedAt t <> None) /\
    (forall i t, tokens (view w) !! i = Some t -> t_userId t <> u_id u -> tokens (view w1) !! i = Some t) /\
    match outcome h (login (S := S) config (u_email u) newPassword) s' w1 with
    | Ok (lu, _) => lu = login_user u
    | Err _ => md = Faulty
    end.
Proof.
  intros Hwf w1 Ho.
  assert (auth_wf (view w1) /\ exists u hash now, users (view w) !! u_id u = Some u /\
    u_passwordResetToken u = Some (hashToken token) /\ bcrypt_compare newPassword hash = true /\
    users (view w1) !! u_id u = Some (set_u_password hash u) /\
    tokens (view w1) = sessions_revoked (u_id u) now (view w))
    as (Hwf1 & u & hash & now & Hi & Ht & Hc & Hu1 & Ht1).
  { revert Ho. unfold w1. call_wp Hh w. apply resetPassword_wp; [done| |done..].
    intros u t0 hash now v1 v' Hi Ht _ Hc -> -> Hk _. split; [apply Hk|].
    exists u, hash, now. split_and!; [done..| |done]. cbn. by rewrite lookup_alter_eq, Hi. }
  exists u. split_and!; [done|done|..].
  - intros i t. rewrite Ht1. apply sessions_revoked_dead.
  - intros i t Hit Hne. rewrite Ht1. unfold sessions_revoked. rewrite update_where_lookup, Hit. cbn.
    unfold live_of_user. by destruct (String.eqb_spec (t_userId t) (u_id u)).
  - call_wp Hh w1. apply login_wp; [done|..|done].
    + intros u' r v' Hi' He' _ _.
      assert (u_id u' = u_id u) as Hid by (eapply (wf_emails _ Hwf1); [exact Hi'|exact Hu1|done]).
      rewrite Hid, Hu1 in Hi'. injection Hi' as <-. done.
    + intros Hn. pose proof (Hn _ _ Hu1 eq_refl) as Hfalse. cbn in Hfalse. congruence.
Qed.

(** An interrupted reset keeps the old state or has set the password without
    ending the sessions; a refused one changes nothing. *)
Theorem resetPassword_errors token newPassword s w e :
  auth_wf (view w) ->
  let v := view w in
  let v' := view (final h (resetPassword (S := S) token newPassword) s w) in
  outcome h (resetPassword (S := S) token newPassword) s w = Err e ->
  (v' = v /\ (e = UnauthorizedException "Invalid or expired token" \/ md = Faulty)) \/
  (md = Faulty /\ tokens v' = tokens v /\
   exists u hash, users v !! u_id u = Some u /\ u_passwordResetToken u = Some (hashToken token) /\
     bcrypt_compare newPassword hash = true /\ users v' = alter (set_u_password hash) (u_id u) (users v)).
Proof.
  intros Hwf. cbn zeta. call_wp Hh w. apply resetPassword_wp; [done|done|..].
  - intros _ [= <-]. left. split; [done|by left].
  - intros e' Hmd _. left. split; [done|by right].
  - intros e' u hash v' Hmd Hi Ht Hc -> _ _. right. split_and!; [done|done|]. by exists u, hash.
Qed.

(** C11: Nobody gains a role through this service: after any history of requests,
    whatever failed, every user has the email and role of before, users who
    were added have the role USER, and revoked refresh tokens stay revoked. *)
Theorem no_privilege_escalation rs w :
  auth_wf (view w) ->
  let v := view w in
  let v' := view (serve_all h config rs w) in
  (forall i u, users v !! i = Some u ->
     exists u', users v' !! i = Some u' /\ u_email u' = u_email u /\ u_role u' = u_role u) /\
  (forall i u', users v' !! i = Some u' -> users v !! i = None -> u_role u' = UserRole.USER) /\
  (forall i t, tokens v !! i = Some t -> t_revokedAt t <> None ->
     exists t', tokens v' !! i = Some t' /\ t_userId t' = t_userId t /\ t_revokedAt t' <> None).
Proof.
  intros Hwf v v'. destruct (serve_all_keeps rs w Hwf) as [_ Hu Hn Ht]. split_and!; [done..|].
  intros i t (t' & Hi & ? & _ & _ & Hr)%Ht Hrev. eauto.
Qed.

(** Refreshing never works: in every state the service can reach, [refresh]
    refuses every token, those returned by [login] included, and changes
    nothing.  It looks up a salted bcrypt hash among SHA-256 digests. *)
Theorem refresh_never_succeeds rs token s w :
  auth_wf (view w) ->
  let w1 := serve_all h config rs w in
  view (final h (refresh (S := S) config token) s w1) = view w1 /\
  match outcome h (refresh (S := S) config token) s w1 with
  | Ok _ => False
  | Err e => e = UnauthorizedException "Invalid refresh token" \/ md = Faulty
  end.
Proof.
  intros Hwf w1. assert (auth_wf (view w1)) as Hwf1 by (by apply serve_all_keeps).
  call_wp Hh w1. apply refresh_wp; [done|..].
  - split; [done|by left].
  - intros e Hmd. split; [done|by right].
Qed.
End Properties.

(** ** Lifetime of a session *)

Lemma plus_days_text date digits :
  (0 <= date)%Z ->
  plus_days date (DaysText digits) =
  (date * 10 ^ Z.of_nat (length digits) + Z.of_N (eval_digits 10 digits))%Z.
Proof.
  intros Hd. cbn. unfold eval_digits at 1. rewrite foldl_app, foldl_digits_shift.
  change (foldl _ 0%N (radix 10 (Z.to_N date))) with (eval_digits 10 (radix 10 (Z.to_N date))).
  rewrite radix_eval by lia. rewrite N2Z.inj_add, N2Z.inj_mul, N2Z.inj_pow, Z2N.id by lia.
  f_equal. f_equal. f_equal. lia.
Qed.

(** Days of the month are positive. *)
Lemma civil_day days : (1 <= (civil days).2 <= 31)%Z.
Proof.
  unfold civil. cbn [snd].
  set (doe := ((days + 719468) mod 146097)%Z).
  set (yoe := ((doe - doe / 1460 + doe / 36524 - doe / 146096) / 365)%Z).
  set (doy := (doe - (365 * yoe + yoe / 4 - yoe / 100))%Z).
  pose proof (Z.div_mod (5 * doy + 2) 153 ltac:(lia)) as Hm.
  pose proof (Z.mod_pos_bound (5 * doy + 2) 153 ltac:(lia)) as Hb.
  set (mp := ((5 * doy + 2) / 153)%Z) in *.
  pose proof (Z.div_mod (153 * mp + 2) 5 ltac:(lia)) as Hm'.
  pose proof (Z.mod_pos_bound (153 * mp + 2) 5 ltac:(lia)) as Hb'.
  set (q := ((153 * mp + 2) / 5)%Z) in *. lia.
Qed.

Section Sessions.
Context {bc : Bcrypt} {S W : Type}.
Variable h : forall X, AuthE X -> W -> result X * W.
Variable view : W -> AuthView.
Variable md : mode.
Hypothesis Hh : conforms md auth_behaviour h view.
Variable config : AuthConfig.

(** The days a session lasts: the configured number, or what the concatenation
    of the day of the month and the configured text makes of it. *)
Definition session_days (date : Z) (days : ExpiryDays) : Z :=
  match days with
  | DaysNumber n => n
  | DaysText digits =>
      (date * (10 ^ Z.of_nat (length digits) - 1) + Z.of_N (eval_digits 10 digits))%Z
  end.

Lemma session_days_plus date days :
  (0 <= date)%Z -> (plus_days date days - date = session_days date days)%Z.
Proof.
  intros Hd. destruct days as [n|digits]; [cbn; lia|]. rewrite plus_days_text by done.
  unfold session_days. lia.
Qed.

(** How long a session lasts, in a time zone with a fixed offset: the default
    is exactly one day, but a text from the environment is appended to the day
    of the month, so "30" gives between 129 and 3099 days instead of 30. *)
Theorem session_lifetime offset email password s w lu r :
  auth_wf (view w) ->
  outcome h (login (tz := fixed_zone offset) (S := S) config email password) s w = Ok (lu, r) ->
  exists id t now date,
    tokens (view (final h (login (tz := fixed_zone offset) (S := S) config email password) s w)) !! id = Some t /\
    t_tokenHash t = hashToken (refreshToken r) /\ t_userId t = lu_id lu /\ (1 <= date <= 31)%Z /\
    (t_expiresAt t - now = session_days date (refreshTokenExpiryDays config) * 86400000)%Z /\
    (refreshTokenExpiryDays config = DaysText [3; 0]%N ->
       129 * 86400000 <= t_expiresAt t - now <= 3099 * 86400000)%Z.
Proof.
  intros Hwf. call_wp Hh w. apply login_wp; [done|..|done|done].
  intros u r' v' Hi He _ (id & now & Hf & ->) [= <- <-]. cbn [tokens].
  set (date := (civil ((now + offset) / 86400000)).2).
  pose proof (civil_day ((now + offset) / 86400000)) as Hdate. fold date in Hdate.
  pose proof (session_days_plus date (refreshTokenExpiryDays config) ltac:(lia)) as Hdays.
  exists id, (token_of id (mkTokenData (u_id u) (hashToken (refreshToken r'))
    (setDate (tz := fixed_zone offset) (plus_days (getDate (tz := fixed_zone offset) now)
      (refreshTokenExpiryDays config)) now))), now, date.
  rewrite lookup_insert_eq. cbn [t_tokenHash t_userId t_expiresAt token_of td_tokenHash td_userId td_expiresAt
    lu_id login_user].
  assert (setDate (tz := fixed_zone offset) (plus_days (getDate (tz := fixed_zone offset) now)
      (refreshTokenExpiryDays config)) now =
    now + session_days date (refreshTokenExpiryDays config) * 86400000)%Z as ->.
  { unfold setDate, getDate. cbn [LocalTime UTC fixed_zone]. fold date. lia. }
  split_and!; [done|done|done|lia|lia|lia|].
  intros ->. cbn [session_days length]. change (Z.of_N (eval_digits 10 [3; 0]%N)) with 30%Z.
  change (10 ^ Z.of_nat 2)%Z with 100%Z. lia.
Qed.

Context {tz : TimeZone}.

(** A session that was opened can be closed: logging out with the refresh
    token of a login leaves no live token with its digest, provided the random
    token was new; the other tokens are not touched. *)
Theorem login_then_logout email password s s' w lu r :
  auth_wf (view w) ->
  (forall i t, tokens (view w) !! i = Some t -> t_tokenHash t <> hashToken (refreshToken r)) ->
  let w1 := final h (login (S := S) config email password) s w in
  let w2 := final h (logout (S := S) (refreshToken r)) s' w1 in
  outcome h (login (S := S) config email password) s w = Ok (lu, r) ->
  (exists i t, tokens (view w1) !! i = Some t /\ live_token (hashToken (refreshToken r)) t = true) /\
  match outcome h (logout (S := S) (refreshToken r)) s' w1 with
  | Ok _ =>
      (forall i t, tokens (view w2) !! i = Some t -> live_token (hashToken (refreshToken r)) t = false) /\
      (forall i t, tokens (view w) !! i = Some t -> tokens (view w2) !! i = Some t)
  | Err _ => md = Faulty
  end.
Proof.
  intros Hwf Hnew w1 w2 Ho.
  assert (auth_wf (view w1) /\ exists t, tokens (view w) !! t_id t = None /\
    live_token (hashToken (refreshToken r)) t = true /\
    tokens (view w1) = <[t_id t := t]> (tokens (view w))) as (Hwf1 & t & Hf & Hl & Ht1).
  { revert Ho. unfold w1. call_wp Hh w. apply login_wp; [done|..|done|done].
    intros u r' v' Hi He _ Hs [= <- ->]. split; [by eapply keeps_wf, session_keeps|].
    destruct Hs as (id & now & Hf & ->). eexists (token_of id _). split; [exact Hf|]. split; [|done].
    unfold live_token. cbn. by rewrite String.eqb_refl. }
  split. { exists (t_id t), t. by rewrite Ht1, lookup_insert_eq. }
  unfold w2. call_wp Hh w1. apply logout_wp; [done|..|done].
  - intros t' now v' Hi' Hl' -> _. cbn [tokens with_tokens].
    assert (t' = t) as ->.
    { rewrite Ht1 in Hi'. apply lookup_insert_Some in Hi' as [[_ <-]|[_ Hi']]; [done|]. exfalso.
      apply (Hnew _ _ Hi'). unfold live_token in Hl'. by apply andb_true_iff in Hl' as [?%String.eqb_eq _]. }
    rewrite Ht1, insert_insert_eq. split.
    + intros i t' [[_ <-]|[_ Hi]]%lookup_insert_Some; [apply andb_false_r|].
      unfold live_token. apply andb_false_iff. left. apply String.eqb_neq. by eapply Hnew.
    + intros i t' Hi. rewrite lookup_insert_ne; [done|congruence].
  - intros Hn. exfalso. specialize (Hn (t_id t) t). rewrite Ht1, lookup_insert_eq, Hl in Hn.
    by specialize (Hn eq_refl).
Qed.

(** A verification link works once: after it verified an email, the same
    token is refused and changes nothing, if no two users wait for it. *)
Theorem verifyEmail_once token s s' w m :
  auth_wf (view w) ->
  (forall i j u u', users (view w) !! i = Some u -> users (view w) !! j = Some u' ->
     u_emailVerificationToken u = Some (hashToken token) ->
     u_emailVerificationToken u' = Some (hashToken token) -> i = j) ->
  let w1 := final h (verifyEmail (S := S) token) s w in
  outcome h (verifyEmail (S := S) token) s w = Ok m ->
  (exists u, users (view w) !! u_id u = Some u /\ u_emailVerificationToken u = Some (hashToken token) /\
     users (view w1) = <[u_id u := set_u_verified u]> (users (view w))) /\
  view (final h (verifyEmail (S := S) token) s' w1) = view w1 /\
  match outcome h (verifyEmail (S := S) token) s' w1 with
  | Ok _ => False
  | Err e => e = UnauthorizedException "Invalid or expired token" \/ md = Faulty
  end.
Proof.
  intros Hwf Huniq w1 Ho.
  assert (auth_wf (view w1) /\ exists u, users (view w) !! u_id u = Some u /\
    u_emailVerificationToken u = Some (hashToken token) /\
    users (view w1) = <[u_id u := set_u_verified u]> (users (view w))) as (Hwf1 & u & Hi & Ht & Hu1).
  { revert Ho. unfold w1. call_wp Hh w. apply verifyEmail_wp; [done| |done..].
    intros u now v' Hi Ht _ -> Hk _. split; [apply Hk|]. exists u. split_and!; [done..|].
    cbn [users with_users]. apply map_eq. intros i. destruct (decide (u_id u = i)) as [<-|Hne].
    - by rewrite lookup_alter_eq, Hi, lookup_insert_eq.
    - by rewrite lookup_alter_ne, lookup_insert_ne. }
  split; [by exists u|].
  assert (forall i u', users (view w1) !! i = Some u' -> u_emailVerificationToken u' <> Some (hashToken token)) as Hno.
  { intros i u'. rewrite Hu1. intros [[_ <-]|[Hne Hi']]%lookup_insert_Some; [done|].
    intros Ht'. apply Hne. by eapply Huniq. }
  call_wp Hh w1. apply verifyEmail_wp; [done|..].
  - intros u' now v' Hi' Ht'. by destruct (Hno _ _ Hi').
  - intros _. split; [done|by left].
  - intros e Hmd. split; [done|by right].
Qed.

(** [requestPasswordReset] means not to say whether an email is registered,
    but its two messages differ by a typing error, so the answer tells. *)
Theorem forgot_password_discloses email s w m :
  auth_wf (view w) ->
  outcome h (requestPasswordReset (S := S) config email) s w = Ok m ->
  email_taken email (users (view w)) <-> m = "If the email exists, a reset link has been sent"%string.
Proof.
  intros Hwf. call_wp Hh w. apply requestPasswordReset_wp; [done|..].
  - intros Hn [= <-]. by split.
  - intros u v' Hi He _ _ [= <-]. split; [done|]. intros _. by exists (u_id u), u.
  - done.
Qed.
End Sessions.

(** ** Concrete runs *)

Abbreviation demo_auth_run := auth_run.

(** The configuration of docker-compose.yaml. *)
Definition compose_config : AuthConfig := mkAuthConfig (DaysText [3; 0]%N) "http://localhost:8080" "15m".


Lemma register_then_login_witness :
  exists lu r, outcome auth_run (login default_config "b@x.io" "S3cret!pw") tt
    (final auth_run (register default_config "b@x.io" "S3cret!pw" "Bob") tt demo_world) = Ok (lu, r) /\
  lu_fullName lu = "Bob"%string.
Proof.
  epose proof (register_then_login (S := unit) auth_run auth_view Reliable auth_run_conforms default_config
    "b@x.io" "S3cret!pw" "Bob" tt tt demo_world _ demo_auth_wf ltac:(vm_compute; reflexivity)) as H.
  destruct H as (_ & _ & _ & _ & H). destruct (outcome auth_run (login _ _ _) _ _) as [[lu r]|]; [|done].
  exists lu, r. by subst.
Defined.

(** The user of the seed data with a reset under way and a session. *)
Definition resetting : AuthView :=
  mkAuthView {["u1" := set_u_reset (hashToken "tok") (demo_now + 60000) demo_user]}
    {["t1" := mkRefreshToken "t1" "u1" (hashToken "old") None (demo_now + 60000) None]} [] [].

Lemma resetting_wf : auth_wf resetting.
Proof.
  split; cbn [users tokens resetting].
  - by intros i u [<- <-]%lookup_singleton_Some.
  - by intros i t [<- <-]%lookup_singleton_Some.
  - by intros i j u u' [<- _]%lookup_singleton_Some [<- _]%lookup_singleton_Some.
  - intros i t [_ <-]%lookup_singleton_Some. apply hashToken_length.
Qed.

Lemma reset_then_login_witness :
  exists lu r, outcome auth_run (login default_config "a@x.io" "N3w!pass") tt
    (final auth_run (resetPassword "tok" "N3w!pass") tt (resetting, demo_now, 0%N)) = Ok (lu, r).
Proof.
  epose proof (reset_then_login (S := unit) auth_run auth_view Reliable auth_run_conforms default_config
    "tok" "N3w!pass" tt tt (resetting, demo_now, 0%N) _ resetting_wf ltac:(vm_compute; reflexivity)) as H.
  destruct H as (u & Hu & _ & _ & _ & H). cbn in Hu. apply lookup_singleton_Some in Hu as [_ <-].
  cbn [u_email set_u_reset demo_user] in H.
  destruct (outcome auth_run (login _ _ _) _ _) as [[lu r]|]; [by exists lu, r|done].
Defined.

Lemma session_lifetime_witness :
  exists id t now, tokens (auth_view (final auth_run
      (login (tz := fixed_zone 0) compose_config "a@x.io" "Password123!") tt demo_world)) !! id = Some t /\
    (129 * 86400000 <= t_expiresAt t - now)%Z.
Proof.
  epose proof (session_lifetime (S := unit) auth_run auth_view Reliable auth_run_conforms compose_config 0
    "a@x.io" "Password123!" tt demo_world _ _ demo_auth_wf ltac:(vm_compute; reflexivity)) as H.
  destruct H as (id & t & now & date & Ht & _ & _ & _ & _ & Hb). exists id, t, now.
  split; [exact Ht|]. apply (Hb eq_refl).
Defined.

Lemma login_then_logout_witness :
  is_ok (outcome auth_run (logout "uuid-0") tt
    (final auth_run (login default_config "a@x.io" "Password123!") tt demo_world)) = true.
Proof.
  epose proof (login_then_logout (S := unit) auth_run auth_view Reliable auth_run_conforms default_config
    "a@x.io" "Password123!" tt tt demo_world _ (mkTokens "jwt-0" "uuid-0") demo_auth_wf) as H.
  destruct H as [_ H].
  - intros i t Hi. cbn in Hi. by rewrite lookup_empty in Hi.
  - vm_compute. reflexivity.
  - cbn [refreshToken] in H. by destruct (outcome auth_run (logout _) _ _).
Defined.

(** The user of the seed data after a verification link was sent. *)
Definition verifying : AuthView :=
  with_users {["u1" := set_u_verification (hashToken "tok") (demo_now + 60000) demo_user]} empty_auth.

Lemma verifying_wf : auth_wf verifying.
Proof.
  split; cbn [users tokens verifying with_users].
  - by intros i u [<- <-]%lookup_singleton_Some.
  - apply keyed_empty.
  - by intros i j u u' [<- _]%lookup_singleton_Some [<- _]%lookup_singleton_Some.
  - intros i t Hi. cbn in Hi. by rewrite lookup_empty in Hi.
Qed.

Lemma verifyEmail_once_witness :
  is_ok (outcome auth_run (verifyEmail "tok") tt
    (final auth_run (verifyEmail "tok") tt (verifying, demo_now, 0%N))) = false.
Proof.
  epose proof (verifyEmail_once (S := unit) auth_run auth_view Reliable auth_run_conforms
    "tok" tt tt (verifying, demo_now, 0%N) _ verifying_wf) as H.
  destruct H as (_ & _ & H).
  - cbn. by intros i j u u' [<- _]%lookup_singleton_Some [<- _]%lookup_singleton_Some.
  - vm_compute. reflexivity.
  - by destruct (outcome auth_run (verifyEmail _) _ _).
Defined.

Lemma forgot_password_discloses_witness :
  email_taken "a@x.io" (users demo_auth) /\ ~ email_taken "b@x.io" (users demo_auth).
Proof.
  split.
  - by apply (forgot_password_discloses (S := unit) auth_run auth_view Reliable auth_run_conforms default_config
      "a@x.io" tt demo_world _ demo_auth_wf ltac:(vm_compute; reflexivity)).
  - intros Ht. apply (forgot_password_discloses (S := unit) auth_run auth_view Reliable auth_run_conforms
      default_config "b@x.io" tt demo_world "If themail exists, a reset link has been sent" demo_auth_wf
      ltac:(vm_compute; reflexivity)) in Ht. discriminate Ht.
Defined.

(** A history of the seed data's user and another one. *)
Definition demo_history : list AuthRequest :=
  [RRegister "b@x.io" "S3cret!pw" "Bob"; RLogin "a@x.io" "Password123!"; RLogout "uuid-1"; RForgotPassword "a@x.io"].

Lemma no_privilege_escalation_witness :
  exists u', users (auth_view (serve_all auth_run default_config demo_history demo_world)) !! "u1"%string = Some u' /\
    u_role u' = UserRole.USER.
Proof.
  pose proof (no_privilege_escalation auth_run auth_view Reliable auth_run_conforms default_config
    demo_history demo_world demo_auth_wf) as H. cbv zeta in H. destruct H as [H _].
  assert (users (auth_view demo_world) !! "u1"%string = Some demo_user) as Hu by apply lookup_singleton_eq.
  apply H in Hu as (u' & Hu & _ & Hr). exists u'. split; [exact Hu|exact Hr].
Defined.

Lemma refresh_never_succeeds_witness :
  outcome auth_run (refresh default_config "uuid-0") tt
    (serve_all auth_run default_config [RLogin "a@x.io" "Password123!"] demo_world) =
  Err (UnauthorizedException "Invalid refresh token").
Proof.
  pose proof (refresh_never_succeeds (S := unit) auth_run auth_view Reliable auth_run_conforms default_config
    [RLogin "a@x.io" "Password123!"] "uuid-0" tt demo_world demo_auth_wf) as H. cbv zeta in H. destruct H as [_ H].
  destruct (outcome auth_run (refresh _ _) _ _) as [r|e]; [done|]. by destruct H as [->|[=]].
Defined.

Lemma resetPassword_errors_witness :
  exists e, outcome auth_run (resetPassword "bad" "N3w!pass") tt demo_world = Err e /\
    auth_view (final auth_run (resetPassword "bad" "N3w!pass") tt demo_world) = demo_auth.
Proof.
  eexists. split; [vm_compute; reflexivity|].
  destruct (resetPassword_errors (S := unit) auth_run auth_view Reliable auth_run_conforms
    "bad" "N3w!pass" tt demo_world _ demo_auth_wf ltac:(vm_compute; reflexivity)) as [[H _]|[[=] _]].
  exact H.
Defined.
