(* ===== verification/AuthApi.v ===== *)
(** * AuthController and its DTOs

    apps/auth-service/src/auth/auth.controller.ts behind the global
    [ValidationPipe] of main.ts: a body that violates its DTO is answered 400
    before the handler runs.  [isEmail] is class-validator's email check, a
    parameter.  Lengths are those of the ASCII strings the password pattern
    admits. *)

From S2P Require Import Prelude Effects JsNumber JsDate Json Sql Sha256 AuthWorld AuthRef UserService AuthService.
From Stdlib Require Import Ascii.

(** ** Validation *)

(** The character classes of the password pattern. *)
Definition char_in (lo hi : N) (c : ascii) : bool :=
  N.leb lo (N_of_ascii c) && N.leb (N_of_ascii c) hi.
Definition lower (c : ascii) : bool := char_in 97 122 c.
Definition upper (c : ascii) : bool := char_in 65 90 c.
Definition digit (c : ascii) : bool := char_in 48 57 c.
Definition special (c : ascii) : bool := existsb (Ascii.eqb c) (String.list_ascii_of_string "@$!%*?&.#").

(** [/^(?=.*[a-z])(?=.*[A-Z])(?=.*\d)(?=.*[@$!%*?&.#])[A-Za-z\d@$!%*?&.#]{8,}$/] *)
Definition password_pattern (s : string) : bool :=
  let cs := String.list_ascii_of_string s in
  existsb lower cs && existsb upper cs && existsb digit cs && existsb special cs &&
  Nat.leb 8 (length cs) &&
  forallb (fun c => lower c || upper c || digit c || special c) cs.

Definition MinLength (n : nat) (s : string) : bool := Nat.leb n (String.length s).
Definition MaxLength (n : nat) (s : string) : bool := Nat.leb (String.length s) n.

Record LoginDto := mkLoginDto { ld_email : string; ld_password : string }.
Record ResetPasswordDto := mkResetPasswordDto { rp_token : string; rp_newPassword : string }.

Definition ValidationError : exn := BadRequestException "Bad Request Exception".

Section Dtos.
Variable isEmail : string -> bool.

Definition valid_CreateUserDto (dto : CreateUserDto) : bool :=
  isEmail (cu_email dto) && (MinLength 8 (cu_password dto) && password_pattern (cu_password dto)).
Definition valid_LoginDto (dto : LoginDto) : bool :=
  isEmail (ld_email dto) && (MinLength 8 (ld_password dto) && MaxLength 32 (ld_password dto)).
Definition valid_ResetPasswordDto (dto : ResetPasswordDto) : bool :=
  MinLength 8 (rp_newPassword dto) && password_pattern (rp_newPassword dto).

(** The pipe in front of a handler. *)
Definition validated {S A} (valid : bool) (handler : prog S AuthE A) : prog S AuthE A :=
  if valid then handler else Throw ValidationError.

End Dtos.

Module Http.
Section Handlers.
Context {tz : TimeZone} {S : Type}.
Variable isEmail : string -> bool.
Variable config : AuthConfig.

Definition register (dto : CreateUserDto) : prog S AuthE PublicUser :=
  validated (valid_CreateUserDto isEmail dto)
    (AuthService.register config (cu_email dto) (cu_password dto) (cu_fullName dto)).

Definition login (dto : LoginDto) : prog S AuthE (LoginUser * Tokens) :=
  validated (valid_LoginDto isEmail dto) (AuthService.login config (ld_email dto) (ld_password dto)).

(** RefreshTokenDto only asks for a string. *)
Definition refresh (refreshToken : string) : prog S AuthE Tokens := AuthService.refresh config refreshToken.
Definition logout (refreshToken : string) : prog S AuthE unit := AuthService.logout refreshToken.

(** A missing query parameter reaches [createHash().update]. *)
Definition verifyEmail (token : option string) : prog S AuthE string :=
  match token with
  | Some token => AuthService.verifyEmail token
  | None => Throw (TypeError ("The " +:+ quoted "data"
      " argument must be of type string or an instance of Buffer, TypedArray, or DataView. Received undefined"))
  end.

Definition forgotPassword (email : string) : prog S AuthE string :=
  validated (isEmail email) (requestPasswordReset config email).

Definition resetPassword (dto : ResetPasswordDto) : prog S AuthE string :=
  validated (valid_ResetPasswordDto dto) (AuthService.resetPassword (rp_token dto) (rp_newPassword dto)).
End Handlers.
End Http.

(** ** Properties *)

Section Properties.
Context {bc : Bcrypt} {tz : TimeZone} {S W : Type}.
Variable isEmail : string -> bool.
Variable h : forall X, AuthE X -> W -> result X * W.
Variable view : W -> AuthView.
Variable md : mode.
Hypothesis Hh : conforms md auth_behaviour h view.
Variable config : AuthConfig.

Lemma pattern_length s : password_pattern s = true -> (8 <= String.length s)%nat.
Proof.
  unfold password_pattern. intros H. apply andb_true_iff in H as [H _].
  apply andb_true_iff in H as [_ H%Nat.leb_le].
  assert (forall s, length (String.list_ascii_of_string s) = String.length s) as Hl.
  { clear. induction s as [|c s IH]; cbn; auto. }
  by rewrite <- Hl.
Qed.

(** Whom the API registers it lets in, up to a length of 32: after a
    registration over HTTP that succeeded, a login over HTTP with the same
    email and password is rejected by the validation when the password is
    longer, and otherwise succeeds unless an operation fails.  The DTO of the
    registration has no upper bound. *)
Theorem registered_logs_in_iff_short dto s s' w pu :
  auth_wf (view w) ->
  let w1 := final h (Http.register (S := S) isEmail config dto) s w in
  let body := mkLoginDto (cu_email dto) (cu_password dto) in
  outcome h (Http.register (S := S) isEmail config dto) s w = Ok pu ->
  if Nat.ltb 32 (String.length (cu_password dto)) then
    outcome h (Http.login (S := S) isEmail config body) s' w1 = Err ValidationError
  else
    match outcome h (Http.login (S := S) isEmail config body) s' w1 with
    | Ok (lu, _) => lu_id lu = pu_id pu
    | Err _ => md = Faulty
    end.
Proof.
  intros Hwf w1 body Ho. unfold Http.register, validated in w1, Ho. unfold Http.login, validated, body, valid_LoginDto.
  cbn [ld_email ld_password]. destruct (valid_CreateUserDto isEmail dto) eqn:Hv; [|done].
  unfold valid_CreateUserDto in Hv. apply andb_true_iff in Hv as [-> Hv].
  apply andb_true_iff in Hv as [-> _]. cbn [andb]. unfold MaxLength.
  destruct (Nat.ltb_spec 32 (String.length (cu_password dto))) as [Hlt|Hle].
  { rewrite (proj2 (Nat.leb_gt _ _)) by lia. done. }
  rewrite (proj2 (Nat.leb_le _ _)) by lia.
  destruct (register_then_login h view md Hh config _ _ _ s s' w pu Hwf Ho) as (_ & _ & _ & _ & H).
  unfold w1. destruct (outcome h _ s' _) as [[lu r]|e]; [by rewrite H|done].
Qed.
End Properties.

(** ** Concrete runs *)

Definition any_email (s : string) : bool := negb (String.eqb s "").

Definition long_password : string := "Aa1!aaaaaaaaaaaaaaaaaaaaaaaaaaaaaa".
Definition long_dto : CreateUserDto := mkCreateUserDto "b@x.io" long_password "Bob" None.

Lemma registered_logs_in_iff_short_witness :
  outcome auth_run (Http.login any_email default_config (mkLoginDto "b@x.io" long_password)) tt
    (final auth_run (Http.register any_email default_config long_dto) tt demo_world) = Err ValidationError.
Proof.
  epose proof (registered_logs_in_iff_short (S := unit) any_email auth_run auth_view Reliable auth_run_conforms
    default_config long_dto tt tt demo_world _ demo_auth_wf ltac:(vm_compute; reflexivity)) as H.
  exact H.
Defined.
