(* ===== verification/AuthGuard.v ===== *)
(** * The guards of every HTTP service

    libs/auth-guard/src: [JwtAuthGuard], which the services install globally,
    [RolesGuard] and the [CurrentUser] decorator; with them the JwtStrategy of
    apps/auth-service.  [jsonwebtoken] is third-party code: [jwt_verify token
    secret] is the outcome of [jwt.verify] at the time of the request.  The
    metadata that [Public] and [Roles] attach to a route are arguments. *)

From S2P Require Import Prelude Effects JsNumber JsDate Json Sql Sha256 AuthWorld AuthRef UserService AuthService.
From Stdlib Require Import Ascii.

(** ** Requests *)

(** The parts of an Express request that are read; the names of headers are in
    lower case, as Node delivers them. *)
Record Request := mkRequest {
  rq_method : string;
  rq_originalUrl : string;
  rq_ip : option string;
  rq_headers : gmap string string;
  rq_body : string;
  rq_user : option json;
}.

Definition set_user (user : json) (r : Request) : Request :=
  mkRequest (rq_method r) (rq_originalUrl r) (rq_ip r) (rq_headers r) (rq_body r) (Some user).

(** [s.split(' ')] *)
Fixpoint split_space (s : string) : list string :=
  match s with
  | EmptyString => [EmptyString]
  | String c s =>
      if Ascii.eqb c " " then EmptyString :: split_space s
      else match split_space s with
           | [] => [String c EmptyString]
           | x :: xs => String c x :: xs
           end
  end.

(** ** Guards *)

Definition AUTHORIZATION_HEADER : string := "authorization".
Definition AUTHORIZATION_TYPE_BEARER : string := "bearer".

(** jsonwebtoken's [verify]. *)
Class Jwt := jwt_verify : string -> string -> result json.

Section Guards.
Context {jwt : Jwt}.
Variable jwtSecret : string.

(** The [catch] block: both conditions are assignments. *)
Definition verification_failed (error : exn) : exn :=
  let name := "TokenExpiredError"%string in
  if truthy name then UnauthorizedException "Token has expired"
  else
    let name := "JsonWebTokenError"%string in
    if truthy name then UnauthorizedException "Invalid token"
    else UnauthorizedException "Token verification failed".

(** [JwtAuthGuard.canActivate]; the request is returned with its [user]. *)
Definition canActivate (isPublic : bool) (request : Request) : result bool * Request :=
  if isPublic then (Ok true, request)
  else
    match rq_headers request !! AUTHORIZATION_HEADER with
    | None => (Err (UnauthorizedException "Authorization header is not provided"), request)
    | Some authorizationHeader =>
        if negb (truthy authorizationHeader) || Nat.eqb (String.length authorizationHeader) 0 then
          (Err (UnauthorizedException "Authorization header is not provided"), request)
        else
          match split_space authorizationHeader with
          | field0 :: accessToken :: _ =>
              if negb (String.eqb (toLowerCase field0) AUTHORIZATION_TYPE_BEARER) then
                (Err (UnauthorizedException "Invalid authorization type"), request)
              else
                match jwt_verify accessToken jwtSecret with
                | Ok payload => (Ok true, set_user payload request)
                | Err error => (Err (verification_failed error), request)
                end
          | _ => (Err (UnauthorizedException "Invalid authorization header format"), request)
          end
    end.
End Guards.

Module RolesGuard.
(** [requiredRoles.includes(user.role)]; reading a property of undefined throws. *)
Definition canActivate (requiredRoles : option (list string)) (request : Request) : result bool :=
  match requiredRoles with
  | None => Ok true
  | Some requiredRoles =>
      match rq_user request with
      | None | Some JNull => Err (TypeError "Cannot read properties of undefined (reading 'role')")
      | Some user =>
          match member "role" user with
          | Some (JStr role) => Ok (includes requiredRoles role)
          | _ => Ok false
          end
      end
  end.
End RolesGuard.

(** [data ? user?.[data] : user] *)
Definition CurrentUser (data : string) (request : Request) : option json :=
  if truthy data then
    match rq_user request with Some user => member data user | None => None end
  else rq_user request.

(** strategies/jwt.strategy.ts: the object passport would attach; [undefined]
    members are left out. *)
Definition JwtStrategy_validate (payload : json) : json :=
  let get (k v : string) := match member v payload with Some x => [(k, x)] | None => [] end in
  JObj (get "id" "sub" ++ get "email" "email" ++ get "role" "role" ++ get "emailVerified" "emailVerified").

(** Both guards in front of a handler; a guard that answers [false] makes the
    framework throw. *)
Definition ForbiddenException : exn := simple_exn "ForbiddenException" "Forbidden resource".

Definition authorize {jwt : Jwt} (secret : string) (isPublic : bool) (roles : option (list string))
    (request : Request) : result unit * Request :=
  match canActivate secret isPublic request with
  | (Err e, request) => (Err e, request)
  | (Ok false, request) => (Err ForbiddenException, request)
  | (Ok true, request) =>
      match RolesGuard.canActivate roles request with
      | Ok true => (Ok tt, request)
      | Ok false => (Err ForbiddenException, request)
      | Err e => (Err e, request)
      end
  end.

(** A handler behind the guards. *)
Definition guarded {jwt : Jwt} {S E A} (secret : string) (isPublic : bool) (roles : option (list string))
    (request : Request) (handler : Request -> prog S E A) : prog S E A :=
  match authorize secret isPublic roles request with
  | (Err e, _) => Throw e
  | (Ok _, request) => handler request
  end.

(** ** Lemmas *)

Lemma guarded_wp {jwt : Jwt} {S E A V} (spec : forall X, E X -> V -> result X -> V -> Prop) secret isPublic roles request
    (handler : Request -> prog S E A) (Q : result A -> S -> V -> Prop) s v :
  (forall e, Q (Err e) s v) ->
  (forall request', authorize secret isPublic roles request = (Ok tt, request') -> wp spec (handler request') Q s v) ->
  wp spec (guarded secret isPublic roles request handler) Q s v.
Proof.
  intros HE HQ. unfold guarded. destruct (authorize secret isPublic roles request) as [[[]|e] request']; [by apply HQ|apply HE].
Qed.

Lemma split_space_nonempty s : split_space s <> [].
Proof. destruct s as [|c s]; [done|]. cbn [split_space]. destruct (Ascii.eqb c " "); [done|]. by destruct (split_space s). Qed.

(** A text without a space. *)
Fixpoint no_space (s : string) : bool :=
  match s with
  | EmptyString => true
  | String c s => negb (Ascii.eqb c " ") && no_space s
  end.

Lemma split_no_space s : no_space s = true -> split_space s = [s].
Proof.
  induction s as [|c s IH]; [done|]. cbn [no_space split_space String.app]. intros [Hc Hs]%andb_true_iff.
  apply negb_true_iff in Hc. by rewrite Hc, IH.
Qed.

Lemma split_space_app s t : no_space s = true -> split_space (s +:+ String " " t) = s :: split_space t.
Proof.
  induction s as [|c s IH]; [done|]. rewrite string_app_cons. cbn [no_space split_space]. intros [Hc Hs]%andb_true_iff.
  apply negb_true_iff in Hc. by rewrite Hc, IH.
Qed.

(** What the guard reads from the header. *)
Definition bearer_token (request : Request) : option string :=
  match rq_headers request !! AUTHORIZATION_HEADER with
  | None => None
  | Some header =>
      match split_space header with
      | field0 :: token :: _ =>
          if String.eqb (toLowerCase field0) AUTHORIZATION_TYPE_BEARER then Some token else None
      | _ => None
      end
  end.

Lemma bearer_token_header request token :
  no_space token = true -> rq_headers request !! AUTHORIZATION_HEADER = Some ("Bearer " +:+ token) ->
  bearer_token request = Some token.
Proof.
  intros Ht Hh. unfold bearer_token. rewrite Hh.
  change ("Bearer " +:+ token) with ("Bearer" +:+ String " " token).
  rewrite split_space_app by done. by rewrite (split_no_space token).
Qed.

(** [split] at a space: the field before it, and the rest. *)
Lemma split_space_cons s f g rest :
  split_space s = f :: g :: rest -> exists t, s = f +:+ String " " t /\ no_space f = true /\ split_space t = g :: rest.
Proof.
  revert f. induction s as [|c s IH]; intros f; [done|]. cbn [split_space].
  destruct (Ascii.eqb c " ") eqn:Hc.
  - intros [= <- Hs]. exists s. apply Ascii.eqb_eq in Hc as ->. by split_and!.
  - destruct (split_space s) as [|x xs] eqn:Hs; [done|]. intros [= <- ->].
    destruct (IH x eq_refl) as (t & -> & Hx & Ht). exists t. cbn [no_space]. rewrite Hc, Hx. by split_and!.
Qed.

(** The last field ends the text; another one is followed by a space. *)
Lemma split_space_head s g rest :
  split_space s = g :: rest -> exists tail, s = g +:+ tail /\ no_space g = true /\ (tail = ""%string \/ exists t, tail = String " " t).
Proof.
  destruct rest as [|x xs].
  - revert g. induction s as [|c s IH]; intros g; cbn [split_space].
    + intros [= <-]. exists ""%string. split_and!; [done..|by left].
    + destruct (Ascii.eqb c " ") eqn:Hc.
      * intros [= <- Hs]. by destruct (split_space_nonempty s).
      * destruct (split_space s) as [|y ys] eqn:Hs; [by destruct (split_space_nonempty s)|]. intros [= <- ->].
        destruct (IH y eq_refl) as (t & -> & Hy & Ht). exists t. cbn [no_space]. rewrite Hc, Hy. by split_and!.
  - intros (t & -> & Hg & _)%split_space_cons. exists (String " " t). split_and!; [done..|]. right. by exists t.
Qed.

(** The authorization header is the scheme [bearer], in any case, a space and
    the token, up to the next space. *)
Definition carries_token (request : Request) (token : string) : Prop :=
  exists scheme tail,
    rq_headers request !! "authorization"%string = Some (scheme +:+ String " " (token +:+ tail)) /\
    toLowerCase scheme = "bearer"%string /\ no_space token = true /\
    (tail = ""%string \/ exists t, tail = String " " t).

Lemma bearer_token_carried request token : bearer_token request = Some token -> carries_token request token.
Proof.
  unfold bearer_token, carries_token. change AUTHORIZATION_HEADER with "authorization"%string.
  destruct (rq_headers request !! "authorization"%string) as [header|]; [|done].
  destruct (split_space header) as [|f [|g rest]] eqn:Hs; [done..|].
  destruct (String.eqb (toLowerCase f) AUTHORIZATION_TYPE_BEARER) eqn:Hf; [|done]. intros [= ->].
  apply String.eqb_eq in Hf. apply split_space_cons in Hs as (t & -> & _ & (tail & -> & Ht & Htail)%split_space_head).
  by exists f, tail.
Qed.

(** The guard, by what the header holds. *)
Lemma canActivate_token {jwt : Jwt} secret request :
  match bearer_token request with
  | Some token =>
      canActivate secret false request =
      match jwt_verify token secret with
      | Ok payload => (Ok true, set_user payload request)
      | Err _ => (Err (UnauthorizedException "Token has expired"), request)
      end
  | None => exists m, canActivate secret false request = (Err (UnauthorizedException m), request)
  end.
Proof.
  unfold bearer_token, canActivate. destruct (rq_headers request !! AUTHORIZATION_HEADER) as [hd|]; [|by eexists].
  destruct hd as [|c hd]; [by eexists|]. cbn [truthy String.eqb negb String.length Nat.eqb orb].
  destruct (split_space (String c hd)) as [|f0 [|token rest]]; [by eexists..|].
  destruct (String.eqb (toLowerCase f0) AUTHORIZATION_TYPE_BEARER); [|by eexists].
  by destruct (jwt_verify token secret).
Qed.

(** The guards only attach the user. *)
Lemma authorize_request {jwt : Jwt} secret isPublic roles request r request' :
  authorize secret isPublic roles request = (r, request') ->
  request' = request \/ exists payload, request' = set_user payload request.
Proof.
  unfold authorize. destruct isPublic.
  - cbn. destruct (RolesGuard.canActivate roles request) as [[]|]; intros [= <- <-]; by left.
  - pose proof (canActivate_token secret request) as Hc. destruct (bearer_token request) as [token|].
    2: { destruct Hc as [m ->]. intros [= <- <-]. by left. }
    rewrite Hc. destruct (jwt_verify token secret) as [payload|]; [|intros [= <- <-]; by left].
    destruct (RolesGuard.canActivate roles _) as [[]|]; intros [= <- <-]; right; by eexists.
Qed.

(** Who passes: a handler that is not public runs only for a request whose
    header holds a bearer token that [jwt.verify] accepts, and, if roles are
    required, whose payload carries one of them; the payload is then the
    request's user.  A public handler without roles always runs. *)
Lemma authorize_iff {jwt : Jwt} secret isPublic roles request request' :
  authorize secret isPublic roles request = (Ok tt, request') <->
  (if isPublic then request' = request
   else exists token payload, bearer_token request = Some token /\
     jwt_verify token secret = Ok payload /\ request' = set_user payload request) /\
  (forall rs, roles = Some rs -> exists user role, rq_user request' = Some user /\
     member "role" user = Some (JStr role) /\ role ∈ rs).
Proof.
  assert (forall r, RolesGuard.canActivate roles r = Ok true <->
    (forall rs, roles = Some rs -> exists user role, rq_user r = Some user /\
       member "role" user = Some (JStr role) /\ role ∈ rs)) as Hroles.
  { intros r. unfold RolesGuard.canActivate. destruct roles as [rs|]; [|by split].
    split.
    - intros H rs' [= <-]. destruct (rq_user r) as [user|]; [|done].
      destruct (member "role" user) as [[]|] eqn:Hm; try by destruct user.
      exists user, s. split_and!; [done|done|]. apply includes_spec. by destruct user; simplify_eq.
    - intros H. destruct (H rs eq_refl) as (user & role & -> & Hm & Hin%includes_spec).
      rewrite Hm, Hin. by destruct user. }
  unfold authorize. destruct isPublic.
  - cbn [canActivate]. specialize (Hroles request).
    destruct (RolesGuard.canActivate roles request) as [[]|e]; cbn.
    + split; [intros [= <-]; split; [done|by apply Hroles]|by intros [-> _]].
    + split; [done|]. intros [-> H]. by apply Hroles in H.
    + split; [done|]. intros [-> H]. by apply Hroles in H.
  - pose proof (canActivate_token secret request) as Hc. destruct (bearer_token request) as [token|].
    2: { destruct Hc as [m ->]. split; [done|]. by intros [(? & ? & ? & _) _]. }
    rewrite Hc. destruct (jwt_verify token secret) as [payload|e] eqn:Hv.
    2: { split; [done|]. intros [(t & p & [= <-] & Hp & _) _]. congruence. }
    specialize (Hroles (set_user payload request)).
    assert (forall request', (exists token0 payload0, Some token = Some token0 /\
      jwt_verify token0 secret = Ok payload0 /\ request' = set_user payload0 request) <->
      request' = set_user payload request) as Hset.
    { intros r. split; [|intros ->; eauto]. intros (t & p & [= <-] & Hp & ->). congruence. }
    rewrite Hset. destruct (RolesGuard.canActivate roles (set_user payload request)) as [[]|e]; cbn.
    + split; [intros [= <-]; split; [done|by apply Hroles]|by intros [-> _]].
    + split; [done|]. intros [-> H]. by apply Hroles in H.
    + split; [done|]. intros [-> H]. by apply Hroles in H.
Qed.

(** ** Properties *)

(** The claims of a token the authentication service signs; jsonwebtoken adds
    the times of issue and of expiry. *)
Definition claims (p : JwtPayload) (iat exp : Z) : json :=
  JObj [("sub", JStr (sub p)); ("email", JStr (jp_email p)); ("role", JStr (jp_role p));
        ("emailVerified", JBool (jp_emailVerified p)); ("iat", JNum iat); ("exp", JNum exp)]%string.

Section Properties.
Context {jwt : Jwt}.
Variable secret : string.

(** Every failed verification is reported as an expired token, whatever
    [jwt.verify] threw: the [catch] block assigns where it means to compare. *)
Theorem failed_verification_says_expired request token e :
  bearer_token request = Some token -> jwt_verify token secret = Err e ->
  canActivate secret false request = (Err (UnauthorizedException "Token has expired"), request).
Proof. intros Ht Hv. pose proof (canActivate_token secret request) as H. by rewrite Ht, Hv in H. Qed.
End Properties.

(** ** The authentication service and the guards together *)

Section Login.
Context {jwt : Jwt} {bc : Bcrypt} {tz : TimeZone} {S W : Type}.
Variable secret : string.
Variable h : forall X, AuthE X -> W -> result X * W.
Variable view : W -> AuthView.
Variable md : mode.
Hypothesis Hh : conforms md auth_behaviour h view.
Variable config : AuthConfig.

(** [jwt.verify] gives back the claims of the tokens signed with the guard's
    secret that have not expired; a token is base64url text. *)
Definition tokens_verify (v : AuthView) : Prop :=
  forall token payload expiresIn, (token, payload, expiresIn) ∈ signed v ->
    no_space token = true /\ exists iat exp, jwt_verify token secret = Ok (claims payload iat exp).

Definition role_allowed (roles : option (list string)) (role : UserRole.t) : bool :=
  match roles with None => true | Some rs => includes rs (UserRole.value role) end.

(** The access token of a login opens the other services: a request that
    carries it as a bearer token is admitted exactly when the user's role is
    among the required ones, and the handler sees the user's id as [sub] and
    role.  It sees no [id]: [CurrentUser('id')] is undefined. *)
Theorem login_token_authorizes email password s w lu r roles request :
  auth_wf (view w) ->
  let w1 := final h (login (S := S) config email password) s w in
  outcome h (login (S := S) config email password) s w = Ok (lu, r) ->
  tokens_verify (view w1) ->
  rq_headers request !! AUTHORIZATION_HEADER = Some ("Bearer " +:+ accessToken r) ->
  exists request',
    authorize secret false roles request =
      (if role_allowed roles (lu_role lu) then Ok tt else Err ForbiddenException, request') /\
    CurrentUser "sub" request' = Some (JStr (lu_id lu)) /\
    CurrentUser "role" request' = Some (JStr (UserRole.value (lu_role lu))) /\
    CurrentUser "id" request' = None.
Proof.
  intros Hwf w1 Ho Hv Hhd.
  assert (exists u, lu = login_user u /\ (accessToken r, payload_of u, jwtAccessExpiry config) ∈ signed (view w1))
    as (u & -> & Hin).
  { clear Hv Hhd. revert Ho. unfold w1. call_wp Hh w. apply login_wp; [done|..|done|done].
    intros u r' v' _ _ _ (id & now & _ & ->) [= <- <-]. exists u. split; [done|].
    apply elem_of_app. right. by left. }
  destruct (Hv _ _ _ Hin) as (Hns & iat & exp & Hver).
  pose proof (canActivate_token secret request) as Hc.
  rewrite (bearer_token_header request (accessToken r) Hns Hhd), Hver in Hc.
  exists (set_user (claims (payload_of u) iat exp) request). unfold authorize. rewrite Hc.
  split; [|done]. unfold RolesGuard.canActivate, role_allowed. destruct roles as [rs|]; [|done].
  cbn. by destruct (includes rs (UserRole.value (u_role u))).
Qed.
End Login.

(** ** Concrete runs *)

Definition demo_secret : string := "s3cret".

(** Accepts the first token the demonstration service signs. *)
#[local] Instance demo_jwt : Jwt := fun token secret =>
  if String.eqb token "jwt-0" && String.eqb secret demo_secret
  then Ok (claims (payload_of demo_user) 1700000000 1700000900)
  else Err (simple_exn "JsonWebTokenError" "invalid signature").

Definition request_with (header : string) : Request :=
  mkRequest "POST" "/api/events" None {[AUTHORIZATION_HEADER := header]} "{}" None.

Lemma login_token_authorizes_witness :
  exists request', authorize demo_secret false (Some ["admin"; "organizer"]%string) (request_with "Bearer jwt-0") =
    (Err ForbiddenException, request') /\ CurrentUser "id" request' = None.
Proof.
  epose proof (login_token_authorizes (S := unit) demo_secret auth_run auth_view Reliable auth_run_conforms
    default_config "a@x.io" "Password123!" tt demo_world (login_user demo_user) (mkTokens "jwt-0" "uuid-0")
    (Some ["admin"; "organizer"]%string) (request_with "Bearer jwt-0") demo_auth_wf) as H.
  destruct H as (r' & Ha & _ & _ & Hid).
  - vm_compute. reflexivity.
  - intros token payload e Hin.
    assert ((token, payload, e) ∈ [("jwt-0", payload_of demo_user, "15m")]%string) as Hin' by exact Hin.
    apply list_elem_of_singleton in Hin'. injection Hin' as -> -> ->. split; [done|].
    by exists 1700000000%Z, 1700000900%Z.
  - by apply lookup_singleton_eq.
  - exists r'. split; [exact Ha|exact Hid].
Defined.

Lemma failed_verification_says_expired_witness :
  canActivate demo_secret false (request_with "Bearer forged") =
    (Err (UnauthorizedException "Token has expired"), request_with "Bearer forged").
Proof.
  apply (failed_verification_says_expired demo_secret (request_with "Bearer forged") "forged"
    (simple_exn "JsonWebTokenError" "invalid signature")); reflexivity.
Defined.
