(* ===== verification/GatewayWorld.v ===== *)
(** * API gateway: data and outside world

    The operations apps/api-gateway awaits (Redis sorted sets, the clock,
    [Math.random], the HTTP client) and their documented behaviour.

    Redis and the gateway share a clock, which moves when the gateway reads it:
    the commands of one request take no time.  A key whose time to live ran out
    reads as missing.  Of [Math.random] nothing is assumed: a draw may repeat. *)

From S2P Require Import Prelude Effects JsNumber Json Sql.

(** ** HTTP messages *)

Record HttpRequest := mkHttpRequest {
  hr_method : string;
  hr_url : string;
  hr_headers : gmap string (option json);   (* [None] is undefined *)
  hr_data : string;
}.

Record HttpResponse := mkHttpResponse {
  hs_status : Z;
  hs_headers : list (string * string);
  hs_data : string;
}.

(** ** Operations *)

Inductive GatewayE : Type -> Type :=
| GNow : GatewayE Z                                              (* Date.now() *)
| GRandom : GatewayE string                                      (* Math.random(), printed *)
| GZRemRangeByScore (key : string) (lo hi : Z) : GatewayE unit
| GZCard (key : string) : GatewayE Z
| GZRange00 (key : string) : GatewayE (list string)              (* ZRANGE key 0 0 *)
| GZAdd (key : string) (score : Z) (mem : string) : GatewayE unit
| GPExpire (key : string) (ms : Z) : GatewayE unit
| GHttp (req : HttpRequest) : GatewayE (result HttpResponse).    (* axios *)

(** ** The view of the world *)

(** A sorted set and when its key expires. *)
Record ZEntry := mkZEntry { zscores : gmap string Z; zdeadline : option Z }.

(** [added] records the members ever added, per key with their scores;
    [forwarded] the requests sent. *)
Record GatewayView := mkGatewayView {
  zsets : gmap string ZEntry;
  clock : Z;
  added : list (string * string * Z);
  forwarded : list HttpRequest;
}.

Definition with_zsets (m : gmap string ZEntry) (v : GatewayView) : GatewayView :=
  mkGatewayView m (clock v) (added v) (forwarded v).
Definition with_clock (t : Z) (v : GatewayView) : GatewayView :=
  mkGatewayView (zsets v) t (added v) (forwarded v).
Definition with_added (l : list (string * string * Z)) (v : GatewayView) : GatewayView :=
  mkGatewayView (zsets v) (clock v) l (forwarded v).
Definition with_forwarded (l : list HttpRequest) (v : GatewayView) : GatewayView :=
  mkGatewayView (zsets v) (clock v) (added v) l.

(** Expiry: the entry of a key, if it is there and its deadline is ahead. *)
Definition alive (now : Z) (e : ZEntry) : bool :=
  match zdeadline e with Some d => Z.ltb now d | None => true end.

Definition zlive (v : GatewayView) (key : string) : gmap string Z :=
  match zsets v !! key with
  | Some e => if alive (clock v) e then zscores e else ∅
  | None => ∅
  end.

Definition zexpiry (v : GatewayView) (key : string) : option Z :=
  match zsets v !! key with
  | Some e => if alive (clock v) e then zdeadline e else None
  | None => None
  end.

(** Store a sorted set; Redis drops a key whose set is empty. *)
Definition zput (key : string) (m : gmap string Z) (d : option Z) (v : GatewayView) : GatewayView :=
  with_zsets (if decide (m = ∅) then delete key (zsets v) else <[key := mkZEntry m d]> (zsets v)) v.

Definition in_range (lo hi : Z) (score : Z) : bool := Z.leb lo score && Z.leb score hi.

(** The members outside a range of scores. *)
Definition zoutside (lo hi : Z) (m : gmap string Z) : gmap string Z :=
  filter (fun kv => in_range lo hi kv.2 = false) m.

(** ** Documented behaviour *)

Definition gw_ok {X} (op : GatewayE X) (v : GatewayView) : X -> GatewayView -> Prop :=
  match op with
  | GNow => fun t v' => (clock v <= t)%Z /\ v' = with_clock t v
  | GRandom => fun _ v' => v' = v
  | GZRemRangeByScore key lo hi => fun _ v' =>
      v' = zput key (zoutside lo hi (zlive v key)) (zexpiry v key) v
  | GZCard key => fun n v' => v' = v /\ n = Z.of_nat (base.size (zlive v key))
  | GZRange00 key => fun l v' =>
      v' = v /\
      match l with
      | [] => zlive v key = ∅
      | [m] => exists s, zlive v key !! m = Some s /\ forall m' s', zlive v key !! m' = Some s' -> (s <= s')%Z
      | _ => False
      end
  | GZAdd key score m => fun _ v' =>
      v' = with_added (added v ++ [(key, m, score)])
             (zput key (<[m := score]> (zlive v key)) (zexpiry v key) v)
  | GPExpire key ms => fun _ v' => v' = zput key (zlive v key) (Some (clock v + ms)%Z) v
  | GHttp req => fun x v' =>
      match x with
      | Ok _ => v' = with_forwarded (forwarded v ++ [req]) v
      | Err _ => v' = v \/ v' = with_forwarded (forwarded v ++ [req]) v   (* refused, or the answer was lost *)
      end
  end.

Definition gw_rejects {X} (op : GatewayE X) (v : GatewayView) : Prop := False.

Definition gw_fallible {X} (op : GatewayE X) : Prop :=
  match op with
  | GNow | GRandom | GHttp _ => False
  | _ => True
  end.

Definition gw_behaviour : behaviour GatewayE GatewayView :=
  {| ok := @gw_ok; rejects := @gw_rejects; fallible := @gw_fallible |}.

Ltac gw_sem H :=
  cbn [obeys ok rejects fallible gw_behaviour gw_ok gw_rejects gw_fallible] in H.

(** ** A reference environment *)

(** The members sorted by score are only needed for the first. *)
Definition zfirst (m : gmap string Z) : list string :=
  match map_to_list m with
  | [] => []
  | p :: ps => [(foldl (fun best kv => if Z.ltb kv.2 best.2 then kv else best) p ps).1]
  end.

(** The view and a script of clock steps; a draw of [Math.random] tells how many
    members were added before; the HTTP client answers 200. *)
Definition GatewayRefWorld : Type := GatewayView * list Z.

Definition ok_response : HttpResponse := mkHttpResponse 200 [("content-type", "application/json"); ("transfer-encoding", "chunked")]%string "{}".

Definition gw_run (X : Type) (op : GatewayE X) (w : GatewayRefWorld) : result X * GatewayRefWorld :=
  let '(v, steps) := w in
  match op in GatewayE X return result X * GatewayRefWorld with
  | GNow =>
      let t := (clock v + Z.abs (hd 0%Z steps))%Z in (Ok t, (with_clock t v, tl steps))
  | GRandom => (Ok ("0." +:+ N_to_string (N.of_nat (length (added v)))), w)
  | GZRemRangeByScore key lo hi =>
      (Ok tt, (zput key (zoutside lo hi (zlive v key)) (zexpiry v key) v, steps))
  | GZCard key => (Ok (Z.of_nat (base.size (zlive v key))), w)
  | GZRange00 key => (Ok (zfirst (zlive v key)), w)
  | GZAdd key score m =>
      (Ok tt, (with_added (added v ++ [(key, m, score)])
                 (zput key (<[m := score]> (zlive v key)) (zexpiry v key) v), steps))
  | GPExpire key ms => (Ok tt, (zput key (zlive v key) (Some (clock v + ms)%Z) v, steps))
  | GHttp req => (Ok (Ok ok_response), (with_forwarded (forwarded v ++ [req]) v, steps))
  end.

Definition gw_view (w : GatewayRefWorld) : GatewayView := w.1.

Definition gw_io (X : Type) (op : GatewayE X) : bool :=
  match op with GNow | GRandom | GHttp _ => false | _ => true end.
Definition gw_flaky := flaky gw_run gw_io.
Definition gw_flaky_view (w : GatewayRefWorld * list bool) : GatewayView := gw_view w.1.

Lemma zfirst_min_aux (ps : list (string * Z)) p :
  let b := foldl (fun best kv => if Z.ltb kv.2 best.2 then kv else best) p ps in
  b ∈ p :: ps /\ forall q, q ∈ p :: ps -> (b.2 <= q.2)%Z.
Proof.
  cbn zeta. revert p. induction ps as [|q ps IH]; intros p; cbn [foldl].
  - split; [by left|]. intros q Hq%list_elem_of_singleton. subst. lia.
  - destruct (IH (if Z.ltb q.2 p.2 then q else p)) as [Hin Hmin].
    pose proof (Hmin _ (list_elem_of_here _ _)) as Hb.
    split.
    + apply elem_of_cons in Hin as [->|Hin]; [|by right; right]. destruct (Z.ltb q.2 p.2); [right; left|left].
    + intros r Hr. apply elem_of_cons in Hr as [->|Hr].
      * destruct (Z.ltb_spec q.2 p.2); lia.
      * apply elem_of_cons in Hr as [->|Hr]; [destruct (Z.ltb_spec q.2 p.2); lia|]. apply Hmin. by right.
Qed.

Lemma zfirst_spec m :
  match zfirst m with
  | [] => m = ∅
  | [x] => exists s, m !! x = Some s /\ forall x' s', m !! x' = Some s' -> (s <= s')%Z
  | _ => False
  end.
Proof.
  unfold zfirst. destruct (map_to_list m) as [|p ps] eqn:Hl.
  - by apply map_to_list_empty_iff.
  - destruct (zfirst_min_aux ps p) as [Hin Hmin]. cbn zeta in *. set (b := foldl _ p ps) in *.
    rewrite <- Hl in *. exists b.2. split.
    + apply elem_of_map_to_list. by destruct b.
    + intros x s Hx. apply elem_of_map_to_list in Hx. by apply (Hmin (x, s)).
Qed.

Lemma gw_run_conforms : conforms Reliable gw_behaviour gw_run gw_view.
Proof.
  intros X op [v steps]. cbn [gw_view fst]. destruct op; cbn; try done.
  - split; [lia|done].
  - split; [done|]. pose proof (zfirst_spec (zlive v key)) as H.
    by destruct (zfirst (zlive v key)) as [|x [|y l]].
Qed.

Lemma gw_flaky_conforms : conforms Faulty gw_behaviour gw_flaky gw_flaky_view.
Proof.
  apply (flaky_conforms gw_run gw_io gw_behaviour gw_view); [|apply gw_run_conforms].
  by intros X [].
Qed.

Definition empty_gateway : GatewayView := mkGatewayView ∅ 1700000000000 [] [].
