(* ===== verification/Interleave.v ===== *)
(** * Two requests at a time

    Node runs one callback at a time but switches between requests at every
    [await].  [run_pair] runs two programs in one world under a schedule, which
    says whose next step is taken; when it is used up the first is finished,
    then the second.  [run_pair_sequential] relates it to [run]. *)

From S2P Require Import Prelude Effects.

Section Pair.
Context {E : Type -> Type} {W S A B : Type}.
Variable h : forall X, E X -> W -> result X * W.

(** One awaited operation, or one access to the program's own object. *)
Definition step {A} (c : prog S E A * S) (w : W) : prog S E A * S * W :=
  match c.1 with
  | Ret _ | Throw _ => (c, w)
  | Do X op k => let (r, w') := h X op w in (k r, c.2, w')
  | Get k => (k c.2, c.2, w)
  | Put s k => (k, s, w)
  end.

Fixpoint run_pair (schedule : list bool) (c : prog S E A * S) (d : prog S E B * S) (w : W) :
    result A * result B * W :=
  match schedule with
  | [] =>
      let '(r1, _, w1) := run h c.1 c.2 w in
      let '(r2, _, w2) := run h d.1 d.2 w1 in
      (r1, r2, w2)
  | true :: schedule => let (c', w') := step c w in run_pair schedule c' d w'
  | false :: schedule => let (d', w') := step d w in run_pair schedule c d' w'
  end.

(** A step does not change where a program ends. *)
Lemma run_step {A'} (c : prog S E A' * S) w :
  run h (step c w).1.1 (step c w).1.2 (step c w).2 = run h c.1 c.2 w.
Proof. destruct c as [[a|e|X op k|k|s k] s0]; cbn; try done. by destruct (h X op w). Qed.

(** A schedule that never switches is the sequence of the two requests. *)
Lemma run_pair_sequential n c d w :
  run_pair (replicate n true) c d w =
  let '(r1, _, w1) := run h c.1 c.2 w in
  let '(r2, _, w2) := run h d.1 d.2 w1 in
  (r1, r2, w2).
Proof.
  revert c w. induction n as [|n IH]; intros c w; cbn [replicate run_pair]; [done|].
  pose proof (run_step c w) as Hs. destruct (step c w) as [c' w']. cbn in Hs. by rewrite IH, Hs.
Qed.
End Pair.
