(* ===== verification/Ownership.v ===== *)
(** * Tokens among concurrent requests

    A proof rule for requests that run at the same time.  Certain operations
    hand out tokens (a lock that was taken, a row that was inserted under a
    unique key); a request keeps the tokens it was given until it gives them
    back, and what the shared world guarantees is stated of all tokens that are
    out.  [own_spec] turns this into a specification of one request alone, whose
    view is the set of its own tokens, so that the calculus of Effects applies;
    [run_many_sound] says that under any schedule the requests then end with
    disjoint sets of tokens. *)

From S2P Require Import Prelude Effects Interleave.

(** ** Any number of requests *)

Section Many.
Context {E : Type -> Type} {W S A : Type}.
(** The handler of each request: requests may have connections of their own. *)
Variable hs : nat -> forall X, E X -> W -> result X * W.

(** The requests that are left run to their end, one after the other. *)
Fixpoint finish (i : nat) (cs : list (prog S E A * S)) (w : W) : list (result A) * W :=
  match cs with
  | [] => ([], w)
  | c :: cs =>
      let '(r, _, w) := run (hs i) c.1 c.2 w in
      let '(rs, w) := finish (1 + i) cs w in (r :: rs, w)
  end.

(** The schedule names the request that takes the next step. *)
Fixpoint run_many (schedule : list nat) (cs : list (prog S E A * S)) (w : W) : list (result A) * W :=
  match schedule with
  | [] => finish 0 cs w
  | i :: schedule =>
      match cs !! i with
      | None => run_many schedule cs w
      | Some c => let (c', w') := step (hs i) c w in run_many schedule (<[i := c']> cs) w'
      end
  end.

Lemma finish_length i cs w : length (finish i cs w).1 = length cs.
Proof.
  revert i w. induction cs as [|c cs IH]; intros i w; cbn; [done|].
  destruct (run (hs i) c.1 c.2 w) as [[r s] w1]. specialize (IH (1 + i) w1).
  change (Datatypes.S i) with (1 + i). destruct (finish (1 + i) cs w1) as [rs w2]. cbn in *. by rewrite IH.
Qed.

Lemma run_many_length schedule cs w : length (run_many schedule cs w).1 = length cs.
Proof.
  revert cs w. induction schedule as [|i schedule IH]; intros cs w; cbn; [apply finish_length|].
  destruct (cs !! i) as [c|]; [|apply IH]. destruct (step (hs i) c w). by rewrite IH, length_insert.
Qed.

(** What every operation of every request keeps, any run of them keeps. *)
Lemma run_invariant (I : W -> Prop) i (m : prog S E A) s w :
  (forall X (op : E X) w, I w -> I (hs i X op w).2) -> I w -> I (run (hs i) m s w).2.
Proof.
  intros Hop. revert s w. induction m as [a|e|X op k IH|k IH|s' k IH]; intros s w Hw; cbn; auto.
  specialize (Hop X op w Hw). destruct (hs i X op w) as [r w']. by apply IH.
Qed.

Lemma run_many_invariant (I : W -> Prop) schedule cs w :
  (forall i X (op : E X) w, I w -> I (hs i X op w).2) -> I w -> I (run_many schedule cs w).2.
Proof.
  intros Hop. revert cs w. induction schedule as [|i schedule IH]; intros cs w Hw; cbn.
  - generalize 0. revert w Hw. induction cs as [|c cs IHc]; intros w Hw i; cbn; [done|].
    pose proof (run_invariant I i c.1 c.2 w (Hop i) Hw) as H1. destruct (run (hs i) c.1 c.2 w) as [[r s] w1].
    specialize (IHc w1 H1 (1 + i)). change (Datatypes.S i) with (1 + i).
    by destruct (finish (1 + i) cs w1) as [rs w2].
  - destruct (cs !! i) as [[m s]|]; [|by apply IH].
    destruct m as [a|e|X op k|k|s' k]; cbn [step fst snd]; try by apply IH.
    unfold step. cbn [fst snd]. specialize (Hop i X op w Hw). destruct (hs i X op w) as [r w']. by apply IH.
Qed.
End Many.

(** A schedule: the requests of [order] take one step each, [n] times. *)
Fixpoint turns_of (n : nat) (order : list nat) : list nat :=
  match n with O => [] | Datatypes.S n => order ++ turns_of n order end.

(** ** Tokens *)

(** Sets of tokens without a common one. *)
Fixpoint apart {K} `{Countable K} (Ts : list (gset K)) : Prop :=
  match Ts with [] => True | T :: Ts => T ## ⋃ Ts /\ apart Ts end.

Section Sets.
Context {K : Type} `{Countable K}.
Implicit Types (T F U : gset K) (Ts : list (gset K)).

Lemma union_swap T F U : T ∪ (F ∪ U) = F ∪ (T ∪ U).
Proof. set_solver. Qed.

Lemma disjoint_swap T F U : F ## T ∪ U -> T ## U -> T ## F ∪ U.
Proof. set_solver. Qed.

Lemma apart_frame T F Ts : apart (F :: T :: Ts) -> T ## F ∪ ⋃ Ts /\ apart (F :: Ts).
Proof. cbn. intros [H1 [H2 H3]]. split; [by apply disjoint_swap|split; [set_solver|done]]. Qed.

Lemma apart_grow T F Ts : T ## F ∪ ⋃ Ts -> apart (F :: Ts) -> apart ((T ∪ F) :: Ts).
Proof. cbn. intros H1 [H2 H3]. split; [set_solver|done]. Qed.

Lemma apart_back T F Ts : T ## F -> apart ((T ∪ F) :: Ts) -> apart (F :: T :: Ts).
Proof. cbn. intros H1 [H2 H3]. split; [set_solver|split; [set_solver|done]]. Qed.

Lemma elem_union_list Ts j T x : Ts !! j = Some T -> x ∈ T -> x ∈ ⋃ Ts.
Proof.
  revert j. induction Ts as [|T1 Ts IH]; intros [|j] Hj Hx; cbn in *; [done|done|injection Hj as ->; set_solver|].
  specialize (IH j Hj Hx). set_solver.
Qed.

Lemma apart_lookup Ts i j T T' :
  apart Ts -> Ts !! i = Some T -> Ts !! j = Some T' -> i <> j -> T ## T'.
Proof.
  revert i j. induction Ts as [|T1 Ts IH]; intros [|i] [|j] Ha Hi Hj Hne; cbn in *; try done; destruct Ha as [H1 Ha].
  - injection Hi as ->. intros x Hx Hx'. apply (H1 x Hx). by eapply elem_union_list.
  - injection Hj as ->. intros x Hx Hx'. apply (H1 x Hx'). by eapply elem_union_list.
  - eapply (IH i j); [done..|congruence].
Qed.

Lemma union_at Ts j T : Ts !! j = Some T -> ⋃ Ts = T ∪ ⋃ (delete j Ts).
Proof.
  revert j. induction Ts as [|T1 Ts IH]; intros [|j] Hj; cbn in *; [done|done|by injection Hj as ->|].
  rewrite (IH j Hj). apply union_swap.
Qed.

Lemma apart_at Ts j T : apart Ts -> Ts !! j = Some T -> T ## ⋃ (delete j Ts).
Proof.
  revert j. induction Ts as [|T1 Ts IH]; intros [|j] Hd Hj; cbn in *; [done|done| |]; destruct Hd as [H1 Hd];
    [by injection Hj as ->|].
  rewrite (union_at Ts j T Hj) in H1. specialize (IH j Hd Hj). by apply disjoint_swap.
Qed.

Lemma delete_insert_at Ts j T : delete j (<[j := T]> Ts) = delete j Ts.
Proof. revert j. induction Ts as [|T1 Ts IH]; intros [|j]; cbn; [done..|]. f_equal. apply IH. Qed.

Lemma apart_insert_at Ts j T T' : apart Ts -> Ts !! j = Some T -> T' ## ⋃ (delete j Ts) -> apart (<[j := T']> Ts).
Proof.
  revert j. induction Ts as [|T1 Ts IH]; intros [|j] Hd Hj HT; cbn in *; [done|done| |]; destruct Hd as [H1 Hd]; [done|].
  rewrite (union_at Ts j T Hj) in H1. split; [|apply (IH j); [done|done|set_solver]].
  rewrite (union_at (<[j := T']> Ts) j T'), delete_insert_at; [set_solver|].
  apply list_lookup_insert_eq. by eapply lookup_lt_Some.
Qed.

Lemma apart_replicate n : apart (replicate n (∅ : gset K)) /\ ⋃ replicate n (∅ : gset K) = ∅.
Proof. induction n as [|n [IH1 IH2]]; cbn; [done|]. rewrite IH2. split; [split; [set_solver|done]|set_solver]. Qed.
End Sets.

(** [may op T]: a request that holds [T] may issue [op]; [gives op T r T']: when
    it completed with [r] the request holds [T']; [inv T v]: the world is [v] and
    the tokens [T] are out. *)
Record ownership (E : Type -> Type) (V K : Type) `{Countable K} := {
  may : forall X, E X -> gset K -> bool;
  gives : forall X, E X -> gset K -> result X -> gset K -> Prop;
  inv : gset K -> V -> Prop;
}.
Arguments may {E V K _ _} _ {X}.
Arguments gives {E V K _ _} _ {X}.
Arguments inv {E V K _ _} _.

Section Ownership.
Context {E : Type -> Type} {V K : Type} `{Countable K}.
Variable own : ownership E V K.
Implicit Types (T F : gset K).

(** An operation may be taken under the specification [spec] of the world, also
    when the others hold [F]. *)
Definition own_law (spec : forall X, E X -> V -> result X -> V -> Prop) : Prop :=
  forall X (op : E X) T F v r v',
    T ## F -> inv own (T ∪ F) v -> may own op T = true -> spec X op v r v' ->
    exists T', gives own op T r T' /\ T' ## F /\ inv own (T' ∪ F) v'.

(** The specification of a request that sees only its tokens; [None] is the
    state after an operation it had no right to. *)
Definition own_spec (X : Type) (op : E X) (o : option (gset K)) (r : result X) (o' : option (gset K)) : Prop :=
  match o with
  | Some T => if may own op T then exists T', o' = Some T' /\ gives own op T r T' else o' = None
  | None => o' = None
  end.

Definition own_post {S A} (Q : result A -> gset K -> Prop) (r : result A) (s : S) (o : option (gset K)) : Prop :=
  match o with Some T => Q r T | None => False end.

(** The request [m] only does what its tokens allow, and ends with [Q]. *)
Definition owned {S A} (m : prog S E A) (Q : result A -> gset K -> Prop) (s : S) (T : gset K) : Prop :=
  wp own_spec m (own_post Q) s (Some T).

Lemma own_stuck {S A} (m : prog S E A) Q (s : S) : wp own_spec m (own_post Q) s None -> False.
Proof.
  revert s. induction m as [a|e|X op k IH|k IH|s' k IH]; cbn; intros s Hm; [done|done| |by eapply IH|by eapply IH].
  exact (IH (Err (JsError "")) s (Hm _ _ eq_refl)).
Qed.

Lemma own_call {S X} (op : E X) (Q : result X -> S -> option (gset K) -> Prop) s T :
  may own op T = true ->
  (forall r T', gives own op T r T' -> Q r s (Some T')) ->
  wp own_spec (call op) Q s (Some T).
Proof.
  intros Hm HQ. apply wp_call. intros r o'. cbn. rewrite Hm. intros (T' & -> & Hg). by apply HQ.
Qed.

(** ** Soundness *)

Section Sound.
Context {W S A : Type}.
Variable spec : forall X, E X -> V -> result X -> V -> Prop.
Variable hs : nat -> forall X, E X -> W -> result X * W.
Variable view : W -> V.
Hypothesis law : own_law spec.
Hypothesis Hhs : forall i X (op : E X) w, spec X op (view w) (hs i X op w).1 (view (hs i X op w).2).

Lemma own_step i (c : prog S E A * S) Q T F w :
  T ## F -> inv own (T ∪ F) (view w) -> owned c.1 Q c.2 T ->
  let '(c', w') := step (hs i) c w in
  exists T', T' ## F /\ inv own (T' ∪ F) (view w') /\ owned c'.1 Q c'.2 T'.
Proof.
  intros Hd Hi Hc. destruct c as [[a|e|X op k|k|s k] s0]; try by exists T.
  unfold owned in Hc. cbn [wp fst snd] in Hc. cbn [step fst snd].
  destruct (may own op T) eqn:Hm.
  - pose proof (law X op T F _ _ _ Hd Hi Hm (Hhs i X op w)) as (T' & Hg & Hd' & Hi').
    destruct (hs i X op w) as [r w']. cbn [fst snd] in *. exists T'. split_and!; [done|done|]. apply Hc.
    unfold own_spec. rewrite Hm. by exists T'.
  - exfalso. eapply own_stuck, (Hc (Err (JsError "")) None). unfold own_spec. by rewrite Hm.
Qed.

Lemma own_run i (m : prog S E A) Q s T F w :
  T ## F -> inv own (T ∪ F) (view w) -> owned m Q s T ->
  let '(r, _, w') := run (hs i) m s w in
  exists T', T' ## F /\ inv own (T' ∪ F) (view w') /\ Q r T'.
Proof.
  revert s T w. induction m as [a|e|X op k IH|k IH|s' k IH]; intros s T w Hd Hi Hm; cbn; try by exists T.
  - pose proof (own_step i (Do X op k, s) Q T F w Hd Hi Hm) as Hs. cbn in Hs.
    destruct (hs i X op w) as [r w']. destruct Hs as (T' & Hd' & Hi' & Hk). by apply (IH r s T').
  - by eapply IH.
  - by eapply IH.
Qed.

(** The tokens of a list of requests, and the rest [F]. *)
Definition owners (Q : nat -> result A -> gset K -> Prop) (i : nat) (cs : list (prog S E A * S)) (Os : list (gset K)) : Prop :=
  Forall2 (fun ic T => owned ic.2.1 (Q ic.1) ic.2.2 T) (imap (fun j c => (i + j, c)) cs) Os.

Lemma owners_lookup Q i cs Os j c :
  owners Q i cs Os -> cs !! j = Some c -> exists T, Os !! j = Some T /\ owned c.1 (Q (i + j)) c.2 T.
Proof.
  intros Ho Hc. destruct (Forall2_lookup_l _ _ _ j (i + j, c) Ho) as (T & HO & Hown); [|by exists T].
  by rewrite list_lookup_imap, Hc.
Qed.

Lemma owners_insert Q i cs Os j c T :
  owners Q i cs Os -> owned c.1 (Q (i + j)) c.2 T -> owners Q i (<[j := c]> cs) (<[j := T]> Os).
Proof.
  intros Ho Hc. unfold owners in *. apply Forall2_same_length_lookup in Ho as [Hl Ho].
  apply Forall2_same_length_lookup. rewrite length_imap in Hl. split; [by rewrite length_imap, !length_insert|].
  intros k ic T'. rewrite list_lookup_imap. intros Hk HO'.
  destruct (decide (j = k)) as [<-|Hne].
  - assert (j < length cs) as Hj by (apply lookup_lt_Some in HO'; rewrite length_insert in HO'; lia).
    rewrite list_lookup_insert_eq in Hk by done. rewrite list_lookup_insert_eq in HO' by lia.
    cbn in Hk. injection Hk as <-. by injection HO' as <-.
  - rewrite list_lookup_insert_ne in Hk by done. rewrite list_lookup_insert_ne in HO' by done.
    apply (Ho k); [|done]. by rewrite list_lookup_imap.
Qed.

Lemma finish_sound Q i cs Os F w :
  apart (F :: Os) -> inv own (F ∪ ⋃ Os) (view w) -> owners Q i cs Os ->
  let '(rs, w') := finish hs i cs w in
  exists Os', apart (F :: Os') /\ inv own (F ∪ ⋃ Os') (view w') /\
    Forall2 (fun ir T => Q ir.1 ir.2 T) (imap (fun j r => (i + j, r)) rs) Os'.
Proof.
  revert i Os F w. induction cs as [|c cs IH]; intros i Os F w Hd Hi Ho.
  - apply Forall2_nil_inv_l in Ho as ->. cbn. by exists [].
  - cbn in Ho. apply Forall2_cons_inv_l in Ho as (T & Os1 & Hc & Ho & ->). cbn [fst snd] in Hc.
    rewrite Nat.add_0_r in Hc. unfold compose in Ho.
    assert (owners Q (1 + i) cs Os1) as Ho1.
    { unfold owners. rewrite (imap_ext _ (fun j c => (i + Datatypes.S j, c))); [done|]. intros j x _. f_equal. lia. }
    cbn [finish]. apply apart_frame in Hd as [HT Hd]. cbn [union_list foldr] in Hi.
    change (F ∪ ⋃ (T :: Os1)) with (F ∪ (T ∪ ⋃ Os1)) in Hi. rewrite <- union_swap in Hi.
    pose proof (own_run i c.1 (Q i) c.2 T _ w HT Hi Hc) as Hr.
    destruct (run (hs i) c.1 c.2 w) as [[r s] w1]. destruct Hr as (T' & HT' & Hi' & Hq).
    specialize (IH (1 + i) Os1 (T' ∪ F) w1). rewrite <- union_assoc_L in IH.
    destruct (finish hs (1 + i) cs w1) as [rs w2]. destruct IH as (Os' & Hd' & Hi2 & Hq').
    + by apply apart_grow.
    + done.
    + done.
    + exists (T' :: Os'). split_and!.
      * apply apart_back; [|done]. by apply disjoint_union_r in HT' as [? _].
      * change (F ∪ ⋃ (T' :: Os')) with (F ∪ (T' ∪ ⋃ Os')). rewrite <- union_swap. by rewrite union_assoc_L.
      * cbn. constructor; [by rewrite Nat.add_0_r|]. unfold compose.
        rewrite (imap_ext _ (fun j r => (1 + i + j, r))); [done|]. intros j x _. f_equal. lia.
Qed.

(** Under any schedule, requests that respect their tokens end with disjoint
    sets of tokens and the world in order. *)
Lemma run_many_sound (Q : nat -> result A -> gset K -> Prop) schedule (cs : list (prog S E A * S)) w :
  inv own ∅ (view w) ->
  (forall i c, cs !! i = Some c -> owned c.1 (Q i) c.2 ∅) ->
  let '(rs, w') := run_many hs schedule cs w in
  exists Os, apart Os /\ inv own (⋃ Os) (view w') /\
    forall i r, rs !! i = Some r -> exists T, Os !! i = Some T /\ Q i r T.
Proof.
  intros Hi Hcs.
  assert (exists Os, apart Os /\ inv own (⋃ Os) (view w) /\ owners Q 0 cs Os) as (Os & Hd & Hi' & Ho).
  { exists (replicate (length cs) ∅). destruct (apart_replicate (K := K) (length cs)) as [Ha Hu].
    split_and!; [done|by rewrite Hu|].
    - apply Forall2_same_length_lookup. split; [by rewrite length_imap, length_replicate|].
      intros j ic T. rewrite list_lookup_imap. destruct (cs !! j) as [c|] eqn:Hc; [|done].
      intros [= <-] [-> _]%lookup_replicate. by apply Hcs. }
  clear Hi Hcs. revert cs w Os Hd Hi' Ho. induction schedule as [|j schedule IH]; intros cs w Os Hd Hi Ho; cbn [run_many].
  - pose proof (finish_sound Q 0 cs Os ∅ w) as Hf. destruct (finish hs 0 cs w) as [rs w'].
    destruct Hf as (Os' & Hd' & Hi' & Hq).
    + split; [apply disjoint_empty_l|done].
    + by rewrite union_empty_l_L.
    + done.
    + exists Os'. rewrite union_empty_l_L in Hi'. split_and!; [by destruct Hd'|done|].
      * intros i r Hr. destruct (Forall2_lookup_l _ _ _ i (i, r) Hq) as (T & HO & HQ); [|by exists T].
        by rewrite list_lookup_imap, Hr.
  - destruct (cs !! j) as [c|] eqn:Hc; [|by eapply IH].
    destruct (owners_lookup Q 0 cs Os j c Ho Hc) as (T & HO & Hown).
    pose proof (own_step j c (Q j) T (⋃ (delete j Os)) w) as Hs.
    destruct (step (hs j) c w) as [c' w']. destruct Hs as (T' & HO' & Hi' & Hown').
    + by apply apart_at.
    + by rewrite <- union_at.
    + done.
    + apply (IH _ _ (<[j := T']> Os)).
      * by eapply apart_insert_at.
      * rewrite (union_at _ j T'), delete_insert_at; [done|]. apply list_lookup_insert_eq. by eapply lookup_lt_Some.
      * by apply owners_insert.
Qed.
End Sound.
End Ownership.
