(* ===== verification/RateLimit.v ===== *)
(** * RateLimitInterceptor

    apps/api-gateway/src/rate-limit/rate-limit.interceptor.ts: a sliding window
    over a Redis sorted set per client address, method and URL.  The local
    object is the response: the headers set on it and, when the request is
    refused, the [retryAfter] of the exception's body.  [next.handle()] returns
    an observable that runs after the interceptor, so a handler's error never
    reaches the [catch] block; the interceptor returning stands for it. *)

From S2P Require Import Prelude Effects Interleave JsNumber JsDate Json Sql Sha256 AuthWorld AuthRef UserService AuthService AuthGuard GatewayWorld.
From Stdlib Require Import Ascii.

(** rate-limit.interface.ts *)
Record RateLimitConfig := mkRateLimitConfig { windowMs : Z; max : Z }.

(** An HTTP response under construction; [None] as a value is [NaN]. *)
Record Res := mkRes {
  res_headers : list (string * option Z);
  res_retryAfter : option (option Z);
}.

Definition setHeader (name : string) (value : option Z) (r : Res) : Res :=
  mkRes (res_headers r ++ [(name, value)]) (res_retryAfter r).
Definition set_retryAfter (x : option Z) (r : Res) : Res := mkRes (res_headers r) (Some x).

Definition too_many : exn :=
  Exn "HttpException" "Too many requests, please try again later" None (Some 429%Z).

(** [parseInt] of a decimal text. *)
Definition parseInt (s : string) : option Z :=
  let s := skip_spaces s in
  let '(neg, s) :=
    match s with
    | String "-" t => (true, t)
    | String "+" t => (false, t)
    | _ => (false, s)
    end in
  let '(n, len, _) := take_digits s 0 0 in
  if Nat.eqb len 0 then None else Some (if neg then - Z.of_N n else Z.of_N n)%Z.

(** [Math.ceil(x / 1000)] *)
Definition ceil_seconds (x : Z) : Z := (- ((- x) / 1000))%Z.

Definition header_or (r : Request) (name fallback : string) : string :=
  match rq_headers r !! name with Some x => str_or x fallback | None => fallback end.

(** [request.ip || request.headers['x-forwarded-for'] || 'unknown'] *)
Definition client_ip (r : Request) : string :=
  opt_str_or (rq_ip r) (header_or r "x-forwarded-for" "unknown").

(** [request.url] is the path with its query string. *)
Definition rate_key (r : Request) : string :=
  "rate-limit:" +:+ client_ip r +:+ ":" +:+ rq_method r +:+ ":" +:+ rq_originalUrl r.

(** The [try] block. *)
Definition window_check (config : RateLimitConfig) (request : Request) : prog Res GatewayE unit :=
  let key := rate_key request in
  now <- call GNow ;;
  let windowStart := (now - windowMs config)%Z in
  call (GZRemRangeByScore key 0 windowStart) ;;
  count <- call (GZCard key) ;;
  modify (setHeader "X-RateLimit-Limit" (Some (max config))) ;;
  modify (setHeader "X-RateLimit-Remaining" (Some (Z.max 0 (max config - count - 1)))) ;;
  (if Z.leb (max config) count then
     oldestEntry <- call (GZRange00 key) ;;
     let resetTime :=
       match oldestEntry with
       | _ :: second :: _ => option_map (fun t => t + windowMs config)%Z (parseInt second)
       | _ => Some (now + windowMs config)%Z
       end in
     modify (setHeader "X-RateLimit-Reset" resetTime) ;;
     let retryAfter := option_map (fun t => ceil_seconds (t - now)) resetTime in
     modify (set_retryAfter retryAfter) ;;
     Throw too_many
   else Ret tt) ;;
  rnd <- call GRandom ;;
  call (GZAdd key now (Z_to_string now +:+ ":" +:+ rnd)) ;;
  call (GPExpire key (windowMs config)).

(** [intercept]; returning means that [next.handle()] is returned. *)
Definition intercept (config : option RateLimitConfig) (request : Request) : prog Res GatewayE unit :=
  match config with
  | None => Ret tt
  | Some config =>
      try_catch (window_check config request)
        (fun error => if String.eqb (ename error) "HttpException" then Throw error else Ret tt)
  end.

Definition fresh_response : Res := mkRes [] None.

(** ** Sorted sets *)

Lemma zlive_zput key m d v :
  zlive (zput key m d v) key = if alive (clock v) (mkZEntry m d) then m else ∅.
Proof.
  unfold zlive, zput. cbn [zsets clock with_zsets]. destruct (decide (m = ∅)) as [->|Hne].
  - rewrite lookup_delete_eq. by destruct (alive _ _).
  - by rewrite lookup_insert_eq.
Qed.

Lemma zlive_zput_ne key key' m d v : key <> key' -> zlive (zput key m d v) key' = zlive v key'.
Proof.
  intros Hne. unfold zlive, zput. cbn [zsets clock with_zsets].
  destruct (decide (m = ∅)); [by rewrite lookup_delete_ne|by rewrite lookup_insert_ne].
Qed.

Lemma zexpiry_zput key m d v :
  zexpiry (zput key m d v) key = if decide (m = ∅) then None else if alive (clock v) (mkZEntry m d) then d else None.
Proof.
  unfold zexpiry, zput. cbn [zsets clock with_zsets]. destruct (decide (m = ∅)) as [->|Hne].
  - by rewrite lookup_delete_eq.
  - by rewrite lookup_insert_eq.
Qed.

Lemma zexpiry_zput_ne key key' m d v : key <> key' -> zexpiry (zput key m d v) key' = zexpiry v key'.
Proof.
  intros Hne. unfold zexpiry, zput. cbn [zsets clock with_zsets].
  destruct (decide (m = ∅)); [by rewrite lookup_delete_ne|by rewrite lookup_insert_ne].
Qed.

(** The deadline of a live key is ahead. *)
Lemma zexpiry_ahead v key d : zexpiry v key = Some d -> (clock v < d)%Z.
Proof.
  unfold zexpiry, alive. destruct (zsets v !! key) as [[m [d'|]]|]; cbn; [|done|done].
  destruct (Z.ltb_spec (clock v) d'); [by intros [= <-]|done].
Qed.

(** Storing with the deadline the key has keeps it alive. *)
Lemma alive_expiry v key m : alive (clock v) (mkZEntry m (zexpiry v key)) = true.
Proof.
  unfold alive. cbn. destruct (zexpiry v key) as [d|] eqn:Hd; [|done].
  apply Z.ltb_lt. by eapply zexpiry_ahead.
Qed.

(** Advancing the clock. *)
Lemma zlive_clock v key t :
  (clock v <= t)%Z ->
  zlive (with_clock t v) key = zlive v key \/
  (zlive (with_clock t v) key = ∅ /\ exists d, zexpiry v key = Some d /\ (d <= t)%Z).
Proof.
  intros Hle. unfold zlive, zexpiry. cbn [zsets clock with_clock]. destruct (zsets v !! key) as [e|]; [|by left].
  unfold alive. destruct (zdeadline e) as [d|] eqn:Hd; [|by left].
  destruct (Z.ltb_spec t d), (Z.ltb_spec (clock v) d); [by left|lia| |by left].
  right. split; [done|]. by exists d.
Qed.

Lemma zexpiry_clock v key t d : zexpiry (with_clock t v) key = Some d -> (clock v <= t)%Z -> zexpiry v key = Some d.
Proof.
  unfold zexpiry. cbn [zsets clock with_clock]. destruct (zsets v !! key) as [e|]; [|done].
  unfold alive. destruct (zdeadline e) as [d'|]; [|done].
  destruct (Z.ltb_spec t d'); [|done]. intros [= <-] Hle. by rewrite (proj2 (Z.ltb_lt _ _)) by lia.
Qed.

(** ** Members *)

(** A member tells its score: the digits before the colon. *)
Lemma member_score a b r r' :
  (0 <= a)%Z -> (0 <= b)%Z -> Z_to_string a +:+ ":" +:+ r = Z_to_string b +:+ ":" +:+ r' -> a = b.
Proof.
  intros Ha Hb. unfold Z_to_string. rewrite !(proj2 (Z.ltb_ge _ 0)) by done. intros H.
  apply (f_equal (fun s => take_digits s 0 0)) in H. rewrite !take_digits_N in H by done. injection H as H _. lia.
Qed.

(** ** The window invariant *)

(** The members ever added under a key, with their scores. *)
Definition entries_of (key : string) (v : GatewayView) : list (string * Z) :=
  map (fun x => (x.1.2, x.2)) (List.filter (fun x => String.eqb x.1.1 key) (added v)).

Definition in_window (ms t : Z) (x : string * Z) : bool := Z.ltb (t - ms) x.2 && Z.leb x.2 t.

(** How many requests of the key were admitted in the [ms] milliseconds up to [t]. *)
Definition window_count (key : string) (ms t : Z) (v : GatewayView) : nat :=
  length (List.filter (in_window ms t) (entries_of key v)).

(** The different members among them: two requests share one if they were
    admitted in the same millisecond and drew the same number. *)
Definition window_members (key : string) (ms t : Z) (v : GatewayView) : gset (string * Z) :=
  list_to_set (List.filter (in_window ms t) (entries_of key v)).

(** What Redis knows of a key is what was admitted under it, as far as the
    current window reaches. *)
Record window_inv (key : string) (ms limit : Z) (v : GatewayView) : Prop := {
  wi_clock : (0 <= clock v)%Z;
  wi_nonneg : forall x, x ∈ entries_of key v -> (0 <= x.2)%Z;
  wi_only : forall m s, zlive v key !! m = Some s -> (m, s) ∈ entries_of key v;
  wi_past : forall x, x ∈ entries_of key v -> (x.2 <= clock v)%Z;
  wi_member : forall x, x ∈ entries_of key v -> exists r, x.1 = Z_to_string x.2 +:+ ":" +:+ r;
  wi_live : forall x, x ∈ entries_of key v -> (clock v < x.2 + ms)%Z -> zlive v key !! x.1 = Some x.2;
  wi_exp : forall d x, zexpiry v key = Some d -> x ∈ entries_of key v -> (x.2 + ms <= d)%Z;
  wi_count : forall t, (Z.of_nat (base.size (window_members key ms t v)) <= Z.max 0 limit)%Z;
}.

Lemma elem_of_window key ms t v x :
  x ∈ window_members key ms t v <-> x ∈ entries_of key v /\ in_window ms t x = true.
Proof. unfold window_members. by rewrite elem_of_list_to_set, elem_of_filterb. Qed.

(** Without a shared member, the members are the requests. *)
Lemma window_members_count key ms t v :
  NoDup (List.filter (in_window ms t) (entries_of key v)) ->
  base.size (window_members key ms t v) = window_count key ms t v.
Proof. intros H. unfold window_members, window_count. by apply size_list_to_set. Qed.

Lemma members_in_map_size (X : gset (string * Z)) (m : gmap string Z) :
  (forall x, x ∈ X -> m !! x.1 = Some x.2) -> (base.size X <= base.size m)%nat.
Proof.
  intros Hin. rewrite <- length_map_to_list, <- (size_list_to_set (C := gset _)) by apply NoDup_map_to_list.
  apply subseteq_size. intros [i s] Hx. apply elem_of_list_to_set, elem_of_map_to_list. by apply (Hin (i, s)).
Qed.

(** A window that ends now or later holds at most the live members. *)
Lemma window_live key ms limit v t :
  window_inv key ms limit v -> (clock v <= t)%Z ->
  (base.size (window_members key ms t v) <= base.size (zlive v key))%nat.
Proof.
  intros H Ht. apply members_in_map_size. intros x [Hx Hw]%elem_of_window. unfold in_window in Hw.
  apply andb_true_iff in Hw as [Hw%Z.ltb_lt _]. eapply wi_live; [done|done|].
  pose proof (wi_past _ _ _ _ H x Hx). lia.
Qed.

Lemma inv_clock key ms limit v t :
  window_inv key ms limit v -> (clock v <= t)%Z -> window_inv key ms limit (with_clock t v).
Proof.
  intros H Ht. destruct H as [H0 Hs Ho Hp Hm Hl He Hc]. split; try done; cbn [clock with_clock].
  - lia.
  - intros m s. destruct (zlive_clock v key t Ht) as [->|[-> _]]; [apply Ho|by rewrite lookup_empty].
  - intros x Hx. specialize (Hp x Hx). lia.
  - intros x Hx Hlt. specialize (Hl x Hx ltac:(lia)).
    destruct (zlive_clock v key t Ht) as [->|(_ & d & Hd' & Hle)]; [done|].
    pose proof (He d x Hd' Hx). lia.
  - intros d x Hx. eapply He. by eapply zexpiry_clock.
Qed.

(** Dropping what left the window. *)
Lemma inv_purge key ms limit v :
  window_inv key ms limit v ->
  window_inv key ms limit (zput key (zoutside 0 (clock v - ms) (zlive v key)) (zexpiry v key) v).
Proof.
  intros [H0 Hs Ho Hp Hm Hl He Hc]. split; try done.
  - intros m s. rewrite zlive_zput, alive_expiry. intros [Hs' _]%map_lookup_filter_Some. by apply Ho.
  - intros x Hx Hlt. rewrite zlive_zput, alive_expiry. unfold zoutside.
    apply map_lookup_filter_Some. split; [by apply Hl|]. cbn. cbn in Hlt. unfold in_range.
    apply andb_false_iff. right. apply Z.leb_gt. lia.
  - intros d x. rewrite zexpiry_zput, alive_expiry. destruct (decide _); [done|]. apply He.
Qed.

(** Another key's set does not matter. *)
Lemma inv_zput_ne key key' m d ms limit v :
  key' <> key -> window_inv key ms limit v -> window_inv key ms limit (zput key' m d v).
Proof.
  intros Hne [H0 Hs Ho Hp Hm Hl He Hc]. split; try done.
  - intros m' s. rewrite zlive_zput_ne by done. apply Ho.
  - intros x Hx Hlt. rewrite zlive_zput_ne by done. by apply Hl.
  - intros d' x. rewrite zexpiry_zput_ne by done. apply He.
Qed.

Lemma entries_added key key' m s v :
  entries_of key (with_added (added v ++ [(key', m, s)]) v) =
  entries_of key v ++ (if String.eqb key' key then [(m, s)] else []).
Proof.
  unfold entries_of. cbn [added with_added]. rewrite List.filter_app, map_app. f_equal. cbn.
  by destruct (String.eqb key' key).
Qed.

Lemma inv_added_ne key key' m s ms limit v :
  key' <> key -> window_inv key ms limit v ->
  window_inv key ms limit (with_added (added v ++ [(key', m, s)]) v).
Proof.
  intros Hne [H0 Hs Ho Hp Hm Hl He Hc].
  assert (entries_of key (with_added (added v ++ [(key', m, s)]) v) = entries_of key v) as Heq.
  { rewrite entries_added. apply String.eqb_neq in Hne. rewrite Hne. apply app_nil_r. }
  split; unfold window_members; rewrite ?Heq; try done.
Qed.

(** Admitting a request: add, set the expiry. *)
Definition admission (key : string) (ms : Z) (r : string) (v : GatewayView) : GatewayView :=
  let m := Z_to_string (clock v) +:+ ":" +:+ r in
  let v2 := with_added (added v ++ [(key, m, clock v)])
              (zput key (<[m := clock v]> (zlive v key)) (zexpiry v key) v) in
  zput key (zlive v2 key) (Some (clock v2 + ms)%Z) v2.

Lemma zlive_admit key ms r v m :
  m = Z_to_string (clock v) +:+ ":" +:+ r ->
  zlive (admission key ms r v) key = if Z.ltb 0 ms then <[m := clock v]> (zlive v key) else ∅.
Proof.
  intros ->. unfold admission. rewrite zlive_zput. unfold alive. cbn [zdeadline clock with_added zput with_zsets].
  change (zlive (with_added ?l (zput key ?a ?b v)) key) with (zlive (zput key a b v) key).
  rewrite zlive_zput, alive_expiry. destruct (Z.ltb_spec (clock v) (clock v + ms)), (Z.ltb_spec 0 ms); done || lia.
Qed.

Lemma entries_admit key ms r v :
  entries_of key (admission key ms r v) =
  entries_of key v ++ [(Z_to_string (clock v) +:+ ":" +:+ r, clock v)].
Proof.
  change (entries_of key (with_added (added v ++ [(key, Z_to_string (clock v) +:+ ":" +:+ r, clock v)]) v) =
    entries_of key v ++ [(Z_to_string (clock v) +:+ ":" +:+ r, clock v)]).
  by rewrite entries_added, String.eqb_refl.
Qed.

Lemma inv_admit key ms limit r v :
  window_inv key ms limit v -> (Z.of_nat (base.size (zlive v key)) < limit)%Z ->
  window_inv key ms limit (admission key ms r v).
Proof.
  intros H Hsize. pose proof H as [H0 Hs Ho Hp Hm Hl He Hc].
  set (m := Z_to_string (clock v) +:+ ":" +:+ r).
  pose proof (entries_admit key ms r v) as Heq. fold m in Heq.
  split; rewrite ?Heq.
  - done.
  - intros x [Hx| ->%list_elem_of_singleton]%elem_of_app; [by apply Hs|done].
  - intros m' s. rewrite (zlive_admit key ms r v m eq_refl).
    destruct (Z.ltb 0 ms); [|by rewrite lookup_empty].
    intros [[<- <-]|[_ Hm']]%lookup_insert_Some; apply elem_of_app; [right; by left|left; by apply Ho].
  - intros x [Hx| ->%list_elem_of_singleton]%elem_of_app; [by apply Hp|done].
  - intros x [Hx| ->%list_elem_of_singleton]%elem_of_app; [by apply Hm|by exists r].
  - intros x Hx Hlt. change (clock (admission key ms r v)) with (clock v) in Hlt.
    rewrite (zlive_admit key ms r v m eq_refl).
    apply elem_of_app in Hx as [Hx| ->%list_elem_of_singleton].
    + rewrite (proj2 (Z.ltb_lt _ _)) by (pose proof (Hp x Hx); lia).
      destruct (decide (m = x.1)) as [Heq1|Hne]; [|by rewrite lookup_insert_ne; [apply Hl|]].
      rewrite Heq1, lookup_insert_eq. f_equal. destruct (Hm x Hx) as [r' Hr'].
      rewrite Hr' in Heq1. by apply member_score in Heq1; [|done|apply Hs].
    + cbn in Hlt |- *. rewrite (proj2 (Z.ltb_lt _ _)) by lia. by rewrite lookup_insert_eq.
  - intros d x. unfold admission. cbv zeta. rewrite zexpiry_zput. destruct (decide _); [done|].
    destruct (alive _ _); [|done]. intros [= <-] [Hx| ->%list_elem_of_singleton]%elem_of_app; cbn; [|lia].
    specialize (Hp x Hx). lia.
  - intros t. specialize (Hc t). unfold window_members in *. rewrite Heq, List.filter_app, list_to_set_app_L. cbn [List.filter].
    destruct (in_window ms t (m, clock v)) eqn:Hw; cbn [list_to_set]; [|by rewrite union_empty_r_L].
    unfold in_window in Hw. apply andb_true_iff in Hw as [_ Hw%Z.leb_le]. cbn in Hw.
    pose proof (window_live key ms limit v t H Hw) as Hlive. unfold window_members in Hlive.
    rewrite union_empty_r_L, size_union_alt.
    set (X := list_to_set _ : gset (string * Z)) in *. fold X in Hc |- *.
    pose proof (subseteq_size ({[(m, clock v)]} ∖ X) {[(m, clock v)]} ltac:(set_solver)) as Hone.
    rewrite size_singleton in Hone. lia.
Qed.

Lemma inv_admit_ne key key' ms ms' limit r v :
  key' <> key -> window_inv key ms limit v -> window_inv key ms limit (admission key' ms' r v).
Proof.
  intros Hne Hv. unfold admission. cbv zeta. apply inv_zput_ne; [done|].
  refine (inv_added_ne key key' _ _ ms limit (zput key' _ _ _) Hne _). by apply inv_zput_ne.
Qed.

(** After the purge Redis holds exactly the requests of the current window. *)
Definition purge (key : string) (ms : Z) (v : GatewayView) : GatewayView :=
  zput key (zoutside 0 (clock v - ms) (zlive v key)) (zexpiry v key) v.

Lemma purged_count key ms limit v :
  window_inv key ms limit v ->
  base.size (zlive (purge key ms v) key) = base.size (window_members key ms (clock v) v).
Proof.
  intros H. apply Nat.le_antisymm.
  - rewrite <- length_map_to_list, <- (size_list_to_set (C := gset _)) by apply NoDup_map_to_list.
    apply subseteq_size. intros [m s] Hm%elem_of_list_to_set%elem_of_map_to_list. unfold purge in Hm.
    rewrite zlive_zput, alive_expiry in Hm.
    apply map_lookup_filter_Some in Hm as [Hm Hr]. apply (wi_only _ _ _ _ H) in Hm.
    apply elem_of_window. split; [done|]. cbn in Hr. unfold in_range in Hr.
    pose proof (wi_nonneg _ _ _ _ H _ Hm) as Hs. pose proof (wi_past _ _ _ _ H _ Hm) as Hp. cbn in Hs, Hp.
    rewrite (proj2 (Z.leb_le 0 s)) in Hr by done. cbn [andb] in Hr. apply Z.leb_gt in Hr.
    unfold in_window. cbn. apply andb_true_iff. split; [by apply Z.ltb_lt|by apply Z.leb_le].
  - apply (window_live key ms limit (purge key ms v)); [by apply inv_purge|done].
Qed.

(** ** Proof rules *)

(** The headers of a checked request. *)
Definition limit_headers (config : RateLimitConfig) (count : Z) : list (string * option Z) :=
  [("X-RateLimit-Limit", Some (max config)); ("X-RateLimit-Remaining", Some (Z.max 0 (max config - count - 1)))]%string.

Section Proofs.
Abbreviation spec := (obeys Reliable gw_behaviour).

Lemma gw_wp {X} (op : GatewayE X) (Q : result X -> Res -> GatewayView -> Prop) s v :
  (forall x v', gw_ok op v x v' -> Q (Ok x) s v') -> wp spec (call op) Q s v.
Proof.
  intros HQ. wp_step. intros [x|e] v1 H; [by apply HQ|]. by destruct H as [_ [[]|[[=] _]]].
Qed.

Lemma intercept_wp config request (Q : result unit -> Res -> GatewayView -> Prop) v :
  let key := rate_key request in
  let ms := windowMs config in
  (forall now, (clock v <= now)%Z ->
     let v1 := purge key ms (with_clock now v) in
     let count := Z.of_nat (base.size (zlive v1 key)) in
     (count < max config)%Z -> forall r,
     Q (Ok tt) (mkRes (limit_headers config count) None) (admission key ms r v1)) ->
  (forall now, (clock v <= now)%Z ->
     let v1 := purge key ms (with_clock now v) in
     let count := Z.of_nat (base.size (zlive v1 key)) in
     (max config <= count)%Z ->
     Q (Err too_many)
       (mkRes (limit_headers config count ++ [("X-RateLimit-Reset"%string, Some (now + ms)%Z)])
          (Some (Some (ceil_seconds ms)))) v1) ->
  wp spec (intercept (Some config) request) Q fresh_response v.
Proof.
  cbv zeta. intros HA HR. unfold intercept, window_check. cbv zeta. wp_step.
  wp_step. apply gw_wp. intros now v' [Hnow ->]. cbv beta iota.
  wp_step. apply gw_wp. intros [] v' ->. cbv beta iota.
  change (now - windowMs config)%Z with (clock (with_clock now v) - windowMs config)%Z at 1.
  fold (purge (rate_key request) (windowMs config) (with_clock now v)).
  set (v1 := purge _ _ _). wp_step. apply gw_wp. intros count v' [-> ->]. cbv beta iota.
  wp_step. wp_step. wp_step. wp_step.
  destruct (Z.leb_spec (max config) (Z.of_nat (base.size (zlive v1 (rate_key request))))) as [Hle|Hlt].
  - wp_step. wp_step. apply gw_wp. intros l v' [-> Hl].
    assert (match l with
            | _ :: second :: _ => option_map (fun t => t + windowMs config)%Z (parseInt second)
            | _ => Some (now + windowMs config)%Z
            end = Some (now + windowMs config)%Z) as -> by (by destruct l as [|x [|y l]]).
    specialize (HR now Hnow Hle).
    replace (ceil_seconds (windowMs config)) with (ceil_seconds (now + windowMs config - now)) in HR
      by (f_equal; lia).
    exact HR.
  - wp_step. wp_step. wp_step. apply gw_wp. intros r v' ->. cbv beta iota.
    wp_step. apply gw_wp. intros [] v' ->. cbv beta iota.
    apply gw_wp. intros [] v' ->. by apply (HA now Hnow Hlt r).
Qed.

Lemma intercept_inv key ms limit config request v :
  (rate_key request = key -> config = None \/ config = Some (mkRateLimitConfig ms limit)) ->
  window_inv key ms limit v ->
  wp spec (intercept config request) (fun _ _ v' => window_inv key ms limit v') fresh_response v.
Proof.
  intros Hc Hv. destruct config as [config|]; [|done]. apply intercept_wp; cbv zeta; intros now Hnow.
  - intros Hlt r. pose proof (inv_clock _ _ _ _ now Hv Hnow) as Hv1.
    destruct (decide (rate_key request = key)) as [<-|Hne].
    + destruct Hc as [[=]|[= ->]]; [done|]. apply inv_admit; [by apply inv_purge|done].
    + by apply inv_admit_ne, inv_zput_ne.
  - intros _. pose proof (inv_clock _ _ _ _ now Hv Hnow) as Hv1.
    destruct (decide (rate_key request = key)) as [<-|Hne]; [|by apply inv_zput_ne].
    destruct Hc as [[=]|[= ->]]; [done|]. by apply inv_purge.
Qed.

Lemma wp_trivial {E V S A} (sp : forall X, E X -> V -> result X -> V -> Prop) (m : prog S E A) s v :
  wp sp m (fun _ _ _ => True) s v.
Proof. revert s v. induction m; cbn; auto. Qed.
End Proofs.

(** The commands of the limiter send nothing to the services. *)
Lemma limiter_forwards_nothing md config request (Q : result unit -> Res -> GatewayView -> Prop) s v :
  (forall r s' v', forwarded v' = forwarded v -> Q r s' v') ->
  wp (obeys md gw_behaviour) (intercept config request) Q s v.
Proof.
  intros HQ. destruct config as [config|]; [|by apply HQ]. unfold intercept. wp_step.
  apply wp_mono with (Q := fun _ _ v' => forwarded v' = forwarded v).
  2: { intros [[]|e] s' v' Hv'; [by apply HQ|]. destruct (String.eqb _ _); by apply HQ. }
  assert (forall {X} (op : GatewayE X) (m : result X -> prog Res GatewayE unit) s0 v0,
    match op with GHttp _ => False | _ => True end -> forwarded v0 = forwarded v ->
    (forall r s1 v1, forwarded v1 = forwarded v ->
       wp (obeys md gw_behaviour) (m r) (fun _ _ v' => forwarded v' = forwarded v) s1 v1) ->
    wp (obeys md gw_behaviour) (Do X op m) (fun _ _ v' => forwarded v' = forwarded v) s0 v0) as Hop.
  { intros X op m s0 v0 Hno Hv0 Hm. cbn. intros [x|e] v1 H; apply Hm.
    - by destruct op; cbn in H; destruct_and?; subst.
    - by destruct H as [-> _]. }
  unfold window_check, call, of_result. cbn [bind].
  repeat (first [apply Hop; [done|done|]; intros [?|?] ? ? ?; cbn [bind wp]; try done
                | cbn [bind wp modify]]).
  destruct (Z.leb _ _); cbn [bind wp]; repeat (apply Hop; [done|done|]; intros [?|?] ? ? ?; cbn; try done).
Qed.

(** ** Properties *)

(** The requests of a history, one after the other. *)
Definition serve_history {W} (h : forall X, GatewayE X -> W -> result X * W)
    (hist : list (option RateLimitConfig * Request)) (w : W) : W :=
  foldl (fun w cr => final h (intercept cr.1 cr.2) fresh_response w) w hist.

(** Nothing was admitted under the key yet. *)
Definition unused (key : string) (v : GatewayView) : Prop :=
  (0 <= clock v)%Z /\ entries_of key v = [] /\ zsets v !! key = None.

Lemma unused_inv key ms limit v : unused key v -> window_inv key ms limit v.
Proof.
  intros (H0 & He & Hz). split; unfold window_members, zlive, zexpiry; rewrite ?He, ?Hz; try done.
  - intros x Hx. by apply not_elem_of_nil in Hx.
  - intros x Hx. by apply not_elem_of_nil in Hx.
  - intros x Hx. by apply not_elem_of_nil in Hx.
  - intros x Hx. by apply not_elem_of_nil in Hx.
  - intros t. cbn. rewrite size_empty. lia.
Qed.

Section Properties.
Context {W : Type}.
Variable h : forall X, GatewayE X -> W -> result X * W.
Variable view : W -> GatewayView.
Hypothesis Hh : conforms Reliable gw_behaviour h view.

Lemma history_inv key ms limit hist w :
  (forall c r, (c, r) ∈ hist -> rate_key r = key -> c = None \/ c = Some (mkRateLimitConfig ms limit)) ->
  window_inv key ms limit (view w) -> window_inv key ms limit (view (serve_history h hist w)).
Proof.
  revert w. induction hist as [|[c r] hist IH]; intros w Hc Hv; cbn; [done|].
  apply IH; [intros c' r' Hin; apply Hc; by right|].
  call_wp Hh w. apply intercept_inv; [|done]. apply Hc. by left.
Qed.


(** The limiter refuses nobody else: after any history, a request is
    admitted exactly when fewer than [max] different members of its key were
    admitted in the window that ends now; it is then recorded.  A refusal is the 429 with
    the headers and always names the whole window as the time to wait. *)
Theorem intercept_exact key config hist request w :
  unused key (view w) -> rate_key request = key ->
  (forall c r, (c, r) ∈ hist -> rate_key r = key -> c = None \/ c = Some config) ->
  let w1 := serve_history h hist w in
  let v := view w1 in
  let v' := view (final h (intercept (Some config) request) fresh_response w1) in
  let res := object h (intercept (Some config) request) fresh_response w1 in
  let count now := Z.of_nat (base.size (window_members key (windowMs config) now v)) in
  exists now, (clock v <= now)%Z /\
    match outcome h (intercept (Some config) request) fresh_response w1 with
    | Ok _ =>
        (count now < max config)%Z /\ (exists m, entries_of key v' = entries_of key v ++ [(m, now)]) /\
        res_headers res = limit_headers config (count now)
    | Err e =>
        (max config <= count now)%Z /\ e = too_many /\ entries_of key v' = entries_of key v /\
        res_headers res = limit_headers config (count now) ++ [("X-RateLimit-Reset"%string, Some (now + windowMs config)%Z)] /\
        res_retryAfter res = Some (Some (ceil_seconds (windowMs config)))
    end.
Proof.
  intros Hu <- Hc w1. assert (window_inv (rate_key request) (windowMs config) (max config) (view w1)) as Hv.
  { apply history_inv; [|by apply unused_inv]. intros c r Hin Hr. destruct config as [a b]. by apply (Hc c r). }
  cbv zeta. call_object_wp Hh w1. apply intercept_wp; cbv zeta; intros now Hnow;
    rewrite (purged_count _ _ _ _ (inv_clock _ _ _ _ now Hv Hnow)); cbn [clock with_clock];
    change (window_members (rate_key request) (windowMs config) now (with_clock now (view w1))) with
      (window_members (rate_key request) (windowMs config) now (view w1)).
  - intros Hlt r. exists now. split_and!; [done|done| |done].
    eexists. by rewrite entries_admit.
  - intros Hle. by exists now.
Qed.
End Properties.

(** Redis failures never refuse a request: whatever fails, what leaves the
    interceptor is an HTTP exception or the request is let through. *)
Theorem limiter_fails_open {W} (h : forall X, GatewayE X -> W -> result X * W) view config request res w e :
  conforms Faulty gw_behaviour h view ->
  outcome h (intercept config request) res w = Err e -> ename e = "HttpException"%string.
Proof.
  intros Hh. call_wp Hh w. destruct config as [config|]; [|done]. unfold intercept. wp_step.
  eapply wp_mono; [apply wp_trivial|]. intros [[]|err] s v _; [done|]. cbv beta iota.
  destruct (String.eqb (ename err) "HttpException") eqn:He; cbn [wp]; [|done].
  intros [= <-]. by apply String.eqb_eq.
Qed.

(** ** Two limits of the limiter *)

Section Bypass.
Context {W : Type}.
Variable h : forall X, GatewayE X -> W -> result X * W.
Variable view : W -> GatewayView.
Hypothesis Hh : conforms Reliable gw_behaviour h view.

Lemma unused_zput_ne key key' m d v : key' <> key -> unused key v -> unused key (zput key' m d v).
Proof.
  intros Hne (H0 & He & Hz). split; [done|]. split; [done|]. unfold zput. cbn [zsets with_zsets].
  destruct (decide (m = ∅)); [by rewrite lookup_delete_ne|by rewrite lookup_insert_ne].
Qed.

Lemma unused_admit_ne key key' ms r v : key' <> key -> unused key v -> unused key (admission key' ms r v).
Proof.
  intros Hne Hv. unfold admission. cbv zeta. apply unused_zput_ne; [done|].
  set (v2 := zput key' _ _ v).
  assert (unused key v2) as (H0 & He & Hz) by (by apply unused_zput_ne).
  split; [done|]. split; [|done]. change (added v) with (added v2).
  rewrite entries_added. apply String.eqb_neq in Hne. by rewrite Hne, He.
Qed.

Lemma history_unused key hist w :
  (forall c r, (c, r) ∈ hist -> rate_key r <> key) ->
  unused key (view w) -> unused key (view (serve_history h hist w)).
Proof.
  revert w. induction hist as [|[c r] hist IH]; intros w Hc Hv; cbn; [done|].
  apply IH; [intros c' r' Hin; apply (Hc c'); by right|].
  assert (rate_key r <> key) as Hne by (apply (Hc c); by left).
  assert (forall now, (clock (view w) <= now)%Z -> unused key (with_clock now (view w))) as Hclk.
  { intros now Hnow. destruct Hv as (H0 & He & Hz). split; [cbn; lia|done]. }
  call_wp Hh w. destruct c as [config|]; [|done]. apply intercept_wp; cbv zeta; intros now Hnow.
  - intros _ x. apply unused_admit_ne; [done|]. apply unused_zput_ne; auto.
  - intros _. apply unused_zput_ne; auto.
Qed.

(** The URL in the key includes the query string: a client that asks for a
    new one each time is never refused, whatever the limit (of at least one)
    and however many requests it made before. *)
Theorem fresh_url_admitted config hist request w :
  (0 < max config)%Z -> unused (rate_key request) (view w) ->
  (forall c r, (c, r) ∈ hist -> client_ip r = client_ip request /\ rq_method r = rq_method request /\
     rq_originalUrl r <> rq_originalUrl request) ->
  outcome h (intercept (Some config) request) fresh_response (serve_history h hist w) = Ok tt.
Proof.
  intros Hmax Hu Hd. set (w1 := serve_history h hist w).
  assert (unused (rate_key request) (view w1)) as Hu1.
  { apply history_unused; [|done]. intros c r Hin Hk. destruct (Hd c r Hin) as (Hip & Hm & Hurl).
    apply Hurl. unfold rate_key in Hk. rewrite Hip, Hm in Hk. by do 5 apply string_app_inj_l in Hk. }
  call_wp Hh w1. apply intercept_wp; cbv zeta; intros now Hnow.
  - done.
  - pose proof (inv_clock _ _ _ _ now (unused_inv (rate_key request) (windowMs config) 1 _ Hu1) Hnow) as Hi.
    rewrite (purged_count _ _ _ _ Hi). unfold window_members.
    destruct Hu1 as (_ & He & _).
    change (entries_of (rate_key request) (with_clock now (view w1))) with (entries_of (rate_key request) (view w1)).
    rewrite He. cbn. rewrite size_empty. lia.
Qed.
End Bypass.

(** ** Concrete runs *)

Definition demo_request (url : string) : Request :=
  mkRequest "POST" url (Some "10.0.0.1"%string) ∅ "{}" None.

(** [@RateLimit({ windowMs: 60 * 1000, max: 5 })] of the booking routes. *)
Definition booking_limit : RateLimitConfig := mkRateLimitConfig 60000 5.
Definition one_per_minute : RateLimitConfig := mkRateLimitConfig 60000 1.

Definition gw_world : GatewayRefWorld := (empty_gateway, replicate 20 10%Z).

Lemma unused_empty key : unused key empty_gateway.
Proof. by split_and!. Qed.

Definition six_bookings : list (option RateLimitConfig * Request) :=
  replicate 6 (Some booking_limit, demo_request "/api/bookings/").


Lemma intercept_exact_witness :
  outcome gw_run (intercept (Some booking_limit) (demo_request "/api/bookings/")) fresh_response
    (serve_history gw_run six_bookings gw_world) = Err too_many.
Proof.
  assert (forall c r, (c, r) ∈ six_bookings -> rate_key r = rate_key (demo_request "/api/bookings/") ->
    c = None \/ c = Some booking_limit) as Hc.
  { intros c r Hin _. right. unfold six_bookings in Hin. cbn in Hin.
    rewrite !elem_of_cons in Hin. repeat (destruct Hin as [[= -> ->]|Hin]; [done|]).
    by apply not_elem_of_nil in Hin. }
  destruct (intercept_exact gw_run gw_view gw_run_conforms _ booking_limit six_bookings
    (demo_request "/api/bookings/") gw_world (unused_empty _) eq_refl Hc) as (now & _ & H).
  destruct (outcome gw_run _ _ _) as [[]|e] eqn:Ho; [vm_compute in Ho; discriminate Ho|].
  destruct H as (_ & -> & _). reflexivity.
Defined.

Lemma fresh_url_admitted_witness :
  outcome gw_run (intercept (Some one_per_minute) (demo_request "/api/auth/login?x=2")) fresh_response
    (serve_history gw_run [(Some one_per_minute, demo_request "/api/auth/login");
                           (Some one_per_minute, demo_request "/api/auth/login?x=1")] gw_world) = Ok tt.
Proof.
  apply (fresh_url_admitted gw_run gw_view gw_run_conforms); [done|apply unused_empty|].
  intros c r Hin. rewrite !elem_of_cons in Hin.
  destruct Hin as [[= -> ->]|[[= -> ->]|Hin]]; [by split_and!..|by apply not_elem_of_nil in Hin].
Defined.

Lemma limiter_fails_open_witness :
  exists e, outcome gw_flaky (intercept (Some (mkRateLimitConfig 60000 0)) (demo_request "/")) fresh_response
    (gw_world, []) = Err e /\ ename e = "HttpException"%string.
Proof.
  eexists. split; [vm_compute; reflexivity|].
  eapply (limiter_fails_open gw_flaky gw_flaky_view (Some (mkRateLimitConfig 60000 0)) (demo_request "/")
    fresh_response (gw_world, [])); [apply gw_flaky_conforms|vm_compute; reflexivity].
Defined.

(** The check and the insertion are separate commands: two requests that run
    at the same time both read an empty window and are both admitted, although
    the limit is one. *)
Theorem concurrent_requests_exceed_limit :
  let request := (intercept (Some one_per_minute) (demo_request "/api/bookings/"), fresh_response) in
  let '(r1, r2, w) := run_pair gw_run [true; true; true; false; false; false] request request gw_world in
  r1 = Ok tt /\ r2 = Ok tt /\
  window_count (rate_key (demo_request "/api/bookings/")) 60000 (clock (gw_view w)) (gw_view w) = 2%nat.
Proof. vm_compute. by split_and!. Qed.
