(* ===== verification/ApiGateway.v ===== *)
(** * API gateway

    apps/api-gateway/src/proxy: the proxy service that forwards a request to
    the service behind a route, and the routes of the proxy controllers with
    their decorators.  Path matching is the framework's: a [Route] is one
    handler of a controller.  The order guards, interceptor, handler is Nest's.
    The middlewares whose file names start with two underscores are not
    installed by any module. *)

From S2P Require Import Prelude Effects Interleave JsNumber JsDate Json Sql Sha256 AuthWorld AuthRef UserService AuthService AuthGuard GatewayWorld RateLimit.

(** ** ProxyService *)

(** What is written to the client. *)
Record ProxyReply := mkProxyReply {
  pr_status : Z;
  pr_headers : list (string * string);
  pr_body : string;
}.

Definition skipHeaders : list string := ["host"; "connection"; "content-length"]%string.

(** [x.toString()]; a decimal literal prints as it was written. *)
Fixpoint js_toString (j : json) : string :=
  match j with
  | JNull => "null"
  | JBool b => if b then "true" else "false"
  | JNum z => Z_to_string z
  | JDec _ _ _ _ => stringify j
  | JStr s => s
  | JArr l => join "," (map (fun x => match x with JNull => ""%string | _ => js_toString x end) l)
  | JObj _ => "[object Object]"
  end.

(** The headers copied from the request. *)
Definition copied_headers (request : Request) : gmap string (option json) :=
  (fun v => Some (JStr v)) <$> filter (fun kv => includes skipHeaders kv.1 = false) (rq_headers request).

(** The headers set from [req.user]; [user.emailVerified.toString()] throws
    when the member is missing. *)
Definition identity_headers (user : json) (headers : gmap string (option json)) :
    result (gmap string (option json)) :=
  let headers := <["x-user-id"%string := member "id" user]> headers in
  let headers := <["x-user-email"%string := member "email" user]> headers in
  let headers := <["x-user-role"%string := member "role" user]> headers in
  match member "emailVerified" user with
  | None | Some JNull => Err (TypeError "Cannot read properties of undefined (reading 'toString')")
  | Some b => Ok (<["x-user-email-verified"%string := Some (JStr (js_toString b))]> headers)
  end.

Definition forwarded_headers (request : Request) : result (gmap string (option json)) :=
  match rq_user request with
  | Some user => if json_truthy user then identity_headers user (copied_headers request)
                 else Ok (copied_headers request)
  | None => Ok (copied_headers request)
  end.

Definition keeps_header (kv : string * string) : bool :=
  truthy kv.2 && negb (String.eqb kv.1 "transfer-encoding").

Section Service.
Context {S : Type}.

Definition forward (target : string) (req : Request) : prog S GatewayE ProxyReply :=
  let url := target +:+ rq_originalUrl req in
  headers <- of_result (forwarded_headers req) ;;
  response <- call (GHttp (mkHttpRequest (rq_method req) url headers (rq_body req))) ;;
  match response with
  | Ok response =>
      Ret (mkProxyReply (hs_status response) (List.filter keeps_header (hs_headers response)) (hs_data response))
  | Err _ =>
      Ret (mkProxyReply 502 []
             (stringify (JObj [("statusCode", JNum 502);
                               ("message", JStr ("Service " +:+ target +:+ " is not available"))]%string)))
  end.
End Service.

(** ** Routes *)

(** The environment of the process. *)
Definition Env := gmap string string.

(** [configService.get(key, '')], refused by the controllers' constructors when empty. *)
Definition service_url (env : Env) (key : string) : result string :=
  match env !! key with
  | Some url =>
      if truthy url then Ok url
      else Err (InternalServerErrorException (key +:+ " is not configured"))
  | None => Err (InternalServerErrorException (key +:+ " is not configured"))
  end.

(** A handler with its decorators. *)
Record Route := mkRoute {
  rt_path : string;
  rt_urlKey : string;
  rt_public : bool;
  rt_roles : option (list string);
  rt_limit : option RateLimitConfig;
}.

Definition auth_routes : list Route :=
  [mkRoute "api/auth" "AUTH_SERVICE_URL" true None (Some (mkRateLimitConfig (15 * 60 * 1000) 20))].
Definition booking_routes : list Route :=
  [mkRoute "api/bookings" "BOOKING_SERVICE_URL" false None (Some (mkRateLimitConfig (60 * 1000) 5))].
Definition ticket_routes : list Route :=
  [mkRoute "api/tickets" "BOOKING_SERVICE_URL" false None None].
Definition event_routes : list Route :=
  [mkRoute "api/events" "EVENT_SERVICE_URL" true None None;
   mkRoute "api/events/*" "EVENT_SERVICE_URL" true None None;
   mkRoute "api/events" "EVENT_SERVICE_URL" false (Some ["admin"; "organizer"]%string) None].
Definition holds_routes : list Route :=
  [mkRoute "api/holds" "HOLDS_SERVICE_URL" true None (Some (mkRateLimitConfig (60 * 1000) 10))].
Definition inventory_routes : list Route :=
  [mkRoute "api/inventory" "INVENTORY_SERVICE_URL" true None None].
Definition payment_routes : list Route :=
  [mkRoute "api/payments" "PAYMENT_SERVICE_URL" false None (Some (mkRateLimitConfig (60 * 1000) 10))].
Definition venue_routes : list Route :=
  [mkRoute "api/venues" "VENUES_SERVICE_URL" true None None;
   mkRoute "api/venues/*" "VENUES_SERVICE_URL" true None None;
   mkRoute "api/venues" "VENUES_SERVICE_URL" false (Some ["admin"; "organizer"]%string) None].

(** proxy.module.ts; the ticket controller is not among its controllers. *)
Definition installed_routes : list Route :=
  auth_routes ++ event_routes ++ venue_routes ++ inventory_routes ++ holds_routes ++
  booking_routes ++ payment_routes.

(** A request on a route. *)
Definition handle {jwt : Jwt} (secret target : string) (route : Route) (request : Request) :
    prog Res GatewayE ProxyReply :=
  match authorize secret (rt_public route) (rt_roles route) request with
  | (Err e, _) => Throw e
  | (Ok _, request) =>
      intercept (rt_limit route) request ;;
      forward target request
  end.

(** ** Properties *)

(** What [forward] sends. *)
Definition proxied (target : string) (request : Request) (headers : gmap string (option json)) : HttpRequest :=
  mkHttpRequest (rq_method request) (target +:+ rq_originalUrl request) headers (rq_body request).

(** The forwarded requests are not touched by the limiter. *)
Lemma forwarded_admit key ms r v : forwarded (admission key ms r v) = forwarded v.
Proof. done. Qed.

Section Properties.
Context {jwt : Jwt} {W : Type}.
Variable secret : string.
Variable h : forall X, GatewayE X -> W -> result X * W.
Variable view : W -> GatewayView.

Lemma forward_wp md {S} target request (Q : result ProxyReply -> S -> GatewayView -> Prop) s v :
  (forall e, forwarded_headers request = Err e -> Q (Err e) s v) ->
  (forall hs, forwarded_headers request = Ok hs ->
     (forall r, Q (Ok (mkProxyReply (hs_status r) (List.filter keeps_header (hs_headers r)) (hs_data r))) s
        (with_forwarded (forwarded v ++ [proxied target request hs]) v)) /\
     (forall v' reply, (v' = v \/ v' = with_forwarded (forwarded v ++ [proxied target request hs]) v) ->
        pr_status reply = 502%Z -> Q (Ok reply) s v')) ->
  wp (obeys md gw_behaviour) (forward target request) Q s v.
Proof.
  intros HE HQ. unfold forward. cbv zeta. wp_step. wp_step.
  destruct (forwarded_headers request) as [hs|e]; [|by apply HE].
  destruct (HQ hs eq_refl) as [HQ1 HQ2]. wp_step. wp_step. intros [x|e] v1 H; gw_sem H.
  - destruct x as [r|e]; wp_step; [subst v1; apply HQ1|by apply HQ2].
  - by destruct H as [_ [[]|[_ []]]].
Qed.

(** The request as the handler gets it. *)
Definition as_user (user : option json) (r : Request) : Request :=
  mkRequest (rq_method r) (rq_originalUrl r) (rq_ip r) (rq_headers r) (rq_body r) user.

(** Who may pass: anybody on a public route, and otherwise the bearer of a token
    that [jwt.verify] accepts under the gateway's secret; where roles are
    required, only with a user that has one of them. *)
Definition entitled (route : Route) (request : Request) (user : option json) : Prop :=
  (rt_public route = true /\ user = rq_user request \/
   exists token payload, carries_token request token /\ jwt_verify token secret = Ok payload /\ user = Some payload) /\
  (forall roles, rt_roles route = Some roles ->
     exists u role, user = Some u /\ member "role" u = Some (JStr role) /\ role ∈ roles).

Lemma authorize_entitled route request request' :
  authorize secret (rt_public route) (rt_roles route) request = (Ok tt, request') ->
  exists user, request' = as_user user request /\ entitled route request user.
Proof.
  intros [Hu Hr]%authorize_iff. unfold entitled. destruct (rt_public route).
  - subst request'. exists (rq_user request). split; [by destruct request|]. split; [by left|done].
  - destruct Hu as (token & payload & Ht%bearer_token_carried & Hv & ->). exists (Some payload). split; [done|].
    split; [|done]. right. by exists token, payload.
Qed.

(** C15: Nothing reaches a service for somebody who is not entitled to the route,
    in whatever way Redis or the service fails: a request is forwarded at most
    once, and only if the route is public or its authorization header is
    'Bearer <token>' (in any case) with a token [jwt.verify] accepts under the
    gateway's secret, and, where the route requires roles, the payload's role
    is one of them.  What is forwarded is the method, the path behind the
    service's address and the body of the request, with the headers made from
    that payload. *)
Theorem gateway_forwards_only_authorized md target route request w :
  conforms md gw_behaviour h view ->
  let v := view w in
  let v' := view (final h (handle secret target route request) fresh_response w) in
  forwarded v' = forwarded v \/
  exists user hs,
    entitled route request user /\
    forwarded_headers (as_user user request) = Ok hs /\
    forwarded v' = forwarded v ++ [mkHttpRequest (rq_method request) (target +:+ rq_originalUrl request) hs (rq_body request)].
Proof.
  intros Hh. cbv zeta. call_wp Hh w. unfold handle.
  destruct (authorize secret (rt_public route) (rt_roles route) request) as [[[]|e] request'] eqn:Ha; [|by left].
  apply authorize_entitled in Ha as (user & -> & He).
  wp_step. apply (limiter_forwards_nothing md (rt_limit route) (as_user user request)).
  intros r s v' Hv'. destruct r as [[]|e]; [|by left; rewrite Hv'].
  apply forward_wp.
  - intros e _. left. by rewrite Hv'.
  - intros hs Hhs. split.
    + intros reply. right. exists user, hs. split_and!; [done|done|]. cbn. by rewrite Hv'.
    + intros v'' reply [->| ->] _; [by left; rewrite Hv'|]. right. exists user, hs.
      split_and!; [done|done|]. cbn. by rewrite Hv'.
Qed.
End Properties.

Lemma copied_lookup request key :
  copied_headers request !! key =
  if includes skipHeaders key then None
  else (fun v => Some (JStr v)) <$> rq_headers request !! key.
Proof.
  unfold copied_headers. rewrite lookup_fmap, map_lookup_filter.
  destruct (rq_headers request !! key) as [v|]; cbn [mbind option_bind]; [|by destruct (includes _ _)].
  cbn [fst]. generalize (includes skipHeaders key). intros b.
  case_guard as Hg; [by rewrite Hg|by destruct b].
Qed.

(** Whom the services are told about: for a verified token of the
    authentication service the identity headers are the payload's, whatever the
    client sent under these names, except that [x-user-id] is always undefined
    (the payload has [sub], not [id]); without a user the client's own headers
    of these names pass through. *)
Theorem identity_headers_spec request p iat exp :
  (exists hs, forwarded_headers (set_user (claims p iat exp) request) = Ok hs /\
     hs !! "x-user-id"%string = Some None /\
     hs !! "x-user-email"%string = Some (Some (JStr (jp_email p))) /\
     hs !! "x-user-role"%string = Some (Some (JStr (jp_role p))) /\
     hs !! "x-user-email-verified"%string =
       Some (Some (JStr (if jp_emailVerified p then "true" else "false")))) /\
  (rq_user request = None -> forall key, includes skipHeaders key = false ->
     exists hs, forwarded_headers request = Ok hs /\
       hs !! key = (fun v => Some (JStr v)) <$> rq_headers request !! key).
Proof.
  split.
  - eexists. unfold forwarded_headers, identity_headers. cbn [rq_user set_user claims json_truthy].
    change (member "emailVerified" (claims p iat exp)) with (Some (JBool (jp_emailVerified p))).
    split; [reflexivity|].
    rewrite !(lookup_insert_ne _ "x-user-email-verified"%string) by done. rewrite lookup_insert_eq.
    rewrite !(lookup_insert_ne _ "x-user-role"%string) by done. rewrite lookup_insert_eq.
    rewrite !(lookup_insert_ne _ "x-user-email"%string) by done. rewrite !lookup_insert_eq.
    by split_and!.
  - intros Hu key Hk. unfold forwarded_headers. rewrite Hu. eexists. split; [done|].
    by rewrite copied_lookup, Hk.
Qed.

(** ** Concrete runs *)

#[local] Instance gw_demo_jwt : Jwt := fun token secret =>
  if String.eqb token "jwt-0" && String.eqb secret demo_secret
  then Ok (claims (payload_of demo_user) 1700000000 1700000900)
  else Err (simple_exn "JsonWebTokenError" "invalid signature").

Definition booking_route : Route := mkRoute "api/bookings" "BOOKING_SERVICE_URL" false None (Some booking_limit).

(** The request with the token of a login is forwarded, so its user is entitled. *)
Lemma gateway_forwards_only_authorized_witness :
  let v' := gw_view (final gw_run (handle demo_secret "http://booking:3003" booking_route (request_with "Bearer jwt-0"))
    fresh_response gw_world) in
  length (forwarded v') = 1 /\ exists user, entitled demo_secret booking_route (request_with "Bearer jwt-0") user.
Proof.
  cbv zeta.
  assert (length (forwarded (gw_view (final gw_run (handle demo_secret "http://booking:3003" booking_route
    (request_with "Bearer jwt-0")) fresh_response gw_world))) = 1) as Hl by by vm_compute.
  split; [exact Hl|].
  destruct (gateway_forwards_only_authorized demo_secret gw_run gw_view Reliable "http://booking:3003"
    booking_route (request_with "Bearer jwt-0") gw_world gw_run_conforms) as [H|(user & hs & He & _)].
  - rewrite H in Hl. discriminate Hl.
  - by exists user.
Defined.

Lemma identity_headers_spec_witness :
  exists hs, forwarded_headers (request_with "Bearer jwt-0") = Ok hs /\
    hs !! "authorization"%string = Some (Some (JStr "Bearer jwt-0")).
Proof.
  destruct (identity_headers_spec (request_with "Bearer jwt-0") (payload_of demo_user) 0 0) as [_ H].
  destruct (H eq_refl "authorization"%string eq_refl) as (hs & Hhs & Hk).
  exists hs. split; [exact Hhs|]. rewrite Hk. reflexivity.
Defined.
