(* ===== verification/RegExp.v ===== *)
(** * Regular expressions

    The part of JavaScript's [RegExp] the gateway uses: [new RegExp(source)] for
    a source of literals, identity escapes, negated classes, the anchors and the
    quantifiers [+] and [?], and [test].  [parse] refuses every other source.
    The last part is the translation of a path pattern into such a source, which
    the gateway does with two calls of [replace]; [glob_source_correct] says that
    the expression accepts exactly the paths the pattern stands for. *)

From S2P Require Import Prelude.
From Stdlib Require Import Ascii.

(** ** Expressions *)

Inductive atom := Lit (c : ascii) | NotIn (cs : list ascii).

Inductive item := Start | End_ | One (a : atom) | Plus (a : atom) | Opt (a : atom).

Definition atom_ok (a : atom) (c : ascii) : bool :=
  match a with
  | Lit d => Ascii.eqb c d
  | NotIn cs => negb (existsb (Ascii.eqb c) cs)
  end.

(** [matches re start s]: the expression matches a prefix of [s]; [start] says
    that [s] is the whole text. *)
Fixpoint matches (re : list item) (start : bool) (s : string) : bool :=
  match re with
  | [] => true
  | Start :: re => start && matches re start s
  | End_ :: re => String.eqb s "" && matches re start s
  | One a :: re => match s with String c t => atom_ok a c && matches re false t | EmptyString => false end
  | Opt a :: re =>
      matches re start s || match s with String c t => atom_ok a c && matches re false t | EmptyString => false end
  | Plus a :: re =>
      let fix many (s : string) : bool :=
        match s with
        | String c t => atom_ok a c && (matches re false t || many t)
        | EmptyString => false
        end in
      many s
  end.

(** [re.test(s)]: a match at any position. *)
Fixpoint test_from (re : list item) (start : bool) (s : string) : bool :=
  matches re start s || match s with String _ t => test_from re false t | EmptyString => false end.

Definition test (re : list item) (s : string) : bool := test_from re true s.

(** ** Sources *)

(** The characters with a meaning of their own in a source. *)
Definition syntax_chars : list ascii :=
  ["."; "*"; "+"; "?"; "^"; "$"; "{"; "}"; "("; ")"; "|"; "["; "]"; "\"]%char.

Definition is_syntax (c : ascii) : bool := existsb (Ascii.eqb c) syntax_chars.

(** The rest of a class, up to the bracket. *)
Fixpoint class_chars (s : string) : option (list ascii * string) :=
  match s with
  | EmptyString => None
  | String c s =>
      if Ascii.eqb c "]" then Some ([], s)
      else if Ascii.eqb c "\" || Ascii.eqb c "-" then None
      else match class_chars s with Some (cs, s) => Some (c :: cs, s) | None => None end
  end.

(** An atom with its quantifier. *)
Definition quantified (a : atom) (s : string) : item * string :=
  match s with
  | String c t =>
      if Ascii.eqb c "+" then (Plus a, t) else if Ascii.eqb c "?" then (Opt a, t) else (One a, s)
  | EmptyString => (One a, s)
  end.

(** Letters and digits after a backslash are escapes of another kind. *)
Definition is_alnum (c : ascii) : bool :=
  let n := N_of_ascii c in
  ((48 <=? n) && (n <=? 57) || (65 <=? n) && (n <=? 90) || (97 <=? n) && (n <=? 122) || (n =? 95))%N.

Fixpoint parse (fuel : nat) (s : string) : option (list item) :=
  match fuel, s with
  | _, EmptyString => Some []
  | O, _ => None
  | Datatypes.S fuel, String c s =>
      let continue a s := let '(i, s) := quantified a s in option_map (cons i) (parse fuel s) in
      if Ascii.eqb c "^" then option_map (cons Start) (parse fuel s)
      else if Ascii.eqb c "$" then option_map (cons End_) (parse fuel s)
      else if Ascii.eqb c "\" then
        match s with
        | String d s => if is_alnum d then None else continue (Lit d) s
        | EmptyString => None
        end
      else if Ascii.eqb c "[" then
        match s with
        | String d s =>
            if Ascii.eqb d "^" then
              match class_chars s with Some (cs, s) => continue (NotIn cs) s | None => None end
            else None
        | EmptyString => None
        end
      else if is_syntax c then None
      else continue (Lit c) s
  end.

(** [new RegExp(source)] *)
Definition RegExp (source : string) : option (list item) := parse (String.length source) source.

(** ** Path patterns *)

(** [path.replace(/[.*+?^${}()|[\]\\]/g, '\\$&')] *)
Fixpoint escape (s : string) : string :=
  match s with
  | EmptyString => EmptyString
  | String c s => if is_syntax c then String "\" (String c (escape s)) else String c (escape s)
  end.

(** [s.replace(/\\\*/g, '[^/]+')] *)
Fixpoint replace_star (s : string) : string :=
  match s with
  | String "\" (String "*" s) => "[^/]+" +:+ replace_star s
  | String c s => String c (replace_star s)
  | EmptyString => EmptyString
  end.

Definition glob_source (path : string) : string := "^" +:+ replace_star (escape path) +:+ "\/?$".

Fixpoint no_slash (s : string) : bool :=
  match s with EmptyString => true | String c s => negb (Ascii.eqb c "/") && no_slash s end.

(** What a pattern stands for: a star is a text that is not empty and has no
    slash, everything else is itself, and the path may end with a slash. *)
Inductive glob : string -> string -> Prop :=
| GlobEnd : glob "" ""
| GlobSlash : glob "" "/"
| GlobStar p t s : t <> ""%string -> no_slash t = true ->
    glob p s -> glob (String "*" p) (t +:+ s)
| GlobChar c p s : c <> "*"%char -> glob p s -> glob (String c p) (String c s).

(** *** The source that is built *)

(** The items of a pattern. *)
Fixpoint glob_items (p : string) : list item :=
  match p with
  | EmptyString => [Opt (Lit "/"); End_]
  | String c p => (if Ascii.eqb c "*" then Plus (NotIn ["/"%char]) else One (Lit c)) :: glob_items p
  end.

Lemma is_syntax_star : is_syntax "*" = true.
Proof. done. Qed.

(** An escaped text does not begin with a star. *)
Lemma escape_head p t : escape p <> String "*" t.
Proof. destruct p as [|c p]; [done|]. cbn [escape]. destruct (is_syntax c) eqn:Hc; [by intros [=]|]. intros [= -> _]. discriminate Hc. Qed.

Lemma replace_star_other c s : c <> "\"%char -> replace_star (String c s) = String c (replace_star s).
Proof. intros Hc. destruct c as [[|] [|] [|] [|] [|] [|] [|] [|]]; try done. Qed.

Lemma replace_star_escaped c s :
  c <> "*"%char -> (forall t, s <> String "*" t) ->
  replace_star (String "\" (String c s)) = String "\" (String c (replace_star s)).
Proof.
  intros Hc Hs. assert (replace_star (String c s) = String c (replace_star s)) as Hr.
  { destruct (ascii_dec c "\") as [->|Hb]; [|by apply replace_star_other]. destruct s as [|d t]; [done|].
    destruct (ascii_dec d "*") as [->|Hd]; [by destruct (Hs t)|].
    destruct d as [[|] [|] [|] [|] [|] [|] [|] [|]]; done. }
  transitivity (String "\" (replace_star (String c s))); [|by rewrite Hr].
  destruct c as [[|] [|] [|] [|] [|] [|] [|] [|]]; done.
Qed.

(** The source of one character. *)
Definition source_of (c : ascii) : string :=
  if Ascii.eqb c "*" then "[^/]+" else if is_syntax c then String "\" (String c "") else String c "".

Lemma glob_source_cons c p : replace_star (escape (String c p)) = source_of c +:+ replace_star (escape p).
Proof.
  unfold source_of. cbn [escape]. destruct (Ascii.eqb_spec c "*") as [->|Hc]; [done|].
  destruct (is_syntax c) eqn:Hs.
  - rewrite replace_star_escaped; [done|done|]. intros t. apply escape_head.
  - apply replace_star_other. intros ->. discriminate Hs.
Qed.

Definition body (p : string) : string := replace_star (escape p) +:+ "\/?$".

Definition item_of (c : ascii) : item := if Ascii.eqb c "*" then Plus (NotIn ["/"%char]) else One (Lit c).

Lemma body_cons c p : body (String c p) = source_of c +:+ body p.
Proof. unfold body. rewrite glob_source_cons. by rewrite string_app_assoc. Qed.

(** A syntax character is one of fourteen. *)
Lemma is_syntax_spec c : is_syntax c = true <-> c ∈ syntax_chars.
Proof.
  unfold is_syntax. rewrite existsb_exists. split.
  - intros (d & Hd & ->%Ascii.eqb_eq). by apply list_elem_of_In.
  - intros Hc. exists c. split; [by apply list_elem_of_In|apply Ascii.eqb_refl].
Qed.

Lemma not_syntax c d : is_syntax c = false -> is_syntax d = true -> Ascii.eqb c d = false.
Proof. intros Hc Hd. apply Ascii.eqb_neq. intros ->. by rewrite Hc in Hd. Qed.

(** Nothing in a body is a quantifier of what stands before it. *)
Lemma quantified_body a p : quantified a (body p) = (One a, body p).
Proof.
  destruct p as [|c p]; [done|]. rewrite body_cons. unfold source_of.
  destruct (Ascii.eqb c "*"); [done|]. destruct (is_syntax c) eqn:Hc; [done|].
  rewrite string_app_cons, string_app_nil_l. cbn [quantified]. by rewrite !(not_syntax c) by done.
Qed.

Lemma parse_cons fuel c p :
  parse (Datatypes.S fuel) (body (String c p)) = option_map (cons (item_of c)) (parse fuel (body p)).
Proof.
  rewrite body_cons. unfold source_of, item_of. destruct (Ascii.eqb c "*") eqn:Hstar; [done|].
  destruct (is_syntax c) eqn:Hc.
  - rewrite !string_app_cons, string_app_nil_l. cbn [parse].
    change (Ascii.eqb "\" "^") with false. change (Ascii.eqb "\" "$") with false. change (Ascii.eqb "\" "\") with true.
    cbn [negb].
    assert (is_alnum c = false) as ->.
    { apply is_syntax_spec in Hc. unfold syntax_chars in Hc. repeat apply elem_of_cons in Hc as [->|Hc]; try done.
      by apply elem_of_nil in Hc. }
    by rewrite quantified_body.
  - rewrite string_app_cons, string_app_nil_l. cbn [parse]. rewrite !(not_syntax c), Hc by done. by rewrite quantified_body.
Qed.

Lemma parse_body p fuel : String.length p + 3 <= fuel -> parse fuel (body p) = Some (glob_items p).
Proof.
  revert fuel. induction p as [|c p IH]; intros fuel Hf.
  - do 3 (destruct fuel as [|fuel]; [cbn in Hf; lia|]). by destruct fuel.
  - destruct fuel as [|fuel]; [cbn in Hf; lia|]. rewrite parse_cons, IH; [done|]. cbn in Hf. lia.
Qed.

Lemma body_length p : String.length p + 3 <= String.length (body p).
Proof.
  induction p as [|c p IH]; [vm_compute; lia|]. rewrite body_cons, string_length_app. cbn [String.length].
  enough (1 <= String.length (source_of c)) by lia. unfold source_of.
  destruct (Ascii.eqb c "*"); [cbn; lia|]. destruct (is_syntax c); cbn; lia.
Qed.

Lemma glob_source_items p : RegExp (glob_source p) = Some (Start :: glob_items p).
Proof.
  unfold RegExp, glob_source. change (replace_star (escape p) +:+ "\/?$")%string with (body p).
  rewrite string_app_cons, string_app_nil_l. cbn [String.length parse]. by rewrite parse_body by apply body_length.
Qed.

(** *** What it accepts *)

(** The loop of a [+] that excludes the slash. *)
Lemma matches_plus re s b :
  matches (Plus (NotIn ["/"%char]) :: re) b s = true <->
  exists t u, s = t +:+ u /\ t <> ""%string /\ no_slash t = true /\ matches re false u = true.
Proof.
  revert b. induction s as [|c s IH]; intros b.
  - split; [done|]. intros (t & u & Hs & Ht & _). by destruct t.
  - change (matches (Plus (NotIn ["/"%char]) :: re) b (String c s)) with
      (atom_ok (NotIn ["/"%char]) c && (matches re false s || matches (Plus (NotIn ["/"%char]) :: re) b s)).
    rewrite andb_true_iff, orb_true_iff, (IH b).
    assert (atom_ok (NotIn ["/"%char]) c = negb (Ascii.eqb c "/")) as -> by (cbn; by rewrite orb_false_r).
    split.
    + intros [Hc [Hm|(t & u & -> & Ht & Hn & Hm)]].
      * exists (String c ""), s. split_and!; [done|done| |done]. cbn. by rewrite Hc.
      * exists (String c t), u. split_and!; [done|done| |done]. cbn. by rewrite Hc.
    + intros (t & u & Hs & Ht & Hn & Hm). destruct t as [|d t]; [done|]. cbn in Hs. injection Hs as -> ->.
      cbn in Hn. apply andb_true_iff in Hn as [Hd Hn]. split; [done|].
      destruct t as [|d' t]; [by left|right]. by exists (String d' t), u.
Qed.

Lemma glob_items_spec p s b : matches (glob_items p) b s = true <-> glob p s.
Proof.
  revert s b. induction p as [|c p IH]; intros s b.
  - cbn [glob_items matches]. rewrite orb_true_iff, andb_true_r. split.
    + intros [->%String.eqb_eq|Hs]; [constructor|]. destruct s as [|d s]; [done|].
      cbn [atom_ok] in Hs. apply andb_true_iff in Hs as [->%Ascii.eqb_eq Hs].
      rewrite andb_true_r in Hs. apply String.eqb_eq in Hs as ->. constructor.
    + intros H. inversion H; subst; [by left|by right].
  - cbn [glob_items]. destruct (Ascii.eqb_spec c "*") as [->|Hc].
    + rewrite matches_plus. split.
      * intros (t & u & -> & Ht & Hn & Hm). apply GlobStar; [done|done|]. by eapply IH.
      * intros H. inversion H as [| |p' t u Ht Hn Hg|c' p' u Hne Hg]; subst; [|done].
        exists t, u. split_and!; [done|done|done|]. by apply IH.
    + cbn [matches atom_ok]. split.
      * destruct s as [|d s]; [done|]. intros [->%Ascii.eqb_eq Hm]%andb_true_iff. apply GlobChar; [done|]. by eapply IH.
      * intros H. inversion H as [| |p' t u Ht Hn Hg|c' p' u Hne Hg]; subst; [done|].
        rewrite Ascii.eqb_refl. by apply IH.
Qed.

(** An expression that begins with an anchor matches at the beginning or not at all. *)
Lemma test_anchored re s : test (Start :: re) s = matches re true s.
Proof.
  assert (forall s, test_from (Start :: re) false s = false) as Hno by (intros u; induction u; done).
  unfold test. destruct s as [|c s]; cbn [test_from matches andb].
  - by rewrite orb_false_r.
  - by rewrite Hno, orb_false_r.
Qed.

(** The expression built from a path pattern is well formed and accepts the
    paths the pattern stands for. *)
Lemma glob_source_correct p :
  exists re, RegExp (glob_source p) = Some re /\ forall s, test re s = true <-> glob p s.
Proof.
  exists (Start :: glob_items p). split; [apply glob_source_items|]. intros s.
  rewrite test_anchored. apply glob_items_spec.
Qed.
