(* ===== verification/Middlewares.v ===== *)
(** * The middlewares of the gateway

    The registry of services and the two middlewares built from it in
    apps/api-gateway/src/proxy: [AuthMiddleware] (__auth.middleware.ts) and
    [ProxyMiddleware] (__proxy.middleware.ts).  No module installs them; the
    guard and the proxy service of AuthGuard and ApiGateway do their work, and
    the theorems compare the two.  [createProxyMiddleware] is third-party code:
    the handler it makes for a service is named by the service, and its two
    callbacks are [proxyReq] and [proxy_error]. *)

From S2P Require Import Prelude Effects JsNumber JsDate Json Sql Sha256 AuthWorld AuthRef UserService AuthService AuthGuard GatewayWorld RateLimit ApiGateway RegExp.
From Stdlib Require Import Ascii.

(** ** The registry *)

(** service-config.interface.ts *)
Record ServiceConfig := mkServiceConfig {
  sc_name : string;
  target : string;
  pathPrefix : string;
  isPublicPaths : option (list string);
  sc_rateLimit : option RateLimitConfig;
}.

(** [process.env[key]] *)
Definition getRequiredServiceUrl (env : Env) (key : string) : result string :=
  match env !! key with
  | Some value => if truthy value then Ok value else Err (JsError (key +:+ " is not configured"))
  | None => Err (JsError (key +:+ " is not configured"))
  end.

(** An array literal: the elements are evaluated in order, the first throw ends it. *)
Fixpoint array_of {A} (l : list (result A)) : result (list A) :=
  match l with
  | [] => Ok []
  | Err e :: _ => Err e
  | Ok x :: l => match array_of l with Ok xs => Ok (x :: xs) | Err e => Err e end
  end.

Definition service (env : Env) (name key prefix : string) (paths : option (list string))
    (limit : option RateLimitConfig) : result ServiceConfig :=
  match getRequiredServiceUrl env key with
  | Ok url => Ok (mkServiceConfig name url prefix paths limit)
  | Err e => Err e
  end.

Definition getServiceRegistry (env : Env) : result (list ServiceConfig) :=
  array_of
    [service env "auth-service" "AUTH_SERVICE_URL" "/api/auth"
       (Some ["/api/auth/register"; "/api/auth/login"; "/api/auth/refresh";
              "/api/auth/forgot-password"; "/api/auth/reset-password"; "/api/auth/verify-email"]%string)
       (Some (mkRateLimitConfig (15 * 60 * 1000) 20));
     service env "event-service" "EVENT_SERVICE_URL" "/api/events"
       (Some ["/api/events"; "/api/events/*"]%string) None;
     service env "event-service-venues" "VENUES_SERVICE_URL" "/api/venues"
       (Some ["/api/venues"; "/api/venues/*"; "/api/venues/*/layout"]%string) None;
     service env "seat-inventory-service" "INVENTORY_SERVICE_URL" "/api/inventory"
       (Some ["/api/inventory/events/*"; "/api/inventory/events/*/available"]%string) None;
     service env "seat-inventory-holds" "HOLDS_SERVICE_URL" "/api/holds" None
       (Some (mkRateLimitConfig (60 * 1000) 10));
     service env "booking-service" "BOOKING_SERVICE_URL" "/api/bookings" None
       (Some (mkRateLimitConfig (60 * 1000) 5));
     service env "booking-service-tickets" "BOOKING_SERVICE_URL" "/api/tickets" None None;
     service env "payment-service" "PAYMENT_SERVICE_URL" "/api/payments" None
       (Some (mkRateLimitConfig (60 * 1000) 5))].

(** What a middleware does with a request: hand it on, or answer it. *)
Inductive step := Next (request : Request) | Reply (status : Z) (body : json).

Definition reply (status : Z) (message : string) : step :=
  Reply status (JObj [("statusCode", JNum status); ("message", JStr message)]%string).

(** [s.split('?')[0]] *)
Fixpoint before_query (s : string) : string :=
  match s with
  | EmptyString => EmptyString
  | String c s => if Ascii.eqb c "?" then EmptyString else String c (before_query s)
  end.

(** [s.startsWith(p)] *)
Definition startsWith (s p : string) : bool := String.prefix p s.

(** ** AuthMiddleware *)

(** public-route.interface.ts; no route has [methods]. *)
Record PublicRoute := mkPublicRoute { pattern : list item }.

(** [new RegExp(source)] for a path; [glob_source_correct] shows that it never throws. *)
Definition compile (path : string) : result PublicRoute :=
  match RegExp (glob_source path) with
  | Some re => Ok (mkPublicRoute re)
  | None => Err (SyntaxError "Invalid regular expression")
  end.

Definition public_paths (s : ServiceConfig) : list string := nullish (isPublicPaths s) [].

Definition buildPublicRoutes (registry : list ServiceConfig) : result (list PublicRoute) :=
  array_of (map compile (concat (map public_paths registry))).

Record AuthMiddleware := mkAuthMiddleware { jwtSecret : string; publicRoutes : list PublicRoute }.

(** The constructor. *)
Definition new_AuthMiddleware (env : Env) : result AuthMiddleware :=
  match getServiceRegistry env with
  | Err e => Err e
  | Ok serviceRegistry =>
      match buildPublicRoutes serviceRegistry with
      | Ok routes => Ok (mkAuthMiddleware (nullish (env !! "JWT_SECRET"%string) "your-secret-key") routes)
      | Err e => Err e
      end
  end.

Definition isPublicPath (this : AuthMiddleware) (path : string) : bool :=
  existsb (fun route => test (pattern route) path) (publicRoutes this).

(** [{ id: payload.sub, ... }]; undefined members are left out. *)
Definition user_of (payload : json) : json :=
  let get (k v : string) := match member v payload with Some x => [(k, x)] | None => [] end in
  JObj (get "id" "sub" ++ get "email" "email" ++ get "role" "role" ++ get "emailVerified" "emailVerified").

Definition auth_use {jwt : Jwt} (this : AuthMiddleware) (req : Request) : step :=
  let path := before_query (rq_originalUrl req) in
  if isPublicPath this path then Next req
  else
    match rq_headers req !! AUTHORIZATION_HEADER with
    | Some authHeader =>
        if negb (truthy authHeader) || negb (startsWith authHeader "Bearer ") then
          reply 401 "Authorization header is not provided"
        else
          let token := nth 1 (split_space authHeader) "" in
          match jwt_verify token (jwtSecret this) with
          | Ok payload => Next (set_user (user_of payload) req)
          | Err error =>
              reply 401 (if String.eqb (ename error) "TokenExpiredError"
                         then "Access token has expired" else "Invalid access token")
          end
    | None => reply 401 "Authorization header is not provided"
    end.

(** ** ProxyMiddleware *)

(** A [Map] from prefixes, in the order of insertion. *)
Fixpoint map_set (key : string) (value : ServiceConfig) (m : list (string * ServiceConfig)) :
    list (string * ServiceConfig) :=
  match m with
  | [] => [(key, value)]
  | (k, v) :: m => if String.eqb k key then (k, value) :: m else (k, v) :: map_set key value m
  end.

Fixpoint map_get (key : string) (m : list (string * ServiceConfig)) : option ServiceConfig :=
  match m with
  | [] => None
  | (k, v) :: m => if String.eqb k key then Some v else map_get key m
  end.

(** The constructor's loop. *)
Definition proxies (registry : list ServiceConfig) : list (string * ServiceConfig) :=
  fold_left (fun m s => map_set (pathPrefix s) s m) registry [].

(** [keys.sort((a, b) => b.length - a.length)], which is stable. *)
Fixpoint insert_longer (x : string) (l : list string) : list string :=
  match l with
  | [] => [x]
  | y :: l => if Nat.leb (String.length y) (String.length x) then x :: y :: l else y :: insert_longer x l
  end.

Definition sort_longest (l : list string) : list string := foldr insert_longer [] l.

Definition findMatchingPrefix (m : list (string * ServiceConfig)) (path : string) : option string :=
  List.find (startsWith path) (sort_longest (map fst m)).

(** The handler that gets the request, or the answer. *)
Inductive routed := ToService (s : ServiceConfig) | Refused (status : Z) (message : string).

Definition proxy_use (m : list (string * ServiceConfig)) (req : Request) : routed :=
  let path := before_query (rq_originalUrl req) in
  match findMatchingPrefix m path with
  | Some matchedPrefix =>
      if truthy matchedPrefix then
        match map_get matchedPrefix m with
        | Some proxy => ToService proxy
        | None => Refused 500 "Internal server error"
        end
      else Refused 404 "Route not found"
  | None => Refused 404 "Route not found"
  end.

(** Node refuses undefined and control characters as the value of a header. *)
Definition header_char (c : ascii) : bool :=
  let n := N_of_ascii c in ((n =? 9) || (32 <=? n) && negb (n =? 127))%N.

Fixpoint header_text (s : string) : bool :=
  match s with EmptyString => true | String c s => header_char c && header_text s end.

Definition set_header (name : string) (value : option json) (headers : gmap string json) :
    result (gmap string json) :=
  match value with
  | None => Err (TypeError ("Invalid value undefined for header " +:+ name))
  | Some value =>
      if header_text (js_toString value) then Ok (<[name := value]> headers)
      else Err (TypeError ("Invalid character in header content " +:+ name))
  end.

(** [String(x)] *)
Definition js_String (x : option json) : string :=
  match x with Some x => js_toString x | None => "undefined" end.

(** The callback that completes the outgoing request's headers. *)
Definition proxyReq (req : Request) (headers : gmap string json) : result (gmap string json) :=
  match rq_user req with
  | None => Ok headers
  | Some user =>
      if json_truthy user then
        match set_header "x-user-id" (member "id" user) headers with
        | Err e => Err e
        | Ok headers =>
            match set_header "x-user-email" (member "email" user) headers with
            | Err e => Err e
            | Ok headers =>
                match set_header "x-user-role" (member "role" user) headers with
                | Err e => Err e
                | Ok headers =>
                    set_header "x-user-email-verified" (Some (JStr (js_String (member "emailVerified" user)))) headers
                end
            end
        end
      else Ok headers
  end.

Definition proxy_error (s : ServiceConfig) : step := reply 502 ("Service " +:+ sc_name s +:+ " is not available").

(** ** Lemmas *)

Lemma startsWith_spec s p : startsWith s p = true <-> exists t, s = p +:+ t.
Proof.
  unfold startsWith. revert s. induction p as [|c p IH]; intros s.
  - split; [intros _; by exists s|by destruct s].
  - destruct s as [|d s]; cbn [String.prefix].
    + split; [done|]. by intros [t Ht].
    + destruct (ascii_dec c d) as [->|Hne].
      * rewrite IH. split; intros [t Ht]; exists t.
        -- by rewrite Ht.
        -- rewrite string_app_cons in Ht. by injection Ht.
      * split; [done|]. intros [t Ht]. rewrite string_app_cons in Ht. by injection Ht.
Qed.

Lemma array_of_forall {A B} (f : A -> result B) (P : A -> B -> Prop) l :
  (forall x, exists y, f x = Ok y /\ P x y) ->
  exists ys, array_of (map f l) = Ok ys /\ Forall2 P l ys.
Proof.
  intros Hf. induction l as [|x l [ys [IH HP]]]; [by exists []; split|].
  destruct (Hf x) as (y & Hy & Hxy). exists (y :: ys). cbn. rewrite Hy, IH. split; [done|by constructor].
Qed.

Lemma existsb_Forall2 {A B} (P : A -> B -> Prop) (Q : A -> Prop) (b : B -> bool) l ys :
  Forall2 P l ys -> (forall x y, P x y -> b y = true <-> Q x) ->
  existsb b ys = true <-> exists x, x ∈ l /\ Q x.
Proof.
  intros H Hb. induction H as [|x y l ys Hxy H IH]; cbn.
  - split; [done|]. by intros (x & Hx%elem_of_nil & _).
  - rewrite orb_true_iff, (Hb _ _ Hxy), IH. split.
    + intros [Hq|(z & Hz & Hq)]; [exists x; split; [by left|done]|exists z; split; [by right|done]].
    + intros (z & [->|Hz]%elem_of_cons & Hq); [by left|right; eauto].
Qed.

(** The paths that need no token. *)
Definition public_path (registry : list ServiceConfig) (path : string) : Prop :=
  exists s p, s ∈ registry /\ p ∈ public_paths s /\ glob p path.

Lemma elem_of_public_paths registry p :
  p ∈ concat (map public_paths registry) <-> exists s, s ∈ registry /\ p ∈ public_paths s.
Proof.
  rewrite list_elem_of_In, in_concat. split.
  - intros (l & (s & <- & Hs)%in_map_iff & Hp). exists s. by rewrite !list_elem_of_In.
  - intros (s & Hs & Hp). exists (public_paths s). rewrite !list_elem_of_In in *. split; [by apply in_map|done].
Qed.

(** The constructor only fails when the registry does: every path is turned
    into a well-formed expression, and the expressions accept the paths of the
    patterns. *)
Lemma new_AuthMiddleware_spec env :
  match getServiceRegistry env with
  | Err e => new_AuthMiddleware env = Err e
  | Ok registry =>
      exists this, new_AuthMiddleware env = Ok this /\
        jwtSecret this = nullish (env !! "JWT_SECRET"%string) "your-secret-key"%string /\
        forall path, isPublicPath this path = true <-> public_path registry path
  end.
Proof.
  unfold new_AuthMiddleware. destruct (getServiceRegistry env) as [registry|e]; [|done].
  destruct (array_of_forall compile (fun p r => forall s, test (pattern r) s = true <-> glob p s)
    (concat (map public_paths registry))) as (routes & Hr & HP).
  { intros p. unfold compile. destruct (glob_source_correct p) as (re & -> & Hre). eauto. }
  unfold buildPublicRoutes. rewrite Hr. eexists. split_and!; [done|done|]. intros path. unfold isPublicPath.
  cbn [publicRoutes]. rewrite (existsb_Forall2 _ (fun p => glob p path) _ _ _ HP) by (intros p r H; apply H).
  unfold public_path. setoid_rewrite elem_of_public_paths. naive_solver.
Qed.

(** The field of a header after [Bearer]. *)
Lemma bearer_fields rest : split_space ("Bearer " +:+ rest) = "Bearer"%string :: split_space rest.
Proof. reflexivity. Qed.

(** The middleware and the guard, on a header. *)
Lemma auth_use_header {jwt : Jwt} this req rest :
  isPublicPath this (before_query (rq_originalUrl req)) = false ->
  rq_headers req !! AUTHORIZATION_HEADER = Some ("Bearer " +:+ rest) ->
  exists token more, split_space rest = token :: more /\
    bearer_token req = Some token /\
    auth_use this req =
      match jwt_verify token (jwtSecret this) with
      | Ok payload => Next (set_user (user_of payload) req)
      | Err error =>
          reply 401 (if String.eqb (ename error) "TokenExpiredError"
                     then "Access token has expired" else "Invalid access token")
      end.
Proof.
  intros Hp Hh. destruct (split_space rest) as [|token more] eqn:Hs; [by apply split_space_nonempty in Hs|].
  exists token, more. split; [done|]. unfold bearer_token, auth_use. rewrite Hp, Hh, bearer_fields, Hs. split; [done|].
  assert (startsWith ("Bearer " +:+ rest) "Bearer " = true) as -> by (apply startsWith_spec; by exists rest).
  done.
Qed.

Lemma json_truthy_user payload : json_truthy (user_of payload) = true.
Proof. done. Qed.

Lemma auth_use_no_bearer {jwt : Jwt} this req :
  isPublicPath this (before_query (rq_originalUrl req)) = false ->
  (forall rest, rq_headers req !! AUTHORIZATION_HEADER <> Some ("Bearer " +:+ rest)) ->
  auth_use this req = reply 401 "Authorization header is not provided".
Proof.
  intros Hp Hh. unfold auth_use. rewrite Hp. destruct (rq_headers req !! AUTHORIZATION_HEADER) as [hd|]; [|done].
  assert (startsWith hd "Bearer " = false) as ->.
  { apply not_true_iff_false. intros [t ->]%startsWith_spec. by destruct (Hh t). }
  by rewrite orb_true_r.
Qed.

(** ** Properties *)

(** The secret of the installed guard, from the same environment; its default is
    another one. *)
Definition guard_secret (env : Env) : string :=
  nullish (env !! "JWT_SECRET"%string) "your-super-secret-jwt-key-change-this".

Section Auth.
Context {jwt : Jwt}.

(** C26: Whom the middleware lets through, when JWT_SECRET is configured: requests
    for a path that one of the registry's patterns stands for (a star is one
    segment, a slash at the end is allowed), and of the others exactly those that
    the installed guard, in the same environment, admits to a handler that is not
    public and whose header begins with [Bearer] and a space in this spelling (the
    guard ignores case); for these the user is built from the payload the guard
    attaches.  Everything else is answered with 401. *)
Theorem auth_middleware_agrees env registry this req :
  getServiceRegistry env = Ok registry -> new_AuthMiddleware env = Ok this -> is_Some (env !! "JWT_SECRET"%string) ->
  let path := before_query (rq_originalUrl req) in
  let guard := canActivate (guard_secret env) false req in
  match auth_use this req with
  | Next req' =>
      (public_path registry path /\ req' = req) \/
      (~ public_path registry path /\
       (exists rest, rq_headers req !! AUTHORIZATION_HEADER = Some ("Bearer " +:+ rest)) /\
       exists payload, guard = (Ok true, set_user payload req) /\ req' = set_user (user_of payload) req)
  | Reply status _ =>
      status = 401%Z /\ ~ public_path registry path /\
      ((forall rest, rq_headers req !! AUTHORIZATION_HEADER <> Some ("Bearer " +:+ rest)) \/
       exists e, guard = (Err e, req))
  end.
Proof.
  intros Hr Hn [secret Hsec] path guard. pose proof (new_AuthMiddleware_spec env) as H. rewrite Hr in H.
  destruct H as (this' & Hn' & Hthis & Hpub). rewrite Hn in Hn'. injection Hn' as <-. specialize (Hpub path).
  assert (jwtSecret this = guard_secret env) as Hsame.
  { unfold guard_secret. by rewrite Hthis, Hsec. }
  unfold guard. rewrite <- Hsame. clear guard.
  destruct (isPublicPath this path) eqn:Hp.
  - unfold auth_use. fold path. rewrite Hp. left. split; [by apply Hpub|done].
  - assert (~ public_path registry path) as Hnp by (intros Hq%Hpub; done).
    destruct (rq_headers req !! AUTHORIZATION_HEADER) as [hd|] eqn:Hh.
    2: { rewrite auth_use_no_bearer by (congruence || done). split_and!; [done|done|]. left. congruence. }
    destruct (startsWith hd "Bearer ") eqn:Hs.
    + apply startsWith_spec in Hs as [rest ->].
      destruct (auth_use_header this req rest Hp Hh) as (token & more & _ & Ht & ->).
      pose proof (canActivate_token (jwtSecret this) req) as Hg. rewrite Ht in Hg.
      destruct (jwt_verify token (jwtSecret this)) as [payload|e].
      * right. split_and!; [done|by exists rest|]. by exists payload.
      * split_and!; [done|done|]. right. by eexists.
    + assert (forall rest, Some hd <> Some ("Bearer " +:+ rest)) as Hno.
      { intros rest [= ->]. apply not_true_iff_false in Hs. apply Hs, startsWith_spec. by exists rest. }
      rewrite auth_use_no_bearer; [|done|by rewrite Hh]. split_and!; [done|done|by left].
Qed.

(** The middlewares tell the services who calls: for a token of the
    authentication service whose texts may stand in a header, whatever the client sent under
    these names, [x-user-id] is the user's id (the installed proxy service sends
    it undefined) and the others are the payload's. *)
Theorem middleware_identity this req rest token p iat exp headers :
  isPublicPath this (before_query (rq_originalUrl req)) = false ->
  rq_headers req !! AUTHORIZATION_HEADER = Some ("Bearer " +:+ rest) ->
  head (split_space rest) = Some token ->
  jwt_verify token (jwtSecret this) = Ok (claims p iat exp) ->
  header_text (sub p) = true -> header_text (jp_email p) = true -> header_text (jp_role p) = true ->
  exists req' hs, auth_use this req = Next req' /\ proxyReq req' headers = Ok hs /\
    hs !! "x-user-id"%string = Some (JStr (sub p)) /\
    hs !! "x-user-email"%string = Some (JStr (jp_email p)) /\
    hs !! "x-user-role"%string = Some (JStr (jp_role p)) /\
    hs !! "x-user-email-verified"%string = Some (JStr (if jp_emailVerified p then "true" else "false")) /\
    forall k, k ∉ ["x-user-id"; "x-user-email"; "x-user-role"; "x-user-email-verified"]%string ->
      hs !! k = headers !! k.
Proof.
  intros Hp Hh Ht Hv Hs He Hr.
  destruct (auth_use_header this req rest Hp Hh) as (token' & more & Hf & _ & Hu).
  rewrite Hf in Ht. injection Ht as ->. rewrite Hv in Hu. do 2 eexists. split; [exact Hu|].
  unfold proxyReq. cbn [rq_user set_user]. rewrite json_truthy_user.
  change (member "id" (user_of (claims p iat exp))) with (Some (JStr (sub p))).
  change (member "email" (user_of (claims p iat exp))) with (Some (JStr (jp_email p))).
  change (member "role" (user_of (claims p iat exp))) with (Some (JStr (jp_role p))).
  change (member "emailVerified" (user_of (claims p iat exp))) with (Some (JBool (jp_emailVerified p))).
  unfold set_header. cbn [js_toString js_String]. rewrite Hs, He, Hr.
  assert (header_text (if jp_emailVerified p then "true" else "false") = true) as -> by (by destruct (jp_emailVerified p)).
  split; [reflexivity|]. rewrite lookup_insert_eq. split_and!; [by simplify_map_eq..|].
  intros k Hk. rewrite !not_elem_of_cons in Hk. by rewrite !lookup_insert_ne by naive_solver.
Qed.
End Auth.

(** *** Routing *)

Lemma map_get_set k k' v m : map_get k (map_set k' v m) = if String.eqb k' k then Some v else map_get k m.
Proof.
  induction m as [|[q x] m IH]; cbn; [done|].
  destruct (String.eqb_spec q k') as [->|Hq]; cbn; destruct (String.eqb_spec k' k) as [->|Hk]; try done.
  - destruct (String.eqb_spec q k); [congruence|done].
  - rewrite IH. by destruct (String.eqb q k).
Qed.

Lemma map_get_keys k m : k ∈ map fst m <-> is_Some (map_get k m).
Proof.
  induction m as [|[q x] m IH]; cbn.
  - split; [by intros H%elem_of_nil|by intros []].
  - rewrite elem_of_cons, IH. destruct (String.eqb_spec q k) as [->|Hq].
    + split; [by eexists|by left].
    + split; [intros [->|H]; [done|exact H]|by right].
Qed.

Lemma proxies_snoc registry s : proxies (registry ++ [s]) = map_set (pathPrefix s) s (proxies registry).
Proof. unfold proxies. by rewrite fold_left_app. Qed.

(** The handler of a prefix is the one of the last service with it. *)
Lemma proxies_get registry k :
  match map_get k (proxies registry) with
  | Some s => s ∈ registry /\ pathPrefix s = k
  | None => forall s, s ∈ registry -> pathPrefix s <> k
  end.
Proof.
  induction registry as [|s registry IH] using rev_ind; [by intros s H%elem_of_nil|].
  rewrite proxies_snoc, map_get_set. destruct (String.eqb_spec (pathPrefix s) k) as [Hs|Hs].
  - split; [|done]. apply elem_of_app. right. by left.
  - destruct (map_get k (proxies registry)) as [s'|].
    + destruct IH as [Hin Hk]. split; [apply elem_of_app; by left|done].
    + intros s' [Hin|Hin%list_elem_of_singleton]%elem_of_app; [by apply IH|by subst].
Qed.

Lemma proxies_keys registry k :
  k ∈ map fst (proxies registry) <-> exists s, s ∈ registry /\ pathPrefix s = k.
Proof.
  rewrite map_get_keys. pose proof (proxies_get registry k) as H.
  destruct (map_get k (proxies registry)) as [s|].
  - split; [by exists s|by eexists].
  - split; [by intros []|]. intros (s & Hs & Hk). by destruct (H s Hs).
Qed.

Lemma insert_longer_perm x l : insert_longer x l ≡ₚ x :: l.
Proof.
  induction l as [|y l IH]; cbn; [done|]. destruct (Nat.leb _ _); [done|]. rewrite IH. apply Permutation_swap.
Qed.

Lemma sort_longest_perm l : sort_longest l ≡ₚ l.
Proof. induction l as [|x l IH]; [done|]. cbn. by rewrite insert_longer_perm, IH. Qed.

Definition not_shorter (a b : string) : Prop := String.length b <= String.length a.

Lemma sort_longest_sorted l : StronglySorted not_shorter (sort_longest l).
Proof.
  induction l as [|x l IH]; [constructor|]. change (sort_longest (x :: l)) with (insert_longer x (sort_longest l)).
  set (m := sort_longest l) in *. clearbody m.
  induction m as [|y m IHm]; cbn; [by repeat constructor|].
  apply StronglySorted_inv in IH as [Hm Hy]. destruct (Nat.leb_spec (String.length y) (String.length x)) as [Hle|Hlt].
  - constructor; [by constructor|]. constructor; [done|].
    eapply Forall_impl; [exact Hy|]. unfold not_shorter. intros z Hz. lia.
  - constructor; [by apply IHm|]. rewrite insert_longer_perm. constructor; [unfold not_shorter; lia|done].
Qed.

(** The first of a sorted list is the best of those that qualify. *)
Lemma find_sorted {A} (R : A -> A -> Prop) (p : A -> bool) l x :
  StronglySorted R l -> List.find p l = Some x -> forall y, y ∈ l -> p y = true -> y = x \/ R x y.
Proof.
  induction 1 as [|z l Hl IH Hz]; cbn; [done|]. destruct (p z) eqn:Hp.
  - intros [= <-] y [->|Hy]%elem_of_cons _; [by left|right]. rewrite Forall_forall in Hz. by apply Hz.
  - intros Hf y [->|Hy]%elem_of_cons Hpy; [congruence|]. by apply IH.
Qed.

(** Where a request goes: to a service whose prefix the path begins with, and
    no other such service has a longer prefix; to none (404) only if there is no
    such service.  The answer 500 is never given. *)
Theorem longest_prefix_wins registry req :
  let path := before_query (rq_originalUrl req) in
  match proxy_use (proxies registry) req with
  | ToService s =>
      s ∈ registry /\ startsWith path (pathPrefix s) = true /\
      forall s', s' ∈ registry -> startsWith path (pathPrefix s') = true ->
        String.length (pathPrefix s') <= String.length (pathPrefix s)
  | Refused status _ =>
      status = 404%Z /\
      forall s', s' ∈ registry -> startsWith path (pathPrefix s') = true -> pathPrefix s' = ""%string
  end.
Proof.
  cbv zeta. unfold proxy_use, findMatchingPrefix. set (path := before_query _). clearbody path.
  assert (forall s', s' ∈ registry -> pathPrefix s' ∈ sort_longest (map fst (proxies registry))) as Hin.
  { intros s' Hs'. rewrite sort_longest_perm, proxies_keys. eauto. }
  destruct (List.find (startsWith path) (sort_longest (map fst (proxies registry)))) as [k|] eqn:Hf.
  - pose proof (find_sorted _ _ _ _ (sort_longest_sorted _) Hf) as Hbest.
    apply find_Some_elem in Hf as [Hk Hpk]. rewrite sort_longest_perm, map_get_keys in Hk.
    assert (forall s', s' ∈ registry -> startsWith path (pathPrefix s') = true ->
      String.length (pathPrefix s') <= String.length k) as Hlen.
    { intros s' Hs' Hp'. destruct (Hbest _ (Hin s' Hs') Hp') as [->|H]; [done|exact H]. }
    destruct (truthy k) eqn:Hkt.
    + pose proof (proxies_get registry k) as Hg. destruct (map_get k (proxies registry)) as [s|]; [|by destruct Hk].
      destruct Hg as [Hs <-]. by split_and!.
    + apply truthy_empty in Hkt as ->. split; [done|]. intros s' Hs' Hp'. specialize (Hlen s' Hs' Hp').
      destruct (pathPrefix s'); [done|cbn in Hlen; lia].
  - split; [done|]. intros s' Hs' Hp'. rewrite find_None_elem in Hf. specialize (Hf _ (Hin s' Hs')). congruence.
Qed.

(** *** The registry *)

Definition registry_prefixes : list string :=
  ["/api/auth"; "/api/events"; "/api/venues"; "/api/inventory"; "/api/holds"; "/api/bookings";
   "/api/tickets"; "/api/payments"]%string.

(** The registry has its eight services, each with an address, or names the
    first variable that is missing or empty. *)
Lemma getServiceRegistry_spec env :
  match getServiceRegistry env with
  | Ok registry =>
      map pathPrefix registry = registry_prefixes /\ Forall (fun s => truthy (target s) = true) registry
  | Err e => exists key, e = JsError (key +:+ " is not configured") /\ nullish (env !! key) ""%string = ""%string
  end.
Proof.
  assert (forall name key prefix paths limit,
    match service env name key prefix paths limit with
    | Ok s => pathPrefix s = prefix /\ truthy (target s) = true
    | Err e => e = JsError (key +:+ " is not configured") /\ nullish (env !! key) ""%string = ""%string
    end) as Hs.
  { intros. unfold service, getRequiredServiceUrl. destruct (env !! key) as [url|]; [|done].
    destruct (truthy url) eqn:Hu; [done|]. apply truthy_empty in Hu as ->. done. }
  unfold getServiceRegistry. cbn [array_of].
  repeat match goal with
  | |- context [service env ?a ?b ?c ?d ?e] =>
      pose proof (Hs a b c d e); destruct (service env a b c d e); [|by exists b]
  end.
  split; [cbn; unfold registry_prefixes; repeat f_equal; naive_solver|].
  repeat constructor; naive_solver.
Qed.

(** Two prefixes of one text are comparable. *)
Lemma prefixes_comparable s p q :
  startsWith s p = true -> startsWith s q = true -> startsWith q p = true \/ startsWith p q = true.
Proof.
  revert p q. induction s as [|c s IH]; intros [|d p] [|d' q]; try (by left); try (by right); try done.
  unfold startsWith. cbn [String.prefix]. destruct (ascii_dec d c) as [->|]; [|done].
  destruct (ascii_dec d' c) as [->|]; [|done]. intros Hp Hq. destruct (ascii_dec c c); [|done]. by apply IH.
Qed.

(** Paths of the registry's services never compete: the first service that
    matches, which is what the rate limiter looks up, is the one the proxy chooses. *)
Lemma registry_first_match env registry path :
  getServiceRegistry env = Ok registry ->
  forall s s', s ∈ registry -> s' ∈ registry ->
    startsWith path (pathPrefix s) = true -> startsWith path (pathPrefix s') = true -> s = s'.
Proof.
  intros Hr. pose proof (getServiceRegistry_spec env) as H. rewrite Hr in H. destruct H as [Hp _]. clear Hr.
  assert (forall p q, p ∈ registry_prefixes -> q ∈ registry_prefixes -> startsWith q p = true -> p = q) as Hinc.
  { intros p q Hpin Hqin.
    assert (forallb (fun p => forallb (fun q => negb (startsWith q p) || String.eqb p q) registry_prefixes)
      registry_prefixes = true) as Hall by (vm_compute; reflexivity).
    rewrite forallb_forall in Hall. specialize (Hall p). rewrite forallb_forall in Hall.
    specialize (Hall (proj1 (list_elem_of_In _ _) Hpin) q (proj1 (list_elem_of_In _ _) Hqin)).
    intros Hpq. rewrite Hpq in Hall. by apply String.eqb_eq in Hall. }
  assert (NoDup (map pathPrefix registry)) as Hnd.
  { rewrite Hp. apply (bool_decide_unpack _). vm_compute. exact I. }
  intros s s' Hs Hs' Hm Hm'.
  assert (forall x, x ∈ registry -> pathPrefix x ∈ registry_prefixes) as Hpre.
  { intros x Hx. rewrite <- Hp. by apply list_elem_of_fmap_2. }
  assert (pathPrefix s = pathPrefix s') as He.
  { destruct (prefixes_comparable path _ _ Hm Hm') as [H|H].
    - by apply Hinc; [apply Hpre..|].
    - symmetry. by apply Hinc; [apply Hpre..|]. }
  clear -Hnd Hs Hs' He. induction registry as [|x registry IH]; [by apply elem_of_nil in Hs|].
  cbn in Hnd. apply NoDup_cons in Hnd as [Hx Hnd].
  apply elem_of_cons in Hs as [->|Hs]; apply elem_of_cons in Hs' as [->|Hs']; [done|..|by apply IH].
  - destruct Hx. rewrite He. by apply list_elem_of_fmap_2.
  - destruct Hx. rewrite <- He. by apply list_elem_of_fmap_2.
Qed.

(** ** Concrete runs *)

#[local] Instance mw_demo_jwt : Jwt := fun token secret =>
  if String.eqb token "jwt-0" && String.eqb secret demo_secret
  then Ok (claims (payload_of demo_user) 1700000000 1700000900)
  else Err (simple_exn "TokenExpiredError" "jwt expired").

Definition demo_env : Env := list_to_map
  [("AUTH_SERVICE_URL", "http://auth:3000"); ("EVENT_SERVICE_URL", "http://event:3001");
   ("VENUES_SERVICE_URL", "http://event:3001"); ("INVENTORY_SERVICE_URL", "http://seats:3002");
   ("HOLDS_SERVICE_URL", "http://seats:3002"); ("BOOKING_SERVICE_URL", "http://booking:3003");
   ("PAYMENT_SERVICE_URL", "http://payment:3004"); ("JWT_SECRET", demo_secret)]%string.

Definition demo_registry : list ServiceConfig :=
  match getServiceRegistry demo_env with Ok r => r | Err _ => [] end.

Definition demo_middleware : AuthMiddleware :=
  match new_AuthMiddleware demo_env with Ok m => m | Err _ => mkAuthMiddleware "" [] end.

Definition get_of (url : string) (headers : gmap string string) : Request :=
  mkRequest "GET" url None headers "" None.

(** One star is one segment, a dot is a dot, and a slash at the end is allowed. *)
Example public_examples :
  map (isPublicPath demo_middleware)
    ["/api/events/42"; "/api/events/42/"; "/api/events/42/seats"; "/api/venues/7/layout"; "/api/bookings"]%string
  = [true; true; false; true; false].
Proof. vm_compute. reflexivity. Qed.

(** No segment boundary is asked for after a prefix. *)
Example route_examples :
  map (fun url => match proxy_use (proxies demo_registry) (get_of url ∅) with
                  | ToService s => Some (sc_name s) | Refused _ _ => None end)
    ["/api/bookings/1?x=/api/auth"; "/api/authors"; "/health"]%string
  = [Some "booking-service"; Some "auth-service"; None]%string.
Proof. vm_compute. reflexivity. Qed.

(** A lower-case scheme passes the guard and not the middleware. *)
Lemma auth_middleware_agrees_witness :
  canActivate (guard_secret demo_env) false (get_of "/api/bookings" {[AUTHORIZATION_HEADER := "bearer jwt-0"]}) =
    (Ok true, set_user (claims (payload_of demo_user) 1700000000 1700000900)
                (get_of "/api/bookings" {[AUTHORIZATION_HEADER := "bearer jwt-0"]})) /\
  (exists status body, auth_use demo_middleware (get_of "/api/bookings" {[AUTHORIZATION_HEADER := "bearer jwt-0"]}) =
    Reply status body /\ status = 401%Z) /\
  ~ public_path demo_registry "/api/bookings".
Proof.
  split; [vm_compute; reflexivity|].
  pose proof (auth_middleware_agrees demo_env demo_registry demo_middleware
    (get_of "/api/bookings" {[AUTHORIZATION_HEADER := "bearer jwt-0"]})
    ltac:(vm_compute; reflexivity) ltac:(vm_compute; reflexivity) ltac:(eexists; vm_compute; reflexivity)) as H.
  cbv zeta in H.
  assert (auth_use demo_middleware (get_of "/api/bookings" {[AUTHORIZATION_HEADER := "bearer jwt-0"]}) =
    reply 401 "Authorization header is not provided") as Ha by (vm_compute; reflexivity).
  rewrite Ha in H. destruct H as (_ & Hnp & _). split; [|exact Hnp]. rewrite Ha. by do 2 eexists.
Defined.

Lemma middleware_identity_witness :
  exists req' hs, auth_use demo_middleware (get_of "/api/bookings" {[AUTHORIZATION_HEADER := "Bearer jwt-0"]}) = Next req' /\
    proxyReq req' {["x-user-id"%string := JStr "somebody-else"]} = Ok hs /\
    hs !! "x-user-id"%string = Some (JStr (u_id demo_user)).
Proof.
  destruct (middleware_identity demo_middleware (get_of "/api/bookings" {[AUTHORIZATION_HEADER := "Bearer jwt-0"]})
    "jwt-0" "jwt-0" (payload_of demo_user) 1700000000 1700000900 {["x-user-id"%string := JStr "somebody-else"]})
    as (req' & hs & Hu & Hp & Hid & _); [vm_compute; reflexivity..|].
  exists req', hs. split; [exact Hu|]. split; [exact Hp|exact Hid].
Defined.
