(* ===== verification/WindowCounter.v ===== *)
(** * RateLimitMiddleware

    apps/api-gateway/src/rate-limit/__rate-limit.middleware.ts: a fixed window,
    counted with INCR in a key that expires.  No module installs it; RateLimit
    models the interceptor that is installed.  Redis and the gateway share a
    clock, which may move at every command.  [req.path] depends on where a
    middleware is mounted, so it is an argument. *)

From S2P Require Import Prelude Effects JsNumber JsDate Json Sql Sha256 AuthWorld AuthRef UserService AuthService AuthGuard GatewayWorld RateLimit ApiGateway RegExp Middlewares.

(** ** The outside world *)

Inductive CounterE : Type -> Type :=
| CIncr (key : string) : CounterE Z
| CPExpire (key : string) (ms : Z) : CounterE Z
| CPttl (key : string) : CounterE Z
| CNow : CounterE Z.                                             (* Date.now() *)

(** Counters with their deadlines. *)
Record CounterView := mkCounterView { counters : gmap string (Z * option Z); cclock : Z }.

Definition at_time (t : Z) (v : CounterView) : CounterView := mkCounterView (counters v) t.

(** A key whose deadline passed reads as missing. *)
Definition counter (v : CounterView) (key : string) : option (Z * option Z) :=
  match counters v !! key with
  | Some (n, Some d) => if Z.ltb (cclock v) d then Some (n, Some d) else None
  | e => e
  end.

Definition set_counter (key : string) (e : Z * option Z) (v : CounterView) : CounterView :=
  mkCounterView (<[key := e]> (counters v)) (cclock v).

(** What a command answers and does. *)
Definition exec {X} (op : CounterE X) (v : CounterView) : X * CounterView :=
  match op in CounterE X return X * CounterView with
  | CIncr key =>
      match counter v key with
      | Some (n, d) => (n + 1, set_counter key (n + 1, d) v)
      | None => (1, set_counter key (1, None) v)
      end
  | CPExpire key ms =>
      match counter v key with
      | Some (n, _) => (1, set_counter key (n, Some (cclock v + ms)) v)
      | None => (0, v)
      end
  | CPttl key =>
      (match counter v key with
       | Some (_, Some d) => d - cclock v
       | Some (_, None) => -1
       | None => -2
       end, v)
  | CNow => (cclock v, v)
  end%Z.

Definition counter_ok {X} (op : CounterE X) (v : CounterView) (x : X) (v' : CounterView) : Prop :=
  exists t, (cclock v <= t)%Z /\ (x, v') = exec op (at_time t v).

Definition counter_fallible {X} (op : CounterE X) : Prop :=
  match op with CNow => False | _ => True end.

Definition counter_behaviour : behaviour CounterE CounterView :=
  {| ok := @counter_ok; rejects := fun _ _ _ => False; fallible := @counter_fallible |}.

(** A reference environment: the view and a script of clock steps. *)
Definition CounterRef : Type := CounterView * list Z.

Definition counter_run (X : Type) (op : CounterE X) (w : CounterRef) : result X * CounterRef :=
  let '(x, v) := exec op (at_time (cclock w.1 + Z.abs (hd 0 w.2)) w.1)%Z in (Ok x, (v, tl w.2)).

Definition counter_view (w : CounterRef) : CounterView := w.1.

Lemma counter_run_conforms : conforms Reliable counter_behaviour counter_run counter_view.
Proof.
  intros X op [v steps]. unfold counter_run, counter_view. cbn [fst snd].
  destruct (exec op _) as [x v'] eqn:He. cbn. exists (cclock v + Z.abs (hd 0 steps))%Z. split; [lia|done].
Qed.

Definition counter_io (X : Type) (op : CounterE X) : bool := match op with CNow => false | _ => true end.
Definition counter_flaky := flaky counter_run counter_io.

Lemma counter_flaky_conforms : conforms Faulty counter_behaviour counter_flaky (fun w => counter_view w.1).
Proof.
  apply (flaky_conforms counter_run counter_io counter_behaviour counter_view); [|apply counter_run_conforms].
  by intros X [].
Qed.

(** ** The middleware *)

Definition matched_service (registry : list ServiceConfig) (path : string) : option ServiceConfig :=
  List.find (fun s => startsWith path (pathPrefix s)) registry.

Definition counter_key (request : Request) (s : ServiceConfig) : string :=
  "ratelimit:" +:+ client_ip request +:+ ":" +:+ pathPrefix s.

Definition too_many_body (tll : Z) : json :=
  JObj [("statusCode", JNum 429); ("message", JStr "Too many requests");
        ("retryAfter", JNum (ceil_seconds tll))]%string.

(** The [try] block. *)
Definition count_request (config : RateLimitConfig) (key : string) (request : Request) : prog Res CounterE step :=
  current <- call (CIncr key) ;;
  (if Z.eqb current 1 then call (CPExpire key (windowMs config)) ;; Ret tt else Ret tt) ;;
  tll <- call (CPttl key) ;;
  modify (setHeader "X-RateLimit-Limit" (Some (max config))) ;;
  modify (setHeader "X-RateLimit-Remaining" (Some (Z.max 0 (max config - current)))) ;;
  now <- call CNow ;;
  modify (setHeader "X-RateLimit-Reset" (Some (now + tll)%Z)) ;;
  Ret (if Z.ltb (max config) current then Reply 429 (too_many_body tll) else Next request).

Definition limit_use (registry : list ServiceConfig) (path : string) (request : Request) : prog Res CounterE step :=
  match matched_service registry path with
  | None => Ret (Next request)
  | Some s =>
      match sc_rateLimit s with
      | None => Ret (Next request)
      | Some config =>
          try_catch (count_request config (counter_key request s) request) (fun _ => Ret (Next request))
      end
  end.

(** ** Lemmas *)

(** The limiter looks up the service the proxy sends the request to. *)
Lemma matched_service_routed env registry request s :
  getServiceRegistry env = Ok registry ->
  proxy_use (proxies registry) request = ToService s ->
  matched_service registry (before_query (rq_originalUrl request)) = Some s.
Proof.
  intros Hr Hp. pose proof (longest_prefix_wins registry request) as H. cbv zeta in H. rewrite Hp in H.
  destruct H as (Hs & Hm & _). unfold matched_service. destruct (List.find _ registry) as [s'|] eqn:Hf.
  - apply find_Some_elem in Hf as [Hs' Hm']. f_equal. by apply (registry_first_match env registry (before_query (rq_originalUrl request)) Hr s' s).
  - rewrite find_None_elem in Hf. by rewrite (Hf s Hs) in Hm.
Qed.

(** What one counted request does to its key: [c] is the count it reads. *)
Definition counted_call (key : string) (ms c : Z) (v v' : CounterView) : Prop :=
  exists t1 t2, (cclock v <= t1)%Z /\ (t1 <= t2)%Z /\ (t2 <= cclock v')%Z /\
    match counter (at_time t1 v) key with
    | None => c = 1%Z /\ counters v' = <[key := (1, Some (t2 + ms))%Z]> (counters v)
    | Some (n, d) => c = (n + 1)%Z /\
        (n <> 0%Z -> counters v' = <[key := (n + 1, d)%Z]> (counters v)) /\
        (forall key', key' <> key -> counters v' !! key' = counters v !! key')
    end.

(** The answer, from the count and the time to live that were read. *)
Definition answer (config : RateLimitConfig) (request : Request) (c tll : Z) : step :=
  if Z.ltb (max config) c then Reply 429 (too_many_body tll) else Next request.

Definition counter_headers (config : RateLimitConfig) (c tll now : Z) (r : Res) : Res :=
  setHeader "X-RateLimit-Reset" (Some (now + tll)%Z)
    (setHeader "X-RateLimit-Remaining" (Some (Z.max 0 (max config - c)))
       (setHeader "X-RateLimit-Limit" (Some (max config)) r)).

Ltac counter_op :=
  wp_step; wp_step;
  let r := fresh "r" in let v1 := fresh "v" in let H := fresh "H" in
  intros r v1 H; destruct r as [r|]; [|by destruct H as [_ [[]|[? _]]]];
  let t := fresh "t" in let Ht := fresh "Ht" in destruct H as (t & Ht & H); cbn in H; cbv beta iota.

Lemma counted_call_later key ms c v v1 t :
  counted_call key ms c v v1 -> (cclock v1 <= t)%Z -> counted_call key ms c v (at_time t v1).
Proof. intros (t1 & t2 & H1 & H2 & H3 & H) Ht. exists t1, t2. split_and!; [done|done|cbn; lia|done]. Qed.

(** What follows the increment. *)
Lemma count_tail_wp config key request c (Q : result step -> Res -> CounterView -> Prop) s v :
  (forall t now tll, (cclock v <= t)%Z -> (t <= now)%Z -> tll = (exec (CPttl key) (at_time t v)).1 ->
     Q (Ok (answer config request c tll)) (counter_headers config c tll now s) (at_time now v)) ->
  wp (obeys Reliable counter_behaviour)
    (tll <- call (CPttl key) ;;
     modify (setHeader "X-RateLimit-Limit" (Some (max config))) ;;
     modify (setHeader "X-RateLimit-Remaining" (Some (Z.max 0 (max config - c)))) ;;
     now <- call CNow ;;
     modify (setHeader "X-RateLimit-Reset" (Some (now + tll)%Z)) ;;
     Ret (answer config request c tll)) Q s v.
Proof.
  intros HQ. counter_op. injection H as -> ->. do 4 wp_step. wp_step. wp_step.
  intros now v' H. destruct now as [now|]; [|by destruct H as [_ [[]|[? _]]]].
  destruct H as (t' & Ht' & H). cbn in H, Ht'. injection H as -> ->. cbn. by apply (HQ t t').
Qed.

Lemma count_request_wp config key request (Q : result step -> Res -> CounterView -> Prop) s v :
  (forall c t now tll v', counted_call key (windowMs config) c v v' ->
     (cclock v <= t)%Z -> (t <= now)%Z -> cclock v' = now -> tll = (exec (CPttl key) (at_time t v')).1 ->
     Q (Ok (answer config request c tll)) (counter_headers config c tll now s) v') ->
  wp (obeys Reliable counter_behaviour) (count_request config key request) Q s v.
Proof.
  intros HQ. assert (forall c v1, counted_call key (windowMs config) c v v1 ->
    (forall t now tll, (cclock v1 <= t)%Z -> (t <= now)%Z -> tll = (exec (CPttl key) (at_time t v1)).1 ->
       Q (Ok (answer config request c tll)) (counter_headers config c tll now s) (at_time now v1))) as Hend.
  { intros c v1 Hc t now tll Ht Hn Htll. pose proof Hc as (t1 & t2 & ? & ? & ? & _).
    eapply (HQ c t now); [apply counted_call_later; [done|lia]|lia|done|done|done]. }
  unfold count_request. counter_op. destruct (counter (at_time t v) key) as [[n d]|] eqn:He; injection H as -> ->.
  - assert (forall v1, (t <= cclock v1)%Z ->
      (n <> 0%Z -> counters v1 = <[key := (n + 1, d)%Z]> (counters v)) ->
      (forall key', key' <> key -> counters v1 !! key' = counters v !! key') ->
      counted_call key (windowMs config) (n + 1) v v1) as Hcc.
    { intros v1 Hv1 Hn Hf. exists t, t. rewrite He. split_and!; [done|done|done|done|done|done]. }
    wp_step. destruct (Z.eqb_spec (n + 1) 1) as [Hn|Hn].
    + counter_op. wp_step. apply count_tail_wp, Hend, Hcc.
      all: destruct (counter (at_time t0 _) key) as [[n' d']|] in H; injection H as _ ->; cbn in Ht0 |- *; try lia.
      all: intros key' Hk; by rewrite ?lookup_insert_ne.
    + wp_step. apply count_tail_wp, Hend, Hcc; cbn; [done|done|]. intros key' Hk. by rewrite lookup_insert_ne.
  - wp_step. cbn [Z.eqb Pos.eqb]. counter_op. wp_step. apply count_tail_wp, Hend. exists t, t0. rewrite He.
    unfold counter in H. cbn [counters at_time set_counter] in H. rewrite lookup_insert_eq in H. injection H as _ ->.
    cbn in Ht0 |- *. split_and!; [done|done|done|done|]. by rewrite insert_insert_eq.
Qed.

(** The limit and the key that apply to a request. *)
Definition limit_key (registry : list ServiceConfig) (path : string) (request : Request) :
    option (RateLimitConfig * string) :=
  match matched_service registry path with
  | Some s => option_map (fun config => (config, counter_key request s)) (sc_rateLimit s)
  | None => None
  end.

Lemma limit_use_wp registry path request (Q : result step -> Res -> CounterView -> Prop) s v :
  match limit_key registry path request with
  | None => Q (Ok (Next request)) s v
  | Some (config, key) =>
      forall c t now tll v', counted_call key (windowMs config) c v v' ->
        (cclock v <= t)%Z -> (t <= now)%Z -> cclock v' = now -> tll = (exec (CPttl key) (at_time t v')).1 ->
        Q (Ok (answer config request c tll)) (counter_headers config c tll now s) v'
  end ->
  wp (obeys Reliable counter_behaviour) (limit_use registry path request) Q s v.
Proof.
  unfold limit_key, limit_use. destruct (matched_service registry path) as [sv|]; [|done].
  destruct (sc_rateLimit sv) as [config|]; [|done]. intros HQ. wp_step.
  apply count_request_wp. intros c t now tll v' H1 H2 H3 H4 H5. by apply (HQ c t now).
Qed.

(** ** Properties *)

(** The requests of a history, with the paths the middleware sees. *)
Definition serve_counted {W} (h : forall X, CounterE X -> W -> result X * W) (registry : list ServiceConfig)
    (hist : list (string * Request)) (w : W) : W :=
  foldl (fun w pr => final h (limit_use registry pr.1 pr.2) fresh_response w) w hist.

Definition passed (r : result step) : bool := match r with Ok (Next _) => true | _ => false end.

Definition is_key (key : string) (k : option (RateLimitConfig * string)) : bool :=
  match k with Some (_, key') => String.eqb key' key | None => false end.

(** For the requests of a key, in order: was it let through? *)
Fixpoint verdicts {W} (h : forall X, CounterE X -> W -> result X * W) (registry : list ServiceConfig)
    (key : string) (hist : list (string * Request)) (w : W) : list bool :=
  match hist with
  | [] => []
  | (path, request) :: hist =>
      let use := limit_use registry path request in
      let rest := verdicts h registry key hist (final h use fresh_response w) in
      if is_key key (limit_key registry path request)
      then passed (outcome h use fresh_response w) :: rest else rest
  end.

Lemma counter_none_later v v' key :
  counter v key = None -> counters v' !! key = counters v !! key -> (cclock v <= cclock v')%Z ->
  counter v' key = None.
Proof.
  unfold counter. intros Hn -> Ht. destruct (counters v !! key) as [[n [d|]]|]; [|done|done].
  destruct (Z.ltb_spec (cclock v) d); [done|]. destruct (Z.ltb_spec (cclock v') d); [lia|done].
Qed.

(** [k] requests of the key were counted in the window that ends at [T] or later. *)
Definition window_state (key : string) (T : Z) (k : nat) (v : CounterView) : Prop :=
  match k with
  | O => counter v key = None
  | _ => exists d, (T <= d)%Z /\ counters v !! key = Some (Z.of_nat k, Some d)
  end.

Lemma counted_call_other key key' ms c v v' :
  counted_call key' ms c v v' -> key' <> key -> counters v' !! key = counters v !! key.
Proof.
  intros (t1 & t2 & _ & _ & _ & H) Hk. destruct (counter _ key') as [[n d]|].
  - by apply H.
  - destruct H as [_ ->]. by rewrite lookup_insert_ne.
Qed.

Lemma counted_call_clock key ms c v v' : counted_call key ms c v v' -> (cclock v <= cclock v')%Z.
Proof. intros (t1 & t2 & ? & ? & ? & _). lia. Qed.

Lemma window_state_other key T k v v' :
  window_state key T k v -> counters v' !! key = counters v !! key -> (cclock v <= cclock v')%Z ->
  window_state key T k v'.
Proof.
  destruct k; cbn; [apply counter_none_later|]. intros (d & Hd & Hc) He _. exists d. by rewrite He.
Qed.

(** The next request of the key is number [k + 1]. *)
Lemma window_state_next key ms T k c v v' :
  window_state key T k v -> counted_call key ms c v v' ->
  (T <= cclock v + ms)%Z -> (cclock v' < T)%Z ->
  c = (Z.of_nat k + 1)%Z /\ window_state key T (Datatypes.S k) v'.
Proof.
  intros Hw (t1 & t2 & H1 & H2 & H3 & H) HT Hend. destruct k as [|k]; cbn in Hw.
  - assert (counter (at_time t1 v) key = None) as Hn by (by apply (counter_none_later v)). rewrite Hn in H.
    destruct H as [-> Hc]. split; [done|]. exists (t2 + ms)%Z. split; [lia|]. rewrite Hc. by rewrite lookup_insert_eq.
  - destruct Hw as (d & Hd & Hc).
    assert (counter (at_time t1 v) key = Some (Z.of_nat (Datatypes.S k), Some d)) as Hn.
    { unfold counter. cbn [counters at_time cclock]. rewrite Hc. destruct (Z.ltb_spec t1 d); [done|lia]. }
    rewrite Hn in H. destruct H as (-> & Hc' & _). split; [done|]. exists d. split; [done|].
    rewrite (Hc' ltac:(lia)), lookup_insert_eq. repeat f_equal. lia.
Qed.

Section Properties.
Context {W : Type}.
Variable h : forall X, CounterE X -> W -> result X * W.
Variable view : W -> CounterView.
Hypothesis Hh : conforms Reliable counter_behaviour h view.
Variable registry : list ServiceConfig.

Lemma limit_use_clock path request w :
  (cclock (view w) <= cclock (view (final h (limit_use registry path request) fresh_response w)))%Z.
Proof.
  call_wp Hh w. apply limit_use_wp. destruct (limit_key registry path request) as [[config key]|]; [|done].
  intros c t now tll v' H _ _ _ _. by eapply counted_call_clock.
Qed.

Lemma serve_counted_clock hist w : (cclock (view w) <= cclock (view (serve_counted h registry hist w)))%Z.
Proof.
  revert w. induction hist as [|[path request] hist IH]; intros w; cbn; [lia|].
  pose proof (limit_use_clock path request w). etransitivity; [done|apply IH].
Qed.

(** One request, in a window that is not over when it is answered. *)
Lemma limit_use_step key config T k path request w :
  (forall c, limit_key registry path request = Some (c, key) -> c = config) ->
  window_state key T k (view w) -> (T <= cclock (view w) + windowMs config)%Z ->
  let use := limit_use registry path request in
  (cclock (view (final h use fresh_response w)) < T)%Z ->
  if is_key key (limit_key registry path request)
  then passed (outcome h use fresh_response w) = Z.ltb (Z.of_nat k) (max config) /\
       window_state key T (Datatypes.S k) (view (final h use fresh_response w))
  else window_state key T k (view (final h use fresh_response w)).
Proof.
  intros Hc Hw HT. cbv zeta. call_wp Hh w. apply limit_use_wp.
  destruct (limit_key registry path request) as [[c key']|]; [|by intros _].
  cbn [is_key]. intros n t now tll v' Hcall _ _ _ _ Hend.
  destruct (String.eqb_spec key' key) as [->|Hk].
  - specialize (Hc c eq_refl) as ->.
    destruct (window_state_next _ _ _ _ _ _ _ Hw Hcall HT Hend) as [-> Hw']. split; [|done].
    unfold answer. destruct (Z.ltb_spec (max config) (Z.of_nat k + 1)); cbn; symmetry; [apply Z.ltb_ge|apply Z.ltb_lt]; lia.
  - eapply window_state_other; [done|by eapply counted_call_other|by eapply counted_call_clock].
Qed.

Lemma verdicts_window key config T k hist w :
  (forall path request c, (path, request) ∈ hist -> limit_key registry path request = Some (c, key) -> c = config) ->
  window_state key T k (view w) -> (T <= cclock (view w) + windowMs config)%Z ->
  (cclock (view (serve_counted h registry hist w)) < T)%Z ->
  verdicts h registry key hist w =
  map (fun i => Z.ltb (Z.of_nat i) (max config)) (seq k (length (verdicts h registry key hist w))).
Proof.
  revert k w. induction hist as [|[path request] hist IH]; intros k w Hc Hw HT Hend; [done|].
  cbn [verdicts serve_counted foldl fst snd] in *. set (w1 := final h (limit_use registry path request) fresh_response w) in *.
  change (foldl _ w1 hist) with (serve_counted h registry hist w1) in Hend.
  pose proof (serve_counted_clock hist w1) as Hclk. pose proof (limit_use_clock path request w) as Hclk'. fold w1 in Hclk'.
  assert (forall path request c, (path, request) ∈ hist -> limit_key registry path request = Some (c, key) -> c = config)
    as Hc' by (intros p r c Hin; apply Hc; by right).
  pose proof (limit_use_step key config T k path request w
    (fun c => Hc path request c (list_elem_of_here _ _)) Hw HT ltac:(fold w1; lia)) as Hs. fold w1 in Hs.
  destruct (is_key key (limit_key registry path request)).
  - destruct Hs as [-> Hw']. cbn [length seq map]. f_equal. apply IH; [done|done|lia|done].
  - apply IH; [done|done|lia|done].
Qed.

(** Within one window of a key the first [max] requests pass and all others
    are refused, whatever other requests come between them: after a moment at
    which the key has no counter, and until [windowMs] have passed. *)
Theorem fixed_window key config hist w :
  (forall path request c, (path, request) ∈ hist -> limit_key registry path request = Some (c, key) -> c = config) ->
  counter (view w) key = None ->
  (cclock (view (serve_counted h registry hist w)) < cclock (view w) + windowMs config)%Z ->
  verdicts h registry key hist w =
  map (fun i => Z.ltb (Z.of_nat i) (max config)) (seq 0 (length (verdicts h registry key hist w))).
Proof.
  intros Hc Hn Hend. by apply (verdicts_window key config (cclock (view w) + windowMs config) 0).
Qed.

Lemma limit_use_stuck key config path request n w :
  (forall c, limit_key registry path request = Some (c, key) -> c = config) ->
  counters (view w) !! key = Some (n, None) -> (0 < n)%Z -> (max config <= n)%Z ->
  let use := limit_use registry path request in
  let mine := is_key key (limit_key registry path request) in
  (mine = true -> outcome h use fresh_response w = Ok (Reply 429 (too_many_body (-1)))) /\
  counters (view (final h use fresh_response w)) !! key = Some (if mine then n + 1 else n, None)%Z.
Proof.
  intros Hc Hn H0 Hmax. cbv zeta. call_wp Hh w. apply limit_use_wp.
  destruct (limit_key registry path request) as [[c key']|]; [|by split].
  cbn [is_key]. intros i t now tll v' Hcall _ _ _ ->. destruct (String.eqb_spec key' key) as [->|Hk].
  2: { split; [done|]. rewrite (counted_call_other _ _ _ _ _ _ Hcall Hk). exact Hn. }
  specialize (Hc c eq_refl) as ->. destruct Hcall as (t1 & t2 & _ & _ & _ & H).
  assert (counter (at_time t1 (view w)) key = Some (n, None)) as Hl by (unfold counter; cbn; by rewrite Hn).
  rewrite Hl in H. destruct H as (-> & Hc' & _). specialize (Hc' ltac:(lia)).
  assert (counters v' !! key = Some (n + 1, None)%Z) as Hv' by (by rewrite Hc', lookup_insert_eq).
  split; [|done]. intros _. unfold answer. destruct (Z.ltb_spec (max config) (n + 1)); [|lia].
  cbn. unfold counter. cbn. by rewrite Hv'.
Qed.

(** A counter without a deadline never resets: once it has reached [max],
    every later request of the key is refused, at any time, and is told to wait
    for no second.  One failed PEXPIRE is enough to get there: INCR has
    counted, the request passes, and no later one is the first. *)
Theorem lost_expiry_locks_out key config n hist w :
  (forall path request c, (path, request) ∈ hist -> limit_key registry path request = Some (c, key) -> c = config) ->
  counters (view w) !! key = Some (n, None) -> (0 < n)%Z -> (max config <= n)%Z ->
  let refused := verdicts h registry key hist w in
  refused = replicate (length refused) false /\
  counters (view (serve_counted h registry hist w)) !! key = Some (n + Z.of_nat (length refused), None)%Z /\
  ceil_seconds (-1) = 0%Z.
Proof.
  cbv zeta. revert n w. induction hist as [|[path request] hist IH]; intros n w Hc Hn H0 Hmax.
  { cbn. by rewrite Z.add_0_r. }
  destruct (limit_use_stuck key config path request n w
    (fun c => Hc path request c (list_elem_of_here _ _)) Hn H0 Hmax) as [Ho Hn'].
  cbn [verdicts serve_counted foldl fst snd]. set (w1 := final h (limit_use registry path request) fresh_response w) in *.
  assert (forall path request c, (path, request) ∈ hist -> limit_key registry path request = Some (c, key) -> c = config)
    as Hc' by (intros p r c Hin; apply Hc; by right).
  destruct (is_key key (limit_key registry path request)).
  - destruct (IH (n + 1)%Z w1 Hc' Hn' ltac:(lia) ltac:(lia)) as (Hr & Hv & _). rewrite (Ho eq_refl). cbn [passed length replicate].
    split_and!; [by f_equal| |done]. etransitivity; [exact Hv|]. do 2 f_equal. lia.
  - by apply IH.
Qed.
End Properties.

(** Redis failures refuse nobody. *)
Lemma limit_use_fails_open {W} (h : forall X, CounterE X -> W -> result X * W) registry path request s w :
  is_ok (outcome h (limit_use registry path request) s w) = true.
Proof.
  unfold limit_use. destruct (matched_service registry path) as [sv|]; [|done].
  destruct (sc_rateLimit sv) as [config|]; [|done].
  unfold outcome. rewrite run_try_catch. by destruct (run h (count_request _ _ _) s w) as [[[a|e] s'] w'].
Qed.

(** ** Concrete runs *)

Definition booking_call : string * Request := ("/api/bookings"%string, get_of "/api/bookings" ∅).
Definition hold_call : string * Request := ("/api/holds"%string, get_of "/api/holds" ∅).
Definition booking_key : string := "ratelimit:unknown:/api/bookings".
Definition five_per_minute : RateLimitConfig := mkRateLimitConfig (60 * 1000) 5.

Definition counter_world : CounterRef := (mkCounterView ∅ 1700000000000, replicate 200 7%Z).

Lemma fixed_window_witness :
  let hist := replicate 4 booking_call ++ hold_call :: replicate 4 booking_call in
  verdicts counter_run demo_registry booking_key hist counter_world =
    [true; true; true; true; true; false; false; false].
Proof.
  cbv zeta. rewrite (fixed_window counter_run counter_view counter_run_conforms demo_registry booking_key five_per_minute).
  - assert (length (verdicts counter_run demo_registry booking_key
      (replicate 4 booking_call ++ hold_call :: replicate 4 booking_call) counter_world) = 8) as -> by (vm_compute; reflexivity).
    vm_compute. reflexivity.
  - intros path request c Hin. apply elem_of_app in Hin as [Hin|Hin].
    + apply elem_of_replicate in Hin as [[= -> ->] _]. vm_compute. congruence.
    + apply elem_of_cons in Hin as [[= -> ->]|Hin]; [intros H; vm_compute in H; discriminate H|].
      apply elem_of_replicate in Hin as [[= -> ->] _]. vm_compute. congruence.
  - vm_compute. reflexivity.
  - vm_compute. reflexivity.
Defined.

(** The PEXPIRE of the first of five requests fails; all five pass. *)
Definition five_calls : CounterRef * list bool :=
  serve_counted counter_flaky demo_registry (replicate 5 booking_call) (counter_world, [false; true]).

(** A day later the client is still locked out. *)
Definition a_day_later : CounterRef := (at_time (1700000000000 + 24 * 3600 * 1000) five_calls.1.1, replicate 200 7%Z).

Lemma lost_expiry_locks_out_witness :
  verdicts counter_flaky demo_registry booking_key (replicate 5 booking_call) (counter_world, [false; true]) =
    replicate 5 true /\
  verdicts counter_run demo_registry booking_key (replicate 3 booking_call) a_day_later = replicate 3 false.
Proof.
  split; [vm_compute; reflexivity|].
  destruct (lost_expiry_locks_out counter_run counter_view counter_run_conforms demo_registry booking_key
    five_per_minute 5 (replicate 3 booking_call) a_day_later) as [H _].
  - intros path request c Hin. apply elem_of_replicate in Hin as [[= -> ->] _]. vm_compute. congruence.
  - vm_compute. reflexivity.
  - lia.
  - vm_compute. discriminate.
  - assert (length (verdicts counter_run demo_registry booking_key (replicate 3 booking_call) a_day_later) = 3)
      as Hl by (vm_compute; reflexivity).
    rewrite Hl in H. exact H.
Defined.

Lemma matched_service_routed_witness :
  option_map sc_name (matched_service demo_registry "/api/bookings/7") = Some "booking-service"%string.
Proof.
  destruct (proxy_use (proxies demo_registry) (get_of "/api/bookings/7?x=1" ∅)) as [s|status m] eqn:H.
  - pose proof (matched_service_routed demo_env demo_registry _ s ltac:(vm_compute; reflexivity) H) as Hm.
    change (before_query (rq_originalUrl (get_of "/api/bookings/7?x=1" ∅))) with "/api/bookings/7"%string in Hm.
    rewrite Hm. vm_compute in H. injection H as <-. reflexivity.
  - vm_compute in H. discriminate H.
Defined.
