(* ===== verification/EventWorld.v ===== *)
(** * Event service: data and outside world

    The schemas and DTOs of apps/event-service, the operations its methods
    await (the two Mongoose models and the Kafka client) and their documented
    behaviour.  A date of a request is an ISO text that Mongoose casts; it is
    represented by the instant it denotes. *)

From S2P Require Import Prelude Effects JsNumber Json Sql SeatWorld Inventory.

(** ** Schemas *)

Module EventStatus.
Inductive t := DRAFT | PUBLISHED | CANCELLED | COMPLETED.
Definition value (s : t) : string :=
  match s with DRAFT => "draft" | PUBLISHED => "published" | CANCELLED => "cancelled" | COMPLETED => "completed" end.
End EventStatus.

Module SeatType.
Inductive t := STANDARD | VIP | WHEELCHAIR | RESTRICTED_VIEW.
Definition value (s : t) : string :=
  match s with STANDARD => "standard" | VIP => "vip" | WHEELCHAIR => "wheelchair" | RESTRICTED_VIEW => "restricted_view" end.
End SeatType.

(** schemas/venue.schema.ts *)
Record SeatDefinition := mkSeatDefinition {
  sd_number : string;
  sd_type : SeatType.t;
  sd_x : number;
  sd_y : number;
}.

Record Row := mkRow { rw_label : string; rw_seats : list SeatDefinition }.

Record Section_ := mkSection {
  sec_id : string;
  sec_name : string;
  sec_capacity : Z;
  sec_sortOrder : number;
  sec_rows : list Row;
}.

Record Venue := mkVenue {
  ven_id : string;
  ven_name : string;
  ven_address : option string;
  ven_city : option string;
  ven_country : option string;
  ven_latitude : option number;
  ven_longitude : option number;
  ven_totalCapacity : Z;
  ven_venueMapUrl : option string;
  ven_sections : list Section_;
}.

(** schema/event.schema.ts *)
Record TicketType := mkTicketType {
  tt_id : string;
  tt_sectionId : string;
  tt_name : string;
  tt_price : number;
  tt_currency : string;
  tt_maxPerOrder : number;
  tt_salesStartAt : option Z;
  tt_salesEndAt : option Z;
}.

Record Event := mkEvent {
  ev_id : string;
  ev_organizerId : string;
  ev_venueId : string;
  ev_title : string;
  ev_description : option string;
  ev_status : EventStatus.t;
  ev_startsAt : Z;
  ev_endsAt : option Z;
  ev_doorsOpenAt : option Z;
  ev_saleStartsAt : option Z;
  ev_saleEndsAt : option Z;
  ev_ticketTypes : list TicketType;
  ev_metadata : option json;
}.

(** ** DTOs *)

(** dtos/create-venue.dto.ts; seats and rows have the shape of the schema. *)
Record CreateSectionDto := mkCreateSectionDto {
  cs_name : string;
  cs_capacity : option number;
  cs_sortOrder : option number;
  cs_rows : list Row;
}.

Record CreateVenueDto := mkCreateVenueDto {
  cv_name : string;
  cv_address : option string;
  cv_city : option string;
  cv_country : option string;
  cv_latitude : option number;
  cv_longitude : option number;
  cv_venueMapUrl : option string;
  cv_sections : list CreateSectionDto;
}.

(** dto/create-event.dto.ts *)
Record CreateTicketTypeDto := mkCreateTicketTypeDto {
  ct_sectionId : string;
  ct_name : string;
  ct_price : number;
  ct_currency : option string;
  ct_maxPerOrder : option number;
  ct_salesStartAt : option Z;
  ct_salesEndAt : option Z;
}.

Record CreateEventDto := mkCreateEventDto {
  ce_organizerId : string;
  ce_venueId : string;
  ce_title : string;
  ce_description : option string;
  ce_category : option string;
  ce_status : option EventStatus.t;
  ce_startsAt : Z;
  ce_endsAt : option Z;
  ce_doorsOpenAt : option Z;
  ce_saleStartsAt : option Z;
  ce_saleEndsAt : option Z;
  ce_ticketTypes : list CreateTicketTypeDto;
  ce_metadata : option json;
}.

(** The argument of [new this.venueModel]. *)
Record SectionData := mkSectionData {
  sda_name : string;
  sda_sortOrder : number;
  sda_capacity : Z;
  sda_rows : list Row;
}.

Record VenueData := mkVenueData {
  vd_dto : CreateVenueDto;
  vd_totalCapacity : Z;
  vd_sections : list SectionData;
}.

(** ** Operations *)

Inductive EventE : Type -> Type :=
| VenueSave (d : VenueData) : EventE Venue
| VenueFind : EventE (list Venue)
| VenueFindById (id : string) : EventE (option Venue)
| EventSave (d : CreateEventDto) : EventE Event
| EventFind : EventE (list Event)
| EventFindById (id : string) : EventE (option Event)
| EventEmit (key : string) (m : EventCreateMessage) : EventE unit.   (* topic event.create *)

(** [created_messages] has the messages the Kafka client was handed. *)
Record EventView := mkEventView {
  venues : gmap string Venue;
  event_docs : gmap string Event;
  created_messages : list (string * EventCreateMessage);
}.

Definition with_venues (m : gmap string Venue) (v : EventView) : EventView :=
  mkEventView m (event_docs v) (created_messages v).
Definition with_event_docs (m : gmap string Event) (v : EventView) : EventView :=
  mkEventView (venues v) m (created_messages v).
Definition with_created_messages (l : list (string * EventCreateMessage)) (v : EventView) : EventView :=
  mkEventView (venues v) (event_docs v) l.

(** ** Documented behaviour *)

(** A section of the saved document; Mongoose adds the [_id]. *)
Definition section_created (d : SectionData) (s : Section_) : Prop :=
  s = mkSection (sec_id s) (sda_name d) (sda_capacity d) (sda_sortOrder d) (sda_rows d).

Definition venue_created (d : VenueData) (v : Venue) : Prop :=
  let c := vd_dto d in
  v = mkVenue (ven_id v) (cv_name c) (cv_address c) (cv_city c) (cv_country c) (cv_latitude c)
        (cv_longitude c) (vd_totalCapacity d) (cv_venueMapUrl c) (ven_sections v) /\
  Forall2 section_created (vd_sections d) (ven_sections v) /\ NoDup (map sec_id (ven_sections v)).

(** The ticket type of the saved event, with the schema's default. *)
Definition ticket_type_created (d : CreateTicketTypeDto) (t : TicketType) : Prop :=
  t = mkTicketType (tt_id t) (ct_sectionId d) (ct_name d) (ct_price d) (nullish (ct_currency d) "")
        (nullish (ct_maxPerOrder d) (num_of_Z 10)) (ct_salesStartAt d) (ct_salesEndAt d).

(** [category] is not in the schema, so it is not stored. *)
Definition event_created (d : CreateEventDto) (e : Event) : Prop :=
  e = mkEvent (ev_id e) (ce_organizerId d) (ce_venueId d) (ce_title d) (ce_description d)
        (nullish (ce_status d) EventStatus.DRAFT) (ce_startsAt d) (ce_endsAt d) (ce_doorsOpenAt d)
        (ce_saleStartsAt d) (ce_saleEndsAt d) (ev_ticketTypes e) (ce_metadata d) /\
  Forall2 ticket_type_created (ce_ticketTypes d) (ev_ticketTypes e).

(** Mongoose's [required] refuses a missing and an empty text. *)
Definition ticket_type_complete (d : CreateTicketTypeDto) : bool :=
  truthy (ct_sectionId d) && truthy (ct_name d) && truthy (nullish (ct_currency d) "").

Definition event_complete (d : CreateEventDto) : bool :=
  truthy (ce_organizerId d) && truthy (ce_venueId d) && truthy (ce_title d) &&
  forallb ticket_type_complete (ce_ticketTypes d).

(** Which texts are casts of an ObjectId; another one makes a query fail. *)
Class ObjectIds := isObjectId : string -> bool.

Section Behaviour.
Context {oid : ObjectIds}.

Definition event_ok {X} (op : EventE X) (v : EventView) : X -> EventView -> Prop :=
  match op with
  | VenueSave d => fun x v' =>
      venue_created d x /\ venues v !! ven_id x = None /\ v' = with_venues (<[ven_id x := x]> (venues v)) v
  | VenueFind => fun l v' => v' = v /\ l ≡ₚ rows (venues v)
  | VenueFindById id => fun o v' => v' = v /\ o = venues v !! id
  | EventSave d => fun x v' =>
      event_complete d = true /\ event_created d x /\ event_docs v !! ev_id x = None /\
      v' = with_event_docs (<[ev_id x := x]> (event_docs v)) v
  | EventFind => fun l v' => v' = v /\ l ≡ₚ rows (event_docs v)
  | EventFindById id => fun o v' => v' = v /\ o = event_docs v !! id
  | EventEmit key m => fun _ v' => v' = with_created_messages (created_messages v ++ [(key, m)]) v
  end.

Definition event_rejects {X} (op : EventE X) (v : EventView) : Prop :=
  match op with
  | VenueFindById id | EventFindById id => isObjectId id = false
  | EventSave d => event_complete d = false
  | _ => False
  end.

Definition event_fallible {X} (op : EventE X) : Prop :=
  match op with EventEmit _ _ => False | _ => True end.

Definition event_behaviour : behaviour EventE EventView :=
  {| ok := @event_ok; rejects := @event_rejects; fallible := @event_fallible |}.
End Behaviour.

Ltac event_sem H :=
  cbn [obeys ok rejects fallible event_behaviour event_ok event_rejects event_fallible] in H.

(** ** A reference environment *)

Definition make_sections (ds : list SectionData) : list Section_ :=
  imap (fun i d => mkSection (repeat_char (i + 1)) (sda_name d) (sda_capacity d) (sda_sortOrder d) (sda_rows d)) ds.

Definition make_venue (id : string) (d : VenueData) : Venue :=
  let c := vd_dto d in
  mkVenue id (cv_name c) (cv_address c) (cv_city c) (cv_country c) (cv_latitude c) (cv_longitude c)
    (vd_totalCapacity d) (cv_venueMapUrl c) (make_sections (vd_sections d)).

Definition make_ticket_type (d : CreateTicketTypeDto) : TicketType :=
  mkTicketType ("tt-" +:+ ct_name d) (ct_sectionId d) (ct_name d) (ct_price d) (nullish (ct_currency d) "")
    (nullish (ct_maxPerOrder d) (num_of_Z 10)) (ct_salesStartAt d) (ct_salesEndAt d).

Definition make_event (id : string) (d : CreateEventDto) : Event :=
  mkEvent id (ce_organizerId d) (ce_venueId d) (ce_title d) (ce_description d)
    (nullish (ce_status d) EventStatus.DRAFT) (ce_startsAt d) (ce_endsAt d) (ce_doorsOpenAt d)
    (ce_saleStartsAt d) (ce_saleEndsAt d) (map make_ticket_type (ce_ticketTypes d)) (ce_metadata d).

#[global] Instance any_id : ObjectIds := truthy.

Definition event_run (X : Type) (op : EventE X) (v : EventView) : result X * EventView :=
  let cast_error := JsError "CastError" in
  match op in EventE X return result X * EventView with
  | VenueSave d =>
      let x := make_venue (List.hd ""%string (new_ids (venues v) 1)) d in
      (Ok x, with_venues (<[ven_id x := x]> (venues v)) v)
  | VenueFind => (Ok (rows (venues v)), v)
  | VenueFindById id => if isObjectId id then (Ok (venues v !! id), v) else (Err cast_error, v)
  | EventSave d =>
      if event_complete d then
        let x := make_event (List.hd ""%string (new_ids (event_docs v) 1)) d in
        (Ok x, with_event_docs (<[ev_id x := x]> (event_docs v)) v)
      else (Err (JsError "ValidationError"), v)
  | EventFind => (Ok (rows (event_docs v)), v)
  | EventFindById id => if isObjectId id then (Ok (event_docs v !! id), v) else (Err cast_error, v)
  | EventEmit key m => (Ok tt, with_created_messages (created_messages v ++ [(key, m)]) v)
  end.

Definition event_view (v : EventView) : EventView := v.

Lemma make_sections_spec ds :
  Forall2 section_created ds (make_sections ds) /\ NoDup (map sec_id (make_sections ds)).
Proof.
  split.
  - unfold make_sections. apply Forall2_same_length_lookup. split; [by rewrite length_imap|].
    intros i d s Hd Hs. rewrite list_lookup_imap, Hd in Hs. cbn in Hs. by injection Hs as <-.
  - apply NoDup_alt. intros i j x Hi Hj. unfold make_sections in *.
    rewrite list_lookup_fmap, list_lookup_imap in Hi, Hj.
    destruct (ds !! i); [|done]. destruct (ds !! j); [|done]. cbn in Hi, Hj.
    injection Hi as <-. injection Hj as Heq. apply (f_equal String.length) in Heq.
    rewrite !repeat_char_length in Heq. lia.
Qed.

Lemma event_run_conforms : conforms Reliable event_behaviour event_run event_view.
Proof.
  intros X op v. destruct op; cbn; try done.
  - destruct (make_sections_spec (vd_sections d)). split; [by split_and!|]. split; [apply new_id_fresh|done].
  - destruct (isObjectId id) eqn:Hi; cbn; [done|]. split; [done|by left].
  - destruct (event_complete d) eqn:Hc; cbn.
    + split; [done|]. split; [|split; [apply new_id_fresh|done]]. split; [done|].
      cbn. apply Forall2_fmap_r, Forall_Forall2_diag, Forall_true. done.
    + split; [done|by left].
  - destruct (isObjectId id) eqn:Hi; cbn; [done|]. split; [done|by left].
Qed.

Definition empty_events : EventView := mkEventView ∅ ∅ [].
