(* ===== verification/EventService.v ===== *)
(** * VenueService and EventService

    apps/event-service/src/venue/venue.service.ts and event/event.service.ts:
    a venue with its capacities, and an event over a venue, which publishes the
    seats on sale as the message the seat inventory consumes. *)

From S2P Require Import Prelude Effects JsNumber Json Redis Sql SeatWorld SeatRef Availability Inventory EventWorld.
From Stdlib Require Import Ascii.

(** ** Venues *)

(** [rows.reduce((total, row) => total + row.seats.length, 0)] *)
Definition count_seats (rws : list Row) : Z :=
  foldl (fun total row => (total + Z.of_nat (length (rw_seats row)))%Z) 0%Z rws.

Definition total_capacity (sections : list CreateSectionDto) : Z :=
  foldl (fun total section => (total + count_seats (cs_rows section))%Z) 0%Z sections.

(** The callback of [sections.map]; the spread's [capacity] is overwritten. *)
Definition section_data (index : nat) (section : CreateSectionDto) : SectionData :=
  mkSectionData (cs_name section) (nullish (cs_sortOrder section) (num_of_Z (Z.of_nat index)))
    (count_seats (cs_rows section)) (cs_rows section).

Module Venues.
Section Service.
Context {S : Type}.

Definition create (createVenueDto : CreateVenueDto) : prog S EventE Venue :=
  let totalCapacity := total_capacity (cv_sections createVenueDto) in
  let sections := imap section_data (cv_sections createVenueDto) in
  call (VenueSave (mkVenueData createVenueDto totalCapacity sections)).

Definition findAll : prog S EventE (list Venue) := call VenueFind.

Definition findById (id : string) : prog S EventE Venue :=
  venue <- call (VenueFindById id) ;;
  match venue with
  | None => Throw (NotFoundException "Venue not found")
  | Some venue => Ret venue
  end.

Definition getLayout (id : string) : prog S EventE Venue := findById id.
End Service.
End Venues.

(** ** Events *)

(** The first loop: the section of every ticket type must be in the venue. *)
Fixpoint check_sections (venue : Venue) (venueSectionIds : list string) (ticketTypes : list CreateTicketTypeDto) :
    result unit :=
  match ticketTypes with
  | [] => Ok tt
  | ticketType :: rest =>
      if includes venueSectionIds (ct_sectionId ticketType) then check_sections venue venueSectionIds rest
      else Err (NotFoundException ("Section " +:+ ct_sectionId ticketType +:+ " not found in venue " +:+ ven_name venue))
  end.

Definition event_seat (section : Section_) (ticketType : TicketType) (row : Row) (seat : SeatDefinition) : EventSeat :=
  mkEventSeat (sec_id section +:+ "_" +:+ rw_label row +:+ "_" +:+ sd_number seat)
    (sec_id section) (sec_name section) (tt_id ticketType) (tt_name ticketType) (tt_price ticketType)
    (tt_currency ticketType) (rw_label row) (sd_number seat) (SeatType.value (sd_type seat)).

Definition section_seats (section : Section_) (ticketType : TicketType) : list EventSeat :=
  flat_map (fun row => map (event_seat section ticketType row) (rw_seats row)) (sec_rows section).

(** The second loop; a section without a ticket type is skipped. *)
Definition collect_seats (sections : list Section_) (ticketTypes : list TicketType) : list EventSeat :=
  flat_map (fun section =>
    match List.find (fun ticket => String.eqb (tt_sectionId ticket) (sec_id section)) ticketTypes with
    | None => []
    | Some ticketType => section_seats section ticketType
    end) sections.

Definition create_message (venue : Venue) (savedEvent : Event) : EventCreateMessage :=
  mkEventCreateMessage (ev_id savedEvent) (Some (ven_id venue)) (Some (ven_name venue))
    (Some (ev_title savedEvent)) (Some (ev_startsAt savedEvent))
    (collect_seats (ven_sections venue) (ev_ticketTypes savedEvent)).

Module Events.
Section Service.
Context {S : Type}.

(** [findById] of the venue service throws when there is none, so the test of
    [create] never fires. *)
Definition create (createEventDto : CreateEventDto) : prog S EventE Event :=
  venue <- Venues.findById (ce_venueId createEventDto) ;;
  let venueSectionIds := map sec_id (ven_sections venue) in
  of_result (check_sections venue venueSectionIds (ce_ticketTypes createEventDto)) ;;
  savedEvent <- call (EventSave createEventDto) ;;
  call (EventEmit (ev_id savedEvent) (create_message venue savedEvent)) ;;
  Ret savedEvent.

Definition findAll : prog S EventE (list Event) := call EventFind.

Definition findById (id : string) : prog S EventE Event :=
  event <- call (EventFindById id) ;;
  match event with
  | None => Throw (NotFoundException "Event not found")
  | Some event => Ret event
  end.
End Service.
End Events.

(** ** Lemmas *)

Definition seats_in_rows (rws : list Row) : nat := length (flat_map rw_seats rws).

Lemma count_seats_spec rws : count_seats rws = Z.of_nat (seats_in_rows rws).
Proof.
  unfold count_seats, seats_in_rows.
  assert (forall acc, foldl (fun total row => (total + Z.of_nat (length (rw_seats row)))%Z) acc rws =
    (acc + Z.of_nat (length (flat_map rw_seats rws)))%Z) as ->.
  { induction rws as [|r rws IH]; intros acc; cbn; [lia|]. rewrite IH, length_app. lia. }
  lia.
Qed.

Lemma total_capacity_spec sections :
  total_capacity sections = foldr Z.add 0%Z (map (fun s => count_seats (cs_rows s)) sections).
Proof.
  unfold total_capacity.
  assert (forall acc, foldl (fun total section => (total + count_seats (cs_rows section))%Z) acc sections =
    (acc + foldr Z.add 0 (map (fun s => count_seats (cs_rows s)) sections))%Z) as ->.
  { induction sections as [|s l IH]; intros acc; cbn; [lia|]. rewrite IH. lia. }
  lia.
Qed.

Lemma check_sections_spec venue ids tts :
  match check_sections venue ids tts with
  | Ok _ => forall t, t ∈ tts -> (ct_sectionId t ∈ ids)
  | Err e => exists t, t ∈ tts /\ (ct_sectionId t ∉ ids) /\
      e = NotFoundException ("Section " +:+ ct_sectionId t +:+ " not found in venue " +:+ ven_name venue)
  end.
Proof.
  induction tts as [|t tts IH]; cbn [check_sections]; [by intros t Ht%not_elem_of_nil|].
  destruct (includes ids (ct_sectionId t)) eqn:Hi.
  - apply includes_spec in Hi. destruct (check_sections venue ids tts) as [|e].
    + intros t' [->|Ht]%elem_of_cons; auto.
    + destruct IH as (t' & Ht & Hn & ->). exists t'. split_and!; [by right|done|done].
  - apply includes_false in Hi. exists t. split_and!; [by left|done|done].
Qed.

(** The seats published for a section. *)
Lemma elem_of_section_seats s tt es :
  es ∈ section_seats s tt <-> exists row seat, row ∈ sec_rows s /\ seat ∈ rw_seats row /\ es = event_seat s tt row seat.
Proof.
  unfold section_seats. rewrite list_elem_of_In, in_flat_map. split.
  - intros (row & Hr%list_elem_of_In & Hs%in_map_iff). destruct Hs as (seat & <- & Hs%list_elem_of_In). eauto.
  - intros (row & seat & Hr%list_elem_of_In & Hs%list_elem_of_In & ->). exists row. split; [done|]. by apply in_map.
Qed.

Lemma elem_of_collect sections tts es :
  es ∈ collect_seats sections tts <->
  exists s tt row seat, s ∈ sections /\
    List.find (fun t => String.eqb (tt_sectionId t) (sec_id s)) tts = Some tt /\
    row ∈ sec_rows s /\ seat ∈ rw_seats row /\ es = event_seat s tt row seat.
Proof.
  unfold collect_seats. rewrite list_elem_of_In, in_flat_map. split.
  - intros (s & Hs%list_elem_of_In & He). destruct (List.find _ tts) as [tt|] eqn:Hf; [|done].
    apply list_elem_of_In, elem_of_section_seats in He as (row & seat & ? & ? & ->). eauto 10.
  - intros (s & tt & row & seat & Hs%list_elem_of_In & Hf & Hr & Hseat & ->). exists s. split; [done|].
    rewrite Hf. apply list_elem_of_In, elem_of_section_seats. eauto.
Qed.

(** A text without the separator of seat ids. *)
Fixpoint no_underscore (s : string) : bool :=
  match s with
  | EmptyString => true
  | String c s => negb (Ascii.eqb c "_") && no_underscore s
  end.

Lemma underscore_inj a b r r' :
  no_underscore a = true -> no_underscore b = true ->
  a +:+ String "_" r = b +:+ String "_" r' -> a = b /\ r = r'.
Proof.
  revert b. induction a as [|c a IH]; intros [|c' b] Ha Hb; rewrite ?string_app_cons, ?string_app_nil_l; intros H.
  - by injection H as <-.
  - injection H as <- _. done.
  - injection H as -> _. done.
  - injection H as <- H. cbn [no_underscore] in Ha, Hb. apply andb_true_iff in Ha as [_ Ha], Hb as [_ Hb].
    by destruct (IH b Ha Hb H) as [-> ->].
Qed.

Lemma flat_map_NoDup {A B} (f : A -> list B) (l : list A) :
  NoDup l -> (forall x, x ∈ l -> NoDup (f x)) ->
  (forall x y z, x ∈ l -> y ∈ l -> z ∈ f x -> z ∈ f y -> x = y) ->
  NoDup (flat_map f l).
Proof.
  intros Hl. induction Hl as [|x l Hx Hl IH]; intros Hf Hd; cbn; [constructor|].
  apply NoDup_app. split_and!.
  - apply Hf. by left.
  - intros z Hz Hz'. apply list_elem_of_In, in_flat_map in Hz' as (y & Hy%list_elem_of_In & Hz'%list_elem_of_In).
    assert (x = y) as -> by (eapply Hd; [by left|by right|done|done]). done.
  - apply IH; [intros y Hy; apply Hf; by right|]. intros y y' z Hy Hy'. apply Hd; by right.
Qed.

(** Labels and numbers that tell the seats of a venue apart: the labels of a
    section's rows differ and have no underscore, and so do the ids, and the
    numbers of a row's seats differ. *)
Definition well_labelled (venue : Venue) : Prop :=
  NoDup (map sec_id (ven_sections venue)) /\
  forall s, s ∈ ven_sections venue -> no_underscore (sec_id s) = true /\
    NoDup (map rw_label (sec_rows s)) /\
    forall row, row ∈ sec_rows s -> no_underscore (rw_label row) = true /\ NoDup (map sd_number (rw_seats row)).

Lemma NoDup_map_inv {A B} (f : A -> B) (l : list A) x y :
  NoDup (map f l) -> x ∈ l -> y ∈ l -> f x = f y -> x = y.
Proof.
  intros Hn Hx Hy He. apply list_elem_of_lookup in Hx as [i Hi], Hy as [j Hj].
  assert (i = j) as ->; [|congruence].
  eapply (NoDup_lookup (map f l)); [done| |]; rewrite list_lookup_fmap.
  - by rewrite Hi.
  - rewrite Hj. cbn. by rewrite He.
Qed.

Lemma seat_ids_nodup venue tts :
  well_labelled venue -> NoDup (map es_seatId (collect_seats (ven_sections venue) tts)).
Proof.
  intros [Hids Hs].
  assert (map es_seatId (collect_seats (ven_sections venue) tts) =
    flat_map (fun s => match List.find (fun t => String.eqb (tt_sectionId t) (sec_id s)) tts with
      | None => []
      | Some ty => flat_map (fun row => map (fun seat => sec_id s +:+ String "_" (rw_label row +:+ String "_" (sd_number seat)))
                     (rw_seats row)) (sec_rows s)
      end) (ven_sections venue)) as ->.
  { clear. unfold collect_seats, section_seats. induction (ven_sections venue) as [|s l IH]; cbn; [done|].
    rewrite map_app, IH. f_equal. destruct (List.find _ tts) as [tt|]; [|done].
    clear. induction (sec_rows s) as [|r l IH]; cbn; [done|]. rewrite map_app, IH, map_map. done. }
  apply flat_map_NoDup.
  - by eapply NoDup_fmap_1.
  - intros s Hin. destruct (Hs s Hin) as (Hid & Hrows & Hrow). destruct (List.find _ tts); [|constructor].
    apply flat_map_NoDup; [by eapply NoDup_fmap_1| |].
    + intros row Hr. destruct (Hrow row Hr) as [_ Hn]. apply NoDup_fmap_2_strong; [|by eapply NoDup_fmap_1].
      intros x y Hx Hy Heq. eapply (NoDup_map_inv sd_number); [done..|].
      apply underscore_inj in Heq as [_ Heq]; [|done..]. by apply underscore_inj in Heq as [_ Heq]; [|apply (Hrow row Hr)..].
    + intros r r' z Hr Hr' (x & -> & Hx)%list_elem_of_fmap (y & Heq & Hy)%list_elem_of_fmap.
      apply underscore_inj in Heq as [_ Heq]; [|done..].
      apply underscore_inj in Heq as [Heq _]; [|by apply Hrow..]. by eapply (NoDup_map_inv rw_label).
  - intros s s' z Hin Hin' Hz Hz'. destruct (List.find _ tts); [|by apply not_elem_of_nil in Hz].
    destruct (List.find (fun t => String.eqb (tt_sectionId t) (sec_id s')) tts); [|by apply not_elem_of_nil in Hz'].
    apply list_elem_of_In, in_flat_map in Hz as (r & _ & (x & <- & _)%in_map_iff).
    apply list_elem_of_In, in_flat_map in Hz' as (r' & _ & (y & Heq & _)%in_map_iff).
    apply underscore_inj in Heq as [Heq _]; [|by apply Hs..]. by eapply (NoDup_map_inv sec_id).
Qed.

(** ** Properties *)

(** The rule for an operation that only fails when it must or may. *)
Section Proofs.
Context {oid : ObjectIds} {S : Type}.
Variable md : mode.
Abbreviation spec := (obeys md event_behaviour).

Lemma event_wp {X} (op : EventE X) (Q : result X -> S -> EventView -> Prop) s v :
  (forall x v', event_ok op v x v' -> Q (Ok x) s v') ->
  (forall e, event_rejects op v \/ md = Faulty -> Q (Err e) s v) ->
  wp spec (call op) Q s v.
Proof.
  intros HQ HE. wp_step. intros [x|e] v1 H; [by apply HQ|].
  destruct H as [-> [H|[H _]]]; apply HE; auto.
Qed.

Lemma emit_event_wp key m (Q : result unit -> S -> EventView -> Prop) s v :
  Q (Ok tt) s (with_created_messages (created_messages v ++ [(key, m)]) v) ->
  wp spec (call (EventEmit key m)) Q s v.
Proof. intros HQ. wp_step. intros [[]|e] v1 H; event_sem H; [by subst|by destruct H as [_ [[]|[_ []]]]]. Qed.

Lemma findVenue_wp id (Q : result Venue -> S -> EventView -> Prop) s v :
  (forall ven, venues v !! id = Some ven -> Q (Ok ven) s v) ->
  (venues v !! id = None -> Q (Err (NotFoundException "Venue not found")) s v) ->
  (forall e, isObjectId id = false \/ md = Faulty -> Q (Err e) s v) ->
  wp spec (Venues.findById id) Q s v.
Proof.
  intros HQ HN HE. unfold Venues.findById. wp_step. apply event_wp; [|done].
  intros o v' [-> Ho]. cbv beta iota. destruct o as [ven|]; [by apply HQ|by apply HN].
Qed.

Lemma createEvent_wp dto (Q : result Event -> S -> EventView -> Prop) s v :
  (forall ven ev v', venues v !! ce_venueId dto = Some ven ->
     (forall t, t ∈ ce_ticketTypes dto -> ct_sectionId t ∈ map sec_id (ven_sections ven)) ->
     event_complete dto = true -> event_created dto ev -> event_docs v !! ev_id ev = None ->
     v' = mkEventView (venues v) (<[ev_id ev := ev]> (event_docs v))
            (created_messages v ++ [(ev_id ev, create_message ven ev)]) ->
     Q (Ok ev) s v') ->
  (venues v !! ce_venueId dto = None -> Q (Err (NotFoundException "Venue not found")) s v) ->
  (forall ven t, venues v !! ce_venueId dto = Some ven -> t ∈ ce_ticketTypes dto ->
     (ct_sectionId t ∉ map sec_id (ven_sections ven)) ->
     Q (Err (NotFoundException ("Section " +:+ ct_sectionId t +:+ " not found in venue " +:+ ven_name ven))) s v) ->
  (forall e, isObjectId (ce_venueId dto) = false \/ event_complete dto = false \/ md = Faulty -> Q (Err e) s v) ->
  wp spec (Events.create dto) Q s v.
Proof.
  intros HQ HN HS HE. unfold Events.create. wp_step. apply findVenue_wp; [|done|].
  2: { intros e [H|H]; apply HE; auto. }
  intros ven Hven. cbv zeta. wp_step. wp_step.
  pose proof (check_sections_spec ven (map sec_id (ven_sections ven)) (ce_ticketTypes dto)) as Hc.
  destruct (check_sections ven _ (ce_ticketTypes dto)) as [[]|e].
  2: { destruct Hc as (t & Ht & Hn & ->). by eapply HS. }
  wp_step. apply event_wp.
  - intros ev v' (Hcomp & Hev & Hf & ->). cbv beta iota. wp_step. apply emit_event_wp. wp_step.
    by apply (HQ ven ev).
  - intros e [H|H]; apply HE; auto.
Qed.
End Proofs.

Section Properties.
Context {oid : ObjectIds} {S W : Type}.
Variable h : forall X, EventE X -> W -> result X * W.
Variable view : W -> EventView.
Variable md : mode.
Hypothesis Hh : conforms md event_behaviour h view.

(** The capacities of a created venue are right whatever the request said:
    each section's is the number of its seats, the venue's their sum. *)
Theorem createVenue_capacities dto s w ven :
  outcome h (Venues.create (S := S) dto) s w = Ok ven ->
  venues (view (final h (Venues.create (S := S) dto) s w)) !! ven_id ven = Some ven /\
  (forall sec, sec ∈ ven_sections ven -> sec_capacity sec = Z.of_nat (seats_in_rows (sec_rows sec))) /\
  ven_totalCapacity ven = foldr Z.add 0%Z (map sec_capacity (ven_sections ven)) /\
  map sec_rows (ven_sections ven) = map cs_rows (cv_sections dto).
Proof.
  call_wp Hh w. unfold Venues.create. cbv zeta. apply event_wp; [|done].
  intros v v' (Hv & Hf & ->) [= <-]. cbn [venues with_venues]. rewrite lookup_insert_eq. split; [done|].
  destruct Hv as (Hv & Hsec & _). cbn [vd_dto vd_sections vd_totalCapacity] in Hv, Hsec.
  assert (forall n (ds : list CreateSectionDto) ss, Forall2 section_created (imap (fun i => section_data (n + i)) ds) ss ->
    (forall sec, sec ∈ ss -> sec_capacity sec = count_seats (sec_rows sec)) /\
    map sec_capacity ss = map (fun d => count_seats (cs_rows d)) ds /\ map sec_rows ss = map cs_rows ds) as Hmap.
  { clear. intros n ds. revert n. induction ds as [|d ds IH]; intros n ss H.
    - apply Forall2_nil_inv_l in H as ->. split_and!; [by intros sec Hs%not_elem_of_nil|done|done].
    - cbn in H. apply Forall2_cons_inv_l in H as (sc & ss' & Hs & H & ->).
      unfold compose in H. destruct (IH (n + 1)%nat ss') as (Hc & Hm & Hr).
      { eapply Forall2_impl; [|done]. rewrite (imap_ext _ (fun i => section_data (n + 1 + i))) in H; [exact H|].
        intros i x _. f_equal. lia. }
      split_and!.
      + intros sec [->|Hin]%elem_of_cons; [by rewrite Hs|by apply Hc].
      + cbn. rewrite Hm. by rewrite Hs.
      + cbn. rewrite Hr. by rewrite Hs. }
  destruct (Hmap 0%nat _ _ Hsec) as (Hc & Hm & Hr). split_and!.
  - intros sec Hin. rewrite Hc by done. apply count_seats_spec.
  - rewrite Hm. rewrite Hv at 1. cbn. apply total_capacity_spec.
  - done.
Qed.

(** What creating an event does: every ticket type's section is in the
    venue, the event is stored, and one message under its id publishes the
    seats of the sections on sale; a refused request stores and publishes
    nothing. *)
Theorem createEvent_spec dto s w :
  let v := view w in
  let v' := view (final h (Events.create (S := S) dto) s w) in
  match outcome h (Events.create (S := S) dto) s w with
  | Ok ev =>
      exists ven, venues v !! ce_venueId dto = Some ven /\ event_created dto ev /\
        (forall t, t ∈ ce_ticketTypes dto -> ct_sectionId t ∈ map sec_id (ven_sections ven)) /\
        event_docs v !! ev_id ev = None /\ event_docs v' = <[ev_id ev := ev]> (event_docs v) /\
        created_messages v' = created_messages v ++ [(ev_id ev, create_message ven ev)]
  | Err e =>
      v' = v /\
      (venues v !! ce_venueId dto = None \/
       (exists ven t, venues v !! ce_venueId dto = Some ven /\ t ∈ ce_ticketTypes dto /\
          (ct_sectionId t ∉ map sec_id (ven_sections ven))) \/
       event_complete dto = false \/ isObjectId (ce_venueId dto) = false \/ md = Faulty)
  end.
Proof.
  cbv zeta. call_wp Hh w. apply createEvent_wp.
  - intros ven ev v' Hven Hsec _ Hev Hf ->. exists ven. by split_and!.
  - intros Hn. split; [done|by left].
  - intros ven t Hven Ht Hn. split; [done|]. right. left. by exists ven, t.
  - intros e He. split; [done|]. right. right. destruct He as [?|[?|?]]; auto.
Qed.
End Properties.

(** ** Witnesses *)

Definition demo_seat (n : string) : SeatDefinition := mkSeatDefinition n SeatType.STANDARD (num_of_Z 0) (num_of_Z 0).

(** A hall with a floor of two rows and a balcony; the request claims 500
    seats for the floor. *)
Definition demo_venue_dto : CreateVenueDto :=
  mkCreateVenueDto "Hall" None (Some "Ankara") None None None None
    [mkCreateSectionDto "Floor" (Some (num_of_Z 500)) None
       [mkRow "A" [demo_seat "1"; demo_seat "2"]; mkRow "B" [demo_seat "1"]];
     mkCreateSectionDto "Balcony" None (Some (num_of_Z 7)) [mkRow "A" [demo_seat "1"]]].

Definition demo_venue_state : EventView := final event_run (Venues.create (S := unit) demo_venue_dto) tt empty_events.

Definition demo_venue : Venue := make_venue (List.hd ""%string (new_ids (venues empty_events) 1))
  (mkVenueData demo_venue_dto (total_capacity (cv_sections demo_venue_dto))
     (imap section_data (cv_sections demo_venue_dto))).

(** An event over the hall that sells the floor only. *)
Definition demo_event_dto : CreateEventDto :=
  mkCreateEventDto "org" (ven_id demo_venue) "Concert" None None None 1000 None None None None
    [mkCreateTicketTypeDto (match ven_sections demo_venue with s :: _ => sec_id s | [] => "" end) "Normal"
       (num_of_Z 100) (Some "TRY") None None None] None.

Lemma createVenue_capacities_witness :
  outcome event_run (Venues.create (S := unit) demo_venue_dto) tt empty_events = Ok demo_venue /\
  ven_totalCapacity demo_venue = 4%Z /\ map sec_capacity (ven_sections demo_venue) = [3%Z; 1%Z] /\
  (forall sec, sec ∈ ven_sections demo_venue -> sec_capacity sec = Z.of_nat (seats_in_rows (sec_rows sec))).
Proof.
  split; [by vm_compute|]. split; [by vm_compute|]. split; [by vm_compute|].
  refine (proj1 (proj2 (createVenue_capacities (S := unit) event_run event_view Reliable event_run_conforms
    demo_venue_dto tt empty_events demo_venue _))).
  by vm_compute.
Defined.

Lemma createEvent_spec_witness :
  length (created_messages (final event_run (Events.create (S := unit) demo_event_dto) tt demo_venue_state)) = 1%nat /\
  exists ven, venues demo_venue_state !! ven_id demo_venue = Some ven.
Proof.
  split; [by vm_compute|].
  pose proof (createEvent_spec (S := unit) event_run event_view Reliable event_run_conforms
    demo_event_dto tt demo_venue_state) as H. cbv zeta in H.
  destruct (outcome event_run (Events.create demo_event_dto) tt demo_venue_state) as [ev|e] eqn:Ho.
  - destruct H as (ven & Hv & _). by exists ven.
  - exfalso. revert Ho. by vm_compute.
Defined.
