(* ===== verification/EventInventory.v ===== *)
(** * From the event service to the seat inventory

    The two ends of the topic event.create: what [EventService.create]
    publishes is what the inventory consumer of apps/seat-inventory-service
    receives.  The theorem composes the two handlers, each with its own
    environment. *)

From S2P Require Import Prelude Effects JsNumber Json Redis Sql SeatWorld SeatRef Availability Inventory EventWorld EventService.

Section Composition.
Context {oid : ObjectIds} {S S' W W' : Type}.
Variable he : forall X, EventE X -> W -> result X * W.
Variable view_e : W -> EventView.
Variable md : mode.
Hypothesis Hhe : conforms md event_behaviour he view_e.
Variable hs : forall X, SeatE X -> W' -> result X * W'.
Variable view_s : W' -> SeatView.
Hypothesis Hhs : conforms Reliable seat_behaviour hs view_s.

(** The keys of the published seats are new and distinct. *)
Lemma published_no_conflict venue ev t :
  well_labelled venue -> event_rows (ev_id ev) t = [] ->
  ~ seat_conflict (map (seat_entity (ev_id ev)) (ecm_seats (create_message venue ev))) (seats t).
Proof.
  intros Hwl Hnil Hc. apply Hc. split.
  - rewrite map_map.
    assert (map (fun x => data_key (seat_entity (ev_id ev) x)) (ecm_seats (create_message venue ev)) =
      map (Datatypes.pair (ev_id ev)) (map es_seatId (collect_seats (ven_sections venue) (ev_ticketTypes ev)))) as ->.
    { by rewrite map_map. }
    apply NoDup_fmap_2; [|by apply seat_ids_nodup]. by intros x y [= ->].
  - intros d i r Hd Hi Heq. apply list_elem_of_fmap in Hd as (es & -> & _).
    assert (r ∈ event_rows (ev_id ev) t) as Hin.
    { apply elem_of_event_rows. split; [by eapply rows_lookup|].
      unfold data_key, seat_key in Heq. cbn in Heq. congruence. }
    rewrite Hnil in Hin. by apply not_elem_of_nil in Hin.
Qed.

(** The saved ticket type of a section is the first one requested for it. *)
Lemma requested_type ds ts id d :
  Forall2 ticket_type_created ds ts -> List.find (fun d => String.eqb (ct_sectionId d) id) ds = Some d ->
  exists t, List.find (fun t => String.eqb (tt_sectionId t) id) ts = Some t /\ t ∈ ts /\ ticket_type_created d t.
Proof.
  intros H. induction H as [|d0 t0 ds ts Hc _ IH]; [done|]. cbn [List.find].
  assert (tt_sectionId t0 = ct_sectionId d0) as -> by by rewrite Hc.
  destruct (String.eqb _ _).
  - intros [= <-]. exists t0. split_and!; [done|left|done].
  - intros Hf. destruct (IH Hf) as (t & Ht & Hin & Hct). exists t. split_and!; [done|by right|done].
Qed.

(** The prices the organizer asked for can be stored, in the published message. *)
Lemma published_priced dto venue ev :
  event_created dto ev -> (forall d, d ∈ ce_ticketTypes dto -> numeric_fits (ct_price d) = true) ->
  ~ unpriced (map (seat_entity (ev_id ev)) (ecm_seats (create_message venue ev))).
Proof.
  intros [_ Hts] Hfit (d & Hd & Hu). apply list_elem_of_fmap in Hd as (es & -> & Hes).
  apply elem_of_collect in Hes as (sec & ty & row & seat & _ & Hf & _ & _ & ->).
  apply find_Some_elem in Hf as [Hty _]. apply list_elem_of_lookup in Hty as [i Hi].
  destruct (Forall2_lookup_r _ _ _ _ _ Hts Hi) as (dt & Hdt & Hct).
  unfold unstorable in Hu. cbn [sd_price seat_entity es_price event_seat] in Hu. rewrite Hct in Hu. cbn in Hu.
  rewrite Hfit in Hu; [done|by eapply list_elem_of_lookup_2].
Qed.

(** C12: An event that was created goes on sale at the organizer's prices, if
    its message is delivered.  The event service has answered a creation
    request whose prices fit the price column ([decimal(10, 2)]), for a venue
    whose section ids, row labels and seat numbers are distinct where they must
    be and hold no underscore; the message it published is handled by a seat
    inventory that has no row of the event and whose database does not fail.
    Then every seat of every section gets one row, AVAILABLE, with the section,
    row and number of the venue and the name, the currency and the price, to the
    hundredth, of the first ticket type requested for the section; no other row
    of the event is made; and delivering the message again changes nothing. *)
Theorem created_event_on_sale dto s s' w w' ev :
  outcome he (Events.create (S := S) dto) s w = Ok ev -> ev_id ev <> ""%string ->
  (forall ven, venues (view_e w) !! ce_venueId dto = Some ven -> well_labelled ven) ->
  (forall d, d ∈ ce_ticketTypes dto -> numeric_fits (ct_price d) = true) ->
  view_wf (view_s w') -> event_rows (ev_id ev) (tables (view_s w')) = [] ->
  exists ven m, venues (view_e w) !! ce_venueId dto = Some ven /\
    created_messages (view_e (final he (Events.create (S := S) dto) s w)) =
      created_messages (view_e w) ++ [(ev_id ev, m)] /\
    let w1 := final hs (handleEventCreate (S := S') (PMessage m)) s' w' in
    outcome hs (handleEventCreate (S := S') (PMessage m)) s' w' = Ok tt /\
    (forall sec d row seat, sec ∈ ven_sections ven ->
       List.find (fun d => String.eqb (ct_sectionId d) (sec_id sec)) (ce_ticketTypes dto) = Some d ->
       row ∈ sec_rows sec -> seat ∈ rw_seats row ->
       exists r, r ∈ event_rows (ev_id ev) (tables (view_s w1)) /\ si_status r = AVAILABLE /\
         si_seatId r = sec_id sec +:+ "_" +:+ rw_label row +:+ "_" +:+ sd_number seat /\
         si_sectionName r = sec_name sec /\ si_row r = rw_label row /\ si_seatNumber r = sd_number seat /\
         si_ticketTypeName r = ct_name d /\ si_currency r = nullish (ct_currency d) "" /\
         si_price r = numeric_text (ct_price d) /\
         exists ty, ty ∈ ev_ticketTypes ev /\ si_ticketTypeId r = tt_id ty /\ ticket_type_created d ty) /\
    length (event_rows (ev_id ev) (tables (view_s w1))) =
      length (collect_seats (ven_sections ven) (ev_ticketTypes ev)) /\
    view_s (final hs (handleEventCreate (S := S') (PMessage m)) s' w1) = view_s w1.
Proof.
  intros Ho Hid Hwl Hfit Hwf Hnil.
  assert (exists ven, venues (view_e w) !! ce_venueId dto = Some ven /\
    created_messages (view_e (final he (Events.create (S := S) dto) s w)) =
      created_messages (view_e w) ++ [(ev_id ev, create_message ven ev)] /\ event_created dto ev)
    as (ven & Hven & Hmsg & Hev).
  { revert Ho. call_wp Hhe w. apply createEvent_wp; try done.
    intros ven ev' v' Hven _ _ Hev _ -> [= ->]. by exists ven. }
  exists ven, (create_message ven ev). split; [done|]. split; [done|].
  set (m := create_message ven ev). specialize (Hwl ven Hven).
  set (w1 := final hs (handleEventCreate (PMessage m)) s' w').
  assert (outcome hs (handleEventCreate (S := S') (PMessage m)) s' w' = Ok tt /\
    view_wf (view_s w1) /\ created_rows m (event_rows (ev_id ev) (tables (view_s w1)))) as (Hok & Hwf1 & l & Hl & Hrows).
  { unfold w1. call_wp Hhs w'. unfold handleEventCreate. cbn [payload_message].
    change (ecm_eventId m) with (ev_id ev). destruct (truthy (ev_id ev)) eqn:Ht.
    2: { by apply truthy_empty in Ht. }
    apply createFromEvent_wp.
    - done.
    - intros l _ Hnc _ Hl Hf. split; [done|]. destruct Hwf as [Hwf Htx Htr]. split.
      + split; [|done|done]. split; cbn; [by apply upsert_keyed; apply Hwf|apply Hwf|].
        eapply insert_unique; eauto. apply Hwf.
      + exists l. split; [|done]. eapply event_rows_insert; eauto. by apply Forall_map, Forall_true.
    - intros err [[=]|[_ [Hc|Hc]]].
      + by destruct (published_no_conflict ven ev (tables (view_s w')) Hwl Hnil).
      + by destruct (published_priced dto ven ev Hev Hfit). }
  cbv zeta. split; [done|].
  assert (length (event_rows (ev_id ev) (tables (view_s w1))) =
    length (collect_seats (ven_sections ven) (ev_ticketTypes ev))) as Hlen.
  { rewrite Hl. apply Forall2_length in Hrows. rewrite length_map in Hrows. by rewrite <- Hrows. }
  split_and!; [|done|].
  - intros sec d row seat Hsec Hd Hrow Hseat.
    destruct (requested_type _ _ _ _ (proj2 Hev) Hd) as (ty & Hf & Hty & Hct).
    assert (event_seat sec ty row seat ∈ ecm_seats m) as Hin by (apply elem_of_collect; eauto 10).
    apply list_elem_of_lookup in Hin as [i Hi].
    destruct (Forall2_lookup_l _ _ _ i (seat_entity (ev_id ev) (event_seat sec ty row seat)) Hrows) as (r & Hr & Hcr).
    { rewrite list_lookup_fmap. by rewrite Hi. }
    assert (ty = mkTicketType (tt_id ty) (ct_sectionId d) (ct_name d) (ct_price d) (nullish (ct_currency d) "")
      (nullish (ct_maxPerOrder d) (num_of_Z 10)) (ct_salesStartAt d) (ct_salesEndAt d)) as Hty0 by exact Hct.
    assert (si_ticketTypeId r = tt_id ty) as Hid0 by by rewrite Hcr.
    exists r. split; [rewrite Hl; by eapply list_elem_of_lookup_2|].
    split_and!; [by rewrite Hcr..|rewrite Hcr; cbn; by rewrite Hty0|rewrite Hcr; cbn; by rewrite Hty0|rewrite Hcr; cbn; by rewrite Hty0|].
    by exists ty.
  - call_wp Hhs w1. unfold handleEventCreate. cbn [payload_message].
    destruct (truthy (ecm_eventId m)); [|done]. apply createFromEvent_wp; [done| |].
    + intros l' Hnil1. change (ecm_eventId m) with (ev_id ev) in Hnil1.
      intros _ _ Hl' _. rewrite Hnil1 in Hlen. cbn [length] in Hlen. symmetry in Hlen.
      apply length_zero_iff_nil in Hlen. change (ecm_seats m) with (collect_seats (ven_sections ven) (ev_ticketTypes ev)) in Hl'.
      rewrite Hlen in Hl'. apply Forall2_nil_inv_l in Hl' as ->. cbn. by destruct (view_s w1) as [[? ?] ? ?].
    + done.
Qed.
End Composition.

(** ** Witness *)

Definition demo_event : Event := make_event (List.hd ""%string (new_ids (event_docs demo_venue_state) 1)) demo_event_dto.

(** The hall's ids, labels and numbers, as tests that compute. *)
Lemma demo_venue_labelled : well_labelled demo_venue.
Proof.
  split; [by apply (bool_decide_eq_true_1 _); vm_compute|].
  intros sec Hsec%list_elem_of_In. revert sec Hsec.
  assert (forallb (fun sec => no_underscore (sec_id sec) && bool_decide (NoDup (map rw_label (sec_rows sec))) &&
    forallb (fun row => no_underscore (rw_label row) && bool_decide (NoDup (map sd_number (rw_seats row)))) (sec_rows sec))
    (ven_sections demo_venue) = true) as Hall by by vm_compute.
  rewrite forallb_forall in Hall. intros sec Hsec. apply Hall in Hsec as H.
  apply andb_true_iff in H as [H Hr]. apply andb_true_iff in H as [Hu Hn].
  split_and!; [done|by apply bool_decide_eq_true_1 in Hn|].
  intros row Hrow%list_elem_of_In. rewrite forallb_forall in Hr. apply Hr, andb_true_iff in Hrow as [? Hd].
  split; [done|by apply bool_decide_eq_true_1 in Hd].
Qed.

Lemma created_event_on_sale_witness :
  exists ven m, venues demo_venue_state !! ven_id demo_venue = Some ven /\
    outcome seat_run (handleEventCreate (S := unit) (PMessage m)) tt demo_world = Ok tt /\
    length (event_rows (ev_id demo_event)
      (tables (seat_view (final seat_run (handleEventCreate (S := unit) (PMessage m)) tt demo_world)))) =
    length (collect_seats (ven_sections ven) (ev_ticketTypes demo_event)) /\
    length (collect_seats (ven_sections demo_venue) (ev_ticketTypes demo_event)) = 3%nat.
Proof.
  destruct (created_event_on_sale (S := unit) (S' := unit) event_run event_view Reliable event_run_conforms
    seat_run seat_view seat_run_conforms demo_event_dto tt tt demo_venue_state demo_world demo_event)
    as (ven & m & Hven & _ & H).
  - by vm_compute.
  - by vm_compute.
  - intros ven Hven. assert (ven = demo_venue) as ->; [|exact demo_venue_labelled].
    assert (venues (event_view demo_venue_state) !! ce_venueId demo_event_dto = Some demo_venue) as Hd by by vm_compute.
    congruence.
  - apply Forall_forall. repeat constructor.
  - exact demo_world_wf.
  - by vm_compute.
  - cbv zeta in H. destruct H as (Ho & _ & Hl & _). exists ven, m. split_and!; [exact Hven|exact Ho|exact Hl|by vm_compute].
Defined.
