(* ===== verification/EventApi.v ===== *)
(** * EventController and VenueController

    apps/event-service/src/event/event.controller.ts and
    venue/venue.controller.ts behind the global [JwtAuthGuard] of the service
    and the [RolesGuard] of the two POST handlers.  Nest runs the guards before
    the body is validated; the validation of the bodies is the framework's. *)

From S2P Require Import Prelude Effects JsNumber Json Redis Sql SeatWorld SeatRef Availability Inventory EventWorld EventService AuthGuard.

Definition organizers : list string := ["admin"; "organizer"]%string.

Module EventController.
Section Handlers.
Context {jwt : Jwt} {S : Type}.
Variable secret : string.

Definition create (request : Request) (createEventDto : CreateEventDto) : prog S EventE Event :=
  guarded secret false (Some organizers) request (fun _ => Events.create createEventDto).
Definition findAll (request : Request) : prog S EventE (list Event) :=
  guarded secret true None request (fun _ => Events.findAll).
Definition findById (request : Request) (id : string) : prog S EventE Event :=
  guarded secret true None request (fun _ => Events.findById id).
End Handlers.
End EventController.

Module VenueController.
Section Handlers.
Context {jwt : Jwt} {S : Type}.
Variable secret : string.

Definition create (request : Request) (dto : CreateVenueDto) : prog S EventE Venue :=
  guarded secret false (Some organizers) request (fun _ => Venues.create dto).
Definition findAll (request : Request) : prog S EventE (list Venue) :=
  guarded secret true None request (fun _ => Venues.findAll).
Definition findById (request : Request) (id : string) : prog S EventE Venue :=
  guarded secret true None request (fun _ => Venues.findById id).
Definition getLayout (request : Request) (id : string) : prog S EventE Venue :=
  guarded secret true None request (fun _ => Venues.getLayout id).
End Handlers.
End VenueController.

(** The requests of the two controllers. *)
Inductive EventRequest :=
| CreateEvent (dto : CreateEventDto)
| ListEvents
| GetEvent (id : string)
| CreateVenue (dto : CreateVenueDto)
| ListVenues
| GetVenue (id : string)
| GetLayout (id : string).

Definition event_serve {jwt : Jwt} {S} (secret : string) (request : Request) (r : EventRequest) : prog S EventE unit :=
  match r with
  | CreateEvent dto => EventController.create secret request dto ;; Ret tt
  | ListEvents => EventController.findAll secret request ;; Ret tt
  | GetEvent id => EventController.findById secret request id ;; Ret tt
  | CreateVenue dto => VenueController.create secret request dto ;; Ret tt
  | ListVenues => VenueController.findAll secret request ;; Ret tt
  | GetVenue id => VenueController.findById secret request id ;; Ret tt
  | GetLayout id => VenueController.getLayout secret request id ;; Ret tt
  end.

(** ** Properties *)

(** The payload of the request's token has a role that may organize. *)
Definition is_organizer {jwt : Jwt} (secret : string) (request : Request) : Prop :=
  exists token payload role, bearer_token request = Some token /\ jwt_verify token secret = Ok payload /\
    member "role" payload = Some (JStr role) /\ role ∈ organizers.

Section Properties.
Context {oid : ObjectIds} {jwt : Jwt} {S W : Type}.
Variable secret : string.
Variable h : forall X, EventE X -> W -> result X * W.
Variable view : W -> EventView.
Variable md : mode.
Hypothesis Hh : conforms md event_behaviour h view.

Lemma event_trivial {A} (m : prog S EventE A) (Q : result A -> S -> EventView -> Prop) s v :
  (forall r s' v', Q r s' v') -> wp (obeys md event_behaviour) m Q s v.
Proof. intros HQ. induction m in s, v |- *; cbn; eauto. Qed.

Lemma read_wp {X} (op : EventE X) (Q : result X -> S -> EventView -> Prop) s v :
  (forall x v', event_ok op v x v' -> v' = v) -> (forall r, Q r s v) -> wp (obeys md event_behaviour) (call op) Q s v.
Proof.
  intros Hr HQ. wp_step. intros [x|e] v' H; event_sem H; [by rewrite (Hr x v' H)|].
  destruct H as [-> _]. apply HQ.
Qed.

Lemma event_serve_wp request r (Q : result unit -> S -> EventView -> Prop) s v :
  (forall x, Q x s v) ->
  (is_organizer secret request -> match r with CreateEvent _ | CreateVenue _ => True | _ => False end ->
   forall x s' v', Q x s' v') ->
  wp (obeys md event_behaviour) (event_serve secret request r) Q s v.
Proof.
  intros HQ HO.
  assert (forall e, authorize secret false (Some organizers) request = (Ok tt, e) -> is_organizer secret request) as Horg.
  { intros request' Ha. apply authorize_iff in Ha as [(token & payload & Hb & Hv & ->) Hr].
    destruct (Hr _ eq_refl) as (user & role & [= <-] & Hm & Hin). by exists token, payload, role. }
  destruct r; unfold event_serve; wp_step; apply guarded_wp; try (by intros; apply HQ); intros request' Ha.
  - apply event_trivial. intros [x|e] s' v'; [wp_step|]; apply HO; [by eapply Horg|done|by eapply Horg|done].
  - apply read_wp; [by intros x v' [-> _]|]. intros [x|e]; [wp_step|]; apply HQ.
  - unfold Events.findById. wp_step. apply read_wp; [by intros x v' [-> _]|].
    intros [[x|]|e]; cbv beta iota; repeat wp_step; apply HQ.
  - apply event_trivial. intros [x|e] s' v'; [wp_step|]; apply HO; [by eapply Horg|done|by eapply Horg|done].
  - apply read_wp; [by intros x v' [-> _]|]. intros [x|e]; [wp_step|]; apply HQ.
  - unfold Venues.findById. wp_step. apply read_wp; [by intros x v' [-> _]|].
    intros [[x|]|e]; cbv beta iota; repeat wp_step; apply HQ.
  - unfold Venues.getLayout, Venues.findById. wp_step. apply read_wp; [by intros x v' [-> _]|].
    intros [[x|]|e]; cbv beta iota; repeat wp_step; apply HQ.
Qed.

(** C25: Only organizers write: a request that changes the venues or the events,
    or publishes a message, is a POST whose bearer token was verified and
    carries the role admin or organizer. *)
Theorem writes_need_organizer request r s w :
  view (final h (event_serve (S := S) secret request r) s w) = view w \/
  is_organizer secret request /\ match r with CreateEvent _ | CreateVenue _ => True | _ => False end.
Proof.
  call_wp Hh w. apply event_serve_wp; [by left|]. intros Ho Hr x s' v'. by right.
Qed.
End Properties.

(** ** Witness *)

(** Accepts one token, of an organizer. *)
Definition organizer_jwt : Jwt := fun token secret =>
  if String.eqb token "t" && String.eqb secret "s" then Ok (JObj [("role"%string, JStr "organizer")])
  else Err (simple_exn "JsonWebTokenError" "invalid signature").

Definition bearer_request (token : string) : Request :=
  mkRequest "POST" "/api/venues" None {[AUTHORIZATION_HEADER := "Bearer " +:+ token]} "{}" None.

(** The organizer's token creates the venue, another one changes nothing. *)
Lemma writes_need_organizer_witness :
  let m token := event_serve (jwt := organizer_jwt) (S := unit) "s" (bearer_request token) (CreateVenue demo_venue_dto) in
  final event_run (m "x"%string) tt empty_events = empty_events /\
  base.size (venues (final event_run (m "t"%string) tt empty_events)) = 1%nat.
Proof.
  cbv zeta. split; [|by vm_compute].
  destruct (writes_need_organizer (jwt := organizer_jwt) (S := unit) "s" event_run event_view Reliable event_run_conforms
    (bearer_request "x") (CreateVenue demo_venue_dto) tt empty_events) as [H|[(token & payload & role & Hb & Hv & _) _]].
  - exact H.
  - exfalso. vm_compute in Hb. injection Hb as <-. discriminate Hv.
Defined.
