(* ===== verification/NotifyWorld.v ===== *)
(** * Notification service: data and outside world

    The entity and enums of apps/notification-service, the operations its
    methods await (the notification repository, the mail transport, the clock)
    and their documented behaviour. *)

From S2P Require Import Prelude Effects Sql.

(** ** Enums *)

Module NotificationStatus.
Inductive t := QUEUED | SENT | FAILED | DELIVERED | BOUNCED.

Definition value (s : t) : string :=
  match s with
  | QUEUED => "queued" | SENT => "sent" | FAILED => "failed" | DELIVERED => "delivered" | BOUNCED => "bounced"
  end.

#[global] Instance eq_dec : EqDecision t.
Proof. solve_decision. Defined.
End NotificationStatus.

Module NotificationChannel.
Inductive t := EMAIL | SMS | PUSH.

Definition value (c : t) : string := match c with EMAIL => "email" | SMS => "sms" | PUSH => "push" end.

#[global] Instance eq_dec : EqDecision t.
Proof. solve_decision. Defined.
End NotificationChannel.

(** ** Template data *)

(** What a template is filled with.  A property may be [undefined] ([None]);
    an amount is the text the driver returns for a decimal column. *)
Inductive Datum :=
| DataText (s : string)
| DataList (items : list (list (string * option string))).

Definition TemplateData : Type := list (string * option Datum).

(** [text] of a property that may be missing. *)
Definition text (s : option string) : option Datum := option_map DataText s.

(** ** The entity *)

Record Notification := mkNotification {
  n_id : string;
  n_userId : option string;
  n_channel : NotificationChannel.t;
  n_type : string;
  n_templateId : string;
  n_recipient : string;
  n_payload : TemplateData;
  n_status : NotificationStatus.t;
  n_retryCount : Z;
  n_failureReason : option string;
  n_sentAt : option Z;
}.

(** The argument of [notificationRepo.create]. *)
Record NotificationData := mkNotificationData {
  nd_userId : option string;
  nd_channel : NotificationChannel.t;
  nd_type : string;
  nd_templateId : string;
  nd_recipient : string;
  nd_payload : TemplateData;
  nd_status : NotificationStatus.t;
}.

Definition notification_of (id : string) (d : NotificationData) : Notification :=
  mkNotification id (nd_userId d) (nd_channel d) (nd_type d) (nd_templateId d) (nd_recipient d) (nd_payload d)
    (nd_status d) 0 None None.

(** Assignments to the fields of the entity. *)
Definition set_n_sent (at_ : Z) (n : Notification) : Notification :=
  mkNotification (n_id n) (n_userId n) (n_channel n) (n_type n) (n_templateId n) (n_recipient n) (n_payload n)
    NotificationStatus.SENT (n_retryCount n) (n_failureReason n) (Some at_).
Definition set_n_failed (reason : option string) (n : Notification) : Notification :=
  mkNotification (n_id n) (n_userId n) (n_channel n) (n_type n) (n_templateId n) (n_recipient n) (n_payload n)
    NotificationStatus.FAILED (n_retryCount n) reason (n_sentAt n).

(** ** Operations *)

(** The options of nodemailer's [sendMail]. *)
Record Mail := mkMail {
  m_from : string;
  m_to : string;
  m_subject : string;
  m_text : string;
  m_html : option string;
}.

Inductive NotifyE : Type -> Type :=
| NNow : NotifyE Z
| NotInsert (d : NotificationData) : NotifyE Notification
| NotSave (n : Notification) : NotifyE Notification
| NotFind (p : Notification -> bool) : NotifyE (list Notification)
| SendMail (m : Mail) : NotifyE string.    (* the provider's message id *)

(** The table, and the mails the transport accepted. *)
Record NotifyView := mkNotifyView {
  notifications : gmap string Notification;
  mails : list Mail;
}.

Definition with_notifications (t : gmap string Notification) (v : NotifyView) : NotifyView :=
  mkNotifyView t (mails v).
Definition with_mail (m : Mail) (v : NotifyView) : NotifyView :=
  mkNotifyView (notifications v) (mails v ++ [m]).

(** ** Delivered payloads *)

(** What a handler receives: nothing, the published value, or an object whose
    [value] is the published value or is missing.  No message of the
    service's topics has a field [value] of its own. *)
Inductive Delivery (M : Type) :=
| DUndefined
| DValue (m : M)
| DEnvelope (value : option M).
Arguments DUndefined {M}.
Arguments DValue {M} _.
Arguments DEnvelope {M} _.

Definition cannot_read (key : string) : exn :=
  TypeError ("Cannot read properties of undefined (reading '" +:+ key +:+ "')").

(** [payload.value] *)
Definition payload_value {M} (p : Delivery M) : result (option M) :=
  match p with
  | DUndefined => Err (cannot_read "value")
  | DValue _ => Ok None
  | DEnvelope value => Ok value
  end.

(** [payload?.value ?? payload]: [None] is [undefined], [Some None] the object
    without a value. *)
Definition value_or_self {M} (p : Delivery M) : option (option M) :=
  match p with
  | DUndefined => None
  | DValue m => Some (Some m)
  | DEnvelope value => Some value
  end.

(** ** Documented behaviour *)

(** Which mails the transport refuses (no recipient, a recipient the server
    does not accept). *)
Class MailServer := refuses : Mail -> bool.

Section Behaviour.
Context {ms : MailServer}.

Definition notify_ok {X} (op : NotifyE X) (v : NotifyView) : X -> NotifyView -> Prop :=
  match op with
  | NNow => fun _ v' => v' = v
  | NotInsert d => fun n v' =>
      n = notification_of (n_id n) d /\ notifications v !! n_id n = None /\
      v' = with_notifications (<[n_id n := n]> (notifications v)) v
  | NotSave n => fun n' v' => n' = n /\ v' = with_notifications (<[n_id n := n]> (notifications v)) v
  | NotFind p => fun l v' => v' = v /\ selects p (notifications v) l
  | SendMail m => fun _ v' => refuses m = false /\ v' = with_mail m v
  end.

Definition notify_rejects {X} (op : NotifyE X) (v : NotifyView) : Prop :=
  match op with SendMail m => refuses m = true | _ => False end.

Definition notify_fallible {X} (op : NotifyE X) : Prop :=
  match op with NNow => False | _ => True end.

Definition notify_behaviour : behaviour NotifyE NotifyView :=
  {| ok := @notify_ok; rejects := @notify_rejects; fallible := @notify_fallible |}.
End Behaviour.

Ltac notify_sem H :=
  cbn [obeys ok rejects fallible notify_behaviour notify_ok notify_rejects notify_fallible] in H.

(** ** A reference environment *)

#[global] Instance demo_mail_server : MailServer := fun m => negb (truthy (m_to m)).

Definition notify_now : Z := 1700000000000.

Definition notify_run (X : Type) (op : NotifyE X) (v : NotifyView) : result X * NotifyView :=
  match op in NotifyE X return result X * NotifyView with
  | NNow => (Ok notify_now, v)
  | NotInsert d =>
      let n := notification_of (List.hd ""%string (new_ids (notifications v) 1)) d in
      (Ok n, with_notifications (<[n_id n := n]> (notifications v)) v)
  | NotSave n => (Ok n, with_notifications (<[n_id n := n]> (notifications v)) v)
  | NotFind p => (Ok (List.filter p (rows (notifications v))), v)
  | SendMail m =>
      if refuses m then (Err (JsError "No recipients defined"), v) else (Ok "msg-id"%string, with_mail m v)
  end.

Definition notify_io (X : Type) (op : NotifyE X) : bool := match op with NNow => false | _ => true end.

Definition notify_flaky := flaky notify_run notify_io.
Definition notify_view (v : NotifyView) : NotifyView := v.
Definition notify_flaky_view (w : NotifyView * list bool) : NotifyView := w.1.

Lemma notify_run_conforms : conforms Reliable notify_behaviour notify_run notify_view.
Proof.
  intros X op v. destruct op; cbn; try done.
  - split_and!; [done|apply new_id_fresh|done].
  - split; [done|]. unfold selects. reflexivity.
  - destruct (refuses m) eqn:Hm; cbn; [|done]. split; [done|by left].
Qed.

Lemma notify_flaky_conforms : conforms Faulty notify_behaviour notify_flaky notify_flaky_view.
Proof.
  apply (flaky_conforms notify_run notify_io notify_behaviour notify_view); [|apply notify_run_conforms].
  by intros X [].
Qed.

Definition empty_notify : NotifyView := mkNotifyView ∅ [].
