(* ===== verification/Templates.v ===== *)
(** * Email templates

    apps/notification-service/src/templates/template.engine.ts.  The texts are
    the source's, in UTF-8; Handlebars is third-party code, so the compiled
    template is a parameter. *)

From Stdlib Require Import Ascii.
From S2P Require Import Prelude NotifyWorld.

Record EmailTemplate := mkEmailTemplate {
  subject : string;
  body : string;
  html : string;
}.

(** The HTML texts are written with single quotes for double ones. *)
Fixpoint dq (s : string) : string :=
  match s with
  | EmptyString => EmptyString
  | String c s => String (if Ascii.eqb c "'" then ascii_of_N 34 else c) (dq s)
  end.

(** ** The registered templates *)

Definition email_verification_template : EmailTemplate := {|
  subject := "Email adresinizi doğrulayın";
  body := "Merhaba {{fullName}},
    
    Hesabınızı aktifleştirmek için aşağıdaki bağlantıya tıklayın:
    
    {{verificationUrl}}
    
    Bu bağlantı 24 saat geçerlidir.";
  html := dq "<h2>Email doğrulama</h2>
    <p>Merhaba <strong>{{fullName}}</strong>,</p>
    <p>Hesabınızı aktifleştirmek için aşağıdaki butona tıklayın:</p>
    <p><a href='{{verificationUrl}}' style='display:inline-block;padding:12px 24px;background:#534AB7;color:#fff;text-decoration:none;border-radius:8px'>Email adresimi doğrula</a></p>
    <p style='color:#888;font-size:12px'>Bu bağlantı 24 saat geçerlidir.</p>" |}.

Definition password_reset_template : EmailTemplate := {|
  subject := "Şifre sıfırlama talebi";
  body := "Merhaba {{fullName}},
    
    Şifrenizi sıfırlamak için aşağıdaki bağlantıya tıklayın:
    
    {{resetUrl}}
    
    Bu bağlantı 1 saat geçerlidir. Eğer bu talebi siz yapmadıysanız bu emaili görmezden gelebilirsiniz.";
  html := dq "<h2>Şifre sıfırlama</h2>
    <p>Merhaba <strong>{{fullName}}</strong>,</p>
    <p>Şifrenizi sıfırlamak için aşağıdaki butona tıklayın:</p>
    <p><a href='{{resetUrl}}' style='display:inline-block;padding:12px 24px;background:#D85A30;color:#fff;text-decoration:none;border-radius:8px'>Şifremi sıfırla</a></p>
    <p style='color:#888;font-size:12px'>Bu bağlantı 1 saat geçerlidir. Bu talebi siz yapmadıysanız görmezden gelin.</p>" |}.

Definition booking_refunded_template : EmailTemplate := {|
  subject := "İade onaylandı — {{bookingNumber}}";
  body := "Merhaba,
      
      Booking {{bookingNumber}} için iade talebiniz onaylandı. {{totalAmount}} {{currency}} tutarı kartınıza 3-5 iş günü içinde geri yansıyacak.
      
      Teşekkür ederiz.";
  html := dq "<h2>İade onaylandı</h2>
      <p>Booking <strong>{{bookingNumber}}</strong> için iade talebiniz onaylandı.</p>
      <p><strong>{{totalAmount}} {{currency}}</strong> tutarı kartınıza 3-5 iş günü içinde geri yansıyacak.</p>" |}.

Definition booking_confirmed_template : EmailTemplate := {|
  subject := "Booking onaylandı — {{bookingNumber}}";
  body := "Merhaba {{attendeeName}},

Ödemeniz başarıyla alındı. Booking detayları:

Booking No: {{bookingNumber}}
Etkinlik: {{eventTitle}}
Toplam: {{totalAmount}} {{currency}}

Koltuklarınız:
{{#each seats}}
- {{sectionName}} / Sıra {{row}} / Koltuk {{seatNumber}}
{{/each}}

İyi eğlenceler!";
  html := dq "<h2>Booking onaylandı</h2>
<p>Merhaba <strong>{{attendeeName}}</strong>,</p>
<p>Ödemeniz başarıyla alındı.</p>
<table style='border-collapse:collapse'>
  <tr><td><strong>Booking No:</strong></td><td>{{bookingNumber}}</td></tr>
  <tr><td><strong>Etkinlik:</strong></td><td>{{eventTitle}}</td></tr>
  <tr><td><strong>Toplam:</strong></td><td>{{totalAmount}} {{currency}}</td></tr>
</table>
<h3>Koltuklarınız</h3>
<ul>
{{#each seats}}
  <li>{{sectionName}} / Sıra {{row}} / Koltuk {{seatNumber}}</li>
{{/each}}
</ul>
<p>İyi eğlenceler!</p>" |}.

Definition payment_failed_template : EmailTemplate := {|
  subject := "Ödemeniz başarısız oldu — {{bookingNumber}}";
  body := "Merhaba,

Booking {{bookingNumber}} için ödemeniz başarısız oldu.
Sebep: {{reason}}

Koltuklarınız serbest bırakıldı. Tekrar denemek isterseniz yeni bir rezervasyon yapabilirsiniz.";
  html := dq "<h2>Ödemeniz başarısız oldu</h2>
<p>Booking <strong>{{bookingNumber}}</strong> için ödemeniz başarısız oldu.</p>
<p><strong>Sebep:</strong> {{reason}}</p>
<p>Koltuklarınız serbest bırakıldı.</p>" |}.

Definition hold_expired_template : EmailTemplate := {|
  subject := "Koltuk rezervasyonunuz sona erdi";
  body := "Merhaba,

{{eventTitle}} etkinliği için seçtiğiniz koltuklar için süre doldu. Koltuklar tekrar müsait durumda.

Rezervasyonunuza devam etmek için yeni bir seçim yapmanız gerekiyor.";
  html := dq "<h2>Rezervasyon süresi doldu</h2>
<p><strong>{{eventTitle}}</strong> etkinliği için koltuk rezervasyonunuzun süresi doldu.</p>
<p>Rezervasyonunuza devam etmek için yeni bir seçim yapmanız gerekiyor.</p>" |}.

(** [registerTemplates] fills the map once. *)
Definition templates : list (string * EmailTemplate) :=
  [("email_verification"%string, email_verification_template);
   ("password_reset"%string, password_reset_template);
   ("booking_refunded"%string, booking_refunded_template);
   ("booking_confirmed"%string, booking_confirmed_template);
   ("payment_failed"%string, payment_failed_template);
   ("hold_expired"%string, hold_expired_template)].

(** [Handlebars.compile(text)(data)], which may throw. *)
Class Handlebars := compile : string -> TemplateData -> result string.

Section Render.
Context {hb : Handlebars}.

Definition lookup_template (templateId : string) : option EmailTemplate :=
  option_map snd (List.find (fun p => String.eqb p.1 templateId) templates).

Definition render (templateId : string) (data : TemplateData) : result EmailTemplate :=
  match lookup_template templateId with
  | None => Err (JsError ("Template " +:+ templateId +:+ " not found"))
  | Some template =>
      match compile (subject template) data with
      | Err e => Err e
      | Ok subject =>
          match compile (body template) data with
          | Err e => Err e
          | Ok body =>
              match compile (html template) data with
              | Err e => Err e
              | Ok html => Ok (mkEmailTemplate subject body html)
              end
          end
      end
  end.
End Render.

(** ** What a template mentions *)

(** The mustaches of a text, in order. *)
Fixpoint tags_aux (open : option string) (s : string) : list string :=
  match s with
  | EmptyString => []
  | String c rest =>
      match open, rest with
      | None, String d rest' =>
          if Ascii.eqb c "{" && Ascii.eqb d "{" then tags_aux (Some EmptyString) rest' else tags_aux None rest
      | None, EmptyString => []
      | Some name, String d rest' =>
          if Ascii.eqb c "}" && Ascii.eqb d "}" then name :: tags_aux None rest'
          else tags_aux (Some (name +:+ String c EmptyString)) rest
      | Some _, EmptyString => []
      end
  end.

Definition tags (s : string) : list string := tags_aux None s.

(** The names a text looks up: in the data, and in the elements of the list of
    an [#each] block. *)
Inductive Scope := Top (name : string) | Inner (block name : string).

Fixpoint scopes (block : option string) (ts : list string) : list Scope :=
  match ts with
  | [] => []
  | t :: ts =>
      if String.prefix "#each " t then
        let b := String.substring 6 (String.length t - 6) t in Top b :: scopes (Some b) ts
      else if String.eqb t "/each" then scopes None ts
      else match block with
           | None => Top t :: scopes None ts
           | Some b => Inner b t :: scopes (Some b) ts
           end
  end.

Definition mentions (t : EmailTemplate) : list Scope :=
  scopes None (tags (subject t)) ++ scopes None (tags (body t)) ++ scopes None (tags (html t)).

(** [data] has a value for everything the template mentions. *)
Definition supplied (data : TemplateData) (sc : Scope) : bool :=
  match sc with
  | Top name => existsb (fun p => String.eqb p.1 name && bool_decide (is_Some p.2)) data
  | Inner block name =>
      existsb (fun p => String.eqb p.1 block &&
        match p.2 with
        | Some (DataList items) =>
            forallb (fun item => existsb (fun q => String.eqb q.1 name && bool_decide (is_Some q.2)) item) items
        | _ => false
        end) data
  end.

Definition missing (t : EmailTemplate) (data : TemplateData) : list Scope :=
  List.filter (fun sc => negb (supplied data sc)) (mentions t).
