(* ===== verification/Notification.v ===== *)
(** * EmailAdapter and NotificationService

    apps/notification-service/src/channels/email.adapter.ts and
    notification/notification.service.ts: a notification is stored QUEUED,
    rendered and mailed, and its row says how that ended. *)

From S2P Require Import Prelude Effects Sql NotifyWorld Templates.

(** notification/interfaces/send-notification-input.interface.ts *)
Record SendNotificationInput := mkSendNotificationInput {
  sn_userId : option string;
  sn_channel : NotificationChannel.t;
  sn_type : string;
  sn_templateId : string;
  sn_recipient : string;
  sn_payload : TemplateData;
}.

(** channels/interfaces/channel.interface.ts *)
Record ChannelMessage := mkChannelMessage {
  cm_to : string;
  cm_subjects : option string;
  cm_body : string;
  cm_html : option string;
}.

Record ChannelResult := mkChannelResult {
  cr_success : bool;
  cr_providerId : option string;
  cr_error : option string;
}.

(** EMAIL_FROM *)
Class MailConfig := EMAIL_FROM : option string.

Definition fromAddress {cfg : MailConfig} : string := nullish EMAIL_FROM "noreply@example.com".

Section Service.
Context {cfg : MailConfig} {hb : Handlebars} {S : Type}.

(** [EmailAdapter.send] *)
Definition mail_of (message : ChannelMessage) : Mail :=
  mkMail fromAddress (cm_to message) (nullish (cm_subjects message) "") (cm_body message) (cm_html message).

Definition email_send (message : ChannelMessage) : prog S NotifyE ChannelResult :=
  try_catch
    (messageId <- call (SendMail (mail_of message)) ;;
     Ret (mkChannelResult true (Some messageId) None))
    (fun error => Ret (mkChannelResult false None (Some (emessage error)))).

Definition notification_data (input : SendNotificationInput) : NotificationData :=
  mkNotificationData (sn_userId input) (sn_channel input) (sn_type input) (sn_templateId input)
    (sn_recipient input) (sn_payload input) NotificationStatus.QUEUED.

Definition channel_message (input : SendNotificationInput) (rendered : EmailTemplate) : ChannelMessage :=
  mkChannelMessage (sn_recipient input) (Some (subject rendered)) (body rendered) (Some (html rendered)).

(** [NotificationService.send].  The promise of the last save is returned and
    not awaited, so its failure is not caught. *)
Definition send (input : SendNotificationInput) : prog S NotifyE Notification :=
  saved <- call (NotInsert (notification_data input)) ;;
  saved <- try_catch
    (rendered <- of_result (render (sn_templateId input) (sn_payload input)) ;;
     result <-
       (if bool_decide (sn_channel input = NotificationChannel.EMAIL) then
          email_send (channel_message input rendered)
        else Throw (BadRequestException ("Unsupported channel: " +:+ NotificationChannel.value (sn_channel input)))) ;;
     if cr_success result then
       now <- call NNow ;;
       Ret (set_n_sent now saved)
     else Ret (set_n_failed (cr_error result) saved))
    (fun error => Ret (set_n_failed (Some (emessage error)) saved)) ;;
  call (NotSave saved).

Definition findByUser (userId : string) : prog S NotifyE (list Notification) :=
  call (NotFind (fun n => bool_decide (n_userId n = Some userId))).
End Service.

(** ** Specification *)

Section Specification.
Context {cfg : MailConfig} {hb : Handlebars} {ms : MailServer}.

(** The mail of an input, when there is one to send. *)
Definition mail_for (input : SendNotificationInput) : result Mail :=
  match render (sn_templateId input) (sn_payload input) with
  | Err e => Err e
  | Ok rendered =>
      if bool_decide (sn_channel input = NotificationChannel.EMAIL) then Ok (mail_of (channel_message input rendered))
      else Err (BadRequestException ("Unsupported channel: " +:+ NotificationChannel.value (sn_channel input)))
  end.

(** The mails a reliable transport accepts for an input: one or none. *)
Definition accepted (input : SendNotificationInput) : list Mail :=
  match mail_for input with
  | Ok m => if refuses m then [] else [m]
  | Err _ => []
  end.

(** How a notification ends: SENT, and the mail was accepted, or FAILED with a
    reason, and it was not. *)
Inductive ended (md : mode) (input : SendNotificationInput) (n0 : Notification) :
    Notification -> list Mail -> Prop :=
| EndedSent m now : mail_for input = Ok m -> refuses m = false -> ended md input n0 (set_n_sent now n0) [m]
| EndedRefused m reason : mail_for input = Ok m -> refuses m = true \/ md = Faulty ->
    ended md input n0 (set_n_failed (Some reason) n0) []
| EndedUnsendable e : mail_for input = Err e -> ended md input n0 (set_n_failed (Some (emessage e)) n0) [].

(** The notification's row is new; [ms] are the mails sent. *)
Definition stored (n0 n : Notification) (l : list Mail) (v v' : NotifyView) : Prop :=
  notifications v !! n_id n0 = None /\ v' = mkNotifyView (<[n_id n0 := n]> (notifications v)) (mails v ++ l).
End Specification.

Section Proofs.
Context {cfg : MailConfig} {hb : Handlebars} {ms : MailServer} {S : Type}.
Variable md : mode.
Abbreviation spec := (obeys md notify_behaviour).

Lemma email_send_wp message (Q : result ChannelResult -> S -> NotifyView -> Prop) s v :
  (forall id, refuses (mail_of message) = false ->
     Q (Ok (mkChannelResult true (Some id) None)) s (with_mail (mail_of message) v)) ->
  (forall reason, refuses (mail_of message) = true \/ md = Faulty ->
     Q (Ok (mkChannelResult false None (Some reason))) s v) ->
  wp spec (email_send message) Q s v.
Proof.
  intros HQ HE. unfold email_send. wp_step. wp_step. wp_step. intros [id|e] v1 H; notify_sem H.
  - destruct H as [Hr ->]. wp_step. by apply HQ.
  - destruct H as [-> [H|[H _]]]; wp_step; apply HE; auto.
Qed.

Lemma send_wp input (Q : result Notification -> S -> NotifyView -> Prop) s v :
  (forall n0 n l v', n0 = notification_of (n_id n0) (notification_data input) -> ended md input n0 n l ->
     stored n0 n l v v' -> Q (Ok n) s v') ->
  (forall e v', md = Faulty ->
     v' = v \/ (exists n0 n l, n0 = notification_of (n_id n0) (notification_data input) /\ ended md input n0 n l /\
       stored n0 n0 l v v') -> Q (Err e) s v') ->
  wp spec (send input) Q s v.
Proof.
  intros HQ HE. unfold send. wp_step. wp_step. intros [n0|e] v1 H; notify_sem H.
  2: { destruct H as [-> [[]|[Hmd _]]]. apply HE; auto. }
  destruct H as (Hn0 & Hnew & ->). wp_step.
  assert (forall n l, ended md input n0 n l ->
    wp spec (call (NotSave n)) Q s
      (mkNotifyView (<[n_id n0 := n0]> (notifications v)) (mails v ++ l))) as Hsave.
  { intros n l He. assert (n_id n = n_id n0) as Hid by by inversion He.
    wp_step. intros [n'|e] v1 H; notify_sem H.
    - destruct H as [-> ->]. eapply HQ; [done..|]. split; [done|]. unfold with_notifications. cbn.
      by rewrite Hid, insert_insert_eq.
    - destruct H as [-> [[]|[Hmd _]]]. apply HE; [done|]. right. by exists n0, n, l. }
  assert (with_notifications (<[n_id n0 := n0]> (notifications v)) v =
    mkNotifyView (<[n_id n0 := n0]> (notifications v)) (mails v ++ [])) as ->.
  { unfold with_notifications. by rewrite app_nil_r. }
  wp_step. wp_step. wp_step. unfold mail_for in *.
  destruct (render (sn_templateId input) (sn_payload input)) as [t|e] eqn:Hr; cbv beta iota.
  2: { wp_step. apply Hsave, EndedUnsendable. unfold mail_for. by rewrite Hr. }
  wp_step. case_bool_decide as Hch.
  - apply email_send_wp; cbv beta iota; cbn [cr_success cr_error].
    + intros id Hf. wp_step. wp_step. intros [now|e] v1 H; notify_sem H; [|by destruct H as [_ [[]|[_ []]]]].
      subst v1. wp_step. unfold with_mail. cbn [notifications mails]. rewrite app_nil_r.
      apply Hsave. apply EndedSent; [|done]. unfold mail_for. rewrite Hr. by rewrite bool_decide_eq_true_2.
    + intros reason Hf. wp_step. apply Hsave. eapply EndedRefused; [|exact Hf].
      unfold mail_for. rewrite Hr. by rewrite bool_decide_eq_true_2.
  - wp_step. apply Hsave.
    refine (EndedUnsendable md input n0 (BadRequestException _) _). unfold mail_for. rewrite Hr.
    by rewrite bool_decide_eq_false_2.
Qed.
End Proofs.

(** When operations fail only when they must, [send] returns. *)
Lemma send_reliable_wp {cfg : MailConfig} {hb : Handlebars} {ms : MailServer} {S} input (Q : result Notification -> S -> NotifyView -> Prop) s v :
  (forall n v', mails v' = mails v ++ accepted input -> notifications v' = <[n_id n := n]> (notifications v) ->
     notifications v !! n_id n = None -> Q (Ok n) s v') ->
  wp (obeys Reliable notify_behaviour) (send input) Q s v.
Proof.
  intros HQ. apply send_wp; [|done]. intros n0 n l v' _ He [Hnew ->].
  assert (n_id n = n_id n0) as Hid by by inversion He. apply HQ; cbn; [|by rewrite Hid|by rewrite Hid].
  f_equal. unfold accepted. destruct He as [m now Hm Hf|m reason Hm [Hf|[=]]|e Hm]; by rewrite Hm, ?Hf.
Qed.

Section Properties.
Context {cfg : MailConfig} {hb : Handlebars} {ms : MailServer} {S W : Type}.
Variable h : forall X, NotifyE X -> W -> result X * W.
Variable view : W -> NotifyView.
Variable md : mode.
Hypothesis Hh : conforms md notify_behaviour h view.

(** C24: How [send] ends.  When it returns, one row was added; the row says SENT
    exactly when the transport accepted the one mail, rendered from the
    template and addressed to the recipient, and FAILED with a reason when
    nothing was sent.  When it throws, by a failed save, there is no row and no
    mail, or the row is left QUEUED, also when the mail was sent. *)
Theorem send_spec input s w :
  let v := view w in
  let v' := view (final h (send (S := S) input) s w) in
  match outcome h (send (S := S) input) s w with
  | Ok n =>
      notifications v !! n_id n = None /\ notifications v' = <[n_id n := n]> (notifications v) /\
      n_userId n = sn_userId input /\ n_recipient n = sn_recipient input /\
      match n_status n with
      | NotificationStatus.SENT => exists m, mail_for input = Ok m /\ m_to m = sn_recipient input /\
          refuses m = false /\ mails v' = mails v ++ [m] /\ is_Some (n_sentAt n)
      | NotificationStatus.FAILED => mails v' = mails v /\ is_Some (n_failureReason n) /\
          forall m, mail_for input = Ok m -> refuses m = true \/ md = Faulty
      | _ => False
      end
  | Err e =>
      md = Faulty /\ (v' = v \/ exists n, n_status n = NotificationStatus.QUEUED /\
        notifications v !! n_id n = None /\ notifications v' = <[n_id n := n]> (notifications v) /\
        (mails v' = mails v \/ exists m, mail_for input = Ok m /\ mails v' = mails v ++ [m]))
  end.
Proof.
  cbv zeta. call_wp Hh w. apply send_wp.
  - intros n0 n l v' Hn0 He [Hnew ->]. destruct He as [m now Hm Hf|m reason Hm Hf|e Hm];
      (split_and!; [exact Hnew|done|by rewrite Hn0|by rewrite Hn0|]; cbn).
    + exists m. split_and!; [done| |done|done|by eexists].
      unfold mail_for in Hm. destruct (render _ _); [|done]. case_bool_decide; [|done]. by injection Hm as <-.
    + rewrite app_nil_r. split_and!; [done|by eexists|]. intros m' Hm'. by replace m' with m by congruence.
    + rewrite app_nil_r. split_and!; [done|by eexists|]. intros m' Hm'. congruence.
  - intros e v' Hmd [->|(n0 & n & l & Hn0 & He & Hnew & ->)]; (split; [done|]); [by left|]. right. exists n0.
    split_and!; [by rewrite Hn0|done|done|]. destruct He as [m now Hm Hf|m reason Hm Hf|e' Hm]; cbn.
    + right. by exists m.
    + left. apply app_nil_r.
    + left. apply app_nil_r.
Qed.
End Properties.

(** ** Witness *)

(** A renderer that returns the text as it is, and the default sender. *)
Definition plain_handlebars : Handlebars := fun text _ => Ok text.
Definition default_mail_config : MailConfig := None.

Definition demo_input : SendNotificationInput :=
  mkSendNotificationInput (Some "u1"%string) NotificationChannel.EMAIL "password_reset" "password_reset" "a@x.io"
    [("fullName"%string, text (Some "Ada"%string)); ("resetUrl"%string, text (Some "http://x"%string))].

(** The mail goes out, the save after it fails, and the row stays QUEUED. *)
Lemma send_spec_witness :
  let m := send (cfg := default_mail_config) (hb := plain_handlebars) (S := unit) demo_input in
  let w := (empty_notify, [false; false; true]) in
  let v' := notify_flaky_view (final notify_flaky m tt w) in
  is_ok (outcome notify_flaky m tt w) = false /\
  map m_to (mails v') = ["a@x.io"]%string /\ map n_status (rows (notifications v')) = [NotificationStatus.QUEUED] /\
  exists n, n_status n = NotificationStatus.QUEUED /\ notifications v' = <[n_id n := n]> ∅.
Proof.
  cbv zeta. split; [by vm_compute|]. split; [by vm_compute|]. split; [by vm_compute|].
  pose proof (send_spec (cfg := default_mail_config) (hb := plain_handlebars) (S := unit) notify_flaky
    notify_flaky_view Faulty notify_flaky_conforms demo_input tt (empty_notify, [false; false; true])) as H.
  cbv zeta in H.
  destruct (outcome notify_flaky (send (cfg := default_mail_config) (hb := plain_handlebars) demo_input) tt
    (empty_notify, [false; false; true])) as [n|e] eqn:Ho.
  { exfalso. revert Ho. by vm_compute. }
  destruct H as [_ [H|(n & Hn & _ & Hr & _)]]; [|by exists n].
  exfalso. apply (f_equal (fun v => length (mails v))) in H. revert H. by vm_compute.
Defined.
