(* ===== verification/AuthConsumer.v ===== *)
(** * The consumer of the authentication events

    apps/notification-service/src/consumers/auth.consumer.ts, and its
    composition with the handlers of apps/auth-service that publish the events. *)

From S2P Require Import Prelude Effects JsNumber JsDate Sql AuthWorld AuthRef UserService AuthService NotifyWorld Templates Notification.

(** ** The fields of an authentication event *)

Definition ae_userId (e : AuthEvent) : string :=
  match e with EmailVerification userId _ _ _ _ => userId | PasswordReset userId _ _ _ _ => userId end.
Definition ae_email (e : AuthEvent) : string :=
  match e with EmailVerification _ email _ _ _ => email | PasswordReset _ email _ _ _ => email end.
Definition ae_fullName (e : AuthEvent) : string :=
  match e with EmailVerification _ _ fullName _ _ => fullName | PasswordReset _ _ fullName _ _ => fullName end.
Definition ae_verificationUrl (e : AuthEvent) : option string :=
  match e with EmailVerification _ _ _ url _ => Some url | PasswordReset _ _ _ _ _ => None end.
Definition ae_resetUrl (e : AuthEvent) : option string :=
  match e with EmailVerification _ _ _ _ _ => None | PasswordReset _ _ _ url _ => Some url end.

Definition verification_input (data : AuthEvent) : SendNotificationInput :=
  mkSendNotificationInput (Some (ae_userId data)) NotificationChannel.EMAIL "email_verification" "email_verification"
    (ae_email data)
    [("fullName"%string, text (Some (ae_fullName data))); ("verificationUrl"%string, text (ae_verificationUrl data))].

Definition password_reset_input (data : AuthEvent) : SendNotificationInput :=
  mkSendNotificationInput (Some (ae_userId data)) NotificationChannel.EMAIL "password_reset" "password_reset"
    (ae_email data)
    [("fullName"%string, text (Some (ae_fullName data))); ("resetUrl"%string, text (ae_resetUrl data))].

Section Handlers.
Context {cfg : MailConfig} {hb : Handlebars} {S : Type}.

(** The log line reads [data.email]. *)
Definition handleEmailVerification (payload : Delivery AuthEvent) : prog S NotifyE unit :=
  data <- of_result (payload_value payload) ;;
  match data with
  | None => Throw (cannot_read "email")
  | Some data => send (verification_input data) ;; Ret tt
  end.

Definition handlePasswordReset (payload : Delivery AuthEvent) : prog S NotifyE unit :=
  data <- of_result (payload_value payload) ;;
  match data with
  | None => Throw (cannot_read "email")
  | Some data => send (password_reset_input data) ;; Ret tt
  end.
End Handlers.

(** The handler a topic is routed to. *)
Definition on_auth_event {cfg : MailConfig} {hb : Handlebars} {S} (topic : string) (payload : Delivery AuthEvent) :
    prog S NotifyE unit :=
  if String.eqb topic "auth.email_verification" then handleEmailVerification payload
  else if String.eqb topic "auth.password_reset" then handlePasswordReset payload
  else Ret tt.

(** ** Properties *)

Definition event_input (e : AuthEvent) : SendNotificationInput :=
  match e with EmailVerification _ _ _ _ _ => verification_input e | PasswordReset _ _ _ _ _ => password_reset_input e end.

Lemma event_input_supplied e : exists t,
  lookup_template (sn_templateId (event_input e)) = Some t /\ missing t (sn_payload (event_input e)) = [].
Proof. by destruct e as [u m f url x|u m f url x]; eexists. Qed.

Section Delivered.
Context {cfg : MailConfig} {hb : Handlebars} {ms : MailServer} {S W : Type}.
Variable h : forall X, NotifyE X -> W -> result X * W.
Variable view : W -> NotifyView.
Hypothesis Hh : conforms Reliable notify_behaviour h view.

Definition event_handler (e : AuthEvent) (p : Delivery AuthEvent) : prog S NotifyE unit := on_auth_event (auth_topic e) p.

Lemma event_handler_run e p :
  event_handler e p =
    (data <- of_result (payload_value p) ;;
     match data with
     | None => Throw (cannot_read "email")
     | Some data => send (match e with EmailVerification _ _ _ _ _ => verification_input data | _ => password_reset_input data end) ;; Ret tt
     end).
Proof. by destruct e. Qed.

Lemma event_lost e s w :
  outcome h (event_handler e (DValue e)) s w = Err (cannot_read "email") /\
  view (final h (event_handler e (DValue e)) s w) = view w.
Proof. call_wp Hh w. by rewrite event_handler_run. Qed.

Lemma event_delivered e s w :
  let v := view w in
  let m := event_handler e (DEnvelope (Some e)) in
  let v' := view (final h m s w) in
  outcome h m s w = Ok tt /\ mails v' = mails v ++ accepted (event_input e) /\
  exists n, notifications v !! n_id n = None /\ notifications v' = <[n_id n := n]> (notifications v).
Proof.
  cbv zeta. call_wp Hh w. rewrite event_handler_run. cbn [payload_value]. wp_step. wp_step. wp_step.
  assert (match e with EmailVerification _ _ _ _ _ => verification_input e | _ => password_reset_input e end = event_input e)
    as -> by by destruct e.
  apply send_reliable_wp. intros n v' Hm Hn Hnew. wp_step. split_and!; [done|done|]. by exists n.
Qed.

(** An authentication event and its email.  Both topics expect the event in
    an envelope: then one notification is stored and the template's mail goes
    to the event's address, every placeholder filled.  When the transport hands
    over the published value itself, the handler throws, nothing is stored and
    no mail is sent. *)
Theorem auth_event_mail e p s w :
  payload_value p = Ok (Some e) \/ p = DValue e ->
  let v := view w in
  let m := event_handler e p in
  let v' := view (final h m s w) in
  match p with
  | DEnvelope _ =>
      outcome h m s w = Ok tt /\ mails v' = mails v ++ accepted (event_input e) /\
      (exists n, notifications v !! n_id n = None /\ notifications v' = <[n_id n := n]> (notifications v)) /\
      exists t, lookup_template (sn_templateId (event_input e)) = Some t /\ missing t (sn_payload (event_input e)) = []
  | _ => outcome h m s w = Err (cannot_read "email") /\ v' = v
  end.
Proof.
  intros Hp. cbv zeta. destruct p as [|m|value].
  - by destruct Hp.
  - destruct Hp as [[=]|[= ->]]. apply event_lost.
  - destruct Hp as [[= ->]|[=]]. destruct (event_delivered e s w) as (Ho & Hm & Hn).
    split_and!; [exact Ho|exact Hm|exact Hn|apply event_input_supplied].
Qed.

(** ** From the authentication service to the mailbox *)

Section Composition.
Context {bc : Bcrypt} {tz : TimeZone} {S' W' : Type}.
Variable ha : forall X, AuthE X -> W' -> result X * W'.
Variable view_a : W' -> AuthView.
Variable md : mode.
Hypothesis Hha : conforms md auth_behaviour ha view_a.
Variable config : AuthConfig.

(** The link of a registration.  [register] publishes one event; the email
    made of it goes to the registered address with a link whose token is the
    one whose digest the user's row holds, so [verifyEmail] finds the row by
    it.  The email is sent when the event arrives in an envelope, and never
    when the published value itself does. *)
Theorem registration_link email password fullName s s' w w' user :
  auth_wf (view_a w) ->
  outcome ha (register (S := S') config email password fullName) s' w = Ok user ->
  let va := view_a (final ha (register (S := S') config email password fullName) s' w) in
  exists e token u,
    auth_events va = auth_events (view_a w) ++ [e] /\ auth_topic e = "auth.email_verification"%string /\
    users va !! pu_id user = Some u /\ u_email u = email /\ u_emailVerificationToken u = Some (hashToken token) /\
    sn_recipient (event_input e) = email /\
    sn_payload (event_input e) =
      [("fullName", text (Some fullName));
       ("verificationUrl", text (Some (appUrl config +:+ "/auth/verify-email?token=" +:+ token)))]%string /\
    mails (view (final h (event_handler e (DEnvelope (Some e))) s w')) = mails (view w') ++ accepted (event_input e) /\
    mails (view (final h (event_handler e (DValue e)) s w')) = mails (view w').
Proof.
  intros Hwf Ho. cbv zeta.
  assert (exists e token u,
    auth_events (view_a (final ha (register (S := S') config email password fullName) s' w)) =
      auth_events (view_a w) ++ [e] /\
    users (view_a (final ha (register (S := S') config email password fullName) s' w)) !! pu_id user = Some u /\
    u_email u = email /\ u_emailVerificationToken u = Some (hashToken token) /\
    exists id x, e = EmailVerification id email fullName (appUrl config +:+ "/auth/verify-email?token=" +:+ token) x)
    as (e & token & u & He & Hu & Hm & Ht & id & x & Hev).
  { revert Ho. call_wp Hha w. apply register_wp; [done..| | |].
    - intros u v1 v' _ _ Hu _ -> _ _ (token & now & ->) [= <-]. cbn [auth_events users with_users].
      eexists _, token, _. split; [done|]. cbn [pu_id userWithoutPassword].
      rewrite lookup_alter_eq, lookup_insert_eq. cbn. split; [done|]. rewrite Hu. cbn. split; [done|]. split; [done|].
      by eexists _, _.
    - done.
    - done. }
  exists e, token, u. pose proof (event_delivered e s w') as (_ & Hd & _).
  pose proof (event_lost e s w') as [_ Hl]. rewrite Hd, Hl. subst e. by split_and!.
Qed.
End Composition.
End Delivered.

(** ** Witnesses *)

Definition demo_reset_event : AuthEvent := PasswordReset "u1" "a@x.io" "Ada" "http://x/reset-password?token=t" "now".

Lemma auth_event_mail_witness :
  let m := event_handler (cfg := default_mail_config) (hb := plain_handlebars) (S := unit) demo_reset_event in
  map m_to (mails (final notify_run (m (DEnvelope (Some demo_reset_event))) tt empty_notify)) = ["a@x.io"]%string /\
  outcome notify_run (m (DValue demo_reset_event)) tt empty_notify = Err (cannot_read "email").
Proof.
  cbv zeta. split; [by vm_compute|].
  refine (proj1 (auth_event_mail (cfg := default_mail_config) (hb := plain_handlebars) (S := unit) notify_run notify_view
    notify_run_conforms demo_reset_event (DValue demo_reset_event) tt empty_notify _)).
  by right.
Defined.

Lemma registration_link_witness :
  let m := register (S := unit) default_config "b@x.io" "Password123!" "Bob" in
  exists e token, auth_events (auth_view (final auth_run m tt demo_world)) = [e] /\
    sn_recipient (event_input e) = "b@x.io"%string /\
    ae_verificationUrl e = Some (appUrl default_config +:+ "/auth/verify-email?token=" +:+ token).
Proof.
  cbv zeta.
  assert (exists user, outcome auth_run (register (S := unit) default_config "b@x.io" "Password123!" "Bob") tt demo_world = Ok user)
    as [user Ho] by (eexists; vm_compute; reflexivity).
  destruct (registration_link (cfg := default_mail_config) (hb := plain_handlebars) (S := unit) notify_run notify_view
    notify_run_conforms auth_run auth_view Reliable auth_run_conforms default_config "b@x.io" "Password123!" "Bob"
    tt tt demo_world empty_notify user demo_auth_wf Ho) as (e & token & u & He & Ht & _ & _ & _ & Hr & Hp & _).
  exists e, token. split; [exact He|]. split; [exact Hr|]. destruct e; [|done]. cbn in Hp |- *. by injection Hp as _ ->.
Defined.
