(* ===== verification/BookingConsumer.v ===== *)
(** * The consumer of the booking events

    apps/notification-service/src/consumers/booking.consumer.ts, and its
    composition with the outbox worker of apps/booking-service. *)

From S2P Require Import Prelude Effects JsNumber Json Sql BookingWorld BookingRef Tickets BookingCreate OutboxWorker.
From S2P Require Import NotifyWorld Templates Notification.

(** ** The fields of a booking event *)

Definition pl_items (p : Payload) : option (list PayloadItem) :=
  match p with SeatsPayload _ _ _ => None | BookingPayload _ _ _ _ _ _ _ items => Some items end.
Definition pl_bookingNumber (p : Payload) : option string :=
  match p with SeatsPayload _ _ _ => None | BookingPayload _ bookingNumber _ _ _ _ _ _ => Some bookingNumber end.
Definition pl_totalAmount (p : Payload) : option decimal :=
  match p with SeatsPayload _ _ _ => None | BookingPayload _ _ _ _ totalAmount _ _ _ => Some totalAmount end.
Definition pl_currency (p : Payload) : option string :=
  match p with SeatsPayload _ _ _ => None | BookingPayload _ _ _ _ _ currency _ _ => Some currency end.

(** No event carries these two. *)
Definition pl_eventTitle (p : Payload) : option string := None.
Definition pl_cancellationReason (p : Payload) : option string := None.

Definition item_fields (item : PayloadItem) : list (string * option string) :=
  [("seatId", pl_seatId item); ("sectionName", Some (pl_sectionName item)); ("row", Some (pl_row item));
   ("seatNumber", Some (pl_seatNumber item)); ("attendeeName", pl_attendeeName item);
   ("attendeeEmail", pl_attendeeEmail item)]%string.

Definition amount_text (p : Payload) : option Datum := text (option_map decimal_string (pl_totalAmount p)).

Definition confirmed_input (data : Payload) (its : list PayloadItem) (item : PayloadItem) (attendeeEmail : string) :
    SendNotificationInput :=
  mkSendNotificationInput (Some (payload_userId data)) NotificationChannel.EMAIL "booking_confirmed" "booking_confirmed"
    attendeeEmail
    [("attendeeName", text (Some (opt_str_or (pl_attendeeName item) "Guest")));
     ("bookingNumber", text (pl_bookingNumber data));
     ("eventTitle", text (pl_eventTitle data));
     ("totalAmount", amount_text data);
     ("currency", text (pl_currency data));
     ("seats", Some (DataList (map item_fields its)))]%string.

Definition cancelled_input (data : Payload) (primaryEmail : string) : SendNotificationInput :=
  mkSendNotificationInput (Some (payload_userId data)) NotificationChannel.EMAIL "payment_failed" "payment_failed"
    primaryEmail
    [("bookingNumber", text (pl_bookingNumber data));
     ("reason", text (Some (opt_str_or (pl_cancellationReason data) "Payment failed")))]%string.

Definition refunded_input (data : Payload) (primaryEmail : string) : SendNotificationInput :=
  mkSendNotificationInput (Some (payload_userId data)) NotificationChannel.EMAIL "booking_refunded" "booking_refunded"
    primaryEmail
    [("bookingNumber", text (pl_bookingNumber data)); ("totalAmount", amount_text data);
     ("currency", text (pl_currency data))]%string.

(** [item.attendeeEmail], when it is truthy. *)
Definition item_email (item : PayloadItem) : option string :=
  match pl_attendeeEmail item with
  | Some email => if truthy email then Some email else None
  | None => None
  end.

(** [data.items?.[0]?.attendeeEmail], when it is truthy. *)
Definition primary_email (data : Payload) : option string :=
  match pl_items data with Some (item :: _) => item_email item | _ => None end.

Section Handlers.
Context {cfg : MailConfig} {hb : Handlebars} {S : Type}.
Implicit Types (payload : Delivery Payload).

Definition not_iterable : exn := TypeError "data.items is not iterable".

(** The log line reads [data.bookingId]. *)
Definition handleBookingConfirmed payload : prog S NotifyE unit :=
  match value_or_self payload with
  | None => Throw (cannot_read "bookingId")
  | Some None => Throw not_iterable
  | Some (Some data) =>
      match pl_items data with
      | None => Throw not_iterable
      | Some its =>
          for_each its (fun item =>
            match item_email item with
            | None => Ret tt
            | Some email => send (confirmed_input data its item email) ;; Ret tt
            end)
      end
  end.

Definition handleBookingCancelled payload : prog S NotifyE unit :=
  match value_or_self payload with
  | None => Throw (cannot_read "bookingId")
  | Some None => Ret tt
  | Some (Some data) =>
      match primary_email data with
      | None => Ret tt
      | Some primaryEmail => send (cancelled_input data primaryEmail) ;; Ret tt
      end
  end.

Definition handleBookingRefunded payload : prog S NotifyE unit :=
  data <- of_result (payload_value payload) ;;
  match data with
  | None => Throw (cannot_read "bookingNumber")
  | Some data =>
      match primary_email data with
      | None => Ret tt
      | Some primaryEmail => send (refunded_input data primaryEmail) ;; Ret tt
      end
  end.
End Handlers.

(** ** Properties *)

(** The mails of one item. *)
Definition item_mails {cfg : MailConfig} {hb : Handlebars} {ms : MailServer} (data : Payload) (its : list PayloadItem)
    (item : PayloadItem) : list Mail :=
  match item_email item with
  | None => []
  | Some email => accepted (confirmed_input data its item email)
  end.

(** The items that are notified. *)
Definition addressed (its : list PayloadItem) : list PayloadItem :=
  List.filter (fun item => match item_email item with Some _ => true | None => false end) its.

(** Nothing stands in the way of these mails: the templates render, and the
    mail server refuses none. *)
Definition mails_pass {cfg : MailConfig} {hb : Handlebars} {ms : MailServer} (data : Payload) (its xs : list PayloadItem) :
    Prop :=
  forall item email, item ∈ xs -> item_email item = Some email ->
    exists m, mail_for (confirmed_input data its item email) = Ok m /\ refuses m = false.

Section Proofs.
Context {cfg : MailConfig} {hb : Handlebars} {ms : MailServer} {S : Type}.
Abbreviation spec := (obeys Reliable notify_behaviour).

Lemma confirmed_loop_wp data its xs (Q : result unit -> S -> NotifyView -> Prop) s v :
  (forall v', mails v' = mails v ++ flat_map (item_mails data its) xs ->
     base.size (notifications v') = (base.size (notifications v) + length (addressed xs))%nat -> Q (Ok tt) s v') ->
  wp spec (for_each xs (fun item =>
    match item_email item with
    | None => Ret tt
    | Some email => send (confirmed_input data its item email) ;; Ret tt
    end)) Q s v.
Proof.
  revert v. induction xs as [|x xs IH]; intros v HQ; cbn [for_each].
  - wp_step. apply HQ; cbn; [by rewrite app_nil_r|lia].
  - wp_step. unfold addressed in HQ. cbn [flat_map List.filter] in HQ. unfold item_mails at 1 in HQ.
    destruct (item_email x) as [email|].
    + wp_step. apply send_reliable_wp. intros n v1 Hm Hn Hnew. wp_step. apply IH. intros v' Hv' Hs.
      apply HQ; [by rewrite Hv', Hm, app_assoc|]. cbn [length]. rewrite Hs, Hn, map_size_insert_None by done.
      unfold addressed. lia.
    + wp_step. apply IH. intros v' Hv' Hs. by apply HQ.
Qed.

Lemma mail_for_to input m : mail_for input = Ok m -> m_to m = sn_recipient input.
Proof. unfold mail_for. destruct (render _ _); [|done]. case_bool_decide; [|done]. by intros [= <-]. Qed.

(** Then each item with an address gets one mail. *)
Lemma item_mails_addresses data its xs :
  mails_pass data its xs -> map m_to (flat_map (item_mails data its) xs) = omap item_email xs.
Proof.
  induction xs as [|x xs IH]; intros Hp; [done|]. cbn [flat_map]. rewrite map_app, IH
    by (intros item email Hin; apply Hp; by right).
  unfold item_mails. cbn. destruct (item_email x) as [email|] eqn:He; [|done].
  destruct (Hp x email) as (m & Hm & Hr); [left|done|]. unfold accepted. rewrite Hm, Hr. cbn. f_equal.
  by rewrite (mail_for_to _ _ Hm).
Qed.

Lemma confirmed_wp p (Q : result unit -> S -> NotifyView -> Prop) s v :
  (forall data its v', value_or_self p = Some (Some data) -> pl_items data = Some its ->
     mails v' = mails v ++ flat_map (item_mails data its) its ->
     base.size (notifications v') = (base.size (notifications v) + length (addressed its))%nat -> Q (Ok tt) s v') ->
  (forall e, (forall data its, value_or_self p = Some (Some data) -> pl_items data = Some its -> False) ->
     Q (Err e) s v) ->
  wp spec (handleBookingConfirmed p) Q s v.
Proof.
  intros HQ HE. unfold handleBookingConfirmed. destruct (value_or_self p) as [[data|]|].
  - destruct (pl_items data) as [its|] eqn:Hi.
    + apply confirmed_loop_wp. intros v' Hm Hs. by eapply HQ.
    + wp_step. apply HE. intros d its [= <-]. congruence.
  - wp_step. apply HE. by intros.
  - wp_step. apply HE. by intros.
Qed.
End Proofs.

Section Properties.
Context {cfg : MailConfig} {hb : Handlebars} {ms : MailServer} {S W : Type}.
Variable h : forall X, NotifyE X -> W -> result X * W.
Variable view : W -> NotifyView.
Hypothesis Hh : conforms Reliable notify_behaviour h view.

(** A confirmed booking's emails: one notification is stored for every
    item with an email address, in the order of the items, and the mails the
    server accepts of them go out in that order; the other items are skipped.
    An event without items makes the handler throw, with nothing stored. *)
Theorem booking_confirmed_mails p s w :
  let v := view w in
  let v' := view (final h (handleBookingConfirmed (S := S) p) s w) in
  match outcome h (handleBookingConfirmed (S := S) p) s w with
  | Ok _ => exists data its, value_or_self p = Some (Some data) /\ pl_items data = Some its /\
      mails v' = mails v ++ flat_map (item_mails data its) its /\
      base.size (notifications v') = (base.size (notifications v) + length (addressed its))%nat
  | Err _ => v' = v /\ forall data its, value_or_self p = Some (Some data) -> pl_items data <> Some its
  end.
Proof.
  cbv zeta. call_wp Hh w. apply confirmed_wp.
  - intros data its v' Hd Hi Hm Hs. by exists data, its.
  - intros e He. split; [done|]. intros data its Hd Hi. by eapply He.
Qed.

(** The refund email is sent only for an event in an envelope: of the
    published value itself the handler reads [undefined] and throws, while the
    confirmation and cancellation handlers accept both forms. *)
Theorem refund_mail_needs_envelope data email s w :
  primary_email data = Some email ->
  let v := view w in
  let refunded p := handleBookingRefunded (S := S) p in
  let cancelled p := handleBookingCancelled (S := S) p in
  (outcome h (refunded (DEnvelope (Some data))) s w = Ok tt /\
   mails (view (final h (refunded (DEnvelope (Some data))) s w)) = mails v ++ accepted (refunded_input data email)) /\
  (outcome h (refunded (DValue data)) s w = Err (cannot_read "bookingNumber") /\
   view (final h (refunded (DValue data)) s w) = v) /\
  forall p, p = DValue data \/ p = DEnvelope (Some data) ->
    outcome h (cancelled p) s w = Ok tt /\
    mails (view (final h (cancelled p) s w)) = mails v ++ accepted (cancelled_input data email).
Proof.
  intros He. cbv zeta. split; [|split].
  - call_wp Hh w. unfold handleBookingRefunded. cbn [payload_value]. wp_step. wp_step. rewrite He. wp_step.
    apply send_reliable_wp. intros n v' Hm _ _. by wp_step.
  - by call_wp Hh w.
  - intros p Hp. call_wp Hh w. unfold handleBookingCancelled.
    assert (value_or_self p = Some (Some data)) as -> by by destruct Hp as [-> | ->].
    rewrite He. wp_step. apply send_reliable_wp. intros n v' Hm _ _. by wp_step.
Qed.

Lemma forallb_map {A B} (f : A -> B) (q : B -> bool) l : forallb q (map f l) = forallb (fun x => q (f x)) l.
Proof. induction l as [|x l IH]; cbn; [done|]. by rewrite IH. Qed.

Lemma forallb_const {A} (l : list A) : forallb (fun _ => true) l = true.
Proof. by induction l. Qed.

(** What the booking templates are filled with.  Every placeholder of the
    refund and failure emails has a value; of the confirmation email all but
    the event's title, which the published event does not carry, in the text
    and in the HTML.  The reason of a failure is always the default one. *)
Theorem booking_placeholders bookingId bookingNumber userId eventId totalAmount currency status its item email :
  let data := BookingPayload bookingId bookingNumber userId eventId totalAmount currency status its in
  missing booking_confirmed_template (sn_payload (confirmed_input data its item email)) =
    [Top "eventTitle"; Top "eventTitle"]%string /\
  missing booking_refunded_template (sn_payload (refunded_input data email)) = [] /\
  missing payment_failed_template (sn_payload (cancelled_input data email)) = [] /\
  In ("reason"%string, text (Some "Payment failed"%string)) (sn_payload (cancelled_input data email)).
Proof.
  cbv zeta. split_and!; [|reflexivity..|cbn; auto].
  unfold missing.
  assert (mentions booking_confirmed_template =
    let text := [Top "attendeeName"; Top "bookingNumber"; Top "eventTitle"; Top "totalAmount"; Top "currency"; Top "seats";
       Inner "seats" "sectionName"; Inner "seats" "row"; Inner "seats" "seatNumber"]%string in
    Top "bookingNumber"%string :: text ++ text) as -> by by vm_compute.
  cbn -[forallb]. rewrite !forallb_map. cbn. by rewrite !forallb_const.
Qed.
End Properties.

(** ** From the outbox to the attendees *)

Section Composition.
Context {cfg : MailConfig} {hb : Handlebars} {ms : MailServer} {S S' W W' : Type}.
Variable h : forall X, NotifyE X -> W -> result X * W.
Variable view : W -> NotifyView.
Hypothesis Hh : conforms Reliable notify_behaviour h view.
Variable hk : forall X, BookingE X -> W' -> result X * W'.
Variable view_b : W' -> BookingView.
Variable md : mode.
Hypothesis Hhk : conforms md book_behaviour hk view_b.

(** C20: A confirmed booking is mailed if its message arrives: performing a
    'booking.confirmed' entry hands exactly the entry's message to the Kafka
    client, which may lose it; only that message can arrive, and the consumer
    that receives it, in either form of delivery and with a notification
    database that does not fail, ends normally and sends the mails of the items
    that have an address, in order, leaving out those whose template does not
    render or which the mail server refuses.  If none is left out, every such
    address gets one mail. *)
Theorem confirmed_booking_mailed e its s s' w w' p :
  o_eventType e = "booking.confirmed"%string -> pl_items (o_payload e) = Some its ->
  outcome hk (processEntry (S := S') e) s' w' = Ok tt ->
  let v := view_b w' in
  let v' := view_b (final hk (processEntry (S := S') e) s' w') in
  new_messages v v' = [mkMessage "booking.confirmed" (o_aggregateId e) (o_payload e)] /\
  forall m, m ∈ new_arrived v v' -> p = DValue (m_value m) \/ p = DEnvelope (Some (m_value m)) ->
    m_topic m = "booking.confirmed"%string /\
    outcome h (handleBookingConfirmed (S := S) p) s w = Ok tt /\
    exists sent, mails (view (final h (handleBookingConfirmed (S := S) p) s w)) = mails (view w) ++ sent /\
      sent = flat_map (item_mails (o_payload e) its) its /\
      (mails_pass (o_payload e) its its -> map m_to sent = omap item_email its).
Proof.
  intros Ht Hi Ho. cbn zeta.
  assert (new_messages (view_b w') (view_b (final hk (processEntry (S := S') e) s' w')) = [entry_message e] /\
    new_arrived (view_b w') (view_b (final hk (processEntry (S := S') e) s' w')) ⊆ [entry_message e]) as [Hb Harr].
  { revert Ho. call_wp Hhk w'. apply processEntry_wp; [|done]. intros v' Hd _.
    pose proof (grows_arrived _ _ (onward_grows _ _ (proj1 (performed_frame _ _ _ Hd)))) as Harr.
    enough (new_messages (view_b w') v' = [entry_message e]) as Hm by by rewrite <- Hm at 2.
    destruct Hd as [Hs|v0 n _ Hr|n Hr|Hn]; [by rewrite Ht in Hs| |by rewrite Ht in Hr|].
    - unfold new_messages. destruct Hr as [[-> _]|(l & is_ & _ & _ & _ & _ & ->)]; apply drop_app_length.
    - exfalso. apply Hn. rewrite Ht. right. by left. }
  split; [rewrite Hb; unfold entry_message; by rewrite Ht|].
  intros m Hm Hp. apply Harr, list_elem_of_singleton in Hm as ->. cbn [m_value m_topic entry_message] in *.
  assert (value_or_self p = Some (Some (o_payload e))) as Hv by by destruct Hp as [-> | ->].
  split; [done|]. call_wp Hh w. apply confirmed_wp.
  - intros data its' v' Hd Hi' Hm _. rewrite Hv in Hd. injection Hd as <-. split; [done|]. rewrite Hi in Hi'.
    injection Hi' as <-. eexists. split_and!; [exact Hm|done|]. by apply item_mails_addresses.
  - intros x Hx. exfalso. by eapply Hx.
Qed.
End Composition.

(** ** Witnesses *)

Definition demo_seat_item (seat : string) (email : option string) : PayloadItem :=
  mkPayloadItem (Some seat) "Floor" "A" seat None email.

(** Two attendees with an address, one without, one with an empty one. *)
Definition demo_confirmed : Payload :=
  BookingPayload "b1" "BK-1" "u1" "ev" (DText "299.80") "TRY" None
    [demo_seat_item "1" (Some "a@x.io"%string); demo_seat_item "2" None; demo_seat_item "3" (Some ""%string);
     demo_seat_item "4" (Some "b@x.io"%string)].

Abbreviation demo_consumer := (handleBookingConfirmed (cfg := default_mail_config) (hb := plain_handlebars) (S := unit)).

Lemma booking_confirmed_mails_witness :
  map m_to (mails (final notify_run (demo_consumer (DValue demo_confirmed)) tt empty_notify)) = ["a@x.io"; "b@x.io"]%string /\
  base.size (notifications (final notify_run (demo_consumer (DValue demo_confirmed)) tt empty_notify)) = 2%nat.
Proof.
  split; [by vm_compute|].
  pose proof (booking_confirmed_mails (cfg := default_mail_config) (hb := plain_handlebars) (S := unit) notify_run
    notify_view notify_run_conforms (DValue demo_confirmed) tt empty_notify) as H. cbv zeta in H.
  destruct (outcome notify_run (demo_consumer (DValue demo_confirmed)) tt empty_notify) as [[]|e].
  - destruct H as (data & its & [= <-] & [= <-] & _ & Hs). refine (eq_trans Hs _). by vm_compute.
  - destruct H as [_ H]. by destruct (H demo_confirmed _ eq_refl eq_refl).
Defined.

Lemma refund_mail_needs_envelope_witness :
  primary_email demo_confirmed = Some "a@x.io"%string /\
  outcome notify_run (handleBookingRefunded (cfg := default_mail_config) (hb := plain_handlebars) (S := unit)
    (DValue demo_confirmed)) tt empty_notify = Err (cannot_read "bookingNumber").
Proof.
  split; [done|].
  destruct (refund_mail_needs_envelope (cfg := default_mail_config) (hb := plain_handlebars) (S := unit) notify_run
    notify_view notify_run_conforms demo_confirmed "a@x.io" tt empty_notify eq_refl) as (_ & [H _] & _).
  exact H.
Defined.

Definition demo_confirmed_entry : Outbox := demo_entry "o2" "booking.confirmed" demo_confirmed 2.

Lemma confirmed_booking_mailed_witness :
  let v := book_view outbox_world in
  let v' := book_view (final (book_run good_answer) (processEntry (S := unit) demo_confirmed_entry) tt outbox_world) in
  (exists m, m ∈ new_arrived v v' /\ m_value m = demo_confirmed) /\
  outcome notify_run (demo_consumer (DValue demo_confirmed)) tt empty_notify = Ok tt /\
  map m_to (mails (final notify_run (demo_consumer (DValue demo_confirmed)) tt empty_notify)) = ["a@x.io"; "b@x.io"]%string.
Proof.
  cbn zeta.
  assert (outcome (book_run good_answer) (processEntry (S := unit) demo_confirmed_entry) tt outbox_world = Ok tt) as Ho
    by (vm_compute; reflexivity).
  assert (entry_message demo_confirmed_entry ∈ new_arrived (book_view outbox_world)
    (book_view (final (book_run good_answer) (processEntry (S := unit) demo_confirmed_entry) tt outbox_world))) as Hin.
  { assert (new_arrived (book_view outbox_world)
      (book_view (final (book_run good_answer) (processEntry (S := unit) demo_confirmed_entry) tt outbox_world)) =
      [entry_message demo_confirmed_entry]) as -> by (vm_compute; reflexivity). left. }
  split; [by exists (entry_message demo_confirmed_entry)|].
  destruct (confirmed_booking_mailed (cfg := default_mail_config) (hb := plain_handlebars) (S := unit) (S' := unit)
    notify_run notify_view notify_run_conforms (book_run good_answer) book_view Reliable (book_run_conforms good_answer)
    demo_confirmed_entry _ tt tt empty_notify outbox_world (DValue demo_confirmed) eq_refl eq_refl Ho) as [_ H].
  destruct (H _ Hin (or_introl eq_refl)) as (_ & Hok & sent & Hm & _ & Hto).
  split; [exact Hok|]. cbn [notify_view] in Hm. refine (eq_trans (f_equal (map m_to) Hm) _). refine (eq_trans (Hto _) _); [|by vm_compute].
  intros item email _ He. unfold item_email in He. destruct (pl_attendeeEmail item) as [x|]; [|done].
  destruct (truthy x) eqn:Hx; [|done]. injection He as <-. eexists. split; [reflexivity|].
  unfold refuses, demo_mail_server. cbn [m_to mail_of channel_message cm_to confirmed_input sn_recipient]. by rewrite Hx.
Defined.
