(* ===== verification/ConcurrentHolds.v ===== *)
(** * Holds that run at the same time

    Any number of [HoldService.holdSeats] calls, interleaved at every await and
    each with a database connection of its own.  Only Redis is relied upon: of
    the database nothing is assumed, so the result also covers transactions that
    see each other's uncommitted rows.  A token is a lock key that a request set
    with SET NX and has not deleted.  The requests finish within the locks' time
    to live. *)

From S2P Require Import Prelude Effects Interleave Ownership JsNumber Json Redis Sql SeatWorld SeatRef SeatLock Availability Inventory Hold.

(** ** Redis as the requests share it *)

(** What an operation of a seat request does to the shared keyspace: a Redis
    command does what it is documented to do, or fails without an effect; the
    other operations do not touch it. *)
Definition shared_redis (X : Type) (op : SeatE X) (m : RedisView) (r : result X) (m' : RedisView) : Prop :=
  match op in SeatE X return result X -> Prop with
  | SRedis op => fun r => match r with Ok x => redis_ok op m x m' | Err _ => m' = m end
  | _ => fun _ => m' = m
  end r.

Lemma conforms_shared md W (h : forall X, SeatE X -> W -> result X * W) view :
  conforms md seat_behaviour h view ->
  forall X (op : SeatE X) w, shared_redis X op (redis (view w)) (h X op w).1 (redis (view (h X op w).2)).
Proof.
  intros Hh X op w. specialize (Hh X op w). destruct (h X op w) as [[x|e] w']; cbn in *.
  - destruct op; cbn in *; try (by rewrite Hh); try (rewrite Hh; unfold qr_write; by destruct (tx (view w)));
      try (by destruct Hh as [Hv _]; rewrite Hv).
    + destruct Hh as (m & Hm & ->). done.
    + by destruct Hh as (_ & _ & _ & _ & ->).
    + by destruct Hh as [_ ->].
    + destruct Hh as (_ & _ & ->). unfold qr_write. by destruct (tx (view w)).
    + by destruct Hh as (ws & _ & ->).
    + by destruct Hh as [_ ->].
  - destruct Hh as [-> _]. by destruct op.
Qed.

(** ** Lock tokens *)

Definition is_lock_key (key : string) : bool := String.prefix "lock:event:" key.

Definition redis_may {X} (op : RedisE X) (T : gset string) : bool :=
  match op with
  | RSetNxEx key _ _ => is_lock_key key
  | RDel key => bool_decide (key ∈ T) || negb (is_lock_key key)
  | RPipeline cmds => forallb (fun c => match c with PDel key => negb (is_lock_key key) | PHSet _ _ _ => true end) cmds
  | _ => true
  end.

Definition redis_gives {X} (op : RedisE X) (T : gset string) : result X -> gset string -> Prop :=
  match op in RedisE X return result X -> gset string -> Prop with
  | RSetNxEx key _ _ => fun r T' =>
      match r with Ok true => (key ∉ T) /\ T' = {[key]} ∪ T | _ => T' = T end
  | RDel key => fun r T' => match r with Ok _ => T' = T ∖ {[key]} | Err _ => T' = T end
  | _ => fun _ T' => T' = T
  end.

(** The locks that were taken are there. *)
Definition locks_present (T : gset string) (m : RedisView) : Prop :=
  forall k, k ∈ T -> is_lock_key k = true /\ m !! k <> None.

Definition lock_tokens : ownership SeatE RedisView string := {|
  may := fun X op T => match op with SRedis op => redis_may op T | _ => true end;
  gives := fun X op T => match op in SeatE X return result X -> gset string -> Prop with
                         | SRedis op => redis_gives op T
                         | _ => fun _ T' => T' = T
                         end;
  inv := locks_present;
|}.

Lemma hset_present key f x m k : m !! k <> None -> hset key f x m !! k <> None.
Proof.
  intros Hk. unfold hset. destruct (m !! key) as [[[v|h] t]|] eqn:Hm; [done| |]; destruct (decide (key = k)) as [->|Hne].
  - by rewrite lookup_insert_eq.
  - by rewrite lookup_insert_ne.
  - by rewrite lookup_insert_eq.
  - by rewrite lookup_insert_ne.
Qed.

Lemma pipeline_present cmds m k :
  is_lock_key k = true ->
  forallb (fun c => match c with PDel key => negb (is_lock_key key) | PHSet _ _ _ => true end) cmds = true ->
  m !! k <> None -> foldl apply_cmd m cmds !! k <> None.
Proof.
  intros Hk. revert m. induction cmds as [|c cmds IH]; intros m Hc Hm; cbn in *; [done|].
  apply andb_true_iff in Hc as [Hc Hcs]. apply IH; [done|]. destruct c as [key|key f x]; cbn.
  - rewrite lookup_delete_ne; [done|]. intros ->. by rewrite Hk in Hc.
  - by apply hset_present.
Qed.

Lemma locks_present_ext T m m' : (forall k, k ∈ T -> is_lock_key k = true -> m !! k <> None -> m' !! k <> None) ->
  locks_present T m -> locks_present T m'.
Proof. intros H HT k Hk. destruct (HT k Hk) as [Hl Hm]. split; [done|]. by apply H. Qed.

Lemma lock_law : own_law lock_tokens shared_redis.
Proof.
  intros X op T F m r m' Hd Hi Hm Hs. cbn in Hi, Hm |- *.
  destruct op as [Y op| | | | | | | | | | | | | | | |]; try (by exists T; rewrite Hs).
  cbn in Hs. destruct r as [x|e].
  2: { subst m'. exists T. split_and!; [by destruct op; cbn|done|done]. }
  destruct op; cbn in *.
  - destruct (m !! key) as [en|] eqn:Hk; destruct Hs as [-> ->]; [by exists T|].
    assert (key ∉ T ∪ F) as Hn by (intros Hin; by destruct (Hi key Hin) as [_ ?]).
    apply not_elem_of_union in Hn as [HnT HnF]. exists ({[key]} ∪ T). split_and!; [done|done| |].
    + apply disjoint_union_l. split; [by apply disjoint_singleton_l|done].
    + intros k Hk'. rewrite <- union_assoc_L in Hk'. apply elem_of_union in Hk' as [->%elem_of_singleton|Hk'].
      * split; [done|]. by rewrite lookup_insert_eq.
      * destruct (Hi k Hk') as [Hl Hp]. split; [done|]. rewrite lookup_insert_ne; [done|congruence].
  - exists T. split_and!; [done|done|]. eapply locks_present_ext; [|exact Hi]. intros k _ _ Hp. subst m'.
    destruct (decide (key = k)) as [->|Hne]; [by rewrite lookup_insert_eq|by rewrite lookup_insert_ne].
  - destruct Hs as [-> _]. by exists T.
  - exists (T ∖ {[key]}). split_and!; [done| |].
    + intros k Hk. apply Hd. by apply elem_of_difference in Hk as [? _].
    + subst m'. intros k Hk. apply elem_of_union in Hk as [Hk|Hk].
      * apply elem_of_difference in Hk as [Hk Hne]. rewrite elem_of_singleton in Hne.
        rewrite lookup_delete_ne by done. apply Hi. by apply elem_of_union_l.
      * assert (k ∈ T ∪ F) as Hu by by apply elem_of_union_r. destruct (Hi k Hu) as [Hl Hp]. split; [done|].
        rewrite lookup_delete_ne; [done|]. intros ->. apply orb_true_iff in Hm as [Hm|Hm].
        -- apply bool_decide_eq_true in Hm. by apply (Hd k).
        -- by rewrite Hl in Hm.
  - exists T. split_and!; [done|done|]. eapply locks_present_ext; [|exact Hi]. intros k _ _ Hp. subst m'.
    destruct (decide (key = k)) as [->|Hne]; [|by rewrite lookup_alter_ne].
    rewrite lookup_alter_eq. by destruct (m !! k).
  - exists T. split_and!; [done|done|]. eapply locks_present_ext; [|exact Hi]. intros k _ _ Hp. subst m'. by apply hset_present.
  - destruct Hs as [-> _]. by exists T.
  - destruct Hs as [-> _]. by exists T.
  - exists T. split_and!; [done|done|]. eapply locks_present_ext; [|exact Hi]. intros k _ Hl Hp. subst m'. by apply pipeline_present.
Qed.

(** ** The code respects its tokens *)

Lemma lock_key_is_lock e s : is_lock_key (lock_key e s) = true.
Proof. unfold is_lock_key, lock_key. cbn. by destruct e. Qed.

Section Owned.
Context {S : Type}.
Abbreviation own := (own_spec lock_tokens).

(** Operations that neither give nor take a token. *)
Lemma neutral_owned {X} (op : SeatE X) (Q : result X -> S -> option (gset string) -> Prop) s T :
  may lock_tokens op T = true ->
  (forall r T', gives lock_tokens op T r T' -> T' = T) ->
  (forall r, Q r s (Some T)) -> wp own (call op) Q s (Some T).
Proof. intros Hm Hg HQ. apply own_call; [done|]. intros r T' H. rewrite (Hg r T' H). apply HQ. Qed.

Lemma acquire_owned e u se seatIds failed locked (Q : result (list string * list string) -> S -> option (gset string) -> Prop) s T :
  NoDup locked -> (forall k, k ∈ locked -> k ∈ T) ->
  (forall failed' locked' T', NoDup locked' -> (forall k, k ∈ locked' -> k ∈ T') ->
     (failed' = [] -> failed = [] /\ locked' = locked ++ map (lock_key e) seatIds) -> Q (Ok (failed', locked')) s (Some T')) ->
  (forall x T', Q (Err x) s (Some T')) ->
  wp own (acquire e u se seatIds failed locked) Q s (Some T).
Proof.
  intros Hn Hl HQ HE. revert failed locked T Hn Hl HQ. induction seatIds as [|x rest IH]; intros failed locked T Hn Hl HQ;
    cbn [acquire].
  - wp_step. apply HQ; [done|done|]. intros ->. split; [done|]. by rewrite app_nil_r.
  - cbv zeta. wp_step. apply neutral_owned; [done|done|]. intros [now|err]; [|apply HE].
    wp_step. apply own_call; [apply lock_key_is_lock|]. intros r T' Hg. cbn in Hg.
    destruct r as [[|]|err]; [| |apply HE].
    + destruct Hg as [Hk ->]. apply IH.
      * apply NoDup_app. split_and!; [done| |by apply NoDup_singleton].
        intros k Hk' ->%list_elem_of_singleton. by apply Hk, Hl.
      * intros k [Hk'|Hk']%elem_of_app; [by apply elem_of_union_r, Hl|].
        apply list_elem_of_singleton in Hk' as ->. by apply elem_of_union_l, elem_of_singleton.
      * intros failed' locked' T' Hn' Hl' Hf. apply HQ; [done|done|]. intros [-> ->]%Hf. split; [done|].
        by rewrite <- app_assoc.
    + subst T'. apply IH; [done|done|]. intros failed' locked' T' Hn' Hl' Hf. apply HQ; [done|done|].
      intros [Hnil _]%Hf. by destruct failed.
Qed.

(** Deleting keys that are held, each once. *)
Lemma delete_owned keys (Q : result unit -> S -> option (gset string) -> Prop) s T :
  NoDup keys -> (forall k, k ∈ keys -> k ∈ T) -> (forall r T', Q r s (Some T')) ->
  wp own (for_each keys (fun key => call (SRedis (RDel key)))) Q s (Some T).
Proof.
  intros Hn Hk HQ. revert T Hk. induction Hn as [|k keys Hnk Hn IH]; intros T Hk; cbn [for_each].
  - wp_step. apply HQ.
  - wp_step. apply own_call.
    + cbn. rewrite bool_decide_eq_true_2; [done|]. apply Hk. by left.
    + intros [[]|x] T' Hg; cbn in Hg; subst T'; [|apply HQ]. apply IH. intros k' Hk'. apply elem_of_difference.
      split; [apply Hk; by right|]. rewrite elem_of_singleton. by intros ->.
Qed.

Lemma lockSeats_owned e seatIds u se (Q : result (bool * list string) -> S -> option (gset string) -> Prop) s :
  (forall T, NoDup (map (lock_key e) seatIds) -> (forall x, x ∈ seatIds -> lock_key e x ∈ T) -> Q (Ok (true, [])) s (Some T)) ->
  (forall failed T, Q (Ok (false, failed)) s (Some T)) ->
  (forall x T, Q (Err x) s (Some T)) ->
  wp own (lockSeats e seatIds u se) Q s (Some ∅).
Proof.
  intros HQ HF HE. unfold lockSeats. wp_step. apply acquire_owned; [constructor|by intros k Hk%elem_of_nil| |done].
  intros failed locked T Hn Hl Hf. destruct (Nat.ltb 0 (length failed)) eqn:Hlt.
  - wp_step. apply delete_owned; [done|done|]. intros [[]|x] T'; [wp_step; apply HF|apply HE].
  - destruct failed as [|x failed]; [|done]. destruct (Hf eq_refl) as [_ ->]. cbn [app] in Hn, Hl. wp_step.
    apply HQ; [done|]. intros x Hx. apply Hl, list_elem_of_fmap. by exists x.
Qed.

(** Releasing the user's locks on seats whose keys are held. *)
Lemma release_owned e seatIds u n (Q : result nat -> S -> option (gset string) -> Prop) s T :
  NoDup (map (lock_key e) seatIds) -> (forall x, x ∈ seatIds -> lock_key e x ∈ T) -> (forall r T', Q r s (Some T')) ->
  wp own (release_loop e seatIds u n) Q s (Some T).
Proof.
  intros Hn Hk HQ. revert n T Hn Hk. induction seatIds as [|x rest IH]; intros n T Hn Hk; cbn [release_loop].
  { wp_step. apply HQ. }
  cbn in Hn. apply NoDup_cons in Hn as [Hx Hn]. cbv zeta.
  assert (forall n, wp own (release_loop e rest u n) Q s (Some T)) as Hskip.
  { intros n'. apply IH; [done|]. intros y Hy. apply Hk. by right. }
  wp_step. apply neutral_owned; [done|done|]. intros [[data|]|err]; [|apply Hskip|apply HQ].
  destruct (negb (truthy data)); [apply Hskip|]. wp_step. unfold parse_json.
  destruct (parse data) as [j|]; wp_step; [|apply HQ]. wp_step.
  assert (forall b : bool, wp own (if b then release_loop e rest u n
     else call (SRedis (RDel (lock_key e x))) ;; release_loop e rest u (n + 1)) Q s (Some T)) as Hrest.
  { intros [|]; [apply Hskip|]. wp_step. apply own_call.
    - cbn. rewrite bool_decide_eq_true_2; [done|]. apply Hk. by left.
    - intros [[]|err] T' Hg; cbn in Hg; subst T'; [|apply HQ]. apply IH; [done|]. intros y Hy. apply elem_of_difference.
      split; [apply Hk; by right|]. rewrite elem_of_singleton. intros Heq. apply Hx. rewrite <- Heq.
      apply list_elem_of_fmap. by exists y. }
  unfold other_user. destruct j; wp_step; try apply Hrest. apply HQ.
Qed.

Lemma hold_transaction_owned e seatIds u se (Q : result (list string * Z) -> S -> option (gset string) -> Prop) s T :
  (forall r, Q r s (Some T)) -> wp own (hold_transaction e seatIds u se) Q s (Some T).
Proof.
  intros HQ. unfold hold_transaction, findBySeatIds. wp_step. apply neutral_owned; [done|done|]. intros [l|x]; [|apply HQ].
  cbv zeta. destruct (Nat.ltb _ _); [wp_step; apply HQ|].
  wp_step. apply neutral_owned; [done|done|]. intros [[]|x]; [|apply HQ].
  wp_step. apply neutral_owned; [done|done|]. intros [now|x]; [|apply HQ].
  wp_step. wp_step. destruct (map_result _ _) as [hds|x]; [|apply HQ].
  wp_step. apply neutral_owned; [done|done|]. intros [savedHolds|x]; [|apply HQ].
  wp_step. apply neutral_owned; [done|done|]. intros [[]|x]; [|apply HQ].
  wp_step. unfold updateMultipleSeatsStatus. apply neutral_owned; [|done|].
  - cbn. apply forallb_forall. intros c Hc. unfold hset_all in Hc. apply in_map_iff in Hc as (kv & <- & _). by destruct kv.
  - intros [[]|x]; [wp_step|]; apply HQ.
Qed.

Lemma holdSeats_owned e seatIds u se s :
  owned lock_tokens (holdSeats (S := S) e seatIds u se)
    (fun r T => is_ok r = true -> forall x, x ∈ seatIds -> lock_key e x ∈ T) s ∅.
Proof.
  unfold owned, holdSeats. wp_step. apply lockSeats_owned; [|by intros; cbn [negb]; wp_step|done].
  intros T Hn Hk. cbn [negb]. wp_step. apply neutral_owned; [done|done|]. intros [[]|x]; [|done].
  wp_step. apply neutral_owned; [done|done|]. intros [[]|x]; [|done].
  wp_step. wp_step. apply hold_transaction_owned. intros [p|err].
  - apply neutral_owned; [done|done|]. intros [[]|x]; [by intros _|done].
  - wp_step. apply neutral_owned; [done|done|].
    assert (forall r T', wp own (call QrRelease) (fun r' s v => match r' with
       | Ok _ => own_post (fun r T => is_ok r = true -> forall x, x ∈ seatIds -> lock_key e x ∈ T) (Err r : result (list string * Z)) s v
       | Err y => own_post (fun r T => is_ok r = true -> forall x, x ∈ seatIds -> lock_key e x ∈ T) (Err y : result (list string * Z)) s v end) s (Some T')) as Hrel.
    { intros r T'. apply neutral_owned; [done|done|]. by intros [[]|x]. }
    intros [[]|x]; [|apply Hrel]. wp_step. unfold releaseLocks. apply release_owned; [done|done|].
    intros [n|x] T'; [wp_step|]; apply Hrel.
Qed.
End Owned.

(** ** Properties *)

Record HoldRequest := mkHoldRequest {
  hq_eventId : string;
  hq_seatIds : list string;
  hq_userId : string;
  hq_sessionId : string;
}.

Definition hold_program {S} (q : HoldRequest) : prog S SeatE (list string * Z) :=
  holdSeats (hq_eventId q) (hq_seatIds q) (hq_userId q) (hq_sessionId q).

Section Properties.
Context {S W : Type}.
Variable hs : nat -> forall X, SeatE X -> W -> result X * W.
Variable views : nat -> W -> SeatView.
Variable shared : W -> RedisView.
Hypothesis Hhs : forall i, conforms Faulty seat_behaviour (hs i) (views i).
Hypothesis Hshared : forall i w, redis (views i w) = shared w.

(** C3: No double hold under concurrency: of any number of hold requests that
    run interleaved in any order, each on its own connection and with any
    operation failing at any time, two that succeed have no seat of an event in
    common, and the locks of those that succeed are all there in the end. *)
Theorem concurrent_holds_exclusive (qs : list HoldRequest) (s : S) schedule w :
  let '(rs, w') := run_many hs schedule (map (fun q => (hold_program q, s)) qs) w in
  length rs = length qs /\
  (forall i q p, qs !! i = Some q -> rs !! i = Some (Ok p) ->
     forall x, x ∈ hq_seatIds q -> shared w' !! lock_key (hq_eventId q) x <> None) /\
  (forall i j q q' p p', i <> j -> qs !! i = Some q -> qs !! j = Some q' ->
     rs !! i = Some (Ok p) -> rs !! j = Some (Ok p') -> hq_eventId q = hq_eventId q' ->
     forall x, x ∈ hq_seatIds q -> x ∉ hq_seatIds q').
Proof.
  pose proof (run_many_length hs schedule (map (fun q => (hold_program q, s)) qs) w) as Hlen.
  pose proof (run_many_sound (S := S) (A := list string * Z) lock_tokens shared_redis hs shared lock_law) as Hsound.
  specialize (Hsound ltac:(intros i X op w0; rewrite <- !(Hshared i); by eapply conforms_shared)).
  specialize (Hsound (fun i r T => forall q, qs !! i = Some q -> is_ok r = true ->
    forall x, x ∈ hq_seatIds q -> lock_key (hq_eventId q) x ∈ T) schedule (map (fun q => (hold_program q, s)) qs) w).
  destruct (run_many hs schedule (map (fun q => (hold_program q, s)) qs) w) as [rs w']. cbn [fst] in Hlen.
  rewrite length_map in Hlen.
  destruct Hsound as (Ts & Ha & Hi & HQ).
  - by intros k Hk%elem_of_empty.
  - intros i c Hc. rewrite list_lookup_fmap in Hc. destruct (qs !! i) as [q|] eqn:Hq; [|done]. injection Hc as <-.
    unfold owned. eapply wp_mono; [apply holdSeats_owned|]. intros r s' [T|] Hr; [|done]. cbn in *. by intros q' [= <-].
  - assert (forall i q p, qs !! i = Some q -> rs !! i = Some (Ok p) -> exists T, Ts !! i = Some T /\
      forall x, x ∈ hq_seatIds q -> lock_key (hq_eventId q) x ∈ T) as Hown.
    { intros i q p Hq Hr. destruct (HQ i (Ok p) Hr) as (T & HT & Hx). exists T. split; [done|]. by apply Hx. }
    split_and!; [done| |].
    + intros i q p Hq Hr x Hx. destruct (Hown i q p Hq Hr) as (T & HT & Hkeys).
      apply (Hi (lock_key (hq_eventId q) x)). eapply elem_union_list; [exact HT|]. by apply Hkeys.
    + intros i j q q' p p' Hne Hq Hq' Hr Hr' He x Hx Hx'.
      destruct (Hown i q p Hq Hr) as (T & HT & Hkeys). destruct (Hown j q' p' Hq' Hr') as (T' & HT' & Hkeys').
      apply (apart_lookup Ts i j T T' Ha HT HT' Hne (lock_key (hq_eventId q) x)); [by apply Hkeys|].
      rewrite He. by apply Hkeys'.
Qed.
End Properties.

(** ** A reference environment with connections *)

(** The tables, the open transactions by request, Redis and the clock. *)
Definition ConnWorld : Type := SeatTables * gmap nat (list SeatWrite) * RedisView * Z.

Definition conn_view (i : nat) (w : ConnWorld) : SeatView := mkView w.1.1.1 (w.1.1.2 !! i) w.1.2.

Definition conn_run (i : nat) (X : Type) (op : SeatE X) (w : ConnWorld) : result X * ConnWorld :=
  let '(r, (v, now)) := seat_run X op (conn_view i w, w.2) in
  (r, (tables v, match tx v with Some ws => <[i := ws]> w.1.1.2 | None => delete i w.1.1.2 end, redis v, now)).

Lemma conn_run_conforms i : conforms Faulty seat_behaviour (conn_run i) (conn_view i).
Proof.
  intros X op w. apply obeys_faulty. pose proof (seat_run_conforms X op (conn_view i w, w.2)) as H. unfold conn_run.
  destruct (seat_run X op (conn_view i w, w.2)) as [r [v now]]. cbn [fst snd] in *.
  assert (conn_view i (tables v, match tx v with Some ws => <[i:=ws]> w.1.1.2 | None => delete i w.1.1.2 end, redis v, now) = v)
    as ->; [|exact H].
  unfold conn_view. destruct v as [t [ws|] m]; cbn; [by rewrite lookup_insert_eq|by rewrite lookup_delete_eq].
Qed.

Definition conn_world : ConnWorld := (tables (seat_view demo_world), ∅, ∅, 1000%Z).

(** Two requests for one seat and a third for another, in turn. *)
Definition demo_requests : list HoldRequest :=
  [mkHoldRequest "ev" ["A1"%string] "u1" "s1"; mkHoldRequest "ev" ["A1"%string] "u2" "s2";
   mkHoldRequest "ev" ["A2"%string] "u3" "s3"].

Lemma concurrent_holds_exclusive_witness :
  let '(rs, w') := run_many conn_run (turns_of 20 [2; 1; 0]) (map (fun q => (hold_program q, tt)) demo_requests) conn_world in
  map is_ok rs = [false; true; true] /\
  (forall i q p, demo_requests !! i = Some q -> rs !! i = Some (Ok p) ->
     forall x, x ∈ hq_seatIds q -> w'.1.2 !! lock_key (hq_eventId q) x <> None).
Proof.
  pose proof (concurrent_holds_exclusive (S := unit) conn_run conn_view (fun w => w.1.2) conn_run_conforms
    (fun i w => eq_refl) demo_requests tt (turns_of 20 [2; 1; 0]) conn_world) as H.
  assert (map is_ok (run_many conn_run (turns_of 20 [2; 1; 0])
    (map (fun q => (hold_program q, tt)) demo_requests) conn_world).1 = [false; true; true]) as Hok by by vm_compute.
  destruct (run_many conn_run (turns_of 20 [2; 1; 0]) (map (fun q => (hold_program q, tt)) demo_requests) conn_world)
    as [rs w']. cbn [fst] in Hok. split; [exact Hok|]. exact (proj1 (proj2 H)).
Defined.

(** The price of all-or-nothing locking without an order: two requests
    for the same two seats in opposite orders can both be refused, although
    both seats were free and are free again in the end. *)
Theorem opposite_orders_both_refused :
  let qs := [mkHoldRequest "ev" ["A1"; "A2"]%string "u1" "s1"; mkHoldRequest "ev" ["A2"; "A1"]%string "u2" "s2"] in
  let '(rs, w') := run_many conn_run (turns_of 20 [0; 1]) (map (fun q => (hold_program q, tt)) qs) conn_world in
  map is_ok rs = [false; false] /\ w'.1.2 = ∅ /\ w'.1.1.1 = tables (seat_view demo_world).
Proof. vm_compute. by split_and!. Qed.
