(* ===== verification/ConcurrentPayments.v ===== *)
(** * Payments that run at the same time

    Any number of [PaymentService.initiatePayment] calls, interleaved at every
    await, with any operation failing.  Every request that is sent to Stripe is
    logged.  What prevents a second charge is the unique index on the
    idempotency key: the insertion that succeeds hands out the right to charge
    ([MayCharge]) and to save the row ([MaySave]); a row that was read leaves
    the knowledge that it exists ([Seen]). *)

From S2P Require Import Prelude Effects Interleave Ownership JsNumber Json Redis Sql PaymentWorld PaymentRef Gateway Payment RefundService.

(** ** The log of the charges *)

Definition charge_log {W} (h : forall X, PaymentE X -> W -> result X * W)
    (X : Type) (op : PaymentE X) (w : W * list string) : result X * (W * list string) :=
  let (r, w') := h X op w.1 in
  (r, (w', match op with StripeCharge req => w.2 ++ [cr_idempotencyKey req] | _ => w.2 end)).

Definition logged_spec (X : Type) (op : PaymentE X) (v : PaymentView * list string) (r : result X)
    (v' : PaymentView * list string) : Prop :=
  obeys Faulty pay_behaviour X op v.1 r v'.1 /\
  v'.2 = match op with StripeCharge req => v.2 ++ [cr_idempotencyKey req] | _ => v.2 end.

Lemma charge_log_spec {W} (h : forall X, PaymentE X -> W -> result X * W) (view : W -> PaymentView) :
  conforms Faulty pay_behaviour h view ->
  forall X (op : PaymentE X) (w : W * list string),
    logged_spec X op (view w.1, w.2) (charge_log h X op w).1
      (view (charge_log h X op w).2.1, (charge_log h X op w).2.2).
Proof. intros Hh X op [w log]. specialize (Hh X op w). unfold charge_log. cbn. by destruct (h X op w). Qed.

(** ** Rights *)

Inductive right := MayCharge | MaySave | Seen (n : nat).

#[global] Instance right_eq_dec : EqDecision right.
Proof. solve_decision. Defined.
#[global] Instance right_countable : Countable right.
Proof.
  apply (inj_countable' (fun r => match r with MayCharge => inl true | MaySave => inl false | Seen n => inr n end)
    (fun c => match c with inl true => MayCharge | inl false => MaySave | inr n => Seen n end)).
  by intros [].
Defined.

(** A right to the row [id], whose idempotency key is [key]. *)
Abbreviation token := (string * string * right)%type.

Definition charges_with (key : string) (t : token) : Prop := t.1.2 = key /\ t.2 = MayCharge.
#[global] Instance charges_with_dec key t : Decision (charges_with key t).
Proof. apply _. Defined.

Definition pay_may {X} (op : PaymentE X) (T : gset token) : bool :=
  match op with
  | PaySave p => bool_decide ((p_id p, p_idempotencyKey p, MaySave) ∈ T)
  | StripeCharge req => bool_decide (set_Exists (charges_with (cr_idempotencyKey req)) T)
  | _ => true
  end.

Definition pay_gives {X} (op : PaymentE X) (T : gset token) : result X -> gset token -> Prop :=
  match op in PaymentE X return result X -> gset token -> Prop with
  | PayFindOne f => fun r T' =>
      match r with
      | Ok (Some p) => f p = true /\ exists n, T' = {[(p_id p, p_idempotencyKey p, Seen n)]} ∪ T
      | _ => T' = T
      end
  | PayInsert d => fun r T' =>
      match r with
      | Ok p => p_idempotencyKey p = pd_idempotencyKey d /\
          T' = {[(p_id p, p_idempotencyKey p, MayCharge); (p_id p, p_idempotencyKey p, MaySave)]} ∪ T
      | Err _ => T' = T
      end
  | StripeCharge req => fun _ T' => T' = filter (fun t => ~ charges_with (cr_idempotencyKey req) t) T
  | _ => fun _ T' => T' = T
  end.

(** The payments that were there before the requests. *)
Section Rights.
Variable before : gmap string Payment.

Record rights_inv (T : gset token) (v : PaymentView * list string) : Prop := {
  ri_keyed : keyed p_id (payments v.1);
  ri_unique : forall i j p q, payments v.1 !! i = Some p -> payments v.1 !! j = Some q ->
    p_idempotencyKey p = p_idempotencyKey q -> i = j;
  ri_rows : forall id key r, (id, key, r) ∈ T -> exists p, payments v.1 !! id = Some p /\ p_idempotencyKey p = key;
  ri_before : forall key, payment_conflict key before -> payment_conflict key (payments v.1);
  ri_log : NoDup v.2;
  ri_logged : forall key, key ∈ v.2 -> payment_conflict key (payments v.1) /\ ~ payment_conflict key before;
  ri_charge : forall id key, (id, key, MayCharge) ∈ T -> (key ∉ v.2) /\ ~ payment_conflict key before;
}.

Definition pay_rights : ownership PaymentE (PaymentView * list string) token := {|
  may := @pay_may; gives := @pay_gives; inv := rights_inv;
|}.

(** Operations that leave the payments and the log alone. *)
Lemma rights_same T v v' : payments v'.1 = payments v.1 -> v'.2 = v.2 -> rights_inv T v -> rights_inv T v'.
Proof. intros Hp Hl [H1 H2 H3 H4 H5 H6 H7]. by split; rewrite ?Hp, ?Hl. Qed.

Lemma conflict_insert key (t : gmap string Payment) i (row : Payment) :
  (forall p, t !! i = Some p -> p_idempotencyKey p = p_idempotencyKey row) ->
  payment_conflict key t -> payment_conflict key (<[i := row]> t).
Proof.
  intros Hrow (j & p & Hj & Hk). destruct (decide (i = j)) as [<-|Hne].
  - exists i, row. split; [apply lookup_insert_eq|]. by rewrite <- (Hrow p Hj).
  - exists j, p. by rewrite lookup_insert_ne.
Qed.

(** Writing a row that keeps its key, or a new row with a new key. *)
Lemma rights_insert T v v' (row : Payment) :
  (forall p, payments v.1 !! p_id row = Some p -> p_idempotencyKey p = p_idempotencyKey row) ->
  (payments v.1 !! p_id row = None -> ~ payment_conflict (p_idempotencyKey row) (payments v.1)) ->
  payments v'.1 = <[p_id row := row]> (payments v.1) -> v'.2 = v.2 ->
  rights_inv T v -> rights_inv T v'.
Proof.
  intros Hold Hnew Hp Hl [H1 H2 H3 H4 H5 H6 H7]. split; rewrite ?Hp, ?Hl; try done.
  - intros i q. destruct (decide (p_id row = i)) as [<-|Hne].
    + rewrite lookup_insert_eq. by intros [= <-].
    + rewrite lookup_insert_ne by done. apply H1.
  - assert (forall j q, payments v.1 !! j = Some q -> p_idempotencyKey q = p_idempotencyKey row -> p_id row = j) as Hrow.
    { intros j q Hj Hk. destruct (payments v.1 !! p_id row) as [o|] eqn:Ho.
      - apply (H2 _ _ o q); [done..|]. by rewrite (Hold o).
      - destruct (Hnew eq_refl). by exists j, q. }
    intros i j p q. destruct (decide (p_id row = i)) as [<-|Hi], (decide (p_id row = j)) as [<-|Hj];
      rewrite ?lookup_insert_eq, ?lookup_insert_ne by done; intros Hip Hjq Hk.
    + done.
    + injection Hip as <-. by eapply Hrow.
    + injection Hjq as <-. symmetry. by eapply Hrow.
    + by eapply H2.
  - intros id key r Ht. destruct (H3 id key r Ht) as (p & Hid & Hk). destruct (decide (p_id row = id)) as [<-|Hne].
    + exists row. split; [apply lookup_insert_eq|]. by rewrite <- (Hold p Hid).
    + exists p. by rewrite lookup_insert_ne.
  - intros key Hc. apply conflict_insert; [done|auto].
  - intros key Hk. destruct (H6 key Hk) as [Hc Hb]. split; [|done]. by apply conflict_insert.
Qed.

(** Reading a row. *)
Lemma rights_seen T v p n :
  p ∈ rows (payments v.1) -> rights_inv T v -> rights_inv ({[(p_id p, p_idempotencyKey p, Seen n)]} ∪ T) v.
Proof.
  intros Hp [H1 H2 H3 H4 H5 H6 H7]. split; try done.
  - intros id key r Ht. apply elem_of_union in Ht as [Ht|Ht]; [apply elem_of_singleton in Ht as [= -> -> ->]|by eapply H3].
    apply elem_of_rows_lookup in Hp as [i Hi]. exists p. by rewrite (H1 i p Hi).
  - intros id key Ht. apply elem_of_union in Ht as [Ht|Ht]; [by apply elem_of_singleton in Ht|by eapply H7].
Qed.

(** The rights to a row that was inserted. *)
Lemma rights_new T v p row :
  payments v.1 !! p_id p = Some row -> p_idempotencyKey row = p_idempotencyKey p ->
  (p_idempotencyKey p ∉ v.2) -> ~ payment_conflict (p_idempotencyKey p) before ->
  rights_inv T v ->
  rights_inv ({[(p_id p, p_idempotencyKey p, MayCharge); (p_id p, p_idempotencyKey p, MaySave)]} ∪ T) v.
Proof.
  intros Hp Hk Hlog Hb [H1 H2 H3 H4 H5 H6 H7]. split; try done.
  - intros id key r Ht. rewrite !elem_of_union, !elem_of_singleton in Ht.
    destruct Ht as [[[= -> -> ->]|[= -> -> ->]]|Ht]; [by exists row..|by eapply H3].
  - intros id key Ht. rewrite !elem_of_union, !elem_of_singleton in Ht.
    destruct Ht as [[[= -> ->]|[=]]|Ht]; [done|by eapply H7].
Qed.

(** A charge. *)
Lemma rights_charge T v v' key id :
  (id, key, MayCharge) ∈ T -> payments v'.1 = payments v.1 -> v'.2 = v.2 ++ [key] ->
  rights_inv T v -> rights_inv (filter (fun t => ~ charges_with key t) T) v'.
Proof.
  intros Ht Hp Hl Hi. pose proof Hi as [H1 H2 H3 H4 H5 H6 H7]. destruct (H7 id key Ht) as [Hn Hb].
  split; rewrite ?Hp, ?Hl; try done.
  - intros id' key' r [_ Ht']%elem_of_filter. by eapply H3.
  - apply NoDup_app. split_and!; [done| |apply NoDup_singleton]. by intros k Hk ->%list_elem_of_singleton.
  - intros k [Hk| ->%list_elem_of_singleton]%elem_of_app; [by apply H6|]. split; [|done].
    destruct (H3 _ _ _ Ht) as (p & Hid & Hk). by exists id, p.
  - intros id' key' [Hne Ht']%elem_of_filter. destruct (H7 id' key' Ht') as [Hn' Hb']. split; [|done].
    intros [Hk| ->%list_elem_of_singleton]%elem_of_app; [done|]. by apply Hne.
Qed.

Definition writes_payments {X} (op : PaymentE X) : bool :=
  match op with PayInsert _ | PaySave _ => true | _ => false end.

Lemma payments_kept md X (op : PaymentE X) v r v' :
  obeys md pay_behaviour X op v r v' -> writes_payments op = false -> payments v' = payments v.
Proof.
  intros Hs Hw. destruct r as [x|e]; [|by destruct Hs as [-> _]].
  assert (forall req i, charged req v i v' -> payments v' = payments v) as Hc.
  { intros req i [(? & _ & _ & ->)|[_ ->]]; done. }
  destruct op; cbn in Hs, Hw; try done; try (by rewrite Hs); try (by destruct Hs as [-> _]).
  - by destruct Hs as (m & _ & ->).
  - by destruct Hs as (_ & _ & row & _ & ->).
  - by destruct Hs as (row & _ & ->).
  - destruct x as [i|e]; [by eapply Hc|]. destruct Hs as [-> |[i Hi]]; [done|by eapply Hc].
  - destruct x as [i|e]; [by rewrite Hs|]. by destruct Hs as [-> |[i ->]].
Qed.

Lemma seen_fresh (id key : string) (T : gset token) : exists n, (id, key, Seen n) ∉ T.
Proof.
  set (ns := omap (fun t : token => match t.2 with Seen n => Some n | _ => None end) (elements T)).
  exists (fresh ns). intros Ht. apply (infinite_is_fresh ns).
  apply list_elem_of_omap. exists (id, key, Seen (fresh ns)). split; [by apply elem_of_elements|done].
Qed.

(** An operation that leaves the payments and the log alone takes nothing. *)
Lemma rights_unchanged T F v v' log log' :
  T ## F -> rights_inv (T ∪ F) (v, log) -> payments v' = payments v -> log' = log ->
  exists T', T' = T /\ T' ## F /\ rights_inv (T' ∪ F) (v', log').
Proof. intros Hd Hi Hp Hl. exists T. split_and!; [done..|]. by eapply rights_same; [..|exact Hi]. Qed.

(** The token rule at one operation. *)
Definition law_at {X} (op : PaymentE X) : Prop :=
  forall T F v r v', T ## F -> inv pay_rights (T ∪ F) v -> may pay_rights op T = true -> logged_spec X op v r v' ->
    exists T', gives pay_rights op T r T' /\ T' ## F /\ inv pay_rights (T' ∪ F) v'.

(** A row that was read may be looked at again. *)
Lemma find_law f : law_at (PayFindOne f).
Proof.
  intros T F [v log] r [v' log'] Hd Hi Hm [Hs Hl].
  cbn [fst snd may gives inv pay_rights pay_may pay_gives] in *.
  pose proof (payments_kept Faulty _ (PayFindOne f) v r v' Hs eq_refl) as Hkept.
  destruct r as [[q|]|e]; [|by eapply rights_unchanged; [exact Hd|exact Hi|..]..]. cbn in Hs.
  destruct Hs as [-> [Hq Hp]]. destruct (seen_fresh (p_id q) (p_idempotencyKey q) (T ∪ F)) as [n Hn].
  apply not_elem_of_union in Hn as [HnT HnF]. eexists. split; [split; [done|by exists n]|]. split.
  + apply disjoint_union_l. split; [by apply disjoint_singleton_l|done].
  + rewrite <- union_assoc_L. apply rights_seen; [done|]. by subst log'.
Qed.

(** Who inserts a row has the rights to charge for it and to save it. *)
Lemma insert_law d : law_at (PayInsert d).
Proof.
  intros T F [v log] r [v' log'] Hd Hi Hm [Hs Hl].
  cbn [fst snd may gives inv pay_rights pay_may pay_gives] in *.
  destruct r as [p|e]; cbn in Hs; [|by eapply rights_unchanged; [exact Hd|exact Hi|destruct Hs as [-> _]|]].
  destruct Hs as (Hnc & Hcr & Hfr & row & [a Hrow] & ->). red in Hcr.
  assert (p_idempotencyKey p = pd_idempotencyKey d) as Hk by (by rewrite Hcr).
  assert (forall key r, (p_id p, key, r) ∉ T ∪ F) as Hnew.
  { intros key r Ht. destruct (ri_rows _ _ Hi _ _ _ Ht) as (q & Hq & _). cbn in Hq. by rewrite Hfr in Hq. }
  exists ({[(p_id p, p_idempotencyKey p, MayCharge); (p_id p, p_idempotencyKey p, MaySave)]} ∪ T).
  split_and!; [done|done| |].
  + apply disjoint_union_l. split; [|done]. apply disjoint_union_l. split; apply disjoint_singleton_l; intros Ht;
      eapply Hnew, elem_of_union_r, Ht.
  + rewrite <- union_assoc_L. subst row log'. eapply (rights_new _ _ p).
    * cbn. apply lookup_insert_eq.
    * done.
    * rewrite Hk. intros Hlog. by destruct (ri_logged _ _ Hi _ Hlog).
    * rewrite Hk. intros Hb. by apply Hnc, (ri_before _ _ Hi).
    * eapply (rights_insert _ (v, log) _ (set_p_amount (DText a) p)); [..|exact Hi]; cbn; try done.
      -- intros q Hq. by rewrite Hfr in Hq.
      -- by rewrite Hk.
Qed.

(** A save keeps the key of the row. *)
Lemma save_law p : law_at (PaySave p).
Proof.
  intros T F [v log] r [v' log'] Hd Hi Hm [Hs Hl].
  cbn [fst snd may gives inv pay_rights pay_may pay_gives] in *.
  apply bool_decide_eq_true in Hm.
  destruct (ri_rows _ _ Hi _ _ _ (elem_of_union_l _ _ _ Hm)) as (q & Hq & Hk). cbn in Hq.
  destruct r as [[]|e]; cbn in Hs; [|by eapply rights_unchanged; [exact Hd|exact Hi|destruct Hs as [-> _]|]].
  destruct Hs as (row & Hrow & ->). rewrite Hq in Hrow. cbn in Hrow. subst row log'.
  exists T. split_and!; [done..|].
  eapply (rights_insert _ (v, log) _ (set_p_amount (p_amount q) p)); [..|exact Hi]; cbn; try done.
  + intros q'. rewrite Hq. by intros [= <-].
  + by rewrite Hq.
Qed.

(** A charge spends the right to it; the others of the key are of the same row, hence of the same request. *)
Lemma charge_law req : law_at (StripeCharge req).
Proof.
  intros T F [v log] r [v' log'] Hd Hi Hm [Hs Hl].
  cbn [fst snd may gives inv pay_rights pay_may pay_gives] in *.
  pose proof (payments_kept Faulty _ (StripeCharge req) v r v' Hs eq_refl) as Hkept.
  apply bool_decide_eq_true in Hm as ([[id key] rt] & Ht & Hkey & Hrt). cbn in Hkey, Hrt. subst key rt.
  eexists. split; [done|]. split.
  + intros t [_ HtT]%elem_of_filter. by apply Hd.
  + assert (filter (fun t => ~ charges_with (cr_idempotencyKey req) t) T ∪ F =
      filter (fun t => ~ charges_with (cr_idempotencyKey req) t) (T ∪ F)) as ->.
    { apply set_eq. intros t. rewrite elem_of_filter, !elem_of_union, elem_of_filter. split; [|tauto].
      intros [[? ?]|HtF]; [tauto|]. split; [|by right]. destruct t as [[id' key'] rt']. intros [Hk Hr]. cbn in Hk, Hr. subst.
      destruct (ri_rows _ _ Hi _ _ _ (elem_of_union_l _ _ _ Ht)) as (q & Hq & Hqk).
      destruct (ri_rows _ _ Hi _ _ _ (elem_of_union_r _ _ _ HtF)) as (q' & Hq' & Hqk').
      assert (id = id') as <- by (eapply (ri_unique _ _ Hi); [done|done|congruence]). by apply (Hd _ Ht). }
    eapply (rights_charge _ (v, log)); [by apply elem_of_union_l|done|done|exact Hi].
Qed.

(** Rights to one row are held by one request. *)
Lemma pay_law : own_law pay_rights logged_spec.
Proof.
  intros X op. destruct op;
    first [apply find_law|apply insert_law|apply save_law|apply charge_law|idtac];
    intros T F [v log] rep [v' log'] Hd Hi Hm [Hs Hl]; cbn [fst snd] in Hs, Hl;
    (eapply rights_unchanged; [exact Hd|exact Hi|eapply payments_kept; [exact Hs|done]|exact Hl]).
Qed.

(** ** The code respects the rights *)

Abbreviation own := (own_spec pay_rights).

(** The object of the [try] block is a row the request may save. *)
Definition mine (key : string) (p : Payment) (T : gset token) : Prop :=
  p_idempotencyKey p = key /\ (p_id p, key, MaySave) ∈ T.

Lemma neutral_call_owned {S X} (op : PaymentE X) (Q : result X -> S -> option (gset token) -> Prop) s T :
  may pay_rights op T = true ->
  (forall r T', gives pay_rights op T r T' -> T' = T) ->
  (forall r, Q r s (Some T)) -> wp own (call op) Q s (Some T).
Proof. intros Hm Hg HQ. apply own_call; [done|]. intros r T' H. rewrite (Hg r T' H). apply HQ. Qed.

Lemma save_owned (key : string) (p : Payment) (Q : result unit -> Payment -> option (gset token) -> Prop) s T :
  mine key p T -> (forall r, Q r s (Some T)) -> wp own (call (PaySave p)) Q s (Some T).
Proof.
  intros [Hk Hm] HQ. apply neutral_call_owned; [|done|done]. cbn. apply bool_decide_eq_true. by rewrite Hk.
Qed.

Lemma record_failure_owned (key : string) (reason : option string) (Q : result unit -> Payment -> option (gset token) -> Prop) p T :
  mine key p T -> (forall r p', mine key p' T -> Q r p' (Some T)) -> wp own (record_failure reason) Q p (Some T).
Proof.
  intros Hp HQ. unfold record_failure. wp_step. cbn [wp modify]. wp_step. cbn [wp get_local].
  set (p1 := set_p_failureReason reason _). assert (mine key p1 T) as Hp1 by exact Hp.
  wp_step. apply (save_owned key); [done|]. intros [[]|e]; [|by apply HQ].
  apply neutral_call_owned; [done|done|]. intros r. by apply HQ.
Qed.

(** A gateway uses the right to charge at most, and keeps the others. *)
Definition charges_once {S} (g : PaymentGateway S) : Prop :=
  forall req (Q : result PaymentGatewayResponse -> S -> option (gset token) -> Prop) s T,
    set_Exists (charges_with (gr_idempotencyKey req)) T ->
    (forall r T', (forall id key, (id, key, MaySave) ∈ T -> (id, key, MaySave) ∈ T') -> Q r s (Some T')) ->
    wp own (charge g req) Q s (Some T).

Lemma stripe_charges_once {S} : charges_once (@Stripe.gateway S).
Proof.
  intros req Q s T Ht HQ. cbn [charge Stripe.gateway]. unfold Stripe.charge, Stripe.withRetry.
  cbn [seq Stripe.MAX_RETRIES Stripe.retry_loop]. wp_step. apply wp_attempt. unfold Stripe.doCharge.
  wp_step. wp_step. apply own_call; [by apply bool_decide_eq_true|]. intros r T' ->.
  assert (forall r, Q r s (Some (filter (fun t => ~ charges_with (gr_idempotencyKey req) t) T))) as HQ'.
  { intros r'. apply HQ. intros id key Hin. apply elem_of_filter. split; [|done]. by intros [_ [=]]. }
  destruct r as [[i|e]|e]; repeat first [wp_step | case_match | apply HQ'].
Qed.

Lemma iyzico_charges_once {S} : charges_once (@Iyzico.gateway S).
Proof. intros req Q s T _ HQ. cbn. by apply HQ. Qed.

Lemma getByProvider_owned {S S'} (provider : string) (Q : result (PaymentGateway S') -> S -> option (gset token) -> Prop) s T :
  (forall g, charges_once g -> Q (Ok g) s (Some T)) -> (forall e, Q (Err e) s (Some T)) ->
  wp own (getByProvider provider) Q s (Some T).
Proof.
  intros HQ HE. unfold getByProvider. cbn [gateways List.find provider_value fst].
  destruct (String.eqb "stripe" provider); [apply HQ, stripe_charges_once|].
  destruct (String.eqb "iyzico" provider); [apply HQ, iyzico_charges_once|apply HE].
Qed.

Lemma charge_payment_owned (dto : InitiatePaymentDto) (g : PaymentGateway Payment) (Q : result Payment -> Payment -> option (gset token) -> Prop) p T :
  charges_once g -> mine (ip_idempotencyKey dto) p T -> set_Exists (charges_with (ip_idempotencyKey dto)) T ->
  (forall r p' T', mine (ip_idempotencyKey dto) p' T' ->
     (forall a, r = Ok a -> mine (ip_idempotencyKey dto) a T') -> Q r p' (Some T')) ->
  wp own (charge_payment dto g) Q p (Some T).
Proof.
  intros Hg Hp Ht HQ. unfold charge_payment. wp_step. cbn [wp modify]. wp_step. cbn [wp get_local].
  set (p1 := set_p_status PaymentStatus.PROCESSING p). assert (mine (ip_idempotencyKey dto) p1 T) as Hp1 by exact Hp.
  wp_step. apply (save_owned (ip_idempotencyKey dto)); [done|]. intros [[]|e]; [|by apply HQ].
  wp_step. apply Hg; [done|]. intros [resp|e] T' Hkeep.
  2: { apply HQ; [|done]. destruct Hp1. split; [done|]. by apply Hkeep. }
  assert (mine (ip_idempotencyKey dto) p1 T') as Hp1' by (destruct Hp1; split; [done|by apply Hkeep]).
  wp_step. destruct (gs_success resp).
  - wp_step. apply neutral_call_owned; [done|done|]. intros [now|e]; [|by apply HQ].
    wp_step. cbn [wp modify]. wp_step. cbn [wp get_local].
    set (p2 := set_p_paid _ now _). assert (mine (ip_idempotencyKey dto) p2 T') as Hp2 by exact Hp1'.
    wp_step. apply (save_owned (ip_idempotencyKey dto)); [done|]. intros [[]|e]; [|by apply HQ].
    apply neutral_call_owned; [done|done|]. intros [[]|e]; [|by apply HQ]. cbn [wp get_local].
    apply HQ; [done|]. by intros a [= <-].
  - apply (record_failure_owned (ip_idempotencyKey dto)); [done|]. intros [[]|e] p' Hp'; [|by apply HQ].
    cbn [wp get_local]. apply HQ; [done|]. by intros a [= <-].
Qed.

(** The reply names a row with the key of the request. *)
Definition replied (dto : InitiatePaymentDto) (r : result Payment) (T : gset token) : Prop :=
  forall p, r = Ok p -> exists rt, (p_id p, ip_idempotencyKey dto, rt) ∈ T.

Lemma initiatePayment_owned {S} cfg dto (s : S) :
  owned pay_rights (initiatePayment cfg dto) (replied dto) s ∅.
Proof.
  unfold owned, initiatePayment. wp_step. apply own_call; [done|]. intros [[p|]|e] T Hg; cbn in Hg; [| |by intros p].
  { destruct Hg as [Hk%String.eqb_eq [n ->]]. wp_step. intros p' [= <-]. exists (Seen n). rewrite <- Hk.
    by apply elem_of_union_l, elem_of_singleton. }
  subst T. wp_step.
  assert (forall provider (k : PaymentGateway Payment -> prog S PaymentE Payment),
    (forall g, charges_once g -> wp own (k g) (own_post (replied dto)) s (Some ∅)) ->
    wp own (getByProvider provider) (fun r s v =>
      match r with Ok g => wp own (k g) (own_post (replied dto)) s v | Err e => own_post (replied dto) (Err e) s v end)
      s (Some ∅)) as Hfac.
  { intros provider k Hk. apply getByProvider_owned; [done|]. by intros e p. }
  assert (forall k : PaymentGateway Payment -> prog S PaymentE Payment,
    (forall g, charges_once g -> wp own (k g) (own_post (replied dto)) s (Some ∅)) ->
    wp own (match ip_provider dto with
            | Some provider => if truthy provider then getByProvider provider else getDefault cfg
            | None => getDefault cfg
            end) (fun r s v =>
      match r with Ok g => wp own (k g) (own_post (replied dto)) s v | Err e => own_post (replied dto) (Err e) s v end)
      s (Some ∅)) as Hget.
  { intros k Hk. destruct (ip_provider dto) as [provider|]; [destruct (truthy provider)|]; by apply Hfac. }
  apply Hget. clear Hfac Hget. intros g Hg. wp_step. apply own_call; [done|].
  intros [p|e] T HT; cbn in HT; [|by intros p]. destruct HT as [Hk ->]. rewrite Hk.
  set (T := _ ∪ ∅). assert (mine (ip_idempotencyKey dto) p T) as Hp.
  { split; [done|]. subst T. set_solver. }
  wp_step. wp_step. wp_step. apply charge_payment_owned; [done|done| |].
  { exists (p_id p, ip_idempotencyKey dto, MayCharge). split; [subst T; set_solver|done]. }
  intros [a|e] p' T' Hp' Ha.
  - cbn [wp fst]. intros q [= <-]. exists MaySave. by apply (Ha a).
  - wp_step. apply (record_failure_owned (ip_idempotencyKey dto)); [done|]. by intros [[]|e'] p'' _ q.
Qed.
End Rights.

(** ** Properties *)

Section Properties.
Context {S W : Type}.
Variable hs : nat -> forall X, PaymentE X -> W -> result X * W.
Variable view : W -> PaymentView.
Hypothesis Hhs : forall i, conforms Faulty pay_behaviour (hs i) view.
Variable cfg : option string.

(** C4: Idempotency under concurrency: of any number of payment requests that
    run interleaved in any order, with any operation failing at any time, no
    idempotency key is sent to Stripe twice, none that had a payment before is
    sent at all, and two requests with the same key that are answered are
    answered with the same payment. *)
Theorem concurrent_payments_charged_once (dtos : list InitiatePaymentDto) (s : S) schedule w :
  pay_wf (view w) ->
  let '(rs, (w', log)) := run_many (fun i => charge_log (hs i)) schedule
      (map (fun dto => (initiatePayment cfg dto, s)) dtos) (w, []) in
  NoDup log /\
  (forall key, key ∈ log -> ~ payment_conflict key (payments (view w))) /\
  (forall i j dto dto' p p', dtos !! i = Some dto -> dtos !! j = Some dto' ->
     ip_idempotencyKey dto = ip_idempotencyKey dto' ->
     rs !! i = Some (Ok p) -> rs !! j = Some (Ok p') -> p_id p = p_id p').
Proof.
  intros [H1 H2 H3]. set (cs := map _ dtos).
  pose proof (run_many_sound (S := S) (A := Payment) (pay_rights (payments (view w))) logged_spec
    (fun i => charge_log (hs i)) (fun wl => (view wl.1, wl.2)) (pay_law _)
    (fun i => charge_log_spec (hs i) view (Hhs i))
    (fun i r T => forall dto, dtos !! i = Some dto -> replied dto r T) schedule cs (w, [])) as Hsound.
  destruct (run_many (fun i => charge_log (hs i)) schedule cs (w, [])) as [rs [w' log]].
  destruct Hsound as (Ts & Ha & Hi & HQ).
  - split; cbn; [exact H1|exact H3|set_solver|done|constructor|set_solver|set_solver].
  - intros i c Hc. subst cs. rewrite list_lookup_fmap in Hc. destruct (dtos !! i) as [dto|] eqn:Hd; [|done].
    injection Hc as <-. unfold owned. eapply wp_mono; [apply initiatePayment_owned|].
    intros r s' [T|] Hr; [|done]. cbn in *. by intros dto' [= <-].
  - cbn [fst snd] in Hi. split_and!; [exact (ri_log _ _ _ Hi)| |].
    + intros key Hk. by apply (ri_logged _ _ _ Hi).
    + assert (forall i dto p, dtos !! i = Some dto -> rs !! i = Some (Ok p) ->
        exists row, payments (view w') !! p_id p = Some row /\ p_idempotencyKey row = ip_idempotencyKey dto) as Hrow.
      { intros i dto p Hd Hr. destruct (HQ i (Ok p) Hr) as (T & HT & Hp).
        destruct (Hp dto Hd p eq_refl) as [rt Ht]. eapply (ri_rows _ _ _ Hi). by eapply elem_union_list. }
      intros i j dto dto' p p' Hd Hd' Hk Hr Hr'.
      destruct (Hrow i dto p Hd Hr) as (row & Hl & Hrk), (Hrow j dto' p' Hd' Hr') as (row' & Hl' & Hrk').
      eapply (ri_unique _ _ _ Hi); [done|done|congruence].
Qed.
End Properties.

Lemma pay_runs_conform (i : nat) : conforms Faulty pay_behaviour ((fun _ => pay_run) i) pay_view.
Proof. intros X op w. apply obeys_faulty, pay_run_conforms. Qed.

(** Two requests with one key and one with another, in turn. *)
Definition demo_dtos : list InitiatePaymentDto :=
  [demo_dto; demo_dto; mkInitiatePaymentDto "b2" "pay-b2" (num_of_Z 100) "TRY" CREDIT_CARD "pm_card_visa" None].

Definition demo_turns : list (result Payment) * (PaymentRefWorld * list string) :=
  run_many (fun _ => charge_log pay_run) (turns_of 30 [1; 0; 2])
    (map (fun dto => (initiatePayment None dto, tt)) demo_dtos) (pay_world, []).

Lemma concurrent_payments_charged_once_witness :
  map is_ok demo_turns.1 = [false; true; true] /\ demo_turns.2.2 = ["pay-b1"; "pay-b2"]%string /\ NoDup demo_turns.2.2.
Proof.
  split; [vm_compute; reflexivity|]. split; [vm_compute; reflexivity|].
  pose proof (concurrent_payments_charged_once (S := unit) (fun _ => pay_run) pay_view pay_runs_conform None demo_dtos tt
    (turns_of 30 [1; 0; 2]) pay_world pay_world_wf) as H.
  unfold demo_turns. cbv beta in H.
  destruct (run_many (fun _ => charge_log pay_run) _ _ _) as [rs [w' log]]. exact (proj1 H).
Defined.

(** The refunds have no unique index: two concurrent requests with one key
    both find no refund, and both reach the provider, which is asked to return
    the whole amount twice. *)
Theorem concurrent_refunds_sent_twice :
  let paid := final pay_run (@initiatePayment unit None demo_dto) tt pay_world in
  let '(rs, w') := run_many (fun _ => pay_run) (turns_of 4 [0; 1])
      (repeat (refundByBooking "b1" "refund-b1" None, tt) 2) paid in
  map is_ok rs = [true; true] /\
  map fst (refunded (pay_view w')) = repeat (mkRefundRequest "pi_0" (num_of_Z 30000)) 2.
Proof. vm_compute. by split. Qed.
