(* ===== verification/Platform.v ===== *)
(** * The booking service with the services behind it

    The remote procedures of BookingWorld answered by the handlers of the seat
    inventory (SeatApi) and of the payments (PaymentApi), each over a world of
    its own.  [contract] is what the booking service may rely on in a call: it
    relates the reply to the two databases.  [serve_contract] shows that the
    handlers keep it, [platform_history] that the calls a booking method made
    explain what became of the services, so that theorems about the calls of
    one booking method become theorems about all three databases. *)

From S2P Require Import Prelude Messages Effects JsNumber JsDate Json Redis Sql.
From S2P Require SeatWorld SeatRef SeatLock Availability Inventory Hold SeatApi PaymentWorld PaymentRef Gateway Payment RefundService PaymentApi.
From S2P Require Import BookingWorld BookingRef Tickets BookingCreate BookingRefund.

(** The seat inventory and the payments. *)
Definition Backend : Type := SeatWorld.SeatView * PaymentWorld.PaymentView.

Record backend_wf (u : Backend) : Prop := {
  bw_seats : SeatWorld.view_wf u.1;
  bw_payments : PaymentWorld.pay_wf u.2;
}.

(** [data.method as PaymentMethod]; the booking service sends no other text. *)
Definition method_of (s : string) : option PaymentWorld.PaymentMethod :=
  List.find (fun m => String.eqb (PaymentWorld.payment_method_value m) s)
    [PaymentWorld.CREDIT_CARD; PaymentWorld.DEBIT_CARD; PaymentWorld.WALLET; PaymentWorld.BANK_TRANSFER].

(** [data.reason]; the booking service sends "payment_failed" only. *)
Definition reason_of (s : string) : SeatWorld.SeatLockReleaseReason :=
  if String.eqb s "payment_failed" then SeatWorld.PAYMENT_FAILED
  else if String.eqb s "user_cancel" then SeatWorld.USER_CANCEL
  else if String.eqb s "payment_success" then SeatWorld.PAYMENT_SUCCESS
  else if String.eqb s "timeout" then SeatWorld.TIMEOUT else SeatWorld.ADMIN.

Definition payment_dto (req : InitiatePaymentRequest) (m : PaymentWorld.PaymentMethod) : PaymentWorld.InitiatePaymentDto :=
  PaymentWorld.mkInitiatePaymentDto (ipr_bookingId req) (ipr_idempotencyKey req) (ipr_amount req)
    (ipr_currency req) m (ipr_cardToken req) (Some (ipr_provider req)).

(** A repeated field without elements is absent from the decoded reply. *)
Definition decoded_list {A} (l : list A) : option (list A) := match l with [] => None | _ => Some l end.

(** ** The servers *)

Section Serve.
Context {WS WP : Type}.
Variable hseat : forall X, SeatWorld.SeatE X -> WS -> result X * WS.
Variable hpay : forall X, PaymentWorld.PaymentE X -> WP -> result X * WP.
Variable cfg : option string.
(** The error a client sees for an exception of the server's handler. *)
Variable status_error : exn -> exn.

Definition reply {A B} (f : A -> B) (r : result A) : result B :=
  match r with Ok a => Ok (f a) | Err e => Err (status_error e) end.

Definition at_seats {A B} (m : prog unit SeatWorld.SeatE A) (f : A -> B) (w : WS * WP) : result B * (WS * WP) :=
  let '(r, _, ws) := run hseat m tt w.1 in (reply f r, (ws, w.2)).

Definition at_payments {A B} (m : prog unit PaymentWorld.PaymentE A) (f : A -> B) (w : WS * WP) : result B * (WS * WP) :=
  let '(r, _, wp) := run hpay m tt w.2 in (reply f r, (w.1, wp)).

Definition serve (X : Type) (op : RpcE X) (w : WS * WP) : result X * (WS * WP) :=
  match op in RpcE X return result X * (WS * WP) with
  | GetSeatsByEvent e => at_seats (SeatApi.Grpc.getSeatsByEvent e) decoded_list w
  | VerifyHold e ids u => at_seats (SeatApi.Grpc.verifyHold (SeatApi.mkSeatsRequest e ids u)) (fun b => b) w
  | InitiatePayment req =>
      match method_of (ipr_method req) with
      | Some m =>
          at_payments (PaymentApi.grpc_initiatePayment cfg (payment_dto req m)) (fun p => Some (reply_payment p)) w
      | None => (Err (status_error (JsError "QueryFailedError")), w)
      end
  | RefundPayment b k reason => at_payments (PaymentApi.refundPayment b k (Some reason)) (fun r => r) w
  | ReleaseSeats e ids u reason =>
      at_seats (SeatApi.Grpc.releaseSeats (SeatApi.mkSeatsRequest e ids u) (reason_of reason)) (fun b => b) w
  | ReleaseSoldSeats e ids => at_seats (SeatApi.Grpc.releaseSoldSeats e ids) (fun b => b) w
  | MarkSeatsAsSold e ids u => at_seats (SeatApi.Grpc.markSeatsAsSold (SeatApi.mkSeatsRequest e ids u)) (fun b => b) w
  end.
End Serve.

(** ** The contract *)

(** The payment that answers a request: the one stored under the key before,
    or one made for the request and settled. *)
Definition payment_answer (req : InitiatePaymentRequest) (info : PaymentInfo) (v v' : PaymentWorld.PaymentView) : Prop :=
  exists p, info = PaymentApi.toPaymentInfo p /\ PaymentWorld.p_idempotencyKey p = ipr_idempotencyKey req /\
    ((v' = v /\ PaymentWorld.payments v !! PaymentWorld.p_id p = Some p) \/
     (~ PaymentWorld.payment_conflict (ipr_idempotencyKey req) (PaymentWorld.payments v) /\
      PaymentWorld.p_bookingId p = ipr_bookingId req /\
      PaymentWorld.p_amount p = DNum (ipr_amount req) /\
      Payment.payment_added p v v' /\ Payment.payment_settled p v v')).

(** A refund that is reported as done: it was done before under the key, or now. *)
Definition refund_done (bookingId key reason : string) (resp : RefundPaymentResponse) (v v' : PaymentWorld.PaymentView) : Prop :=
  exists r, rp_refundId resp = PaymentWorld.r_id r /\ PaymentWorld.r_idempotencyKey r = key /\
    PaymentWorld.r_status r = PaymentWorld.RefundStatus.PROCESSED /\
    ((v' = v /\ PaymentWorld.refunds v !! PaymentWorld.r_id r = Some r) \/
     exists p, PaymentWorld.payments v !! PaymentWorld.p_id p = Some p /\
       RefundService.succeeded_for bookingId p = true /\ RefundService.refund_of p key (Some reason) r /\
       RefundService.refund_processed p r v v').

Definition contract (c : RpcCall) (u u' : Backend) : Prop :=
  match c with
  | CGetSeatsByEvent e r => u' = u /\
      match r with
      | Ok seats => exists l, selects (Availability.of_event e) (SeatWorld.seats (SeatWorld.tables u.1)) l /\
          seats = decoded_list (map SeatApi.seat_info l)
      | Err _ => True
      end
  | CVerifyHold e ids uid r => u' = u /\
      match r with
      | Ok b => b = forallb (SeatLock.owned_by (SeatWorld.redis u.1) e uid) ids
      | Err _ => True
      end
  | CInitiatePayment req r => u'.1 = u.1 /\
      match r with
      | Ok (Some info) => payment_answer req info u.2 u'.2
      | Ok None => False
      | Err _ => True
      end
  | CRefundPayment b k reason r => u'.1 = u.1 /\
      match r with Ok resp => rp_success resp = true -> refund_done b k reason resp u.2 u'.2 | Err _ => False end
  | CReleaseSeats e ids uid reason r => u'.2 = u.2 /\
      match r with
      | Ok true => Hold.hold_ended e ids uid (reason_of reason) SeatWorld.AVAILABLE (SeatWorld.tables u.1) (SeatWorld.tables u'.1)
      | Ok false => True
      | Err _ => False
      end
  | CReleaseSoldSeats e ids r => u'.2 = u.2 /\
      match r with
      | Ok true => SeatWorld.tables u'.1 = Inventory.statuses_set e ids SeatWorld.AVAILABLE (SeatWorld.tables u.1)
      | Ok false => True
      | Err _ => False
      end
  | CMarkSeatsAsSold e ids uid r => u'.2 = u.2 /\
      match r with
      | Ok true => Hold.hold_ended e ids uid SeatWorld.PAYMENT_SUCCESS SeatWorld.SOLD (SeatWorld.tables u.1) (SeatWorld.tables u'.1)
      | Ok false => SeatWorld.tables u'.1 = SeatWorld.tables u.1 \/
          Hold.hold_ended e ids uid SeatWorld.PAYMENT_SUCCESS SeatWorld.SOLD (SeatWorld.tables u.1) (SeatWorld.tables u'.1)
      | Err _ => False
      end
  end.

Section Contract.
Context {WS WP : Type}.
Variable hseat : forall X, SeatWorld.SeatE X -> WS -> result X * WS.
Variable hpay : forall X, PaymentWorld.PaymentE X -> WP -> result X * WP.
Variable cfg : option string.
Variable status_error : exn -> exn.
Variable vseat : WS -> SeatWorld.SeatView.
Variable vpay : WP -> PaymentWorld.PaymentView.
Variable md : mode.
Hypothesis Hseat : conforms md SeatWorld.seat_behaviour hseat vseat.
Hypothesis Hpay : conforms md PaymentWorld.pay_behaviour hpay vpay.

Definition backend (w : WS * WP) : Backend := (vseat w.1, vpay w.2).

(** What one call does, from what the handler's specification says. *)
Lemma at_seats_wp {A B} (m : prog unit SeatWorld.SeatE A) (f : A -> B) w (P : result B -> Backend -> Prop) :
  wp (obeys md SeatWorld.seat_behaviour) m
    (fun r _ v => P (reply status_error f r) (v, vpay w.2)) tt (vseat w.1) ->
  P (at_seats hseat status_error m f w).1 (backend (at_seats hseat status_error m f w).2).
Proof.
  intros H. unfold at_seats.
  pose proof (wp_sound md _ hseat vseat m (fun r v => P (reply status_error f r) (v, vpay w.2)) tt w.1 Hseat H) as HP.
  unfold outcome, final in HP. by destruct (run hseat m tt w.1) as [[r []] ws].
Qed.

Lemma at_payments_wp {A B} (m : prog unit PaymentWorld.PaymentE A) (f : A -> B) w (P : result B -> Backend -> Prop) :
  wp (obeys md PaymentWorld.pay_behaviour) m
    (fun r _ v => P (reply status_error f r) (vseat w.1, v)) tt (vpay w.2) ->
  P (at_payments hpay status_error m f w).1 (backend (at_payments hpay status_error m f w).2).
Proof.
  intros H. unfold at_payments.
  pose proof (wp_sound md _ hpay vpay m (fun r v => P (reply status_error f r) (vseat w.1, v)) tt w.2 Hpay H) as HP.
  unfold outcome, final in HP. by destruct (run hpay m tt w.2) as [[r []] wp0].
Qed.

(** The outcome of a call that keeps the contract. *)
Definition kept {X} (op : RpcE X) (u : Backend) (r : result X) (u' : Backend) : Prop :=
  contract (called op r) u u' /\ backend_wf u'.

Lemma serve_reads e ids uid w :
  backend_wf (backend w) ->
  kept (GetSeatsByEvent e) (backend w) (serve hseat hpay cfg status_error _ (GetSeatsByEvent e) w).1
    (backend (serve hseat hpay cfg status_error _ (GetSeatsByEvent e) w).2) /\
  kept (VerifyHold e ids uid) (backend w) (serve hseat hpay cfg status_error _ (VerifyHold e ids uid) w).1
    (backend (serve hseat hpay cfg status_error _ (VerifyHold e ids uid) w).2).
Proof.
  intros [Hs Hp]. split; cbn [serve].
  - apply at_seats_wp. unfold SeatApi.Grpc.getSeatsByEvent, Inventory.findByEventId. wp_step. wp_step.
    intros [l|err] v' H; SeatWorld.seat_sem H.
    + destruct H as [-> Hl]. wp_step. split; [|done]. split; [done|]. by exists l.
    + destruct H as [-> _]. by split.
  - apply at_seats_wp. apply SeatApi.verify_loop_wp; [apply Hs|by split|by split].
Qed.

Lemma serve_seat_writes e ids uid reason w :
  backend_wf (backend w) ->
  kept (ReleaseSeats e ids uid reason) (backend w) (serve hseat hpay cfg status_error _ (ReleaseSeats e ids uid reason) w).1
    (backend (serve hseat hpay cfg status_error _ (ReleaseSeats e ids uid reason) w).2) /\
  kept (ReleaseSoldSeats e ids) (backend w) (serve hseat hpay cfg status_error _ (ReleaseSoldSeats e ids) w).1
    (backend (serve hseat hpay cfg status_error _ (ReleaseSoldSeats e ids) w).2) /\
  kept (MarkSeatsAsSold e ids uid) (backend w) (serve hseat hpay cfg status_error _ (MarkSeatsAsSold e ids uid) w).1
    (backend (serve hseat hpay cfg status_error _ (MarkSeatsAsSold e ids uid) w).2).
Proof.
  intros [Hs Hp].
  assert (forall reason st t' t, Hold.hold_ended e ids uid reason st t t' -> SeatWorld.tables_wf t -> SeatWorld.tables_wf t') as Hwf.
  { intros reason0 st t' t He Ht. by eapply Hold.hold_ended_wf. }
  assert (forall st, SeatWorld.redis_typed (Inventory.entries_set e ids st (SeatLock.drop_locks e uid ids (SeatWorld.redis (vseat w.1))))) as Hty.
  { intros st. apply Inventory.entries_set_typed, SeatLock.typed_drop_locks, Hs. }
  split_and!; cbn [serve]; apply at_seats_wp.
  - unfold SeatApi.Grpc.releaseSeats. wp_step. wp_step. apply Hold.releaseSeats_wp; [apply Hs| |].
    + intros t' He. wp_step. split; [done|]. split; [|apply Hp]. split; [by eapply Hwf, Hs|done|apply Hty].
    + intros err t' m _ Hm He. wp_step. split; [done|]. split; [|apply Hp]. split; [|done|done].
      destruct He as [->|He]; [apply Hs|by eapply Hwf, Hs].
  - unfold SeatApi.Grpc.releaseSoldSeats. wp_step. wp_step. apply Inventory.relaseSoldSeats_wp; [apply Hs| |].
    + wp_step. split; [done|]. split; [|apply Hp].
      split; [apply Inventory.tables_wf_status, Hs|apply Hs|apply Inventory.entries_set_typed, Hs].
    + intros err t _ He. wp_step. split; [done|]. split; [|apply Hp]. split; [|apply Hs|apply Hs].
      destruct He as [->| ->]; [apply Hs|apply Inventory.tables_wf_status, Hs].
  - unfold SeatApi.Grpc.markSeatsAsSold. wp_step. wp_step. apply Hold.markAsSold_wp; [apply Hs| |].
    + intros t' He. wp_step. split; [done|]. split; [|apply Hp]. split; [by eapply Hwf, Hs|done|apply Hty].
    + intros err t' m _ Hm He. wp_step. split; [done|]. split; [|apply Hp]. split; [|done|done].
      destruct He as [->|He]; [apply Hs|by eapply Hwf, Hs].
Qed.

Lemma serve_payment req w :
  backend_wf (backend w) ->
  kept (InitiatePayment req) (backend w) (serve hseat hpay cfg status_error _ (InitiatePayment req) w).1
    (backend (serve hseat hpay cfg status_error _ (InitiatePayment req) w).2).
Proof.
  intros [Hs Hp]. cbn [serve]. destruct (method_of (ipr_method req)) as [m|]; [|by split].
  apply at_payments_wp. unfold PaymentApi.grpc_initiatePayment. wp_step.
  assert (forall p a chs evs,
    ~ PaymentWorld.payment_conflict (ipr_idempotencyKey req) (PaymentWorld.payments (vpay w.2)) ->
    Payment.payment_of (payment_dto req m) p -> PaymentWorld.payments (vpay w.2) !! PaymentWorld.p_id p = None ->
    PaymentWorld.pay_wf (Payment.row_view (vpay w.2) p a chs evs)) as Hwf.
  { intros p a chs evs Hn Hof Hf. eapply Payment.payment_added_wf; [exact Hp| |by apply Payment.row_view_added|done].
    by rewrite (proj1 (proj2 Hof)). }
  apply Payment.initiatePayment_wp.
  - intros i p Hi Hk. wp_step. split; [|done]. split; [done|]. exists p. split_and!; [done|done|]. left.
    by rewrite (PaymentWorld.wf_payments _ Hp _ _ Hi).
  - intros p a chs evs Hn Hof Hf Hc Hset. wp_step. split; [|split; [done|by eapply Hwf]]. split; [done|]. exists p.
    split_and!; [done|apply Hof|]. right. split_and!; [done|apply Hof|apply Hof|by apply Payment.row_view_added|done].
  - intros err _. by split.
  - intros err p a chs evs _ Hn Hof (_ & _ & Hadd) Hc. split; [done|]. split; [done|]. eapply Hwf; [done..|apply Hadd].
Qed.

Lemma serve_refund b k reason w :
  backend_wf (backend w) ->
  kept (RefundPayment b k reason) (backend w) (serve hseat hpay cfg status_error _ (RefundPayment b k reason) w).1
    (backend (serve hseat hpay cfg status_error _ (RefundPayment b k reason) w).2).
Proof.
  intros [Hs Hp]. cbn [serve]. apply at_payments_wp. unfold PaymentApi.refundPayment. wp_step. wp_step.
  apply RefundService.refundByBooking_wp; [done|..].
  - intros _. wp_step. by split.
  - intros i r p _ _ Hi Hk. wp_step. split; [|done]. split; [done|]. cbn. intros Hr%bool_decide_eq_true.
    exists r. split_and!; [done..|]. left. by rewrite (PaymentWorld.wf_refunds _ Hp _ _ Hi).
  - intros p r a ps rf evs Hpay' Hsucc Hnk Hof Hf Hres. wp_step. split.
    + split; [done|]. cbn. intros Hr%bool_decide_eq_true. exists r. split_and!; [done|apply Hof|done|]. right.
      exists p. split_and!; [done..|]. destruct Hres as [Hres|[Hres _]]; [done|congruence].
    + split; [done|]. apply RefundService.refund_view_wf; [done..|].
      destruct Hres as [(_ & _ & Hps & _)|(_ & _ & Hps & _)]; [right|by left]. by exists p.
  - intros err _. wp_step. by split.
  - intros err p r a ps rf evs Hpay' Hsucc _ _ _ Hf _ Hps. wp_step. split; [done|]. split; [done|].
    apply RefundService.refund_view_wf; [done..|]. destruct Hps as [->| ->]; [by left|right; by exists p].
Qed.

(** Every server keeps the contract. *)
Lemma serve_contract X (op : RpcE X) w :
  backend_wf (backend w) ->
  kept op (backend w) (serve hseat hpay cfg status_error X op w).1 (backend (serve hseat hpay cfg status_error X op w).2).
Proof.
  intros Hw. destruct op as [e|e ids uid|req|b k reason|e ids uid reason|e ids|e ids uid].
  - exact (proj1 (serve_reads e [] EmptyString w Hw)).
  - exact (proj2 (serve_reads e ids uid w Hw)).
  - exact (serve_payment req w Hw).
  - exact (serve_refund b k reason w Hw).
  - exact (proj1 (serve_seat_writes e ids uid reason w Hw)).
  - exact (proj1 (proj2 (serve_seat_writes e ids EmptyString EmptyString w Hw))).
  - exact (proj2 (proj2 (serve_seat_writes e ids uid EmptyString w Hw))).
Qed.
End Contract.

(** ** The booking service over its servers *)

(** Calls that explain what became of the services. *)
Inductive history : list RpcCall -> Backend -> Backend -> Prop :=
| HistoryNil u : history [] u u
| HistoryCons c cs u u1 u' : contract c u u1 -> history cs u1 u' -> history (c :: cs) u u'.

Lemma history_cons c cs u u' : history (c :: cs) u u' -> exists u1, contract c u u1 /\ history cs u1 u'.
Proof. intros H. inversion H; subst. by eexists. Qed.

Lemma history_nil u u' : history [] u u' -> u' = u.
Proof. intros H. by inversion H. Qed.

Section Platform.
Context {WB WK : Type}.
(** The booking service's own world, in which the calls are noted, and the
    servers, each of them keeping the contract. *)
Variable hbook : forall X, BookingE X -> WB -> result X * WB.
Variable note : RpcCall -> WB -> WB.
Variable server : forall X, RpcE X -> WK -> result X * WK.
Variable vbook : WB -> BookingView.
Variable vback : WK -> Backend.
Variable md : mode.
Hypothesis Hbook : conforms md book_behaviour hbook vbook.
Hypothesis Hnote : forall c w, vbook (note c w) = with_call c (vbook w).
Hypothesis Hserver : forall X (op : RpcE X) w, backend_wf (vback w) ->
  kept op (vback w) (server X op w).1 (vback (server X op w).2).

Definition platform (X : Type) (op : BookingE X) (w : WB * WK) : result X * (WB * WK) :=
  match op in BookingE X return (WB -> result X * WB) -> result X * (WB * WK) with
  | Rpc op => fun _ =>
      let (r, wk) := server _ op w.2 in (Ok r, (note (called op r) w.1, wk))
  | _ => fun own => let (r, wb) := own w.1 in (r, (wb, w.2))
  end (hbook X op).

Definition platform_view (w : WB * WK) : BookingView := vbook w.1.

Lemma platform_conforms : conforms md book_behaviour platform platform_view.
Proof.
  intros X op [wb wk]. unfold platform_view. pose proof (Hbook X op wb) as H.
  destruct op; cbn [platform fst snd]; try (destruct (hbook _ _ wb) as [r wb']; exact H).
  cbn. destruct (server X op wk) as [r wk']. cbn. apply Hnote.
Qed.

Definition is_rpc {X} (op : BookingE X) : bool := match op with Rpc _ => true | _ => false end.

Lemma bqr_write_calls x v : calls (bqr_write x v) = calls v.
Proof. unfold bqr_write. by destruct (btx v). Qed.

Lemma own_calls X (op : BookingE X) v r v' :
  is_rpc op = false -> obeys md book_behaviour X op v r v' -> calls v' = calls v.
Proof.
  intros Hop H. destruct r as [x|e]; [|by destruct H as [-> _]].
  destruct op; book_sem H; try done; try (by rewrite H); try (by destruct H as [-> _]); try (by destruct H as [_ ->]);
    try (by destruct H as (? & _ & ->)); try (by destruct H as (_ & _ & ->)).
  - by destruct H as [? ->].
  - destruct H as (_ & _ & _ & row & _ & ->). apply bqr_write_calls.
  - destruct H as (row & _ & ->). apply bqr_write_calls.
  - destruct H as (l & _ & _ & ->). apply bqr_write_calls.
  - destruct H as (o & _ & _ & ->). apply bqr_write_calls.
Qed.

(** The calls a program makes explain what becomes of the services. *)
Lemma run_history {S A} (m : prog S BookingE A) s w :
  backend_wf (vback w.2) ->
  let w' := (run platform m s w).2 in
  exists cs, calls (platform_view w') = calls (platform_view w) ++ cs /\
    history cs (vback w.2) (vback w'.2) /\ backend_wf (vback w'.2).
Proof.
  revert s w. induction m as [a|e|X op k IH|k IH|s' k IH]; intros s w Hw; cbn;
    try (exists []; rewrite app_nil_r; split; [done|split; [constructor|done]]); [|by apply IH..].
  assert (exists cs, calls (platform_view (platform X op w).2) = calls (platform_view w) ++ cs /\
    backend_wf (vback (platform X op w).2.2) /\
    forall cs' u', history cs' (vback (platform X op w).2.2) u' -> history (cs ++ cs') (vback w.2) u')
    as (cs & Hcs & Hwf & Hh).
  { destruct (is_rpc op) eqn:Hop.
    - destruct op; try done. cbn. pose proof (Hserver _ op _ Hw) as [Hc Hw'].
      destruct (server _ op w.2) as [r wk]. cbn in *. eexists [_]. unfold platform_view. cbn. rewrite Hnote. split; [done|].
      split; [done|]. intros cs' u' Hh. cbn. by eapply HistoryCons.
    - exists []. pose proof (platform_conforms X op w) as Hc. apply own_calls in Hc; [|done].
      rewrite app_nil_r. split; [done|].
      assert ((platform X op w).2.2 = w.2) as ->; [|by split].
      destruct op; try done; cbn; by destruct (hbook _ _ w.1). }
  destruct (platform X op w) as [r w1]. cbn [fst snd] in *. destruct (IH r s w1 Hwf) as (cs' & Hcs' & Hh' & Hwf').
  exists (cs ++ cs'). split; [by rewrite Hcs', Hcs, app_assoc|]. split; [by apply Hh|done].
Qed.

Lemma platform_history {S A} (m : prog S BookingE A) s w :
  backend_wf (vback w.2) ->
  history (new_calls (platform_view w) (platform_view (final platform m s w))) (vback w.2) (vback (final platform m s w).2).
Proof.
  intros Hw. destruct (run_history m s w Hw) as (cs & Hcs & Hh & _). unfold final, new_calls.
  rewrite Hcs, drop_app_length. done.
Qed.

(** *** Booking *)

Lemma held_status row : inf_status (SeatApi.seat_info row) = "held"%string -> SeatWorld.si_status row = SeatWorld.HELD.
Proof. cbn. by destruct (SeatWorld.si_status row). Qed.

Lemma succeeded_status p : pinf_status (PaymentApi.toPaymentInfo p) = "succeeded"%string ->
  PaymentWorld.p_status p = PaymentWorld.PaymentStatus.SUCCEEDED.
Proof. cbn. by destruct (PaymentWorld.p_status p). Qed.

(** The calls behind a confirmation. *)
Lemma confirmed_calls dto row its v v' :
  booking_made md dto BookingStatus.CONFIRMED row its v v' ->
  exists all req info,
    new_calls v v' = [CGetSeatsByEvent (cb_eventId dto) (Ok (Some all));
                      CVerifyHold (cb_eventId dto) (seatIds dto) (cb_userId dto) (Ok true);
                      CInitiatePayment req (Ok (Some info))] /\
    (forall id, id ∈ seatIds dto -> exists seat, seat ∈ all /\ inf_seatId seat = id /\ inf_status seat = "held"%string) /\
    ipr_bookingId req = b_id row /\ ipr_idempotencyKey req = cb_paymentIdempotencyKey dto /\
    ipr_amount req = totalAmount (List.filter (fun x => includes (seatIds dto) (inf_seatId x)) all) /\
    pinf_status info = "succeeded"%string.
Proof.
  intros Hm. destruct (booking_made_calls _ _ _ _ _ _ _ Hm) as (all' & cs & Hcs & Hheld).
  destruct Hm as (sel & l & v0 & v1 & (all & Hsel & _ & _ & Hv0) & Hp & _ & Hs).
  inversion Hs as [req info now v2 Hreq Hinfo Hc Hst Hrow|row' cs' ms got _ _ _ Hst|]. subst v2 row.
  assert (new_calls v v' = [CGetSeatsByEvent (cb_eventId dto) (Ok (Some all));
                      CVerifyHold (cb_eventId dto) (seatIds dto) (cb_userId dto) (Ok true);
                      CInitiatePayment req (Ok (Some info))]) as Hn.
  { destruct Hc as (its' & o1 & o2 & _ & _ & _ & _ & ->), Hp as (_ & _ & is_ & _ & _ & _ & ->). subst v0.
    unfold new_calls. cbn. by rewrite <- !app_assoc, drop_app_length. }
  rewrite Hn in Hcs. injection Hcs as <- _. exists all, req, info. destruct Hreq as (cur & _ & ->). subst sel. by split_and!.
Qed.

(** C1: What a confirmed booking stands on, in all three databases.  When the
    booking service, over the real handlers of the seat inventory and the
    payments, confirms a booking, every seat was HELD in the inventory with a
    lock of the user, the inventory was not changed by it, and the payments have
    a SUCCEEDED row under the request's idempotency key: either one that was
    there before, or one made for this booking, of the sum of the prices in the
    inventory, with a succeeded charge behind it. *)
Theorem confirmed_booking_backed {S} dto (s : S) w l :
  booking_wf (platform_view w) -> backend_wf (vback w.2) ->
  outcome platform (createBooking dto) s w = Ok (Some l) -> b_status (booking l) = BookingStatus.CONFIRMED ->
  let u := vback w.2 in
  let u' := vback (final platform (createBooking dto) s w).2 in
  u'.1 = u.1 /\
  (forall x, x ∈ seatIds dto ->
     SeatLock.owned_by (SeatWorld.redis u.1) (cb_eventId dto) (cb_userId dto) x = true /\
     exists row, Availability.seat_at (SeatWorld.tables u.1) (cb_eventId dto) x = Some row /\
       SeatWorld.si_status row = SeatWorld.HELD) /\
  exists p row, PaymentWorld.payments u'.2 !! PaymentWorld.p_id p = Some row /\
    PaymentWorld.p_idempotencyKey row = cb_paymentIdempotencyKey dto /\
    PaymentWorld.p_status row = PaymentWorld.PaymentStatus.SUCCEEDED /\
    (u'.2 = u.2 \/
     ~ PaymentWorld.payment_conflict (cb_paymentIdempotencyKey dto) (PaymentWorld.payments u.2) /\
     PaymentWorld.p_bookingId row = b_id (booking l) /\
     Payment.paid_by (cb_paymentIdempotencyKey dto) (PaymentWorld.p_providerTxId row) u'.2 /\
     exists rows_, selects (Availability.of_event (cb_eventId dto)) (SeatWorld.seats (SeatWorld.tables u.1)) rows_ /\
       PaymentWorld.p_amount p = DNum (totalAmount
         (List.filter (fun x => includes (seatIds dto) (inf_seatId x)) (map SeatApi.seat_info rows_)))).
Proof.
  intros Hwf Hback Hok Hst. cbn zeta. pose proof (platform_history (createBooking dto) s w Hback) as Hh.
  assert (exists its, booking_made md dto BookingStatus.CONFIRMED (booking l) its (platform_view w)
    (platform_view (final platform (createBooking dto) s w))) as [its Hm].
  { revert Hok. pose proof platform_conforms as Hc. call_wp Hc w. apply createBooking_wp; [done|done| |done].
    intros l' its st v' Hm _ Hne [= ->]. exists its. pose proof Hm as (sel & l0 & v0 & v1 & (all & _ & _ & _ & Hv0) & Hp & _ & Hs).
    enough (st = BookingStatus.CONFIRMED) as <- by done.
    destruct Hs as [| row cs ms got Hr _ _|]; [done| |done]. destruct Hr as (c1 & c2 & c3 & Hr). by rewrite Hr in Hst. }
  destruct (confirmed_calls _ _ _ _ _ Hm) as (all & req & info & Hcs & Hheld & Hb & Hk & Ha & Hinfo). rewrite Hcs in Hh. clear Hcs Hm Hok.
  set (u' := vback (final platform (createBooking dto) s w).2) in *. clearbody u'.
  apply history_cons in Hh as (u1 & [-> (rows_ & Hrows & Hall)] & Hh).
  apply history_cons in Hh as (u1 & [-> Hver] & Hh). apply history_cons in Hh as (u1 & [Hseats Hpay] & Hh).
  apply history_nil in Hh as ->.
  assert (all = map SeatApi.seat_info rows_) as -> by (destruct rows_; [done|by injection Hall]).
  split; [done|]. split.
  - intros x Hx. split; [symmetry in Hver; rewrite forallb_forall in Hver; by apply Hver, list_elem_of_In|].
    destruct (Hheld x Hx) as (seat & (row & -> & Hin)%list_elem_of_fmap & Hid & Hst').
    exists row. split; [|by apply held_status]. rewrite Hrows in Hin. apply elem_of_filterb in Hin as [Hin He%String.eqb_eq].
    apply Availability.seat_at_spec; [apply Hback|]. split; [done|]. unfold SeatWorld.seat_key. cbn in Hid. by rewrite He, Hid.
  - destruct Hpay as (p & -> & Hpk & Hp). apply succeeded_status in Hinfo. rewrite Hk in Hpk.
    destruct Hp as [[-> Hp]|(Hn & Hpb & Hpa & [Hf [a Hadd]] & Hset)].
    + exists p, p. split_and!; [done..|by left].
    + exists p, (PaymentWorld.set_p_amount (DText a) p). rewrite Hadd, lookup_insert_eq. split_and!; [done..|]. right.
      rewrite <- Hk at 1. split_and!; [done|by rewrite <- Hb| |].
      * destruct Hset as [(_ & Hpaid & _)|[Hfail _]]; [|congruence]. by rewrite Hpk in Hpaid.
      * exists rows_. split; [done|]. by rewrite Hpa, Ha.
Qed.

(** *** Cancelling *)

Lemma refund_goes_on its p b' v' :
  rtc (rstep its) p (b', v') -> b_refundState b' = Some RefundState.COMPLETED ->
  b_refundState p.1 <> Some RefundState.COMPLETED -> exists q, rstep its p q /\ rtc (rstep its) q (b', v').
Proof. intros Hr Hb' Hp. inversion Hr as [q|p0 q q' H1 H2]; subst; [done|by exists q]. Qed.

(** The calls behind a refund that ran to its end. *)
Lemma refund_calls its b v b' v' :
  rtc (rstep its) (b, v) (b', v') ->
  b_refundState b = Some RefundState.REFUND_INITIATED -> b_refundState b' = Some RefundState.COMPLETED ->
  exists answer released, rp_success answer = true /\
    calls v' = calls v ++ [refund_call b (Ok answer); seats_call b its (Ok released)] /\
    b_id b' = b_id b /\ b_status b' = BookingStatus.REFUNDED.
Proof.
  intros Hr Hb Hb'.
  apply refund_goes_on in Hr as (q & Hq & Hr); [|done|by cbn; rewrite Hb].
  inversion Hq as [b1 v1 answer _ Ha|b1 v1 answer Hs|b1 v1 now o Hs]; subst; [|congruence..]. clear Hq.
  apply refund_goes_on in Hr as (q & Hq & Hr); [|done..].
  inversion Hq as [b1 v1 a Hs|b1 v1 released _|b1 v1 now o Hs]; subst; [done| |done]. clear Hq.
  apply refund_goes_on in Hr as (q & Hq & Hr); [|done..].
  inversion Hq as [b1 v1 a Hs|b1 v1 a Hs|b1 v1 now o _ _ _]; subst; [done|done|]. clear Hq.
  inversion Hr as [q|p0 q q' H3 _]; subst; [|by inversion H3].
  exists answer, released. cbn. by rewrite <- app_assoc.
Qed.

(** C7: A cancelled booking is refunded where the money is.  When the booking
    service, over the real handlers, returns from cancelling a booking whose
    refund was not begun, the payment service has a PROCESSED refund under the
    request's key, which was there before or was made for a SUCCEEDED payment of
    the booking, returned by the provider and marked REFUNDED; and the rows of
    the seats are AVAILABLE, unless the seat inventory refused, which the booking
    service ignores. *)
Theorem cancelled_booking_refunded {S} id userId key reason (s : S) w l b :
  booking_wf (platform_view w) -> backend_wf (vback w.2) ->
  bookings (btables (platform_view w)) !! id = Some b -> b_refundState b = None ->
  outcome platform (cancelBooking id userId key reason) s w = Ok l ->
  let u := vback w.2 in
  let w' := final platform (cancelBooking id userId key reason) s w in
  let u' := vback w'.2 in
  b_status (booking l) = BookingStatus.REFUNDED /\
  (exists resp, refund_done id key (opt_str_or reason "User cancellation") resp u.2 u'.2) /\
  (SeatWorld.tables u'.1 = Inventory.statuses_set (b_eventId b) (map bi_seatId (items l)) SeatWorld.AVAILABLE (SeatWorld.tables u.1) \/
   CReleaseSoldSeats (b_eventId b) (map bi_seatId (items l)) (Ok false) ∈ calls (platform_view w')).
Proof.
  intros Hwf Hback Hb Hnone Hok. cbn zeta. pose proof (platform_history (cancelBooking id userId key reason) s w Hback) as Hh.
  assert (b_id b = id) as Hid by by eapply (wf_bookings _ Hwf).
  assert (exists v0, calls v0 = calls (platform_view w) /\
    rtc (rstep (items l)) (start_refund key reason b, v0)
      (booking l, platform_view (final platform (cancelBooking id userId key reason) s w)) /\
    b_refundState (booking l) = Some RefundState.COMPLETED) as (v0 & Hv0 & Hr & Hc).
  { revert Hok. pose proof platform_conforms as Hcf. call_wp Hcf w. apply cancelBooking_wp; [done..|].
    intros b1 its b0 v0 Hb1 _ _ _ Hbeg. rewrite Hb in Hb1. injection Hb1 as <-. unfold refund_begun in Hbeg.
    rewrite Hnone in Hbeg. destruct Hbeg as [-> ->]. split; [|done]. intros b' v' Hr Hc [= <-].
    by exists (put (start_refund key reason b) (platform_view w)). }
  apply refund_calls in Hr as (answer & released & Ha & Hcs & _ & Hst); [|done..]. split; [done|].
  unfold new_calls in Hh. rewrite Hcs, Hv0, drop_app_length in Hh.
  set (u' := vback (final platform (cancelBooking id userId key reason) s w).2) in *. clearbody u'.
  apply history_cons in Hh as (u1 & [Hs1 Hp1] & Hh). apply history_cons in Hh as (u2 & [Hp2 Hs2] & Hh).
  apply history_nil in Hh as ->. split.
  - exists answer. rewrite Hp2. cbn in Hp1. rewrite Hid in Hp1.
    replace (str_or (opt_str_or reason "User cancellation") "User cancellation")
      with (opt_str_or reason "User cancellation") in Hp1; [by apply Hp1|].
    destruct reason as [r|]; [|done]. cbn. unfold str_or. destruct (truthy r) eqn:Hr; [by rewrite Hr|done].
  - destruct released; [left; by rewrite Hs2, Hs1|right]. rewrite Hcs. apply elem_of_app. right. right. left.
Qed.
End Platform.

(** ** Concrete runs *)

(** The reference environments together. *)
Definition PlatformRefWorld : Type := BookingRefWorld * (SeatRef.SeatRefWorld * PaymentRef.PaymentRefWorld).

Definition ref_note (c : RpcCall) (w : BookingRefWorld) : BookingRefWorld := (with_call c w.1, w.2).

Definition ref_server : forall X, RpcE X -> SeatRef.SeatRefWorld * PaymentRef.PaymentRefWorld ->
    result X * (SeatRef.SeatRefWorld * PaymentRef.PaymentRefWorld) :=
  serve SeatRef.seat_run PaymentRef.pay_run None (fun e => e).

Definition ref_platform := platform (book_run good_answer) ref_note ref_server.

Definition ref_back (w : SeatRef.SeatRefWorld * PaymentRef.PaymentRefWorld) : Backend :=
  backend SeatRef.seat_view PaymentRef.pay_view w.

Lemma ref_serves X (op : RpcE X) w : backend_wf (ref_back w) -> kept op (ref_back w) (ref_server X op w).1 (ref_back (ref_server X op w).2).
Proof. apply (serve_contract _ _ _ _ _ _ Reliable); [apply SeatRef.seat_run_conforms|apply PaymentRef.pay_run_conforms]. Qed.

(** The user holds A1 and A2; nothing is booked and nothing paid. *)
Definition held_world : PlatformRefWorld :=
  (empty_bookings,
   (final SeatRef.seat_run (@Hold.holdSeats unit "ev" ["A1"; "A2"]%string "u1" "sess-1") tt SeatRef.demo_world,
    PaymentRef.pay_world)).

Lemma held_world_wf : booking_wf (platform_view book_view held_world) /\ backend_wf (ref_back held_world.2).
Proof.
  split; [apply empty_bookings_wf|]. split; [|apply PaymentRef.pay_world_wf].
  apply (Hold.holdSeats_keeps_wf SeatRef.seat_run SeatRef.seat_view Reliable "ev" ["A1"; "A2"]%string "u1" "sess-1" tt
    SeatRef.demo_world SeatRef.seat_run_conforms SeatRef.demo_world_wf). vm_compute. reflexivity.
Qed.

(** A request for one seat. *)
Definition seat_dto (seatId key : string) : CreateBookingDto :=
  mkCreateBookingDto "u1" "ev" "sess-1" "pm_card_visa" key None [mkItemDto seatId None None].

(** A minute later. *)
Definition a_minute_later (w : PlatformRefWorld) : PlatformRefWorld := ((w.1.1, (w.1.2 + 60000)%Z), w.2).

Definition first_booking : PlatformRefWorld :=
  a_minute_later (final ref_platform (@createBooking unit (seat_dto "A1" "pay-1")) tt held_world).

Lemma confirmed_booking_backed_witness :
  exists l, outcome ref_platform (@createBooking unit (seat_dto "A1" "pay-1")) tt held_world = Ok (Some l) /\
    b_status (booking l) = BookingStatus.CONFIRMED /\
    (ref_back (final ref_platform (@createBooking unit (seat_dto "A1" "pay-1")) tt held_world).2).1 = (ref_back held_world.2).1.
Proof.
  assert (exists l, outcome ref_platform (@createBooking unit (seat_dto "A1" "pay-1")) tt held_world = Ok (Some l) /\
    b_status (booking l) = BookingStatus.CONFIRMED) as (l & Hl & Hst).
  { eexists. split; [vm_compute; reflexivity|reflexivity]. }
  exists l. split; [exact Hl|]. split; [exact Hst|].
  exact (proj1 (confirmed_booking_backed (S := unit) (book_run good_answer) ref_note ref_server book_view ref_back Reliable
    (book_run_conforms good_answer) (fun c w => eq_refl) ref_serves (seat_dto "A1" "pay-1") tt held_world l
    (proj1 held_world_wf) (proj2 held_world_wf) Hl Hst)).
Defined.

(** A payment can be spent twice.  The payment service answers a request
    whose idempotency key it knows with the payment stored under it, whichever
    booking and amount that was for, and the booking service looks at the status
    only: with the key of the payment for A1, which the client chooses, the
    booking of A2 is CONFIRMED without any charge. *)
Theorem second_booking_for_free :
  let w' := final ref_platform (@createBooking unit (seat_dto "A2" "pay-1")) tt first_booking in
  match outcome ref_platform (@createBooking unit (seat_dto "A2" "pay-1")) tt first_booking with
  | Ok (Some l) => b_status (booking l) = BookingStatus.CONFIRMED /\ map bi_seatId (items l) = ["A2"]%string
  | _ => False
  end /\
  map b_status (rows (bookings (btables (platform_view book_view w')))) = [BookingStatus.CONFIRMED; BookingStatus.CONFIRMED] /\
  length (PaymentWorld.charges (ref_back w'.2).2) = 1 /\
  length (rows (PaymentWorld.payments (ref_back w'.2).2)) = 1.
Proof. vm_compute. by split_and!. Qed.

(** A confirmed booking of two sold seats and its payment. *)
Definition sold_world : PlatformRefWorld :=
  (booked None 0,
   (SeatRef.seat_world [SeatRef.plain_seat "r1" "ev" "A1" SeatWorld.SOLD; SeatRef.plain_seat "r2" "ev" "A2" SeatWorld.SOLD] [] 1000,
    RefundService.paid_world)).

Lemma sold_world_wf : backend_wf (ref_back sold_world.2).
Proof. split; [apply SeatRef.seat_world_wf; vm_compute; reflexivity|apply RefundService.paid_world_wf]. Qed.

Lemma cancelled_booking_refunded_witness :
  exists l, outcome ref_platform (@cancelBooking unit "b1" "u1" "refund-1" None) tt sold_world = Ok l /\
    b_status (booking l) = BookingStatus.REFUNDED /\
    exists resp, refund_done "b1" "refund-1" "User cancellation" resp (ref_back sold_world.2).2
      (ref_back (final ref_platform (@cancelBooking unit "b1" "u1" "refund-1" None) tt sold_world).2).2.
Proof.
  assert (exists l, outcome ref_platform (@cancelBooking unit "b1" "u1" "refund-1" None) tt sold_world = Ok l) as [l Hl]
    by (eexists; vm_compute; reflexivity).
  exists l. split; [exact Hl|].
  pose proof (cancelled_booking_refunded (S := unit) (book_run good_answer) ref_note ref_server book_view ref_back Reliable
    (book_run_conforms good_answer) (fun c w => eq_refl) ref_serves "b1" "u1" "refund-1" None tt sold_world l
    (demo_booking BookingStatus.CONFIRMED None 0) (booked_wf None 0) sold_world_wf eq_refl eq_refl Hl) as (H1 & H2 & _).
  split; [exact H1|exact H2].
Defined.
