(* ===== verification/ConcurrentBookings.v ===== *)
(** * Bookings that are made at the same time

    Any number of methods of the booking service, interleaved at every await,
    over the real handlers of the seat inventory and of the payments; a remote
    call is answered in one piece.  None of the seat procedures the booking
    service calls takes a lock ([serve_takes_no_lock]), so a hold that was
    verified during the run was there when the run began, and a seat is booked
    for one user only.  Nothing is assumed of the booking service's own
    database, cancellations and the outbox worker may run in between. *)

From S2P Require Import Prelude Messages Effects Interleave Ownership JsNumber Json Redis Sql.
From S2P Require SeatWorld SeatRef SeatLock Availability Inventory Hold SeatApi PaymentWorld PaymentRef ConcurrentHolds.
From S2P Require Import BookingWorld BookingRef Tickets BookingCreate BookingRefund Platform.

(** ** Programs that issue certain operations only *)

Section Only.
Context {E : Type -> Type}.
Variable allowed : forall X, E X -> bool.

Fixpoint only {S A} (m : prog S E A) : Prop :=
  match m with
  | Ret _ | Throw _ => True
  | Do X op k => allowed X op = true /\ forall r, only (k r)
  | Get k => forall s, only (k s)
  | Put _ k => only k
  end.

Lemma only_bind {S A B} (m : prog S E A) (f : A -> prog S E B) :
  only m -> (forall a, only (f a)) -> only (bind m f).
Proof. intros Hm Hf. induction m; cbn in *; naive_solver. Qed.

Lemma only_attempt {S A} (m : prog S E A) : only m -> only (attempt m).
Proof. intros Hm. induction m; cbn in *; naive_solver. Qed.

Lemma only_of_result {S A} (r : result A) : only (S := S) (of_result r).
Proof. by destruct r. Qed.

Lemma only_call {S X} (op : E X) : allowed X op = true -> only (S := S) (call op).
Proof. intros H. split; [done|]. apply only_of_result. Qed.

Lemma only_try_catch {S A} (m : prog S E A) h : only m -> (forall e, only (h e)) -> only (try_catch m h).
Proof. intros Hm Hh. apply only_bind; [by apply only_attempt|]. intros [a|e]; [done|apply Hh]. Qed.

Lemma only_finally {S A} (m : prog S E A) f : only m -> only f -> only (finally m f).
Proof.
  intros Hm Hf. apply only_bind; [by apply only_attempt|]. intros r. apply only_bind; [done|]. intros _.
  apply only_of_result.
Qed.

(** What every such operation keeps, the program keeps. *)
Lemma only_run {W S A} (h : forall X, E X -> W -> result X * W) (R : W -> W -> Prop) (m : prog S E A) s w :
  (forall w, R w w) -> (forall w1 w2 w3, R w1 w2 -> R w2 w3 -> R w1 w3) ->
  (forall X (op : E X) w, allowed X op = true -> R w (h X op w).2) ->
  only m -> R w (run h m s w).2.
Proof.
  intros Hr Ht Hh. revert s w. induction m as [a|e|X op k IH|k IH|s' k IH]; intros s w Hm; cbn in *; auto.
  destruct Hm as [Hop Hk]. specialize (Hh X op w Hop). destruct (h X op w) as [r w']. cbn in *.
  eapply Ht; [exact Hh|]. by apply IH.
Qed.
End Only.

(** Drive an [only] goal through the program's structure. *)
Create HintDb only.
#[export] Hint Resolve only_of_result : only.

Ltac only_step :=
  match goal with
  | |- only _ (bind _ _) => apply only_bind
  | |- only _ (try_catch _ _) => apply only_try_catch
  | |- only _ (finally _ _) => apply only_finally
  | |- only _ (call _) => by apply only_call
  | |- forall _, _ => intros ?
  | |- only _ (Ret _) => exact I
  | |- only _ (Throw _) => exact I
  | |- only _ (match ?x with _ => _ end) => destruct x
  | |- _ => solve [auto with only]
  end.

Ltac only_steps := repeat only_step.

(** ** The seat procedures take no lock *)

(** Every operation except the two that store a text. *)
Definition stores_no_text (X : Type) (op : SeatWorld.SeatE X) : bool :=
  match op with
  | SeatWorld.SRedis (RSetNxEx _ _ _) | SeatWorld.SRedis (RSetEx _ _ _) => false
  | _ => true
  end.

(** The texts of [m'] are texts of [m]. *)
Definition texts_kept (m m' : RedisView) : Prop :=
  forall k, string_at m' k = None \/ string_at m' k = string_at m k.

Lemma texts_kept_refl m : texts_kept m m.
Proof. by right. Qed.

Lemma texts_kept_trans m1 m2 m3 : texts_kept m1 m2 -> texts_kept m2 m3 -> texts_kept m1 m3.
Proof. intros H1 H2 k. destruct (H2 k) as [?|H2k]; [by left|]. rewrite H2k. apply H1. Qed.

Lemma texts_kept_delete key m : texts_kept m (delete key m).
Proof.
  intros k. unfold string_at. destruct (decide (key = k)) as [->|Hne].
  - left. by rewrite lookup_delete_eq.
  - right. by rewrite lookup_delete_ne.
Qed.

Lemma texts_kept_hset key f v m : texts_kept m (hset key f v m).
Proof.
  intros k. destruct (decide (key = k)) as [->|Hne].
  - unfold hset, string_at. destruct (m !! k) as [[[s|h] t]|] eqn:Hk.
    + right. by rewrite Hk.
    + left. by rewrite lookup_insert_eq.
    + left. by rewrite lookup_insert_eq.
  - right. unfold string_at. by rewrite hset_other.
Qed.

Lemma texts_kept_pipeline cmds m : texts_kept m (foldl apply_cmd m cmds).
Proof.
  revert m. induction cmds as [|c cmds IH]; intros m; cbn; [apply texts_kept_refl|].
  eapply texts_kept_trans; [|apply IH]. destruct c as [key|key f v]; [apply texts_kept_delete|apply texts_kept_hset].
Qed.

Lemma texts_kept_alter key secs m : texts_kept m (alter (fun e => Entry (content e) (Some secs)) key m).
Proof.
  intros k. right. unfold string_at. destruct (decide (key = k)) as [->|Hne].
  - rewrite lookup_alter_eq. by destruct (m !! k) as [[[s|h] t]|].
  - by rewrite lookup_alter_ne.
Qed.

Lemma texts_kept_owned e u x m m' :
  texts_kept m m' -> SeatLock.owned_by m' e u x = true -> SeatLock.owned_by m e u x = true.
Proof.
  intros Hk. unfold SeatLock.owned_by, SeatLock.lock_owner. by destruct (Hk (SeatWorld.lock_key e x)) as [->| ->].
Qed.

Lemma conforms_texts md W (h : forall X, SeatWorld.SeatE X -> W -> result X * W) view :
  conforms md SeatWorld.seat_behaviour h view ->
  forall X (op : SeatWorld.SeatE X) w, stores_no_text X op = true ->
    texts_kept (SeatWorld.redis (view w)) (SeatWorld.redis (view (h X op w).2)).
Proof.
  intros Hh X op w Hop. pose proof (ConcurrentHolds.conforms_shared md W h view Hh X op w) as Hs.
  set (m := SeatWorld.redis (view w)) in *. set (m' := SeatWorld.redis (view (h X op w).2)) in *. clearbody m m'.
  destruct op as [Y op| | | | | | | | | | | | | | | |]; try (rewrite Hs; apply texts_kept_refl).
  cbn in Hs. destruct (h _ _ w).1 as [x|e]; [|subst m'; apply texts_kept_refl].
  destruct op; cbn in Hs, Hop; try done; try (rewrite (proj1 Hs); apply texts_kept_refl); subst m'.
  - apply texts_kept_delete.
  - apply texts_kept_alter.
  - apply texts_kept_hset.
  - apply texts_kept_pipeline.
Qed.

Abbreviation lockless := (only stores_no_text).

Section Lockless.
Context {S : Type}.

Lemma lockless_parse data : lockless (SeatLock.parse_json (S := S) data).
Proof. unfold SeatLock.parse_json. only_steps. Qed.

Lemma lockless_other j u : lockless (SeatLock.other_user (S := S) j u).
Proof. unfold SeatLock.other_user. only_steps. Qed.

Hint Resolve lockless_parse lockless_other : only.

Lemma lockless_getLockInfo e x : lockless (SeatLock.getLockInfo (S := S) e x).
Proof. unfold SeatLock.getLockInfo. only_steps. Qed.

Hint Resolve lockless_getLockInfo : only.

Lemma lockless_verify e ids u : lockless (SeatApi.Grpc.verify_loop (S := S) e ids u).
Proof. induction ids as [|x ids IH]; cbn [SeatApi.Grpc.verify_loop]; only_steps. Qed.

Lemma lockless_release e ids u : lockless (SeatLock.releaseLocks (S := S) e ids u).
Proof.
  unfold SeatLock.releaseLocks. generalize 0. induction ids as [|x ids IH]; intros n; cbn [SeatLock.release_loop]; [done|].
  cbv zeta. only_steps.
Qed.

Lemma lockless_stamp ids reason hs : lockless (Hold.stamp_holds (S := S) ids reason hs).
Proof. induction hs as [|hd hs IH]; cbn [Hold.stamp_holds]; only_steps. Qed.

Hint Resolve lockless_verify lockless_release lockless_stamp : only.

Lemma lockless_releaseSeats e ids u reason : lockless (Hold.releaseSeats (S := S) e ids u reason).
Proof. unfold Hold.releaseSeats, Inventory.findBySeatIds, Availability.updateMultipleSeatsStatus. only_steps. Qed.

Lemma lockless_markAsSold e ids u : lockless (Hold.markAsSold (S := S) e ids u).
Proof. unfold Hold.markAsSold, Inventory.findBySeatIds, Availability.updateMultipleSeatsStatus. only_steps. Qed.

Lemma lockless_relaseSoldSeats e ids : lockless (Inventory.relaseSoldSeats (S := S) e ids).
Proof.
  unfold Inventory.relaseSoldSeats, Inventory.findBySeatIds, Availability.updateMultipleSeatsStatus. cbv zeta. only_steps.
Qed.

Lemma lockless_grpc_reads e ids u :
  lockless (SeatApi.Grpc.getSeatsByEvent (S := S) e) /\
  lockless (SeatApi.Grpc.verifyHold (S := S) (SeatApi.mkSeatsRequest e ids u)).
Proof.
  unfold SeatApi.Grpc.getSeatsByEvent, SeatApi.Grpc.verifyHold, Inventory.findByEventId. split; only_steps.
Qed.

Hint Resolve lockless_releaseSeats lockless_markAsSold lockless_relaseSoldSeats : only.

Lemma lockless_grpc_writes e ids u reason :
  lockless (SeatApi.Grpc.releaseSeats (S := S) (SeatApi.mkSeatsRequest e ids u) reason) /\
  lockless (SeatApi.Grpc.markSeatsAsSold (S := S) (SeatApi.mkSeatsRequest e ids u)) /\
  lockless (SeatApi.Grpc.releaseSoldSeats (S := S) e ids).
Proof.
  unfold SeatApi.Grpc.releaseSeats, SeatApi.Grpc.markSeatsAsSold, SeatApi.Grpc.releaseSoldSeats.
  split_and!; only_steps.
Qed.
End Lockless.

(** ** The services as the requests share them *)

Section Shared.
Context {WS WP : Type}.
Variable hseat : forall X, SeatWorld.SeatE X -> WS -> result X * WS.
Variable hpay : forall X, PaymentWorld.PaymentE X -> WP -> result X * WP.
Variable cfg : option string.
Variable status_error : exn -> exn.
Variable vseat : WS -> SeatWorld.SeatView.
Variable vpay : WP -> PaymentWorld.PaymentView.
Variable md : mode.
Hypothesis Hseat : conforms md SeatWorld.seat_behaviour hseat vseat.
Hypothesis Hpay : conforms md PaymentWorld.pay_behaviour hpay vpay.
Abbreviation server := (serve hseat hpay cfg status_error).
Abbreviation back := (backend vseat vpay).

Lemma at_seats_texts {A B} (m : prog unit SeatWorld.SeatE A) (f : A -> B) (w : WS * WP) :
  lockless m -> texts_kept (SeatWorld.redis (vseat w.1)) (SeatWorld.redis (vseat (at_seats hseat status_error m f w).2.1)).
Proof.
  intros Hm. unfold at_seats.
  pose proof (only_run stores_no_text hseat (fun w w' => texts_kept (SeatWorld.redis (vseat w)) (SeatWorld.redis (vseat w')))
    m tt w.1) as H.
  destruct (run hseat m tt w.1) as [[r []] ws]. apply H; [intros; apply texts_kept_refl| | |done].
  - intros w1 w2 w3. apply texts_kept_trans.
  - intros X op w0. by eapply conforms_texts.
Qed.

Lemma at_payments_texts {A B} (m : prog unit PaymentWorld.PaymentE A) (f : A -> B) (w : WS * WP) :
  texts_kept (SeatWorld.redis (vseat w.1)) (SeatWorld.redis (vseat (at_payments hpay status_error m f w).2.1)).
Proof. unfold at_payments. destruct (run hpay m tt w.2) as [[r []] wp]. apply texts_kept_refl. Qed.

(** No procedure the booking service calls takes a lock. *)
Lemma serve_takes_no_lock X (op : RpcE X) (w : WS * WP) :
  texts_kept (SeatWorld.redis (vseat w.1)) (SeatWorld.redis (vseat (server X op w).2.1)).
Proof.
  destruct op as [e|e ids uid|req|b k reason|e ids uid reason|e ids|e ids uid]; cbn [serve].
  - exact (at_seats_texts _ _ w (proj1 (lockless_grpc_reads e [] EmptyString))).
  - exact (at_seats_texts _ _ w (proj2 (lockless_grpc_reads e ids uid))).
  - destruct (method_of (ipr_method req)) as [m|]; [apply at_payments_texts|apply texts_kept_refl].
  - apply at_payments_texts.
  - exact (at_seats_texts _ _ w (proj1 (lockless_grpc_writes e ids uid (reason_of reason)))).
  - exact (at_seats_texts _ _ w (proj2 (proj2 (lockless_grpc_writes e ids EmptyString SeatWorld.ADMIN)))).
  - exact (at_seats_texts _ _ w (proj1 (proj2 (lockless_grpc_writes e ids uid SeatWorld.ADMIN)))).
Qed.

(** What an operation of a booking request does to the services. *)
Definition shared_services (X : Type) (op : BookingE X) (u : Backend) (r : result X) (u' : Backend) : Prop :=
  match op in BookingE X return result X -> Prop with
  | Rpc op => fun r => exists r', r = Ok r' /\
      (backend_wf u -> kept op u r' u') /\ texts_kept (SeatWorld.redis u.1) (SeatWorld.redis u'.1)
  | _ => fun _ => u' = u
  end r.

Lemma platform_shared {WB} (hbook : forall X, BookingE X -> WB -> result X * WB) note X (op : BookingE X) w :
  shared_services X op (back w.2) (platform hbook note server X op w).1 (back (platform hbook note server X op w).2.2).
Proof.
  destruct w as [wb wk].
  destruct op; cbn [platform fst snd shared_services];
    lazymatch goal with |- context [hbook _ _ _] => destruct (hbook _ _ wb) as [r wb']; reflexivity | _ => idtac end.
  pose proof (serve_contract hseat hpay cfg status_error vseat vpay md Hseat Hpay X op wk) as Hc.
  pose proof (serve_takes_no_lock X op wk) as Hl. destruct (server X op wk) as [r wk'].
  by exists r.
Qed.
End Shared.

(** ** Verified holds *)

(** Every lock of [u0]'s Redis on [ids] is the user's. *)
Definition held_by (u0 : Backend) (e u : string) (ids : list string) : Prop :=
  forall x, x ∈ ids -> SeatLock.owned_by (SeatWorld.redis u0.1) e u x = true.

Lemma owned_by_unique m e u u' x :
  SeatLock.owned_by m e u x = true -> SeatLock.owned_by m e u' x = true -> u = u'.
Proof.
  unfold SeatLock.owned_by. destruct (SeatLock.lock_owner m e x) as [o|]; [|done].
  by intros <-%String.eqb_eq <-%String.eqb_eq.
Qed.

Section Rule.
(** The services when the requests begin. *)
Variable u0 : Backend.

Definition rpc_learns {X} (op : RpcE X) : result (result X) -> Prop :=
  match op in RpcE X return result (result X) -> Prop with
  | VerifyHold e ids u => fun r => r = Ok (Ok true) -> held_by u0 e u ids
  | _ => fun _ => True
  end.

(** No token is handed out: what a request learns is that a hold it had
    verified was there in the beginning. *)
Definition verified_holds : ownership BookingE Backend string := {|
  may := fun _ _ _ => true;
  gives := fun X op T => match op in BookingE X return result X -> gset string -> Prop with
                         | Rpc op => fun r T' => T' = T /\ rpc_learns op r
                         | _ => fun _ T' => T' = T
                         end;
  inv := fun _ u => backend_wf u /\ texts_kept (SeatWorld.redis u0.1) (SeatWorld.redis u.1);
|}.

Lemma verified_law : own_law verified_holds shared_services.
Proof.
  intros X op T F u r u' Hd [Hwf Hk] _ Hs. exists T.
  destruct op; try (by cbn in Hs; subst u').
  destruct Hs as (r' & -> & Hc & Ht). destruct (Hc Hwf) as [Hcon Hwf'].
  pose proof (texts_kept_trans _ _ _ Hk Ht) as Hk'. split; [|by split]. split; [done|].
  destruct op as [e|e ids uid|req|b k reason|e ids uid reason|e ids|e ids uid]; try done.
  intros [= ->] x Hx. cbn in Hcon. destruct Hcon as [-> Hall]. symmetry in Hall.
  rewrite forallb_forall in Hall. eapply texts_kept_owned; [exact Hk|]. by apply Hall, list_elem_of_In.
Qed.

(** Every program respects the rule; its end is all that matters. *)
Lemma own_any {S A} (m : prog S BookingE A) (Q : result A -> S -> option (gset string) -> Prop) s T :
  (forall r s T, Q r s (Some T)) -> wp (own_spec verified_holds) m Q s (Some T).
Proof.
  intros HQ. revert s T. induction m as [a|e|X op k IH|k IH|s' k IH]; intros s T; cbn; auto.
  intros r o (T' & -> & _). by apply IH.
Qed.

Lemma own_rpc {S X} (op : RpcE X) (Q : result X -> S -> option (gset string) -> Prop) s T :
  (forall r T', gives verified_holds (Rpc op) T (Ok r) T' -> Q r s (Some T')) ->
  (forall e T', Q (Err e) s (Some T')) ->
  wp (own_spec verified_holds) (rpc op) Q s (Some T).
Proof.
  intros HQ HE. unfold rpc. wp_step. apply own_call; [done|]. intros [r|e] T' Hg; [|apply HE].
  apply wp_of_result. by apply HQ.
Qed.

(** A booking that succeeds was made on a verified hold. *)
Lemma createBooking_verified {S} dto (s : S) T :
  owned verified_holds (createBooking dto)
    (fun r _ => is_ok r = true -> held_by u0 (cb_eventId dto) (cb_userId dto) (map it_seatId (cb_items dto))) s T.
Proof.
  unfold owned, createBooking. cbv zeta. wp_step. apply own_rpc; [|done]. intros [[seats|]|e] T1 _; [|done..].
  destruct (negb _); [done|]. destruct (Nat.ltb _ _); [done|].
  wp_step. apply own_rpc; [|done]. intros [[|]|e] T2 [_ Hv]; [|done..]. cbn [negb].
  apply own_any. intros r s' T' _. by apply Hv.
Qed.
End Rule.

Section Properties.
Context {WB WS WP S : Type}.
(** Each request has a connection of its own to the booking database. *)
Variable hbook : nat -> forall X, BookingE X -> WB -> result X * WB.
Variable note : RpcCall -> WB -> WB.
Variable hseat : forall X, SeatWorld.SeatE X -> WS -> result X * WS.
Variable hpay : forall X, PaymentWorld.PaymentE X -> WP -> result X * WP.
Variable cfg : option string.
Variable status_error : exn -> exn.
Variable vseat : WS -> SeatWorld.SeatView.
Variable vpay : WP -> PaymentWorld.PaymentView.
Variable md : mode.
Hypothesis Hseat : conforms md SeatWorld.seat_behaviour hseat vseat.
Hypothesis Hpay : conforms md PaymentWorld.pay_behaviour hpay vpay.
Abbreviation services := (fun i => platform (hbook i) note (serve hseat hpay cfg status_error)).

(** A request to make a booking, or any other method. *)
Inductive BookingRequest :=
| Create (dto : CreateBookingDto)
| Other (m : prog S BookingE (option LoadedBooking)).

Definition request_program (q : BookingRequest) : prog S BookingE (option LoadedBooking) :=
  match q with Create dto => createBooking dto | Other m => m end.

(** C5: A seat is booked for one user.  Run any methods of the booking service
    interleaved in any order, with any database failing at any time: a booking
    that succeeds was made by a user who held every seat of it when the run
    began, so two bookings that succeed and have a seat of an event in common
    are of the same user. *)
Theorem seat_has_one_buyer (qs : list BookingRequest) (s : S) schedule w :
  backend_wf (backend vseat vpay w.2) ->
  let '(rs, w') := run_many services schedule (map (fun q => (request_program q, s)) qs) w in
  (forall i dto l, qs !! i = Some (Create dto) -> rs !! i = Some (Ok l) ->
     held_by (backend vseat vpay w.2) (cb_eventId dto) (cb_userId dto) (map it_seatId (cb_items dto))) /\
  (forall i j dto dto' l l' x,
     qs !! i = Some (Create dto) -> rs !! i = Some (Ok l) ->
     qs !! j = Some (Create dto') -> rs !! j = Some (Ok l') ->
     cb_eventId dto = cb_eventId dto' ->
     x ∈ map it_seatId (cb_items dto) -> x ∈ map it_seatId (cb_items dto') ->
     cb_userId dto = cb_userId dto').
Proof.
  intros Hwf. set (u0 := backend vseat vpay w.2). set (cs := map _ qs).
  pose proof (run_many_sound (S := S) (A := option LoadedBooking) (verified_holds u0) shared_services
    services (fun w => backend vseat vpay w.2) (verified_law u0)
    (fun i X op w => platform_shared hseat hpay cfg status_error vseat vpay md Hseat Hpay (hbook i) note X op w)
    (fun i r _ => forall dto, qs !! i = Some (Create dto) -> is_ok r = true ->
       held_by u0 (cb_eventId dto) (cb_userId dto) (map it_seatId (cb_items dto))) schedule cs w) as Hsound.
  destruct (run_many services schedule cs w) as [rs w']. destruct Hsound as (Ts & _ & _ & HQ).
  - split; [done|apply texts_kept_refl].
  - intros i c Hc. subst cs. rewrite list_lookup_fmap in Hc. destruct (qs !! i) as [[dto|m]|] eqn:Hq; [| |done];
      injection Hc as <-; [|by apply own_any].
    eapply wp_mono; [by apply createBooking_verified|]. intros r s' [T|] Hr; [|done]. cbn in *. by intros dto' [= <-].
  - assert (forall i dto l, qs !! i = Some (Create dto) -> rs !! i = Some (Ok l) ->
      held_by u0 (cb_eventId dto) (cb_userId dto) (map it_seatId (cb_items dto))) as Hheld.
    { intros i dto l Hq Hr. destruct (HQ i (Ok l) Hr) as (T & _ & HT). by apply (HT dto). }
    split; [exact Hheld|]. intros i j dto dto' l l' x Hq Hr Hq' Hr' He Hx Hx'.
    pose proof (Hheld i dto l Hq Hr x Hx) as H1. pose proof (Hheld j dto' l' Hq' Hr' x Hx') as H2.
    rewrite <- He in H2. by eapply owned_by_unique.
Qed.
End Properties.

(** ** Concrete runs *)

(** Two users want A1, which the first one holds, and a third request cancels a
    booking that does not exist. *)
Definition demo_bookings : list (BookingRequest (S := unit)) :=
  [Create (mkCreateBookingDto "u2" "ev" "sess-2" "pm_card_visa" "pay-2" None [mkItemDto "A1" None None]);
   Create (seat_dto "A1" "pay-1"); Other (cancelBooking "b0" "u1" "refund-1" None ;; Ret None)]%string.

Lemma seat_has_one_buyer_witness :
  let '(rs, w') := run_many (fun _ => ref_platform) (turns_of 40 [0; 1; 2])
      (map (fun q => (request_program q, tt)) demo_bookings) held_world in
  map is_ok rs = [false; true; false] /\ held_by (ref_back held_world.2) "ev" "u1" ["A1"%string].
Proof.
  pose proof (seat_has_one_buyer (S := unit) (fun _ => book_run good_answer) ref_note SeatRef.seat_run PaymentRef.pay_run
    None (fun e => e) SeatRef.seat_view PaymentRef.pay_view Reliable SeatRef.seat_run_conforms PaymentRef.pay_run_conforms
    demo_bookings tt (turns_of 40 [0; 1; 2]) held_world (proj2 held_world_wf)) as H.
  assert (map is_ok (run_many (fun _ => ref_platform) (turns_of 40 [0; 1; 2])
    (map (fun q => (request_program q, tt)) demo_bookings) held_world).1 = [false; true; false]) as Hok by by vm_compute.
  unfold ref_platform, ref_server in *. cbv beta in H.
  destruct (run_many _ _ _ _) as [rs w']. cbn [fst] in Hok. split; [exact Hok|].
  destruct rs as [|r0 [|[l|e] rs]]; [discriminate Hok|discriminate Hok| |discriminate Hok].
  exact (proj1 H 1 (seat_dto "A1" "pay-1") l eq_refl eq_refl).
Defined.

(** A seat is sold twice to one user.  Until the outbox worker has marked
    the seat as sold its lock is still there, and no booking takes it away: a
    second request for A1, with a key of its own, is charged and CONFIRMED. *)
Theorem same_seat_sold_twice :
  let w' := final ref_platform (@createBooking unit (seat_dto "A1" "pay-2")) tt first_booking in
  map b_status (rows (bookings (btables (platform_view book_view w')))) = [BookingStatus.CONFIRMED; BookingStatus.CONFIRMED] /\
  map bi_seatId (rows (booking_items (btables (platform_view book_view w')))) = ["A1"; "A1"]%string /\
  length (PaymentWorld.charges (ref_back w'.2).2) = 2.
Proof. vm_compute. by split_and!. Qed.

(** The check-in reads the ticket and saves it in two steps: two scanners are
    both told that the ticket is valid. *)
Theorem ticket_admits_two :
  let '(rs, _) := run_many (fun _ => ref_platform) (turns_of 3 [0; 1]) (repeat (@checkIn unit "TK-1", tt) 2) sold_world in
  map is_ok rs = [true; true].
Proof. by vm_compute. Qed.

(** A booking whose ticket was used can still be cancelled, and is refunded. *)
Theorem attended_and_refunded :
  let w := final ref_platform (@checkIn unit "TK-1") tt sold_world in
  let w' := final ref_platform (@cancelBooking unit "b1" "u1" "refund-1" None) tt w in
  is_ok (outcome ref_platform (@checkIn unit "TK-1") tt sold_world) = true /\
  map b_status (rows (bookings (btables (platform_view book_view w')))) = [BookingStatus.REFUNDED] /\
  length (PaymentWorld.refunded (ref_back w'.2).2) = 1.
Proof. vm_compute. by split_and!. Qed.
