(* ===== verification/PlatformOutbox.v ===== *)
(** * Sales, from the outbox to the inventory

    The outbox worker of the booking service over the real handlers of the seat
    inventory: what became of the seats follows from the sales the worker asked
    for ([sales_history]), so an entry it completed has sold its seats. *)

From S2P Require Import Prelude Messages Effects JsNumber Json Redis Sql.
From S2P Require SeatWorld SeatRef Availability Inventory Hold HoldExpiry PaymentWorld PaymentRef.
From S2P Require Import BookingWorld BookingRef BookingCreate OutboxWorker Platform.

Abbreviation seat_at := Availability.seat_at.
Abbreviation sell := (SeatWorld.set_status SeatWorld.SOLD).

(** The rows of [t'] are the rows of [t], some of them sold. *)
Definition some_sold (t t' : SeatWorld.SeatTables) : Prop :=
  forall e x, seat_at t' e x = seat_at t e x \/ seat_at t' e x = sell <$> seat_at t e x.

Lemma sell_twice (o : option SeatWorld.SeatInventory) : sell <$> (sell <$> o) = sell <$> o.
Proof. by destruct o. Qed.

Lemma some_sold_trans t1 t2 t3 : some_sold t1 t2 -> some_sold t2 t3 -> some_sold t1 t3.
Proof.
  intros H1 H2 e x. destruct (H1 e x) as [E1|E1], (H2 e x) as [E2|E2]; rewrite E2, E1; auto. right. apply sell_twice.
Qed.

(** A seat that was sold stays sold. *)
Lemma some_sold_kept t t1 t2 e x :
  seat_at t1 e x = sell <$> seat_at t e x -> some_sold t1 t2 -> seat_at t2 e x = sell <$> seat_at t e x.
Proof. intros H1 H2. destruct (H2 e x) as [E|E]; rewrite E, H1; [done|apply sell_twice]. Qed.

Lemma sale_sells e ids u t t' :
  SeatWorld.tables_wf t -> Hold.hold_ended e ids u SeatWorld.PAYMENT_SUCCESS SeatWorld.SOLD t t' -> some_sold t t'.
Proof.
  intros Hwf [now ->] e' x. rewrite (Hold.seat_at_seats _ (Inventory.statuses_set e ids SeatWorld.SOLD t)) by done.
  destruct (decide (e' = e)) as [->|Hne].
  - rewrite Inventory.seat_at_status by done. destruct (includes ids x); [by right|left]. by destruct (seat_at t e x).
  - left. by apply Inventory.seat_at_status_other.
Qed.

Lemma sale_contract c u u' :
  is_sale c -> SeatWorld.tables_wf (SeatWorld.tables u.1) -> contract c u u' ->
  SeatWorld.tables_wf (SeatWorld.tables u'.1) /\ some_sold (SeatWorld.tables u.1) (SeatWorld.tables u'.1).
Proof.
  destruct c as [| | | | | |e ids uid [[|]|x]]; try done; intros _ Hwf [_ H]; [|destruct H as [H|H]|done].
  - split; [by eapply Hold.hold_ended_wf|by eapply sale_sells].
  - rewrite H. split; [done|]. by left.
  - split; [by eapply Hold.hold_ended_wf|by eapply sale_sells].
Qed.

(** Sales explain the inventory: whatever was reported as sold is sold. *)
Lemma sales_history cs u u' :
  history cs u u' -> Forall is_sale cs -> SeatWorld.tables_wf (SeatWorld.tables u.1) ->
  some_sold (SeatWorld.tables u.1) (SeatWorld.tables u'.1) /\
  forall e ids uid x, CMarkSeatsAsSold e ids uid (Ok true) ∈ cs -> x ∈ ids ->
    seat_at (SeatWorld.tables u'.1) e x = sell <$> seat_at (SeatWorld.tables u.1) e x.
Proof.
  induction 1 as [u|c cs u u1 u' Hc _ IH]; intros Hs Hwf.
  { split; [by left|]. by intros e ids uid x ?%elem_of_nil. }
  apply Forall_cons in Hs as [Hs Hss]. destruct (sale_contract _ _ _ Hs Hwf Hc) as [Hwf1 H1].
  destruct (IH Hss Hwf1) as [H2 Hin]. split; [by eapply some_sold_trans|].
  intros e ids uid x [<-|Hcs]%elem_of_cons Hx.
  - destruct Hc as [_ He]. eapply some_sold_kept; [|exact H2]. by eapply Hold.hold_ended_status.
  - rewrite (Hin e ids uid x Hcs Hx). destruct (H1 e x) as [->| ->]; [done|]. apply sell_twice.
Qed.

Section Sold.
Context {WB WK : Type}.
Variable hbook : forall X, BookingE X -> WB -> result X * WB.
Variable note : RpcCall -> WB -> WB.
Variable server : forall X, RpcE X -> WK -> result X * WK.
Variable vbook : WB -> BookingView.
Variable vback : WK -> Backend.
Variable md : mode.
Hypothesis Hbook : conforms md book_behaviour hbook vbook.
Hypothesis Hnote : forall c w, vbook (note c w) = with_call c (vbook w).
Hypothesis Hserver : forall X (op : RpcE X) w, backend_wf (vback w) ->
  kept op (vback w) (server X op w).1 (vback (server X op w).2).
Abbreviation platform := (platform hbook note server).
Abbreviation pview := (platform_view vbook).

(** C32: What the outbox worker completes is done in the inventory.  After a
    tick over the real handlers, whatever failed in it, every seat of a
    seats.mark_sold entry that became COMPLETED is SOLD, and no seat of the
    inventory was changed otherwise than by being sold. *)
Theorem completed_sales_sold {S} (s : S) w :
  backend_wf (vback w.2) ->
  let t := SeatWorld.tables (vback w.2).1 in
  let w' := final platform processOutbox s w in
  let t' := SeatWorld.tables (vback w'.2).1 in
  some_sold t t' /\
  forall i o e u ids, outbox (btables (pview w')) !! i = Some o -> o_status o = OutboxStatus.COMPLETED ->
    outbox (btables (pview w)) !! i <> Some o ->
    o_eventType o = "seats.mark_sold"%string -> o_payload o = SeatsPayload e u ids ->
    forall x row, x ∈ ids -> seat_at t e x = Some row ->
      exists row', seat_at t' e x = Some row' /\ SeatWorld.si_status row' = SeatWorld.SOLD.
Proof.
  intros Hback. cbn zeta.
  pose proof (platform_history hbook note server vbook vback md Hbook Hnote Hserver processOutbox s w Hback) as Hh.
  pose proof (platform_conforms hbook note server vbook md Hbook Hnote) as Hc.
  assert (sales_only (pview w) (pview (final platform processOutbox s w)) /\
    forall i o, outbox (btables (pview (final platform processOutbox s w))) !! i = Some o ->
      o_status o = OutboxStatus.COMPLETED ->
      outbox (btables (pview w)) !! i = Some o \/ carried_out o (pview w) (pview (final platform processOutbox s w))) as [[_ Hs] Hdone].
  { call_wp Hc w. apply processOutbox_carried_wp. }
  destruct (sales_history _ _ _ Hh Hs (SeatWorld.wf_tables _ (bw_seats _ Hback))) as [Hsold Hin]. split; [exact Hsold|].
  intros i o e u ids Ho Hst Hnew Het Hp x row Hx Hrow. destruct (Hdone i o Ho Hst) as [?|[Hcall _ _]]; [done|].
  destruct (Hcall Het) as [_ Hcs]. unfold sold_call in Hcs. rewrite Hp in Hcs. cbn in Hcs.
  exists (sell row). split; [|done]. by rewrite (Hin e ids u x Hcs Hx), Hrow.
Qed.
End Sold.

(** ** A concrete run *)

(** A booking of A1 just confirmed, and the tick after it. *)
Lemma ref_platform_wf {S A} (m : prog S BookingE A) s (w : PlatformRefWorld) :
  backend_wf (ref_back w.2) -> backend_wf (ref_back (a_minute_later (final ref_platform m s w)).2).
Proof.
  intros Hw. destruct (run_history (book_run good_answer) ref_note ref_server book_view ref_back Reliable
    (book_run_conforms good_answer) (fun c w => eq_refl) ref_serves m s w Hw) as (_ & _ & _ & H). exact H.
Qed.

Lemma first_booking_wf : backend_wf (ref_back first_booking.2).
Proof. exact (ref_platform_wf _ _ held_world (proj2 held_world_wf)). Qed.

Abbreviation ticked_world := (final ref_platform (@processOutbox unit) tt first_booking).

Lemma completed_sales_sold_witness :
  exists row, outbox (btables (platform_view book_view ticked_world)) !! "x"%string = Some row /\
    o_payload row = SeatsPayload "ev" "u1" ["A1"%string] /\
    exists r, seat_at (SeatWorld.tables (ref_back ticked_world.2).1) "ev" "A1" = Some r /\
      SeatWorld.si_status r = SeatWorld.SOLD.
Proof.
  assert (exists row, outbox (btables (platform_view book_view ticked_world)) !! "x"%string = Some row /\
    o_status row = OutboxStatus.COMPLETED /\ o_eventType row = "seats.mark_sold"%string /\
    o_payload row = SeatsPayload "ev" "u1" ["A1"%string]) as (row & Ho & Hst & Het & Hp).
  { eexists. split; [vm_compute; reflexivity|]. split_and!; reflexivity. }
  assert (o_status <$> outbox (btables (platform_view book_view first_booking)) !! "x"%string = Some OutboxStatus.PENDING) as Hold
    by (vm_compute; reflexivity).
  assert (exists r, seat_at (SeatWorld.tables (ref_back first_booking.2).1) "ev" "A1" = Some r) as [r Hr]
    by (eexists; vm_compute; reflexivity).
  exists row. split; [exact Ho|]. split; [exact Hp|].
  destruct (completed_sales_sold (S := unit) (book_run good_answer) ref_note ref_server book_view ref_back Reliable
    (book_run_conforms good_answer) (fun c w => eq_refl) ref_serves tt first_booking first_booking_wf) as [_ Hall].
  eapply (Hall "x"%string row "ev"%string "u1"%string ["A1"%string]);
    [exact Ho|exact Hst| |exact Het|exact Hp|by left|exact Hr].
  intros Heq. rewrite Heq in Hold. cbn in Hold. rewrite Hst in Hold. discriminate Hold.
Defined.

(** *** The expiry worker is faster *)

(** The seat inventory eleven minutes later: the worker has ticked, and u2 holds A1. *)
Definition overtaken_sale (w : PlatformRefWorld) : PlatformRefWorld :=
  let '(wb, (ws, wp)) := w in
  let ws := final SeatRef.seat_run HoldExpiry.processExpiredHolds false (ws.1, (ws.2 + 11 * 60000)%Z) in
  let ws := final SeatRef.seat_run (@Hold.holdSeats unit "ev" ["A1"]%string "u2" "sess-2") tt ws in
  (wb, (ws, wp)).

Definition second_dto : CreateBookingDto :=
  mkCreateBookingDto "u2" "ev" "sess-2" "pm_card_visa" "pay-2" None [mkItemDto "A1" None None].

(** A seat is sold to two users.  The booking of u1 is CONFIRMED and paid, but
    the entry that sells the seat waits for the outbox worker; if the hold runs
    out first, the expiry worker gives the seat back, u2 holds it, pays, and is
    CONFIRMED as well, and the outbox worker completes both sales. *)
Theorem expired_before_sold :
  let w1 := overtaken_sale first_booking in
  let w2 := a_minute_later (final ref_platform (@createBooking unit second_dto) tt w1) in
  let w3 := final ref_platform (@processOutbox unit) tt w2 in
  let t := btables (platform_view book_view w3) in
  map b_status (rows (bookings (btables (platform_view book_view first_booking)))) = [BookingStatus.CONFIRMED] /\
  option_map SeatWorld.si_status (seat_at (SeatWorld.tables (ref_back w1.2).1) "ev" "A1") = Some SeatWorld.HELD /\
  map (fun b => (b_userId b, b_status b)) (rows (bookings t)) =
    [("u2"%string, BookingStatus.CONFIRMED); ("u1"%string, BookingStatus.CONFIRMED)] /\
  map bi_seatId (rows (booking_items t)) = ["A1"; "A1"]%string /\
  length (PaymentWorld.charges (ref_back w3.2).2) = 2 /\
  forallb (fun o => bool_decide (o_status o = OutboxStatus.COMPLETED)) (rows (outbox t)) = true /\
  option_map SeatWorld.si_status (seat_at (SeatWorld.tables (ref_back w3.2).1) "ev" "A1") = Some SeatWorld.SOLD.
Proof. vm_compute. by split_and!. Qed.
