(* ===== verification/BookingHttp.v ===== *)
(** * The booking service over HTTP

    The controllers of BookingApi behind the [JwtAuthGuard] that
    apps/booking-service/src/app.module.ts installs for every handler, and over
    the seat inventory and the payments (Platform).  The handlers take the
    user's id from the member [id] of the token's payload, which the tokens of
    the authentication service do not have. *)

From S2P Require Import Prelude Messages Effects JsNumber JsDate Json Redis Sql.
From S2P Require SeatWorld SeatRef SeatLock PaymentWorld PaymentRef AuthWorld AuthGuard.
From S2P Require Import BookingWorld BookingRef Tickets BookingCreate BookingRefund BookingApi Platform.

(** [CurrentUser(data)] where a text is expected; in the payloads the members
    [id] and [sub] are texts or missing. *)
Definition current_user (data : string) (request : AuthGuard.Request) : option string :=
  match AuthGuard.CurrentUser data request with Some (JStr s) => Some s | _ => None end.

Section Handlers.
Context {jwt : AuthGuard.Jwt} {S : Type}.
Variable secret : string.

(** No handler is public, none asks for a role. *)
Definition behind_guard {A} (request : AuthGuard.Request) (handler : AuthGuard.Request -> prog S BookingE A) :
    prog S BookingE A :=
  AuthGuard.guarded secret false None request handler.

Definition post_bookings (request : AuthGuard.Request) (dto : CreateBookingDto) : prog S BookingE (option LoadedBooking) :=
  behind_guard request (fun r => BookingController.create dto (current_user "id" r)).
Definition get_bookings_me (request : AuthGuard.Request) : prog S BookingE (list LoadedBooking) :=
  behind_guard request (fun r => BookingController.findMyBookings (current_user "id" r)).
Definition get_booking (request : AuthGuard.Request) (id : string) : prog S BookingE LoadedBooking :=
  behind_guard request (fun r => BookingController.findById id).
Definition get_bookings_user (request : AuthGuard.Request) (userId : string) : prog S BookingE (list LoadedBooking) :=
  behind_guard request (fun r => BookingController.findByUser userId).
Definition delete_booking (request : AuthGuard.Request) (id : string) (dto : CancelBookingDto) : prog S BookingE LoadedBooking :=
  behind_guard request (fun r => BookingController.cancel id dto (current_user "id" r)).
Definition get_tickets_booking (request : AuthGuard.Request) (bookingId : string) : prog S BookingE (list Ticket) :=
  behind_guard request (fun r => TicketController.findByBooking bookingId).
Definition get_ticket_code (request : AuthGuard.Request) (ticketCode : string) : prog S BookingE (option Ticket) :=
  behind_guard request (fun r => TicketController.findByCode ticketCode).
Definition post_check_in (request : AuthGuard.Request) (ticketCode : string) : prog S BookingE Ticket :=
  behind_guard request (fun r => TicketController.checkIn ticketCode).
End Handlers.

(** ** Who the user is *)

Section Users.
Context {jwt : AuthGuard.Jwt}.
Variable secret : string.

(** Only the authentication service knows the secret, so what [jwt.verify]
    accepts are the claims it signed. *)
Definition tokens_of_auth_service (request : AuthGuard.Request) : Prop :=
  forall token payload, AuthGuard.bearer_token request = Some token ->
    AuthGuard.jwt_verify token secret = Ok payload ->
    exists p iat exp, payload = AuthGuard.claims p iat exp.

(** A request that passes the guard has a user without an id. *)
Lemma guarded_user_undefined request request' :
  tokens_of_auth_service request ->
  AuthGuard.authorize secret false None request = (Ok tt, request') -> current_user "id" request' = None.
Proof.
  intros Hs Ha. unfold AuthGuard.authorize in Ha.
  pose proof (AuthGuard.canActivate_token secret request) as Hc.
  destruct (AuthGuard.bearer_token request) as [token|] eqn:Ht; [|by destruct Hc as [m Hc]; rewrite Hc in Ha].
  rewrite Hc in Ha. destruct (AuthGuard.jwt_verify token secret) as [payload|e] eqn:Hv; [|done].
  cbn in Ha. injection Ha as <-. destruct (Hs _ _ Ht Hv) as (p & iat & exp & ->). done.
Qed.

End Users.

(** ** Properties *)

Lemma check_calls_history cs u u' : Forall check_call cs -> history cs u u' -> u' = u.
Proof.
  intros Hcs H. induction H as [|c cs u u1 u' Hc _ IH]; [done|]. apply Forall_cons in Hcs as [Hk Hcs].
  rewrite (IH Hcs). by destruct c; try done; destruct Hc.
Qed.

Section Properties.
Context {jwt : AuthGuard.Jwt} {WB WK : Type}.
Variable secret : string.
Variable hbook : forall X, BookingE X -> WB -> result X * WB.
Variable note : RpcCall -> WB -> WB.
Variable server : forall X, RpcE X -> WK -> result X * WK.
Variable vbook : WB -> BookingView.
Variable vback : WK -> Backend.
Variable md : mode.
Hypothesis Hbook : conforms md book_behaviour hbook vbook.
Hypothesis Hnote : forall c w, vbook (note c w) = with_call c (vbook w).
Hypothesis Hserver : forall X (op : RpcE X) w, backend_wf (vback w) ->
  kept op (vback w) (server X op w).1 (vback (server X op w).2).
Abbreviation services := (platform hbook note server).
Abbreviation view := (platform_view vbook).

(** A booking without a user's lock on one of its seats is refused after the checks. *)
Lemma create_refused {S} dto (s : S) w x :
  booking_wf (view w) -> backend_wf (vback w.2) -> x ∈ seatIds dto ->
  SeatLock.owned_by (SeatWorld.redis (vback w.2).1) (cb_eventId dto) (cb_userId dto) x = false ->
  let w' := final services (createBooking dto) s w in
  (exists e, outcome services (createBooking dto) s w = Err e) /\
  btables (view w') = btables (view w) /\ vback w'.2 = vback w.2.
Proof.
  intros Hwf Hback Hx Hno. cbv zeta.
  pose proof (platform_history hbook note server vbook vback md Hbook Hnote Hserver (createBooking dto) s w Hback) as Hh.
  pose proof (platform_conforms hbook note server vbook md Hbook Hnote) as Hc.
  assert (forall st row its v', booking_made md dto st row its (view w) v' ->
    history (new_calls (view w) v') (vback w.2) (vback (final services (createBooking dto) s w).2) -> False) as Hmade.
  { intros st row its v' (all & cs & Hcs & _)%booking_made_calls H. rewrite Hcs in H.
    apply history_cons in H as (u1 & [-> _] & H). apply history_cons in H as (u1 & [-> Hver] & _).
    symmetry in Hver. rewrite forallb_forall in Hver. rewrite Hver in Hno; [done|by apply list_elem_of_In]. }
  assert (let '(o, v') := (outcome services (createBooking dto) s w, view (final services (createBooking dto) s w)) in
    history (new_calls (view w) v') (vback w.2) (vback (final services (createBooking dto) s w).2) ->
    exists e, o = Err e /\ only_checked (view w) v') as Hend.
  { cbv beta iota. generalize dependent (vback (final services (createBooking dto) s w).2). intros u' _ Hmade.
    call_wp Hc w. apply createBooking_wp; [done|..].
    - intros e v' H _. by exists e.
    - intros l its st v' H _ _ Hhist. by destruct (Hmade _ _ _ _ H Hhist).
    - intros e st row its v' H _ Hhist. by destruct (Hmade _ _ _ _ H Hhist). }
  cbv beta iota in Hend. destruct (Hend Hh) as (e & He & cs & Hcs & Hv). split; [by exists e|].
  rewrite Hv in Hh |- *. split; [done|]. unfold new_calls, add_calls in Hh. cbn [calls] in Hh.
  rewrite drop_app_length in Hh. by apply (check_calls_history cs).
Qed.

(** C39: Nobody books over HTTP.  Whoever asks, with whatever token the
    authentication service issued and whatever he holds: the user of the booking
    is undefined, so a booking of a seat is refused, and nothing is written,
    locked, charged or refunded, as long as the seat is not locked for the empty
    user id. *)
Theorem nobody_books_over_http {S} request dto (s : S) w x :
  booking_wf (view w) -> backend_wf (vback w.2) ->
  tokens_of_auth_service secret request -> x ∈ seatIds dto ->
  SeatLock.owned_by (SeatWorld.redis (vback w.2).1) (cb_eventId dto) "" x = false ->
  let w' := final services (post_bookings secret request dto) s w in
  (exists e, outcome services (post_bookings secret request dto) s w = Err e) /\
  btables (view w') = btables (view w) /\ vback w'.2 = vback w.2.
Proof.
  intros Hwf Hback Ht Hx Hno. unfold post_bookings, behind_guard, AuthGuard.guarded.
  destruct (AuthGuard.authorize secret false None request) as [[[]|e] request'] eqn:Ha; [|by split; [eexists|]].
  rewrite (guarded_user_undefined secret request request' Ht Ha). by apply (create_refused _ _ _ x).
Qed.

(** Nobody cancels a booking of his over HTTP either. *)
Theorem nobody_cancels_over_http {S} request id dto (s : S) w :
  booking_wf (view w) ->
  tokens_of_auth_service secret request ->
  (forall i b, bookings (btables (view w)) !! i = Some b -> b_userId b <> ""%string) ->
  let w' := final services (delete_booking secret request id dto) s w in
  (exists e, outcome services (delete_booking secret request id dto) s w = Err e) /\ view w' = view w.
Proof.
  intros Hwf Ht Hne. cbv zeta. pose proof (platform_conforms hbook note server vbook md Hbook Hnote) as Hc.
  call_wp Hc w. unfold delete_booking. apply AuthGuard.guarded_wp; [intros e; by split; [eexists|]|].
  intros request' Ha. rewrite (guarded_user_undefined secret request request' Ht Ha).
  unfold BookingController.cancel, cancelBooking. wp_step. wp_step. intros r v' H.
  destruct r as [[l|]|e]; book_sem H; [| |by destruct H as [-> _]; split; [eexists|]].
  - destruct H as (-> & [Hin _] & _). apply (elem_of_rows b_id) in Hin; [|by apply Hwf].
    destruct (String.eqb_spec (b_userId (booking l)) (text_or_empty None)) as [He|_]; [by destruct (Hne _ _ Hin)|].
    by split; [eexists|].
  - destruct H as (-> & _). by split; [eexists|].
Qed.

(** [GET /bookings/me] answers with the bookings of all users: the condition
    on the user is undefined, and left out of the query. *)
Theorem my_bookings_are_everybodys {S} request (s : S) w l :
  tokens_of_auth_service secret request ->
  outcome services (get_bookings_me secret request) s w = Ok l ->
  map booking l ≡ₚ rows (bookings (btables (view w))).
Proof.
  intros Ht. pose proof (platform_conforms hbook note server vbook md Hbook Hnote) as Hc.
  call_wp Hc w. unfold get_bookings_me. apply AuthGuard.guarded_wp; [done|].
  intros request' Ha. rewrite (guarded_user_undefined secret request request' Ht Ha).
  unfold BookingController.findMyBookings, findByUserId. wp_step. intros r v' H Hr.
  destruct r as [l'|e]; [|done]. injection Hr as ->. book_sem H. destruct H as (_ & Hsel & _). unfold selects in Hsel.
  rewrite Hsel. clear. induction (rows _) as [|b bs IH]; [done|]. cbn. by f_equiv.
Qed.
End Properties.

(** ** Concrete runs *)

(** Tokens of the users u1 and u9. *)
#[local] Instance http_jwt : AuthGuard.Jwt := fun token secret =>
  if String.eqb secret "s3cret" then
    if String.eqb token "jwt-1" then Ok (AuthGuard.claims (AuthWorld.mkJwtPayload "u1" "a@x.io" "user" true) 1700000000 1700000900)
    else if String.eqb token "jwt-9" then Ok (AuthGuard.claims (AuthWorld.mkJwtPayload "u9" "z@x.io" "user" true) 1700000000 1700000900)
    else Err (simple_exn "JsonWebTokenError" "invalid signature")
  else Err (simple_exn "JsonWebTokenError" "invalid signature").

Definition with_token (token : string) : AuthGuard.Request := AuthGuard.request_with ("Bearer " +:+ token).

Lemma with_token_issued token : tokens_of_auth_service "s3cret" (with_token token).
Proof.
  intros t payload _. unfold AuthGuard.jwt_verify, http_jwt. cbn [String.eqb Ascii.eqb Bool.eqb].
  destruct (String.eqb t "jwt-1"); [intros [= <-]; by eexists _, _, _|].
  destruct (String.eqb t "jwt-9"); [intros [= <-]; by eexists _, _, _|done].
Qed.

(** The holder of A1 books it through the method, and not over HTTP. *)
Lemma nobody_books_over_http_witness :
  is_ok (outcome ref_platform (@createBooking unit (seat_dto "A1" "pay-1")) tt held_world) = true /\
  exists e, outcome ref_platform (post_bookings (S := unit) "s3cret" (with_token "jwt-1") (seat_dto "A1" "pay-1")) tt held_world = Err e.
Proof.
  split; [vm_compute; reflexivity|].
  assert ("A1"%string ∈ seatIds (seat_dto "A1" "pay-1")) as Hin by left.
  assert (SeatLock.owned_by (SeatWorld.redis (ref_back held_world.2).1) "ev" "" "A1" = false) as Hno by (vm_compute; reflexivity).
  exact (proj1 (nobody_books_over_http (S := unit) "s3cret" (book_run good_answer) ref_note ref_server book_view ref_back Reliable
    (book_run_conforms good_answer) (fun c w => eq_refl) ref_serves (with_token "jwt-1") (seat_dto "A1" "pay-1") tt held_world "A1"
    (proj1 held_world_wf) (proj2 held_world_wf) (with_token_issued "jwt-1") Hin Hno)).
Defined.

(** The request does pass the guard. *)
Example with_token_admitted : (AuthGuard.authorize "s3cret" false None (with_token "jwt-1")).1 = Ok tt.
Proof. vm_compute. reflexivity. Qed.

Lemma nobody_cancels_over_http_witness :
  exists e, outcome ref_platform (delete_booking (S := unit) "s3cret" (with_token "jwt-1") "b1" (mkCancelBookingDto None "refund-1")) tt sold_world = Err e.
Proof.
  assert (forall i b, bookings (btables (platform_view book_view sold_world)) !! i = Some b -> b_userId b <> ""%string) as Hne.
  { intros i b. change (bookings (btables (platform_view book_view sold_world))) with
      (bookings (btables (book_view sold_world.1))).
    intros Hb%elem_of_map_to_list. revert Hb.
    match goal with |- _ ∈ ?l -> _ => let x := eval vm_compute in l in change l with x end.
    intros [= -> ->]%list_elem_of_singleton. discriminate. }
  exact (proj1 (nobody_cancels_over_http (S := unit) "s3cret" (book_run good_answer) ref_note ref_server book_view Reliable
    (book_run_conforms good_answer) (fun c w => eq_refl) (with_token "jwt-1") "b1" (mkCancelBookingDto None "refund-1") tt sold_world
    (booked_wf None 0) (with_token_issued "jwt-1") Hne)).
Defined.

(** A stranger sees the booking of u1. *)
Lemma my_bookings_are_everybodys_witness :
  exists l, outcome ref_platform (get_bookings_me (S := unit) "s3cret" (with_token "jwt-9")) tt sold_world = Ok l /\
    map b_userId (map booking l) = ["u1"]%string.
Proof.
  assert (exists l, outcome ref_platform (get_bookings_me (S := unit) "s3cret" (with_token "jwt-9")) tt sold_world = Ok l)
    as [l Hl] by (eexists; vm_compute; reflexivity).
  exists l. split; [exact Hl|].
  pose proof (my_bookings_are_everybodys (S := unit) "s3cret" (book_run good_answer) ref_note ref_server book_view Reliable
    (book_run_conforms good_answer) (fun c w => eq_refl) (with_token "jwt-9") tt sold_world l (with_token_issued "jwt-9") Hl) as H.
  assert (rows (bookings (btables (platform_view book_view sold_world))) = [demo_booking BookingStatus.CONFIRMED None 0]) as Hr
    by (vm_compute; reflexivity).
  rewrite Hr in H. apply Permutation_singleton_r in H. rewrite H. reflexivity.
Defined.
