(* ===== verification/SeatHttp.v ===== *)
(** * The seat inventory service over HTTP

    The controllers of SeatApi behind the [JwtAuthGuard] that
    apps/seat-inventory-service/src/app.module.ts installs, with the [Public]
    decorators of hold.controller.ts and inventory.controller.ts.  Microservice
    handlers do not inherit the guard, so the remote procedures and the Kafka
    consumer have none. *)

From S2P Require Import Prelude Messages Effects JsNumber JsDate Json Redis Sql SeatWorld SeatRef SeatLock Availability Inventory Hold SeatApi.
From S2P Require AuthWorld AuthGuard.

Section Handlers.
Context {jwt : AuthGuard.Jwt} {S : Type}.
Variable secret : string.

Definition seat_guard {A} (isPublic : bool) (request : AuthGuard.Request) (handler : prog S SeatE A) : prog S SeatE A :=
  AuthGuard.guarded secret isPublic None request (fun _ => handler).

Definition post_holds (request : AuthGuard.Request) (dto : HoldSeatDto) : prog S SeatE (list string * Z) :=
  seat_guard false request (Http.holdSeats dto).
Definition delete_holds (request : AuthGuard.Request) (eventId : string) (body : ReleaseSeatDto) : prog S SeatE unit :=
  seat_guard false request (Http.releaseSeats eventId body).
Definition post_holds_verify (request : AuthGuard.Request) (dto : SeatsRequest) : prog S SeatE bool :=
  seat_guard false request (Http.verifyHold dto).
Definition get_raw (request : AuthGuard.Request) (eventId : string) : prog S SeatE (list SeatInventory) :=
  seat_guard true request (Http.findByEventRaw eventId).
Definition get_available (request : AuthGuard.Request) (eventId : string) : prog S SeatE (list json) :=
  seat_guard true request (Http.getAvailability eventId).
(** The one handler of the controller without [Public]. *)
Definition get_available_count (request : AuthGuard.Request) (eventId : string) : prog S SeatE nat :=
  seat_guard false request (Http.getAvailableCount eventId).
Definition get_summary (request : AuthGuard.Request) (eventId : string) : prog S SeatE Summary :=
  seat_guard true request (Http.getSummary eventId).
Definition get_event_seats (request : AuthGuard.Request) (eventId : string) : prog S SeatE (list json) :=
  seat_guard true request (Http.findByEvent eventId).
End Handlers.

(** The requests the service answers. *)
Inductive SeatRequest :=
| HoldSeats (dto : HoldSeatDto)
| ReleaseSeats (eventId : string) (body : ReleaseSeatDto)
| VerifyHold (dto : SeatsRequest)
| GetRaw (eventId : string)
| GetAvailable (eventId : string)
| GetAvailableCount (eventId : string)
| GetSummary (eventId : string)
| GetEventSeats (eventId : string).

Definition seat_serve {jwt : AuthGuard.Jwt} {S} (secret : string) (request : AuthGuard.Request) (r : SeatRequest) :
    prog S SeatE unit :=
  match r with
  | HoldSeats dto => post_holds secret request dto ;; Ret tt
  | ReleaseSeats e body => delete_holds secret request e body
  | VerifyHold dto => post_holds_verify secret request dto ;; Ret tt
  | GetRaw e => get_raw secret request e ;; Ret tt
  | GetAvailable e => get_available secret request e ;; Ret tt
  | GetAvailableCount e => get_available_count secret request e ;; Ret tt
  | GetSummary e => get_summary secret request e ;; Ret tt
  | GetEventSeats e => get_event_seats secret request e ;; Ret tt
  end.

(** ** Reading *)

(** The operations that read PostgreSQL or use Redis. *)
Definition reads (X : Type) (op : SeatE X) : Prop :=
  match op with SRedis _ | SNow | SeatCount _ | SeatFind _ | SeatEventIds | HoldFind _ => True | _ => False end.

Lemma reads_keep_tables md t X (op : SeatE X) v r v' :
  reads X op -> obeys md seat_behaviour X op v r v' -> tables v = t -> tables v' = t.
Proof.
  intros Hop H Ht. destruct r as [x|e]; [|by destruct H as [-> _]].
  destruct op; try done; seat_sem H; [by destruct H as (m & _ & ->)|by subst v'|by destruct H as [-> _]..].
Qed.

Section Reads.
Context {S : Type}.

Lemma getEventSeatsWithStatus_reads e : uses reads (getEventSeatsWithStatus (S := S) e).
Proof.
  unfold getEventSeatsWithStatus. apply uses_bind; [by apply uses_call|]. intros st.
  apply uses_bind; [by apply uses_call|]. intros ds. apply uses_bind.
  - destruct (Nat.eqb (length st) 0); [|done]. apply uses_bind; [|intros _; by repeat (apply uses_bind; [by apply uses_call|intros ?])].
    unfold rebuildCache. apply uses_bind; [by apply uses_call|]. intros l.
    destruct (Nat.eqb (length l) 0); [done|by apply uses_call].
  - intros [st' ds']. apply uses_of_result.
Qed.

Lemma verify_loop_reads e ids u : uses reads (Http.verify_loop (S := S) e ids u).
Proof.
  induction ids as [|x ids IH]; cbn [Http.verify_loop]; [done|]. apply uses_bind.
  - unfold getLockInfo. apply uses_bind; [by apply uses_call|]. intros [d|]; [|done].
    destruct (negb (truthy d)); [done|]. apply uses_bind; [|done]. unfold parse_json. by destruct (parse d).
  - intros [j|]; [|done]. destruct (negb (json_truthy j)); [done|]. by destruct (Grpc.lock_refused _ u).
Qed.
End Reads.

(** ** Properties *)

(** The request's bearer token was verified. *)
Definition has_token {jwt : AuthGuard.Jwt} (secret : string) (request : AuthGuard.Request) : Prop :=
  exists token payload, AuthGuard.bearer_token request = Some token /\ AuthGuard.jwt_verify token secret = Ok payload.

Lemma guard_has_token {jwt : AuthGuard.Jwt} secret request request' :
  AuthGuard.authorize secret false None request = (Ok tt, request') -> has_token secret request.
Proof.
  unfold AuthGuard.authorize. pose proof (AuthGuard.canActivate_token secret request) as Hc.
  destruct (AuthGuard.bearer_token request) as [token|] eqn:Ht; [|by destruct Hc as [m ->]].
  rewrite Hc. destruct (AuthGuard.jwt_verify token secret) as [payload|e] eqn:Hv; [|done].
  intros _. by exists token, payload.
Qed.

Section Properties.
Context {jwt : AuthGuard.Jwt} {S W : Type}.
Variable secret : string.
Variable h : forall X, SeatE X -> W -> result X * W.
Variable view : W -> SeatView.
Variable md : mode.
Hypothesis Hh : conforms md seat_behaviour h view.

(** C30: Only a bearer of a token changes a seat or a hold, and only by POST /holds
    and DELETE /holds/:eventId: every other request, and every request without
    a verified token, leaves both tables as they are, whatever fails. *)
Theorem seat_writes_need_token request r s w :
  tables (view (final h (seat_serve (S := S) secret request r) s w)) = tables (view w) \/
  has_token secret request /\ match r with HoldSeats _ | ReleaseSeats _ _ => True | _ => False end.
Proof.
  assert (forall A (m : prog S SeatE A), uses reads m -> tables (view (final h m s w)) = tables (view w)) as Hread.
  { intros A m Hm. call_wp Hh w. apply (uses_wp reads _ (fun v => tables v = tables (view w))); [|done|done|done].
    intros X op v r' v' Hop Hs. by eapply reads_keep_tables. }
  assert (forall A isPublic (m : prog S SeatE A), uses reads m -> uses reads (seat_guard secret isPublic request m)) as Hguard.
  { intros A isPublic m Hm. unfold seat_guard, AuthGuard.guarded. by destruct (AuthGuard.authorize _ _ _ _) as [[]]. }
  assert (forall A (m : prog S SeatE A), has_token secret request \/ uses reads (seat_guard secret false request m)) as Htok.
  { intros A m. unfold seat_guard, AuthGuard.guarded.
    destruct (AuthGuard.authorize secret false None request) as [[[]|e] request'] eqn:Ha; [left; by eapply guard_has_token|by right]. }
  destruct r; unfold seat_serve.
  - destruct (Htok _ (Http.holdSeats dto)) as [H|H]; [by right|left]. apply Hread, uses_bind; [exact H|done].
  - destruct (Htok _ (Http.releaseSeats eventId body)) as [H|H]; [by right|left]. by apply Hread.
  - left. apply Hread, uses_bind; [|done]. apply Hguard, uses_bind; [apply verify_loop_reads|done].
  - left. apply Hread, uses_bind; [|done]. by apply Hguard, uses_call.
  - left. apply Hread, uses_bind; [|done]. apply Hguard, uses_bind; [apply getEventSeatsWithStatus_reads|done].
  - left. apply Hread, uses_bind; [|done]. apply Hguard, uses_bind; [by apply uses_call|done].
  - left. apply Hread, uses_bind; [|done]. apply Hguard, uses_bind; [apply getEventSeatsWithStatus_reads|done].
  - left. apply Hread, uses_bind; [|done]. apply Hguard, getEventSeatsWithStatus_reads.
Qed.
End Properties.

(** ** Concrete runs *)

(** One token, of the user u9. *)
#[local] Instance seat_jwt : AuthGuard.Jwt := fun token secret =>
  if String.eqb token "jwt-9" && String.eqb secret "s3cret"
  then Ok (AuthGuard.claims (AuthWorld.mkJwtPayload "u9" "z@x.io" "user" true) 1700000000 1700000900)
  else Err (simple_exn "JsonWebTokenError" "invalid signature").

Lemma seat_writes_need_token_witness :
  tables (seat_view (final seat_run (seat_serve (S := unit) "s3cret" (AuthGuard.request_with "Bearer forged")
    (HoldSeats (mkHoldSeatDto "ev" ["A1"] "alice" "sess")))%string tt demo_world)) = tables (seat_view demo_world).
Proof.
  destruct (seat_writes_need_token (S := unit) "s3cret" seat_run seat_view Reliable seat_run_conforms
    (AuthGuard.request_with "Bearer forged") (HoldSeats (mkHoldSeatDto "ev" ["A1"] "alice" "sess"))%string tt demo_world)
    as [H|[(token & payload & Ht & Hv) _]]; [exact H|].
  vm_compute in Ht. injection Ht as <-. vm_compute in Hv. discriminate Hv.
Defined.

(** The user of a hold is whoever the body names: with the token of u9 the hold
    of alice is released, and her seat is for sale again. *)
Theorem stranger_releases_hold :
  let alice := final seat_run (@Hold.holdSeats unit "ev" ["A1"]%string "alice" "sess") tt demo_world in
  let stolen := final seat_run (delete_holds "s3cret" (AuthGuard.request_with "Bearer jwt-9") "ev"
    (mkReleaseSeatDto "alice" ["A1"]%string)) tt alice in
  option_map si_status (seat_at (tables (seat_view alice)) "ev" "A1") = Some HELD /\
  owned_by (redis (seat_view alice)) "ev" "alice" "A1" = true /\
  option_map si_status (seat_at (tables (seat_view stolen)) "ev" "A1") = Some AVAILABLE /\
  owned_by (redis (seat_view stolen)) "ev" "alice" "A1" = false.
Proof. vm_compute. by split_and!. Qed.
