(* ===== verification/Ledger.v ===== *)
(** * The books of the payment service

    [ledger] is the invariant of the payment database and of what was sent to
    the providers: money that is marked as received was charged, money that is
    marked as returned was refunded, once.  The two procedures the booking
    service calls keep it as long as no operation of the payment service fails
    ([initiatePayment_ledger], [refundByBooking_ledger]); hence it holds however
    many methods of the booking service run at the same time, whatever fails in
    the booking and the seat services.  [stale_cancellation] is what such
    cancellations do to the booking instead. *)

From S2P Require Import Prelude Messages Effects Interleave Ownership JsNumber JsDate Json Redis Sql.
From S2P Require Import PaymentWorld PaymentRef Gateway Payment RefundService PaymentApi.
From S2P Require SeatWorld SeatRef BookingWorld BookingRef Tickets BookingCreate BookingRefund RefundRecovery Platform.

Record ledger (v : PaymentView) : Prop := {
  lg_wf : pay_wf v;
  (* a payment that was received was charged under its key *)
  lg_charged : forall i p, payments v !! i = Some p ->
    p_status p = PaymentStatus.SUCCEEDED \/ p_status p = PaymentStatus.REFUNDED ->
    paid_by (p_idempotencyKey p) (p_providerTxId p) v;
  (* a PROCESSED refund is of a REFUNDED payment, and the provider made it *)
  lg_processed : forall i r, refunds v !! i = Some r -> r_status r = RefundStatus.PROCESSED ->
    exists p sr, payments v !! r_paymentId r = Some p /\ p_status p = PaymentStatus.REFUNDED /\
      (refund_request p, sr) ∈ refunded v /\ sr_status sr = "succeeded"%string /\
      r_providerRefundId r = Some (sr_id sr);
  (* and the other way round *)
  lg_refunded : forall i p, payments v !! i = Some p -> p_status p = PaymentStatus.REFUNDED ->
    exists j r, refunds v !! j = Some r /\ r_paymentId r = i /\ r_status r = RefundStatus.PROCESSED;
  (* no payment is returned twice *)
  lg_once : forall i j r r', refunds v !! i = Some r -> refunds v !! j = Some r' ->
    r_status r = RefundStatus.PROCESSED -> r_status r' = RefundStatus.PROCESSED ->
    r_paymentId r = r_paymentId r' -> i = j;
}.

Lemma paid_by_grows key tx v v' key' :
  charged_at_most_once key' v v' -> paid_by key tx v -> paid_by key tx v'.
Proof.
  intros Hc (cr & i & Hin & Hk & Hs & Ht). exists cr, i. split_and!; [|done..].
  destruct Hc as [->|(cr' & i' & _ & _ & ->)]; [done|]. apply elem_of_app. by left.
Qed.

(** *** A payment is added *)

Lemma ledger_added p v a chs evs :
  ledger v -> ~ payment_conflict (p_idempotencyKey p) (payments v) -> payments v !! p_id p = None ->
  charged_at_most_once (p_idempotencyKey p) v (row_view v p a chs evs) ->
  payment_settled p v (row_view v p a chs evs) -> ledger (row_view v p a chs evs).
Proof.
  intros [Hwf Hch Hpr Hre Hon] Hn Hf Hc Hset.
  assert (p_status p <> PaymentStatus.REFUNDED) as Hnr by (destruct Hset as [[-> _]|[-> _]]; done).
  assert (forall i q, payments (row_view v p a chs evs) !! i = Some q ->
    (p_id p = i /\ q = set_p_amount (DText a) p) \/ payments v !! i = Some q) as Hrow.
  { intros i q. cbn. rewrite lookup_insert_Some. intros [[? <-]|[_ ?]]; [by left|by right]. }
  split.
  - eapply payment_added_wf; [exact Hwf|exact Hn|by apply row_view_added|done].
  - intros i q [[_ ->]|Hq]%Hrow Hst.
    + destruct Hset as [(_ & Hpaid & _)|[Hfail _]]; [exact Hpaid|]. cbn in Hst. rewrite Hfail in Hst. by destruct Hst.
    + eapply paid_by_grows; [exact Hc|]. by eapply Hch.
  - intros i r Hr Hst. destruct (Hpr i r Hr Hst) as (q & sr & Hq & Hrest). exists q, sr. split; [|exact Hrest].
    cbn. rewrite lookup_insert_ne; [done|]. intros He. by rewrite He, Hq in Hf.
  - intros i q [[_ ->]|Hq]%Hrow Hst; [done|]. exact (Hre i q Hq Hst).
  - exact Hon.
Qed.

(** *** A refund is added *)

Lemma ledger_failed r v a rf evs :
  ledger v -> refunds v !! r_id r = None -> r_status r <> RefundStatus.PROCESSED ->
  (rf = refunded v \/ exists x, rf = refunded v ++ [x]) ->
  ledger (refund_view v r a (payments v) rf evs).
Proof.
  intros [Hwf Hch Hpr Hre Hon] Hf Hst Hrf.
  assert (forall i q, refunds (refund_view v r a (payments v) rf evs) !! i = Some q ->
    r_status q = RefundStatus.PROCESSED -> refunds v !! i = Some q) as Hrow.
  { intros i q. cbn. rewrite lookup_insert_Some. by intros [[_ <-]|[_ ?]]. }
  split.
  - apply refund_view_wf; [done|done|by left].
  - exact Hch.
  - intros i q Hq Hs. destruct (Hpr i q (Hrow i q Hq Hs) Hs) as (p & sr & Hp & Hrp & Hin & Hrest).
    exists p, sr. split_and!; [done|done| |apply Hrest..].
    destruct Hrf as [->|[x ->]]; [done|]. apply elem_of_app. by left.
  - intros i p Hp Hs. destruct (Hre i p Hp Hs) as (j & q & Hq & Hrest). exists j, q. split; [|exact Hrest].
    cbn. rewrite lookup_insert_ne; [done|]. intros He. by rewrite He, Hq in Hf.
  - intros i j q q' Hq Hq' Hs Hs'. exact (Hon i j q q' (Hrow i q Hq Hs) (Hrow j q' Hq' Hs') Hs Hs').
Qed.

Lemma ledger_processed b p key reason r v a ps rf evs :
  ledger v -> payments v !! p_id p = Some p -> succeeded_for b p = true ->
  refund_of p key reason r -> refunds v !! r_id r = None ->
  refund_processed p r v (refund_view v r a ps rf evs) -> ledger (refund_view v r a ps rf evs).
Proof.
  intros [Hwf Hch Hpr Hre Hon] Hp Hs (Hrp & _) Hf (Hst & (sr & Hss & Hpid & Hrf) & Hps & _).
  cbn in Hrf, Hps. subst ps rf. unfold succeeded_for in Hs. apply andb_true_iff in Hs as [_ Hs%bool_decide_eq_true].
  (* the payment had no PROCESSED refund *)
  assert (forall i q, refunds v !! i = Some q -> r_status q = RefundStatus.PROCESSED -> r_paymentId q <> p_id p) as Hno.
  { intros i q Hq Hst' He. destruct (Hpr i q Hq Hst') as (p' & _ & Hp' & Hr' & _). rewrite He, Hp in Hp'.
    injection Hp' as <-. congruence. }
  split.
  - apply refund_view_wf; [done|done|right]. by exists p.
  - intros i q. cbn. rewrite lookup_insert_Some. intros [[<- <-]|[_ Hq]] Hst'; [|exact (Hch i q Hq Hst')].
    apply (Hch (p_id p) p Hp). by left.
  - intros i q. cbn. rewrite lookup_insert_Some. intros [[<- <-]|[_ Hq]] Hst'.
    + eexists _, sr. cbn. rewrite Hrp, lookup_insert_eq. split_and!; [done|done| |done|done].
      apply elem_of_app. right. left.
    + destruct (Hpr i q Hq Hst') as (p' & sr' & Hp' & Hr' & Hin & Hrest). exists p', sr'.
      split_and!; [|done| |apply Hrest..].
      * rewrite lookup_insert_ne; [done|]. intros He. symmetry in He. by apply (Hno i q Hq Hst').
      * apply elem_of_app. by left.
  - intros i q. cbn. rewrite lookup_insert_Some. intros [[<- <-]|[Hne Hq]] Hst'.
    + exists (r_id r). eexists. rewrite lookup_insert_eq. split_and!; [done|exact Hrp|exact Hst].
    + destruct (Hre i q Hq Hst') as (j & r' & Hr' & Hrest). exists j, r'. split; [|exact Hrest].
      rewrite lookup_insert_ne; [done|]. intros He. by rewrite He, Hr' in Hf.
  - intros i j q q'. cbn. rewrite !lookup_insert_Some.
    intros [[<- <-]|[_ Hq]] [[<- <-]|[_ Hq']] Hs1 Hs2 He; [done| | |exact (Hon i j q q' Hq Hq' Hs1 Hs2 He)].
    + cbn in He. rewrite Hrp in He. by destruct (Hno j q' Hq' Hs2).
    + cbn in He. rewrite Hrp in He. by destruct (Hno i q Hq Hs1).
Qed.

(** *** The two procedures *)

Section Procedures.
Context {S : Type}.
Implicit Types (s : S) (v : PaymentView).
Abbreviation spec := (obeys Reliable pay_behaviour).
Abbreviation keeps m s v := (wp spec m (fun _ _ v' => ledger v') s v).

Lemma initiatePayment_ledger cfg dto s v : ledger v -> keeps (initiatePayment cfg dto) s v.
Proof.
  intros Hv. apply initiatePayment_wp; [done| |done|done].
  intros p a chs evs Hn Hof Hf Hc Hset. pose proof Hof as (_ & Hk & _).
  rewrite <- Hk in Hn, Hc. by apply ledger_added.
Qed.

Lemma refundByBooking_ledger b key reason s v : ledger v -> keeps (refundByBooking b key reason) s v.
Proof.
  intros Hv. apply refundByBooking_wp; [apply Hv|done|done| |done|].
  - intros p r a ps rf evs Hp Hs _ Hof Hf [Hres|(Hst & Hone & Hps & _)]; [by eapply ledger_processed|].
    cbn in Hps, Hone. subst ps. apply ledger_failed; [done|done|congruence|].
    destruct Hone as [Hone|[sr Hone]]; cbn in Hone; [by left|right; by eexists].
  - intros e p r a ps rf evs Hp Hs _ [Hmd|(_ & Hst & -> & _)] _ Hf Hone _; [done|].
    apply ledger_failed; [done|done|congruence|].
    destruct Hone as [Hone|[sr Hone]]; cbn in Hone; [by left|right; by eexists].
Qed.
End Procedures.

(** ** The booking service over the payment service *)

Section Platform.
Context {WB WS WP S A : Type}.
(** Each request has a connection of its own to the booking database; of that
    database and of the seat inventory nothing is assumed. *)
Variable hbook : nat -> forall X, BookingWorld.BookingE X -> WB -> result X * WB.
Variable note : BookingWorld.RpcCall -> WB -> WB.
Variable hseat : forall X, SeatWorld.SeatE X -> WS -> result X * WS.
Variable hpay : forall X, PaymentE X -> WP -> result X * WP.
Variable cfg : option string.
Variable status_error : exn -> exn.
Variable vpay : WP -> PaymentView.
Hypothesis Hpay : conforms Reliable pay_behaviour hpay vpay.
Abbreviation server := (Platform.serve hseat hpay cfg status_error).
Abbreviation services := (fun i => Platform.platform (hbook i) note server).

Lemma at_payments_ledger {X Y} (m : prog unit PaymentE X) (f : X -> Y) (w : WS * WP) :
  (forall v, ledger v -> wp (obeys Reliable pay_behaviour) m (fun _ _ v' => ledger v') tt v) ->
  ledger (vpay w.2) -> ledger (vpay (Platform.at_payments hpay status_error m f w).2.2).
Proof.
  intros Hm Hw. unfold Platform.at_payments.
  pose proof (wp_sound Reliable _ hpay vpay m (fun _ v' => ledger v') tt w.2 Hpay (Hm _ Hw)) as H.
  unfold final in H. by destruct (run hpay m tt w.2) as [[r []] wp0].
Qed.

Lemma at_seats_payments {X Y} (m : prog unit SeatWorld.SeatE X) (f : X -> Y) (w : WS * WP) :
  (Platform.at_seats hseat status_error m f w).2.2 = w.2.
Proof. unfold Platform.at_seats. by destruct (run hseat m tt w.1) as [[r []] ws]. Qed.

Lemma serve_ledger X (op : BookingWorld.RpcE X) (w : WS * WP) :
  ledger (vpay w.2) -> ledger (vpay (server X op w).2.2).
Proof.
  intros Hw. destruct op; cbn [Platform.serve]; rewrite ?at_seats_payments; try done.
  - destruct (Platform.method_of _) as [m|]; [|done]. apply at_payments_ledger; [|done].
    intros v Hv. unfold grpc_initiatePayment. wp_step. eapply wp_mono; [by apply initiatePayment_ledger|].
    by intros [p|e] s v' Hv'.
  - apply at_payments_ledger; [|done]. intros v Hv. unfold refundPayment. wp_step. wp_step.
    eapply wp_mono; [by apply refundByBooking_ledger|]. by intros [r|e] s v' Hv'.
Qed.

(** C8: The books balance.  However many methods of the booking service run
    interleaved in any order, over any database and any seat inventory, the
    payments stay in order as long as the payment service's own operations do
    not fail and it answers one call at a time: what is marked as paid was
    charged, a payment is REFUNDED exactly when it has a PROCESSED refund, which
    the provider confirmed, and it never has two. *)
Theorem books_balance (cs : list (prog S BookingWorld.BookingE A * S)) schedule w :
  ledger (vpay w.2.2) ->
  let v := vpay (run_many services schedule cs w).2.2.2 in
  ledger v /\
  (forall i p, payments v !! i = Some p ->
     p_status p = PaymentStatus.REFUNDED <->
     exists j r, refunds v !! j = Some r /\ r_paymentId r = i /\ r_status r = RefundStatus.PROCESSED) /\
  (forall i j r r', refunds v !! i = Some r -> refunds v !! j = Some r' ->
     r_status r = RefundStatus.PROCESSED -> r_status r' = RefundStatus.PROCESSED ->
     r_paymentId r = r_paymentId r' -> r = r').
Proof.
  intros Hw. cbv zeta.
  pose proof (run_many_invariant services (fun w => ledger (vpay w.2.2)) schedule cs w) as Hinv.
  destruct (run_many services schedule cs w) as [rs w']. cbn [snd] in *.
  assert (ledger (vpay w'.2.2)) as Hv.
  { apply Hinv; [|exact Hw]. intros i X op [wb wk] H. destruct op; cbn [Platform.platform fst snd];
      lazymatch goal with |- context [hbook _ _ _ _] => by destruct (hbook i _ _ wb) | _ => idtac end.
    pose proof (serve_ledger X op wk H) as Hs. by destruct (server X op wk) as [r wk']. }
  clear Hinv. split; [exact Hv|]. destruct Hv as [_ _ Hpr Hre Hon]. split.
  - intros i p Hp. split; [by apply Hre|]. intros (j & r & Hr & <- & Hst).
    destruct (Hpr j r Hr Hst) as (p' & _ & Hp' & Hst' & _). rewrite Hp in Hp'. by injection Hp' as ->.
  - intros i j r r' Hr Hr' Hs Hs' He. pose proof (Hon i j r r' Hr Hr' Hs Hs' He) as <-.
    rewrite Hr in Hr'. by injection Hr'.
Qed.
End Platform.

(** ** Concrete runs *)

Lemma empty_ledger : ledger (pay_view pay_world).
Proof.
  split; [apply pay_world_wf|..]; cbn; intros i *; by rewrite lookup_empty.
Qed.

(** Booking b1 was paid for, and its seats are sold. *)
Definition paid_up : Platform.PlatformRefWorld :=
  (BookingRef.booked None 0,
   (SeatRef.seat_world [SeatRef.plain_seat "r1" "ev" "A1" SeatWorld.SOLD; SeatRef.plain_seat "r2" "ev" "A2" SeatWorld.SOLD] [] 1000,
    final pay_run (@initiatePayment unit None demo_dto) tt pay_world)).

Lemma paid_up_ledger : ledger (pay_view paid_up.2.2).
Proof.
  exact (wp_sound Reliable _ pay_run pay_view (@initiatePayment unit None demo_dto) (fun _ v => ledger v) tt pay_world
    pay_run_conforms (initiatePayment_ledger None demo_dto tt _ empty_ledger)).
Qed.

(** The user cancels twice at the same time. *)
Definition cancellations : list (prog unit BookingWorld.BookingE BookingWorld.LoadedBooking * unit) :=
  [(BookingRefund.cancelBooking "b1" "u1" "refund-1" None, tt);
   (BookingRefund.cancelBooking "b1" "u1" "refund-2" None, tt)]%string.

(** The second request reads the booking and is overtaken. *)
Definition overtaken : list nat := 1 :: repeat 0 40.

Lemma books_balance_witness :
  let w' := (run_many (fun _ => Platform.ref_platform) overtaken cancellations paid_up).2 in
  ledger (pay_view w'.2.2) /\ map r_status (rows (refunds (pay_view w'.2.2))) = [RefundStatus.PROCESSED].
Proof.
  cbv zeta. split; [|vm_compute; reflexivity].
  exact (proj1 (books_balance (S := unit) (fun _ => BookingRef.book_run BookingRef.good_answer) Platform.ref_note
    SeatRef.seat_run pay_run None (fun e => e) pay_view pay_run_conforms cancellations overtaken paid_up paid_up_ledger)).
Defined.

(** The booking does not keep up with the books.  A cancellation that read
    the booking before another one finished saves its own copy afterwards: the
    money was returned, the seats are for sale again and the ticket is cancelled,
    but the booking is CONFIRMED with a FAILED refund, and cannot be cancelled
    any more. *)
Theorem stale_cancellation :
  let '(rs, w') := run_many (fun _ => Platform.ref_platform) overtaken cancellations paid_up in
  let t := BookingWorld.btables (Platform.platform_view BookingRef.book_view w') in
  map is_ok rs = [true; false] /\
  map (fun b => (BookingWorld.b_status b, BookingWorld.b_refundState b)) (rows (BookingWorld.bookings t)) =
    [(BookingWorld.BookingStatus.CONFIRMED, Some BookingWorld.RefundState.FAILED)] /\
  map p_status (rows (payments (pay_view w'.2.2))) = [PaymentStatus.REFUNDED] /\
  map SeatWorld.si_status (rows (SeatWorld.seats (SeatWorld.tables (SeatRef.seat_view w'.2.1)))) =
    [SeatWorld.AVAILABLE; SeatWorld.AVAILABLE] /\
  map BookingWorld.t_status (rows (BookingWorld.tickets t)) =
    [BookingWorld.TicketStatus.CANCELLED; BookingWorld.TicketStatus.USED] /\
  is_ok (outcome Platform.ref_platform (@BookingRefund.cancelBooking unit "b1" "u1" "refund-3" None) tt w') = false.
Proof. vm_compute. by split_and!. Qed.

(** ** A lost answer *)

(** The answer to a refund is lost on its way; everything else arrives. *)
Definition lossy_server (X : Type) (op : BookingWorld.RpcE X) (w : SeatRef.SeatRefWorld * PaymentRefWorld) :
    result X * (SeatRef.SeatRefWorld * PaymentRefWorld) :=
  let '(r, w') := Platform.ref_server X op w in
  (match op in BookingWorld.RpcE X return result X -> result X with
   | BookingWorld.RefundPayment _ _ _ => fun _ => Err (JsError "14 UNAVAILABLE: Connection dropped")
   | _ => fun r => r
   end r, w').

Definition lossy_platform :=
  Platform.platform (BookingRef.book_run BookingRef.good_answer) Platform.ref_note lossy_server.

(** The recovery worker does not recover the refund it is made for (see LostRefund
    for the reason).  When the answer to a refund that succeeded is lost, the
    booking stays in REFUND_INITIATED, and the next tick asks for the refund again
    and is refused: the booking is CONFIRMED with a FAILED refund, its ticket
    active and its seats sold, and the money is returned. *)
Theorem lost_refund_not_recovered :
  let w1 := final lossy_platform (@BookingRefund.cancelBooking unit "b1" "u1" "refund-1" None) tt paid_up in
  let w2 := final Platform.ref_platform RefundRecovery.recoveryStuckRefunds false w1 in
  let t (w : Platform.PlatformRefWorld) := BookingWorld.btables (Platform.platform_view BookingRef.book_view w) in
  let states w := map (fun b => (BookingWorld.b_status b, BookingWorld.b_refundState b)) (rows (BookingWorld.bookings (t w))) in
  states w1 = [(BookingWorld.BookingStatus.CONFIRMED, Some BookingWorld.RefundState.REFUND_INITIATED)] /\
  states w2 = [(BookingWorld.BookingStatus.CONFIRMED, Some BookingWorld.RefundState.FAILED)] /\
  map p_status (rows (payments (pay_view w2.2.2))) = [PaymentStatus.REFUNDED] /\
  map SeatWorld.si_status (rows (SeatWorld.seats (SeatWorld.tables (SeatRef.seat_view w2.2.1)))) =
    [SeatWorld.SOLD; SeatWorld.SOLD] /\
  map BookingWorld.t_status (rows (BookingWorld.tickets (t w2))) =
    [BookingWorld.TicketStatus.ACTIVE; BookingWorld.TicketStatus.USED] /\
  is_ok (outcome Platform.ref_platform (@BookingRefund.cancelBooking unit "b1" "u1" "refund-1" None) tt w2) = false.
Proof. vm_compute. by split_and!. Qed.
