(* ===== verification/LostRefund.v ===== *)
(** * A refund whose answer was lost

    The payment service returned the money and marked the payment REFUNDED, but
    the booking service did not hear of it: its booking stays in
    REFUND_INITIATED, and the payment service has no SUCCEEDED payment of it any
    more ([unpaid]).  The payment service looks for such a payment before it
    looks for the idempotency key, so it refuses every further request
    ([serve_refuses]); neither a cancellation nor the recovery worker, which was
    made for this case, ever completes the refund
    ([lost_refund_never_completed]). *)

From S2P Require Import Prelude Messages Effects JsNumber JsDate Json Redis Sql.
From S2P Require SeatWorld SeatRef PaymentWorld PaymentRef RefundService PaymentApi Payment Ledger.
From S2P Require Import BookingWorld BookingRef Tickets BookingCreate BookingRefund RefundRecovery Platform.

(** ** The payment service *)

Definition unpaid (id : string) (v : PaymentWorld.PaymentView) : Prop :=
  forall i p, PaymentWorld.payments v !! i = Some p -> RefundService.succeeded_for id p = false.

Lemma unpaid_refunded id p v r a ps rf evs :
  unpaid id v -> ps = PaymentWorld.payments v \/
    ps = <[PaymentWorld.p_id p := PaymentWorld.set_p_status PaymentWorld.PaymentStatus.REFUNDED p]> (PaymentWorld.payments v) ->
  unpaid id (RefundService.refund_view v r a ps rf evs).
Proof.
  intros Hu Hps i q. cbn. destruct Hps as [->| ->]; [by apply Hu|]. rewrite lookup_insert_Some.
  intros [[_ <-]|[_ Hq]]; [|by eapply Hu]. unfold RefundService.succeeded_for. cbn. apply andb_false_r.
Qed.

(** A refund of the booking is refused. *)
Lemma refundPayment_unpaid {S} md id b key reason (Q : result RefundPaymentResponse -> S -> PaymentWorld.PaymentView -> Prop) s v :
  PaymentWorld.pay_wf v -> unpaid id v ->
  (forall resp s v', unpaid id v' -> (b = id -> rp_success resp = false) -> Q (Ok resp) s v') ->
  wp (obeys md PaymentWorld.pay_behaviour) (PaymentApi.refundPayment b key reason) Q s v.
Proof.
  intros Hv Hu HQ. unfold PaymentApi.refundPayment. wp_step. wp_step.
  assert (forall p, PaymentWorld.payments v !! PaymentWorld.p_id p = Some p -> RefundService.succeeded_for b p = true -> b <> id) as Hne.
  { intros p Hp Hs ->. by rewrite (Hu _ _ Hp) in Hs. }
  apply RefundService.refundByBooking_wp; [done|..].
  - intros _. wp_step. by apply HQ.
  - intros i r p Hp Hs _ _. wp_step. apply HQ; [done|]. intros He. by destruct (Hne p Hp Hs).
  - intros p r a ps rf evs Hp Hs _ _ _ Hres. wp_step. apply HQ; [|intros He; by destruct (Hne p Hp Hs)].
    apply (unpaid_refunded id p); [done|]. destruct Hres as [(_ & _ & Hps & _)|(_ & _ & Hps & _)]; cbn in Hps; auto.
  - intros e _. wp_step. by apply HQ.
  - intros e p r a ps rf evs Hp Hs _ _ _ _ _ Hps. wp_step. apply HQ; [|done]. by apply (unpaid_refunded id p).
Qed.

(** ** The calls *)

(** A call whose reply is that no money went back. *)
Definition refused (id : string) (c : RpcCall) : Prop :=
  match c with
  | CRefundPayment b _ _ r => b = id -> exists resp, r = Ok resp /\ rp_success resp = false
  | _ => True
  end.

Definition pays_nothing (X : Type) (op : BookingE X) : Prop :=
  match op with Rpc (InitiatePayment _) => False | _ => True end.


(** ** The booking service *)

(** The refund is begun, or was refused. *)
Definition unfinished (b : Booking) : Prop :=
  b_refundState b = Some RefundState.REFUND_INITIATED \/ b_refundState b = Some RefundState.FAILED.

(** The booking is open for ever: its status is [st], its refund unfinished. *)
Definition row_open (id : string) (st : BookingStatus.t) (v : BookingView) : Prop :=
  exists b, bookings (btables v) !! id = Some b /\ b_status b = st /\ unfinished b.

Definition tickets_kept (id : string) (v v' : BookingView) : Prop :=
  forall i t, tickets (btables v) !! i = Some t -> t_bookingId t = id -> tickets (btables v') !! i = Some t.

Lemma tickets_kept_trans id v1 v2 v3 : tickets_kept id v1 v2 -> tickets_kept id v2 v3 -> tickets_kept id v1 v3.
Proof. intros H1 H2 i t Ht He. auto. Qed.

Lemma tickets_same id v v' : tickets (btables v') = tickets (btables v) -> tickets_kept id v v'.
Proof. intros He i t Ht _. by rewrite He. Qed.

Lemma cancel_tickets_kept id b v : b <> id -> tickets_kept id v (cancel_tickets b v).
Proof.
  intros Hne i t Ht He. cbn. rewrite update_where_lookup, Ht. cbn. unfold active_of.
  destruct (String.eqb_spec (t_bookingId t) b) as [Hb|_]; [congruence|done].
Qed.

(** Calls are added, and they were all refused. *)
Definition sent_refused (id : string) (v v' : BookingView) : Prop :=
  exists cs, calls v' = calls v ++ cs /\ Forall (refused id) cs.

Lemma sent_refused_split id v v1 v' :
  grows v v1 -> grows v1 v' -> sent_refused id v v' -> sent_refused id v v1 /\ sent_refused id v1 v'.
Proof.
  intros (c1 & _ & _ & H1 & _) (c2 & _ & _ & H2 & _) (cs & Hcs & Hall). rewrite H2, H1, <- app_assoc in Hcs.
  apply app_inv_head in Hcs as <-. apply Forall_app in Hall as [? ?]. split; [by exists c1|by exists c2].
Qed.

Lemma not_refunded b v ans v' :
  rp_success ans = true -> grows (with_call (refund_call b (Ok ans)) v) v' -> ~ sent_refused (b_id b) v v'.
Proof.
  intros Ha Hg Hs. apply (sent_refused_split _ v (with_call (refund_call b (Ok ans)) v)) in Hs as [(cs & Hcs & Hall) _];
    [|apply grows_call|done].
  cbn in Hcs. apply app_inv_head in Hcs as <-. apply Forall_cons in Hall as [Hc _].
  destruct Hc as (resp & [= <-] & Hf); [done|]. congruence.
Qed.

(** The machine of the booking itself does not move. *)
Lemma rtc_stays its b v b' v' :
  rtc (rstep its) (b, v) (b', v') -> unfinished b -> sent_refused (b_id b) v v' -> b' = b /\ v' = v.
Proof.
  intros Hr Hb Hs. inversion Hr as [q|p0 [b1 v1] q H1 H2]; subst; [done|]. exfalso. apply rtc_grows in H2.
  inversion H1 as [? ? ans Hst Ha|? ? ans Hst|? ? now o Hst _ _]; subst; destruct Hb as [Hb|Hb]; rewrite Hb in Hst; try done.
  exact (not_refunded b v ans v' Ha H2 Hs).
Qed.

Lemma stopped_open its b v e v' md st :
  stopped md its b v e v' -> unfinished b -> b_status b = st -> sent_refused (b_id b) v v' -> row_open (b_id b) st v ->
  row_open (b_id b) st v' /\ tickets_kept (b_id b) v v'.
Proof.
  intros (b1 & v1 & e0 & loc & v2 & Hr & Hb & Hend) Hun Hst Hs Hrow.
  pose proof (rtc_grows _ _ _ _ _ Hr) as Hg1. pose proof (broken_grows _ _ _ _ _ _ _ Hb) as Hg2.
  assert (calls v' = calls v2 /\ messages v' = messages v2) as [Hc Hms] by (destruct Hend as [[_ ->]|[_ ->]]; done).
  assert (sent_refused (b_id b) v v2) as Hs2 by (destruct Hs as (cs & Hcs & ?); exists cs; by rewrite <- Hc).
  apply (sent_refused_split _ _ _ _ Hg1 Hg2) in Hs2 as [Hs1 Hs2].
  destruct (rtc_stays _ _ _ _ _ Hr Hun Hs1) as [-> ->].
  assert (row_open (b_id b) st v2 /\ tickets_kept (b_id b) v v2 /\ b_id loc = b_id b /\ b_status loc = st /\ unfinished loc)
    as (Hrow2 & Ht2 & Hid & Hst2 & Hun2).
  { assert (forall v', bookings (btables v') = bookings (btables v) -> tickets (btables v') = tickets (btables v) ->
      row_open (b_id b) st v' /\ tickets_kept (b_id b) v v') as Hsame.
    { intros v0 Hb0 Ht0. unfold row_open, tickets_kept. by rewrite Hb0, Ht0. }
    destruct Hb as [e1 H|ans loc e1 v2 H Ha -> Hv2|ans e1 _ H Ha|e1 H|ans e1 _ H|e1 loc v2 _ H|e1 H].
    - destruct (Hsame (with_call (refund_call b (Err e1)) v)) as [? ?]; [done..|by split_and!].
    - assert (unfinished (set_b_refundLastError (rp_failureReason ans) (set_b_refundState RefundState.FAILED b))) as Hf
        by by right.
      destruct Hv2 as [[_ ->]|[_ ->]]; [|by destruct (Hsame (with_call (refund_call b (Ok ans)) v)) as [? ?]; [done..|split_and!]].
      split; [eexists; split; [apply lookup_insert_eq|done]|]. split; [by apply tickets_same|done].
    - exfalso. exact (not_refunded b v ans _ Ha (grows_refl _) Hs2).
    - exfalso. destruct Hun as [Hun|Hun]; rewrite Hun in H; done.
    - exfalso. destruct Hun as [Hun|Hun]; rewrite Hun in H; done.
    - exfalso. destruct Hun as [Hun|Hun]; rewrite Hun in H; done.
    - destruct (Hsame v) as [? ?]; [done..|by split_and!]. }
  destruct Hend as [[_ ->]|[_ ->]]; [|done]. split; [|exact Ht2].
  exists (count_failure e0 loc). split_and!; [|done|done]. cbn. rewrite Hid. apply lookup_insert_eq.
Qed.

(** The machine of another booking leaves this one alone. *)
Lemma rtc_tickets id its b v b' v' : rtc (rstep its) (b, v) (b', v') -> b_id b <> id -> tickets_kept id v v'.
Proof.
  intros H Hne. enough (forall p, rtc (rstep its) (b, v) p -> b_id p.1 = b_id b /\ tickets_kept id v p.2) as Hp
    by apply (Hp (b', v') H).
  apply rtc_ind_r; [split; [done|by apply tickets_same]|]. intros [b1 v1] p _ Hs (Hid & Hk). cbn [fst snd] in *.
  inversion Hs as [? ? ans ? ?|? ? ans ?|? ? now o ? ? ?]; subst; (split; [done|]);
    (eapply tickets_kept_trans; [exact Hk|]); [by apply tickets_same..|].
  apply (cancel_tickets_kept id (b_id b1) v1). congruence.
Qed.

Lemma stopped_tickets id md its b v e v' : stopped md its b v e v' -> b_id b <> id -> tickets_kept id v v'.
Proof.
  intros (b1 & v1 & e0 & loc & v2 & Hr & Hb & Hend) Hne. pose proof (rtc_tickets id _ _ _ _ _ Hr Hne) as Hk.
  apply rtc_framed in Hr as (Hid & _ & _). eapply tickets_kept_trans; [exact Hk|].
  assert (tickets_kept id v1 v2) as Hk2.
  { destruct Hb as [|ans loc e1 v2 _ _ _ Hv2| | | |e1 loc v2 _ _ Hv2|]; try by apply tickets_same.
    - destruct Hv2 as [[_ ->]|[_ ->]]; by apply tickets_same.
    - destruct Hv2 as [[_ ->]|(now & _ & ->)]; [by apply tickets_same|]. apply cancel_tickets_kept. congruence. }
  destruct Hend as [[_ ->]|[_ ->]]; [|exact Hk2]. eapply tickets_kept_trans; [exact Hk2|by apply tickets_same].
Qed.

(** A run of the machine, on this booking or on another. *)
Lemma machine_open id st md its b v v' :
  run_ended md its b v v' -> (b_id b = id -> unfinished b /\ b_status b = st) ->
  sent_refused id v v' -> row_open id st v -> row_open id st v' /\ tickets_kept id v v'.
Proof.
  intros Hrun Hb Hs Hrow. destruct (decide (b_id b = id)) as [<-|Hne].
  - destruct (Hb eq_refl) as [Hun Hst]. destruct Hrun as [[b' Hr]|[e Hst']]; [|by eapply stopped_open].
    destruct (rtc_stays _ _ _ _ _ Hr Hun Hs) as [_ ->]. split; [done|by apply tickets_same].
  - destruct Hrow as (b0 & Hb0 & Hrest). destruct Hrun as [[b' Hr]|[e Hst']].
    + split; [|by eapply rtc_tickets]. apply rtc_framed in Hr as (_ & [_ Hf] & _). exists b0. by rewrite Hf.
    + split; [|by eapply stopped_tickets]. apply stopped_framed in Hst' as [_ Hf]. exists b0. by rewrite Hf.
Qed.

Lemma recovered_open id st md ls v v' :
  recovered md ls v v' ->
  (forall l, l ∈ ls -> b_id (booking l) = id -> unfinished (booking l) /\ b_status (booking l) = st) ->
  sent_refused id v v' -> row_open id st v -> row_open id st v' /\ tickets_kept id v v'.
Proof.
  assert (forall x ls v v1 v', recovered md ls v v1 -> run_ended md (items x) (booking x) v1 v' -> grows v1 v' ->
    ((forall l, l ∈ ls -> b_id (booking l) = id -> unfinished (booking l) /\ b_status (booking l) = st) ->
     sent_refused id v v1 -> row_open id st v -> row_open id st v1 /\ tickets_kept id v v1) ->
    (forall l, l ∈ ls ++ [x] -> b_id (booking l) = id -> unfinished (booking l) /\ b_status (booking l) = st) ->
    sent_refused id v v' -> row_open id st v -> row_open id st v' /\ tickets_kept id v v') as Hnext.
  { intros x ls0 v0 v1 v2 Hr Hrun Hg2 IH Hls Hs Hrow. pose proof (recovered_grows _ _ _ _ Hr) as Hg1.
    apply (sent_refused_split _ _ _ _ Hg1 Hg2) in Hs as [Hs1 Hs2].
    destruct IH as [Hrow1 Hk1]; [intros l Hl; apply Hls, elem_of_app; by left|done|done|].
    destruct (machine_open id st md (items x) (booking x) v1 v2 Hrun) as [Hrow2 Hk2];
      [apply Hls, elem_of_app; right; left|done|done|]. split; [done|]. by eapply tickets_kept_trans. }
  induction 1 as [v|x ls v v' Hx Hr IH|x ls v v1 v' b' Hx Hr IH Hs Hc|x ls v v1 v' e Hx Hr IH Hs].
  - intros _ _ Hrow. split; [done|by apply tickets_same].
  - intros Hls. apply IH. intros l Hl. apply Hls, elem_of_app. by left.
  - apply (Hnext x ls v v1 v'); [done|left; by exists b'|by eapply rtc_grows|done].
  - apply (Hnext x ls v v1 v'); [done|right; by exists e|by eapply stopped_grows|done].
Qed.

(** The tables stay well formed. *)
Lemma same_tables_wf v v' : btables v' = btables v -> btx v' = btx v -> booking_wf v -> booking_wf v'.
Proof. intros Ht Hx [? ? ? ? ? ?]. split; by rewrite ?Ht, ?Hx. Qed.

Lemma put_wf b v : booking_wf v -> booking_wf (put b v).
Proof.
  intros [Hb Hi Ho Ht Hk Hx]. split; cbn; [by apply keyed_insert|done..| |done].
  intros j i Hj. rewrite lookup_insert_is_Some'. right. by eapply Hk.
Qed.

Lemma cancel_tickets_wf id v : booking_wf v -> booking_wf (cancel_tickets id v).
Proof. intros [? ? ? ? ? ?]. split; cbn; try done. by apply update_where_keyed. Qed.

Lemma rstep_wf its p q : rstep its p q -> booking_wf p.2 -> booking_wf q.2.
Proof.
  intros [b v ans _ _|b v ans _|b v now o _ _ _] Hwf; cbn [snd] in *.
  - apply put_wf. by apply (same_tables_wf v).
  - apply put_wf. by apply (same_tables_wf v).
  - apply (cancel_tickets_wf (b_id b)), (put_wf (completed_row now b)) in Hwf as [? ? Ho ? ? ?].
    split; cbn in *; try done. by apply keyed_insert.
Qed.

Lemma rtc_wf its p q : rtc (rstep its) p q -> booking_wf p.2 -> booking_wf q.2.
Proof. induction 1; [done|]. intros Hwf. by eauto using rstep_wf. Qed.

Lemma stopped_wf md its b v e v' : stopped md its b v e v' -> booking_wf v -> booking_wf v'.
Proof.
  intros (b1 & v1 & e0 & loc & v2 & Hr & Hb & Hend) Hwf. apply rtc_wf in Hr; [|done]. cbn [snd] in Hr.
  assert (booking_wf v2) as Hwf2.
  { destruct Hb as [|ans loc e1 v2 _ _ _ Hv2| | | |e1 loc v2 _ _ Hv2|]; try by apply (same_tables_wf v1).
    - destruct Hv2 as [[_ ->]|[_ ->]]; [apply put_wf|]; by apply (same_tables_wf v1).
    - destruct Hv2 as [[_ ->]|(now & _ & ->)]; [done|by apply cancel_tickets_wf]. }
  destruct Hend as [[_ ->]|[_ ->]]; [by apply put_wf|done].
Qed.

Lemma run_ended_wf md its b v v' : run_ended md its b v v' -> booking_wf v -> booking_wf v'.
Proof. intros [[b' H]|[e H]]; [exact (rtc_wf _ _ _ H)|exact (stopped_wf _ _ _ _ _ _ H)]. Qed.

Lemma recovered_wf md ls v v' : recovered md ls v v' -> booking_wf v -> booking_wf v'.
Proof.
  induction 1 as [| |x ls v v1 v' b' _ _ IH Hs _|x ls v v1 v' e _ _ IH Hs]; [done|done|..]; intros Hwf.
  - exact (rtc_wf _ _ _ Hs (IH Hwf)).
  - exact (stopped_wf _ _ _ _ _ _ Hs (IH Hwf)).
Qed.

(** ** What the methods do to an open booking *)

Section Methods.
Variable md : mode.
Abbreviation spec := (obeys md book_behaviour).

(** The tables of before and after: if all refunds of the booking that were
    asked for in between were refused, it is as open as it was. *)
Definition leaves_open (id : string) (v v' : BookingView) : Prop :=
  booking_wf v' /\
  forall st, row_open id st v -> sent_refused id v v' -> row_open id st v' /\ tickets_kept id v v'.

Lemma leaves_open_refl id v : booking_wf v -> leaves_open id v v.
Proof. intros Hwf. split; [done|]. intros st Hrow _. split; [done|by apply tickets_same]. Qed.

Lemma cancelBooking_open {S} id id' userId key reason (Q : result LoadedBooking -> S -> BookingView -> Prop) s v :
  booking_wf v ->
  (forall r s v', leaves_open id v v' ->
     (id' = id -> (exists st, row_open id st v) -> sent_refused id v v' -> is_ok r = false) -> Q r s v') ->
  wp spec (cancelBooking id' userId key reason) Q s v.
Proof.
  intros Hwf HQ. apply cancelBooking_wp; [done|..]; try (intros; by apply HQ; [apply leaves_open_refl|]).
  intros b its b0 v0 Hb _ Hst _ Hbeg. assert (b_id b = id') as Hid by by eapply (wf_bookings _ Hwf).
  assert (b_id b0 = id' /\ booking_wf v0 /\ calls v0 = calls v /\ (b_refundState b = None \/ b0 = b /\ v0 = v))
    as (Hid0 & Hwf0 & Hc0 & Hsame).
  { unfold refund_begun in Hbeg. destruct (b_refundState b); destruct Hbeg as [-> ->].
    - split_and!; auto.
    - split_and!; [done|by apply put_wf|done|by left]. }
  assert (forall v', sent_refused id v v' -> sent_refused id v0 v') as Hs0.
  { intros v' (cs & Hcs & Hall). exists cs. by rewrite Hc0. }
  assert (forall st, row_open id st v -> row_open id st v0 /\ tickets_kept id v v0 /\
    (b_id b0 = id -> unfinished b0 /\ b_status b0 = st)) as Hrow0.
  { intros st (b1 & Hb1 & Hst1 & Hun). rewrite Hid0. destruct (decide (id' = id)) as [->|Hne].
    - rewrite Hb in Hb1. injection Hb1 as <-. destruct Hsame as [Hn|[-> ->]].
      + destruct Hun as [Hun|Hun]; by rewrite Hun in Hn.
      + split_and!; [by exists b|by apply tickets_same|done].
    - destruct Hsame as [Hn|[-> ->]]; [|split_and!; [by exists b1|by apply tickets_same|done]].
      unfold refund_begun in Hbeg. rewrite Hn in Hbeg. destruct Hbeg as [_ ->].
      split_and!; [|by apply tickets_same|done]. exists b1. cbn. rewrite lookup_insert_ne by congruence. done. }
  assert (forall v', run_ended md its b0 v0 v' -> leaves_open id v v') as Hopen.
  { intros v' Hrun. split; [by eapply run_ended_wf|]. intros st Hrow Hs.
    destruct (Hrow0 st Hrow) as (Hrow1 & Hk1 & Hb0).
    destruct (machine_open id st md its b0 v0 v' Hrun Hb0 (Hs0 _ Hs) Hrow1) as [Hrow2 Hk2].
    split; [done|]. by eapply tickets_kept_trans. }
  split.
  - intros b' v' Hr Hc. apply HQ; [apply Hopen; left; by exists b'|]. intros -> [st Hrow] Hs. exfalso.
    destruct (Hrow0 st Hrow) as (_ & _ & Hb0). destruct (Hb0 Hid0) as [Hun _].
    rewrite <- Hid0 in Hs0. destruct (rtc_stays _ _ _ _ _ Hr Hun (Hs0 _ ltac:(by rewrite Hid0))) as [-> _].
    destruct Hun as [Hun|Hun]; by rewrite Hun in Hc.
  - intros e v' Hs. apply HQ; [apply Hopen; right; by exists e|done].
Qed.

Lemma recovery_open id (Q : result unit -> bool -> BookingView -> Prop) v :
  booking_wf v -> (forall r s v', leaves_open id v v' -> Q r s v') -> wp spec recoveryStuckRefunds Q false v.
Proof.
  intros Hwf HQ. apply recovery_wp; [done| |by intros e _; apply HQ, leaves_open_refl].
  intros ls v' Hls _ Hr. apply HQ. split; [by eapply recovered_wf|]. intros st Hrow Hs.
  apply (recovered_open id st md ls v v'); [done| |done|done]. intros l Hl He.
  destruct Hrow as (b & Hb & Hst & Hun).
  assert (bookings (btables v) !! b_id (booking l) = Some (booking l)) as Hl'.
  { apply (selects_elem b_id _ _ _ (booking l) (wf_bookings _ Hwf) Hls), list_elem_of_fmap. by exists l. }
  rewrite He, Hb in Hl'. by injection Hl' as <-.
Qed.
End Methods.

(** ** A method and its calls *)

Lemma refund_step_pays_nothing ids : uses pays_nothing (refund_step ids).
Proof. unfold refund_step, rpc, in_transaction, complete_refund, cancelByBooking. uses_steps; done. Qed.

Lemma machine_pays_nothing : uses pays_nothing processRefundStateMachine.
Proof.
  apply uses_bind; [done|]. intros l. apply uses_bind; [|done]. generalize maxSteps. intros n.
  induction n as [|n IH]; [done|]. apply uses_bind; [|by intros []].
  apply uses_try_catch; [apply refund_step_pays_nothing|]. intros e. by uses_steps.
Qed.

Lemma cancelBooking_pays_nothing {S} id userId key reason :
  uses pays_nothing (cancelBooking (S := S) id userId key reason).
Proof.
  unfold cancelBooking. apply uses_bind; [by uses_steps|]. intros [l|]; [|done].
  do 2 (case_match; [done|]). apply uses_bind; [|done]. apply uses_with_local, uses_bind; [by uses_steps|].
  intros _. apply machine_pays_nothing.
Qed.

Lemma recovery_pays_nothing : uses pays_nothing recoveryStuckRefunds.
Proof.
  apply uses_bind; [done|]. intros []; [done|]. apply uses_bind; [done|]. intros _. apply uses_finally; [|done].
  apply uses_bind; [by uses_steps|]. intros ls. case_match; [done|]. apply uses_for_each. intros l. unfold recover_one.
  case_match; [done|]. apply uses_try_catch; [|done]. apply uses_bind; [|done].
  apply uses_with_local, machine_pays_nothing.
Qed.

Section Lost.
Context {WB WS WP : Type}.
Variable hbook : forall X, BookingE X -> WB -> result X * WB.
Variable note : RpcCall -> WB -> WB.
Variable hseat : forall X, SeatWorld.SeatE X -> WS -> result X * WS.
Variable hpay : forall X, PaymentWorld.PaymentE X -> WP -> result X * WP.
Variable cfg : option string.
Variable status_error : exn -> exn.
Variable vbook : WB -> BookingView.
Variable vseat : WS -> SeatWorld.SeatView.
Variable vpay : WP -> PaymentWorld.PaymentView.
Variable md : mode.
Hypothesis Hbook : conforms md book_behaviour hbook vbook.
Hypothesis Hnote : forall c w, vbook (note c w) = with_call c (vbook w).
Hypothesis Hseat : conforms md SeatWorld.seat_behaviour hseat vseat.
Hypothesis Hpay : conforms md PaymentWorld.pay_behaviour hpay vpay.

Abbreviation server := (serve hseat hpay cfg status_error).
Abbreviation services := (platform hbook note server).
Abbreviation back := (backend vseat vpay).
Abbreviation books := (platform_view (WK := WS * WP) vbook).

Lemma serve_refuses id X (op : RpcE X) (w : WS * WP) :
  pays_nothing _ (Rpc op) -> backend_wf (back w) -> unpaid id (vpay w.2) ->
  unpaid id (vpay (server X op w).2.2) /\ refused id (called op (server X op w).1).
Proof.
  intros Hop [_ Hp] Hu. destruct op as [| | |b k reason| | |]; cbn [serve called refused];
    try (rewrite Ledger.at_seats_payments; by split); [done|].
  apply (at_payments_wp hpay status_error vseat vpay md Hpay (PaymentApi.refundPayment b k (Some reason)) (fun r => r) w
    (fun r u => unpaid id u.2 /\ (b = id -> exists resp, r = Ok resp /\ rp_success resp = false))).
  apply (refundPayment_unpaid md id); [done|done|]. intros resp s v' Hu' Hr. split; [done|]. intros He. exists resp. auto.
Qed.

(** ... and so on for a whole method, if it does not pay. *)
Definition lost_since (id : string) (cs0 : list RpcCall) (w : WB * (WS * WP)) : Prop :=
  backend_wf (back w.2) /\ unpaid id (vpay w.2.2) /\ exists cs, calls (books w) = cs0 ++ cs /\ Forall (refused id) cs.

Lemma platform_refuses {S A} id (m : prog S BookingE A) s w :
  uses pays_nothing m -> backend_wf (back w.2) -> unpaid id (vpay w.2.2) ->
  lost_since id (calls (books w)) (final services m s w).
Proof.
  intros Hm Hw Hu. unfold final.
  apply (wp_run (fun X op w r w' => (r, w') = services X op w) services (fun w => w) m
    (fun _ _ w' => lost_since id (calls (books w)) w') s w); [by intros X op w1; destruct (services X op w1)|].
  eapply (uses_wp pays_nothing); [|exact Hm| |by intros _ _ v].
  2: { split; [done|]. split; [done|]. exists []. by rewrite app_nil_r. }
  intros X op [wb wk] r [wb' wk'] Hop Hstep (Hw1 & Hu1 & cs & Hcs & Hall).
  destruct (is_rpc op) eqn:Hr.
  - destruct op as [| | |Y op| | | | | | | | | | | | | | | | | | | | | |]; try done. cbn in Hstep.
    pose proof (serve_refuses id _ op wk Hop Hw1 Hu1) as [Hu2 Hc].
    pose proof (serve_contract hseat hpay cfg status_error vseat vpay md Hseat Hpay _ op wk Hw1) as [_ Hw2].
    destruct (server Y op wk) as [r' wk2]. injection Hstep as -> -> ->. cbn in *.
    split; [done|]. split; [done|]. exists (cs ++ [called op r']). unfold platform_view in *. cbn in *.
    rewrite Hnote. cbn. rewrite Hcs, app_assoc. split; [done|]. apply Forall_app. split; [done|]. by constructor.
  - pose proof (Hbook X op wb) as Hb. apply own_calls in Hb; [|done].
    assert (wk' = wk /\ wb' = (hbook X op wb).2) as [-> ->].
    { destruct op; try done; cbn in Hstep; destruct (hbook _ _ wb); by injection Hstep. }
    split; [done|]. split; [done|]. exists cs. unfold platform_view in *. cbn in *. by rewrite Hb.
Qed.

(** ** Cancellations and ticks, in any order *)

Inductive refund_event :=
| CancelRequest (bookingId userId key : string) (reason : option string)
| RecoveryTick.

Definition refund_run (w : WB * (WS * WP)) (e : refund_event) : WB * (WS * WP) :=
  match e with
  | CancelRequest id userId key reason => final services (cancelBooking id userId key reason) tt w
  | RecoveryTick => final services recoveryStuckRefunds false w
  end.

Record stuck_world (id : string) (st : BookingStatus.t) (w : WB * (WS * WP)) : Prop := {
  sw_books : booking_wf (books w);
  sw_back : backend_wf (back w.2);
  sw_unpaid : unpaid id (vpay w.2.2);
  sw_open : row_open id st (books w);
}.

Lemma lost_since_sent id w w' : lost_since id (calls (books w)) w' -> sent_refused id (books w) (books w').
Proof. by intros (_ & _ & H). Qed.

Lemma stuck_after {S A} id st (m : prog S BookingE A) s w :
  uses pays_nothing m -> stuck_world id st w -> leaves_open id (books w) (books (final services m s w)) ->
  stuck_world id st (final services m s w) /\ tickets_kept id (books w) (books (final services m s w)).
Proof.
  intros Hm [Hw Hb Hu Ho] [Hwf Hop]. pose proof (platform_refuses id m s w Hm Hb Hu) as Hlost.
  destruct (Hop st Ho (lost_since_sent _ _ _ Hlost)) as [Ho' Hk]. split; [|done].
  destruct Hlost as (Hb' & Hu' & _). by split.
Qed.

Lemma services_conform : conforms md book_behaviour services books.
Proof. by apply platform_conforms. Qed.

Lemma refund_run_stuck id st w e :
  stuck_world id st w ->
  stuck_world id st (refund_run w e) /\ tickets_kept id (books w) (books (refund_run w e)).
Proof.
  intros Hw. pose proof services_conform as Hc. destruct e as [id' userId key reason|]; cbn [refund_run].
  - apply stuck_after; [apply cancelBooking_pays_nothing|done|]. call_wp Hc w.
    apply (cancelBooking_open md id); [apply Hw|]. by intros r s v' H _.
  - apply stuck_after; [apply recovery_pays_nothing|done|]. call_wp Hc w.
    apply (recovery_open md id); [apply Hw|]. by intros r s v' H.
Qed.

Lemma cancel_fails {S} id st userId key reason (s : S) w :
  stuck_world id st w -> is_ok (outcome services (cancelBooking id userId key reason) s w) = false.
Proof.
  intros [Hw Hb Hu Ho].
  pose proof (platform_refuses id _ s w (cancelBooking_pays_nothing id userId key reason) Hb Hu) as Hlost.
  apply lost_since_sent in Hlost. revert Hlost. pose proof services_conform as Hc. call_wp Hc w.
  apply (cancelBooking_open md id); [done|]. intros r s' v' _ Hr. apply Hr; [done|by exists st].
Qed.

(** C13: A refund whose answer was lost is never completed.  Of a booking in
    REFUND_INITIATED the payment service has no SUCCEEDED payment left: it was
    returned.  Then, whatever cancellations of this and other bookings are asked
    for, under whatever keys, and however often the recovery worker runs,
    whatever fails in any of the services: the booking keeps its status and its
    tickets, its refund ends FAILED or stays REFUND_INITIATED, and every further
    cancellation of it is refused. *)
Theorem lost_refund_never_completed id b events w :
  booking_wf (books w) -> backend_wf (back w.2) ->
  bookings (btables (books w)) !! id = Some b -> b_refundState b = Some RefundState.REFUND_INITIATED ->
  (forall i p, PaymentWorld.payments (vpay w.2.2) !! i = Some p -> PaymentWorld.p_bookingId p = id ->
     PaymentWorld.p_status p <> PaymentWorld.PaymentStatus.SUCCEEDED) ->
  let w' := foldl refund_run w events in
  (exists b', bookings (btables (books w')) !! id = Some b' /\ b_status b' = b_status b /\
     (b_refundState b' = Some RefundState.REFUND_INITIATED \/ b_refundState b' = Some RefundState.FAILED)) /\
  (forall i t, tickets (btables (books w)) !! i = Some t -> t_bookingId t = id ->
     tickets (btables (books w')) !! i = Some t) /\
  (forall userId key reason,
     is_ok (outcome services (cancelBooking id userId key reason) tt w') = false).
Proof.
  intros Hwf Hback Hb Hst Hu. cbn zeta.
  assert (stuck_world id (b_status b) w) as Hw.
  { split; [done|done| |exists b; by split_and!; [..|left]]. intros i p Hp. unfold RefundService.succeeded_for.
    destruct (String.eqb_spec (PaymentWorld.p_bookingId p) id) as [He|]; [|done].
    apply bool_decide_eq_false. by eapply Hu. }
  assert (stuck_world id (b_status b) (foldl refund_run w events) /\
    tickets_kept id (books w) (books (foldl refund_run w events))) as [Hw' Hk].
  { clear Hwf Hback Hb Hu. revert w Hw. induction events as [|e events IH]; intros w Hw; cbn [foldl].
    - split; [done|by apply tickets_same].
    - destruct (refund_run_stuck _ _ _ e Hw) as [Hw1 Hk1]. destruct (IH _ Hw1) as [Hw2 Hk2].
      split; [done|]. by eapply tickets_kept_trans. }
  split_and!; [exact (sw_open _ _ _ Hw')|exact Hk|]. intros userId key reason. by eapply cancel_fails.
Qed.
End Lost.

(** ** A concrete run *)

(** The refund of the booking b1 was made and its answer lost: the money is
    back, the seats are sold, and the booking waits for the recovery worker. *)
Definition lost_world : PlatformRefWorld :=
  (booked (Some RefundState.REFUND_INITIATED) 1,
   (SeatRef.seat_world [SeatRef.plain_seat "r1" "ev" "A1" SeatWorld.SOLD; SeatRef.plain_seat "r2" "ev" "A2" SeatWorld.SOLD] [] 1000,
    final PaymentRef.pay_run (@PaymentApi.refundPayment unit "b1" "refund-1" None) tt Ledger.paid_up.2.2)).

Lemma lost_world_wf : backend_wf (ref_back lost_world.2).
Proof.
  split; [apply SeatRef.seat_world_wf; vm_compute; reflexivity|].
  apply (wp_sound Reliable _ PaymentRef.pay_run PaymentRef.pay_view (@PaymentApi.refundPayment unit "b1" "refund-1" None)
    (fun _ v => PaymentWorld.pay_wf v) tt Ledger.paid_up.2.2 PaymentRef.pay_run_conforms).
  unfold PaymentApi.refundPayment. wp_step. wp_step. eapply wp_mono; [apply Ledger.refundByBooking_ledger, Ledger.paid_up_ledger|].
  by intros [r|e] s v' [Hv _ _ _ _].
Qed.

Definition later_events : list refund_event :=
  [RecoveryTick; CancelRequest "b1" "u1" "refund-1" None; RecoveryTick; CancelRequest "b1" "u1" "refund-2" None]%string.

Lemma lost_refund_never_completed_witness :
  let w' := foldl (refund_run (book_run good_answer) ref_note SeatRef.seat_run PaymentRef.pay_run None (fun e => e))
    lost_world later_events in
  (exists b', bookings (btables (platform_view book_view w')) !! "b1"%string = Some b' /\
     b_status b' = BookingStatus.CONFIRMED /\
     (b_refundState b' = Some RefundState.REFUND_INITIATED \/ b_refundState b' = Some RefundState.FAILED)) /\
  map PaymentWorld.p_status (rows (PaymentWorld.payments (PaymentRef.pay_view w'.2.2))) =
    [PaymentWorld.PaymentStatus.REFUNDED].
Proof.
  cbv zeta. split; [|vm_compute; reflexivity].
  apply (lost_refund_never_completed (book_run good_answer) ref_note SeatRef.seat_run PaymentRef.pay_run None (fun e => e)
    book_view SeatRef.seat_view PaymentRef.pay_view Reliable (book_run_conforms good_answer) (fun c w => eq_refl)
    SeatRef.seat_run_conforms PaymentRef.pay_run_conforms "b1"
    (demo_booking BookingStatus.CONFIRMED (Some RefundState.REFUND_INITIATED) 1) later_events lost_world).
  - apply booked_wf.
  - exact lost_world_wf.
  - reflexivity.
  - reflexivity.
  - intros i p Hp _. apply (rows_forallb (fun p =>
      match PaymentWorld.p_status p with PaymentWorld.PaymentStatus.SUCCEEDED => false | _ => true end)) in Hp;
      [by destruct (PaymentWorld.p_status p)|vm_compute; reflexivity].
Defined.
