(* ===== verification/GrpcWire.v ===== *)
(** * The wire format as the generated code uses it

    The generated files of libs/grpc/src/generated encode with a [BinaryWriter]
    and decode with a [BinaryReader] of the package @bufbuild/protobuf/wire,
    which is not part of the repository: they are type classes here, with what
    the package documents as laws ([WireLaws]).  [put_string] and the like are
    the statements of the [encode] functions; [decode_message] is the loop all
    the [decode] functions have, over the cases of the [switch].  [codes] is the
    judgement that some statements write what the cases read, from which the
    round trip of a message follows. *)

From S2P Require Import Prelude JsNumber.
From Stdlib Require Import Ascii.
From Stdlib Require Import SpecFloat.

#[local] Open Scope Z_scope.

Abbreviation bytes := (list ascii).
Abbreviation len l := (Z.of_nat (length l)).

(** ** The package *)

Class BinaryWriter (W : Type) := {
  new_writer : W;
  w_uint32 : Z -> W -> W;
  w_string : string -> W -> W;
  w_double : number -> W -> W;
  w_bool : bool -> W -> W;
  w_fork : W -> W;
  w_join : W -> W;
  finish : W -> bytes;
}.

(** A read may throw, at the end of the buffer say. *)
Class BinaryReader (R : Type) := {
  new_reader : bytes -> R;
  r_pos : R -> Z;
  r_len : R -> Z;
  r_uint32 : R -> result (Z * R);
  r_string : R -> result (string * R);
  r_double : R -> result (number * R);
  r_bool : R -> result (bool * R);
  r_skip : Z -> R -> result R;
}.

(** What is documented of them: [enc_..] is the encoding of a value, [written]
    what was written after [w], [rest] what is left to read.  (The package
    refuses lengths from 2^32 on; no buffer of the runtime is that long.) *)
Definition reads {R A} (rest : R -> bytes) (length_ : R -> Z) (enc : bytes) (read : R -> result (A * R)) (x : A) : Prop :=
  forall r l, rest r = enc ++ l -> exists r', read r = Ok (x, r') /\ rest r' = l /\ length_ r' = length_ r.

Definition advances {R A} (pos : R -> Z) (read : R -> result (A * R)) : Prop :=
  forall r x r', read r = Ok (x, r') -> pos r <= pos r'.

Definition UINT32 : Z := 2 ^ 32.

(** A number in the range and precision of a double. *)
Definition is_double (x : number) : bool := valid_binary 53 1024 x.

Definition byte_value (c : ascii) : Z := Z.of_N (N_of_ascii c).

(** The value of a field, by the wire type of its tag: a varint of at most ten
    bytes, of which the last alone is below 128; eight bytes; bytes behind their
    length; four bytes.  (The types 3 and 4, of groups, are not in proto3.) *)
Inductive wire_value (enc_uint32 : Z -> bytes) : Z -> bytes -> Prop :=
| VarintValue bs b :
    Forall (fun c => 128 <= byte_value c) bs -> byte_value b < 128 -> (length bs <= 9)%nat ->
    wire_value enc_uint32 0 (bs ++ [b])
| Bit64Value bs : length bs = 8%nat -> wire_value enc_uint32 1 bs
| DelimitedValue bs : len bs < UINT32 -> wire_value enc_uint32 2 (enc_uint32 (len bs) ++ bs)
| Bit32Value bs : length bs = 4%nat -> wire_value enc_uint32 5 bs.

Class WireLaws (W R : Type) `{BinaryWriter W, BinaryReader R} := {
  enc_uint32 : Z -> bytes;
  enc_string : string -> bytes;
  enc_double : number -> bytes;
  enc_bool : bool -> bytes;
  written : W -> bytes -> W;
  rest : R -> bytes;
  written_nil w : written w [] = w;
  written_app w a b : written (written w a) b = written w (a ++ b);
  write_uint32 z w : w_uint32 z w = written w (enc_uint32 z);
  write_string s w : w_string s w = written w (enc_string s);
  write_double x w : w_double x w = written w (enc_double x);
  write_bool b w : w_bool b w = written w (enc_bool b);
  write_join w l : w_join (written (w_fork w) l) = written w (enc_uint32 (len l) ++ l);
  finish_written l : finish (written new_writer l) = l;
  enc_uint32_cons z : enc_uint32 z <> [];
  enc_string_length s : Z.of_nat (String.length s) <= len (enc_string s);
  rest_new l : rest (new_reader l) = l;
  rest_length r : r_len r = r_pos r + len (rest r);
  read_uint32 z : 0 <= z < UINT32 -> reads rest r_len (enc_uint32 z) r_uint32 z;
  read_string s : Z.of_nat (String.length s) < UINT32 -> reads rest r_len (enc_string s) r_string s;
  read_double x : is_double x = true -> reads rest r_len (enc_double x) r_double x;
  read_bool b : reads rest r_len (enc_bool b) r_bool b;
  skip_value t v r l : wire_value enc_uint32 t v -> rest r = v ++ l ->
    exists r', r_skip t r = Ok r' /\ rest r' = l /\ r_len r' = r_len r;
  uint32_advances r z r' : r_uint32 r = Ok (z, r') -> r_pos r < r_pos r';
  string_advances : advances r_pos r_string;
  double_advances : advances r_pos r_double;
  bool_advances : advances r_pos r_bool;
  skip_advances t r r' : r_skip t r = Ok r' -> r_pos r <= r_pos r';
}.

(** ** The generated code *)

(** The statements of [encode]: a field is written unless it has the default
    value. *)
Section Encode.
Context {W : Type} `{BinaryWriter W}.

Definition put_string (tag : Z) (x : string) (w : W) : W :=
  if negb (String.eqb x "") then w_string x (w_uint32 tag w) else w.

(** [x !== 0], which is false of both zeros. *)
Definition nonzero (x : number) : bool := match x with S754_zero _ => false | _ => true end.

Definition put_double (tag : Z) (x : number) (w : W) : W :=
  if nonzero x then w_double x (w_uint32 tag w) else w.

Definition put_bool (tag : Z) (b : bool) (w : W) : W :=
  if negb (Bool.eqb b false) then w_bool b (w_uint32 tag w) else w.

(** [for (const v of xs) writer.uint32(tag).string(v!)] *)
Definition put_strings (tag : Z) (xs : list string) (w : W) : W :=
  foldl (fun w v => w_string v (w_uint32 tag w)) w xs.

(** [T.encode(x, writer.uint32(tag).fork()).join()] *)
Definition put_nested {T} (encode : T -> W -> W) (tag : Z) (x : T) (w : W) : W :=
  w_join (encode x (w_fork (w_uint32 tag w))).

Definition put_optional {T} (encode : T -> W -> W) (tag : Z) (o : option T) (w : W) : W :=
  match o with Some x => put_nested encode tag x w | None => w end.

Definition put_repeated {T} (encode : T -> W -> W) (tag : Z) (xs : list T) (w : W) : W :=
  foldl (fun w v => put_nested encode tag v w) w xs.

(** The statements one after the other. *)
Definition emit (statements : list (W -> W)) (w : W) : W := foldl (fun w f => f w) w statements.
End Encode.

(** The cases of the [switch] in [decode]: the number of the field, the tag that
    is expected, and the assignment. *)
Section Decode.
Context {R : Type} `{BinaryReader R} {M : Type}.

Definition assignment : Type := M -> R -> result (M * R).
Definition fields : Type := list (Z * Z * assignment).

(** [message.f = reader.string()] *)
Definition get {A} (read : R -> result (A * R)) (set : A -> M -> M) : assignment :=
  fun m r => match read r with Ok (x, r) => Ok (set x m, r) | Err e => Err e end.

(** [T.decode(reader, reader.uint32())] *)
Definition nested {T} (decode : R -> option Z -> result (T * R)) (r : R) : result (T * R) :=
  match r_uint32 r with Ok (n, r) => decode r (Some n) | Err e => Err e end.

(** The assignment that is made for a tag; none after a [break]. *)
Fixpoint switch (cases : fields) (tag : Z) : option assignment :=
  match cases with
  | [] => None
  | (number_, expected, act) :: cases =>
      if Z.eqb (Z.shiftr tag 3) number_ then (if Z.eqb tag expected then Some act else None) else switch cases tag
  end.

Fixpoint decode_loop (fuel : nat) (cases : fields) (end_ : Z) (message : M) (reader : R) : result (M * R) :=
  if negb (r_pos reader <? end_) then Ok (message, reader)
  else
    match fuel with
    | O => Err (JsError "out of fuel")
    | S fuel =>
        match r_uint32 reader with
        | Err e => Err e
        | Ok (tag, reader) =>
            match switch cases tag with
            | Some act =>
                match act message reader with
                | Ok (message, reader) => decode_loop fuel cases end_ message reader
                | Err e => Err e
                end
            | None =>
                if (Z.land tag 7 =? 4) || (tag =? 0) then Ok (message, reader)
                else
                  match r_skip (Z.land tag 7) reader with
                  | Ok reader => decode_loop fuel cases end_ message reader
                  | Err e => Err e
                  end
            end
        end
    end.

Definition decode_message (cases : fields) (base : M) (reader : R) (length_ : option Z) : result (M * R) :=
  let end_ := match length_ with None => r_len reader | Some n => r_pos reader + n end in
  decode_loop (Z.to_nat (end_ - r_pos reader)) cases end_ base reader.
End Decode.
Arguments fields R M : clear implicits.

(** [interface MessageFns<T>] *)
Class MessageFns (T : Type) := {
  encode : forall {W} `{BinaryWriter W}, T -> W -> W;
  decode : forall {R} `{BinaryReader R}, R -> option Z -> result (T * R);
}.

(** What the service definitions make of them: [Buffer.from(T.encode(value).finish())]
    and [T.decode(buffer)]. *)
Definition serialize {T} `{MessageFns T} (W : Type) `{BinaryWriter W} (value : T) : bytes :=
  finish (encode value new_writer).

Definition deserialize {T} `{MessageFns T} (R : Type) `{BinaryReader R} (value : bytes) : result T :=
  match decode (new_reader value) None with Ok (m, _) => Ok m | Err e => Err e end.

(** ** Specification *)

Section Judgement.
Context {W R : Type} {HW : BinaryWriter W} {HR : BinaryReader R} {Laws : WireLaws W R} {M : Type}.
Variable cases : fields R M.
Implicit Types (m : M) (b l : bytes).

(** The loop reads exactly [b] and leaves [m']. *)
Definition loops m b m' : Prop :=
  forall r l fuel, rest r = b ++ l -> len b <= Z.of_nat fuel ->
    exists r', decode_loop fuel cases (r_pos r + len b) m r = Ok (m', r') /\ rest r' = l /\ r_len r' = r_len r.

(** The statements write what the cases read as the change from [m] to [m']. *)
Definition codes (statements : list (W -> W)) m m' : Prop :=
  exists b, (forall w, emit statements w = written w b) /\
    (len b < UINT32 -> forall b' m2, loops m' b' m2 -> loops m (b ++ b') m2).

Lemma loops_nil m : loops m [] m.
Proof.
  intros r l fuel Hr _. exists r. cbn [length]. split_and!; [|done|done].
  destruct fuel; cbn [decode_loop]; by replace (r_pos r <? r_pos r + Z.of_nat 0) with false by (symmetry; apply Z.ltb_ge; lia).
Qed.

(** One turn of the loop: it reads a tag, and [next] is how it goes on. *)
Lemma loop_turn tag p m b r l fuel :
  0 <= tag < UINT32 -> rest r = enc_uint32 tag ++ p ++ b ++ l ->
  len (enc_uint32 tag ++ p ++ b) <= Z.of_nat fuel ->
  exists fuel' r1, fuel = S fuel' /\ r_uint32 r = Ok (tag, r1) /\ rest r1 = p ++ b ++ l /\ r_len r1 = r_len r /\
    (r_pos r <? r_pos r + len (enc_uint32 tag ++ p ++ b)) = true /\
    (forall r2, rest r2 = b ++ l -> r_len r2 = r_len r1 ->
      r_pos r2 + len b = r_pos r + len (enc_uint32 tag ++ p ++ b)) /\ len b <= Z.of_nat fuel'.
Proof.
  intros Ht Hr Hf. destruct (read_uint32 tag Ht r _ Hr) as (r1 & H1 & Hr1 & Hl1).
  assert (0 < len (enc_uint32 tag)) as Hpos by (pose proof (enc_uint32_cons tag); destruct (enc_uint32 tag); cbn; [done|lia]).
  rewrite !length_app in *. destruct fuel as [|fuel]; [lia|]. exists fuel, r1. split_and!; [done..| | |lia].
  - apply Z.ltb_lt. lia.
  - intros r2 Hr2 Hl2. pose proof (rest_length r) as Hr0. pose proof (rest_length r2) as Hr2'.
    rewrite Hr in Hr0. rewrite Hr2 in Hr2'. rewrite !length_app in *. lia.
Qed.

(** A field. *)
Lemma loops_case tag act p m m1 b m2 :
  0 <= tag < UINT32 -> switch cases tag = Some act ->
  (forall r l, rest r = p ++ l -> exists r', act m r = Ok (m1, r') /\ rest r' = l /\ r_len r' = r_len r) ->
  loops m1 b m2 -> loops m (enc_uint32 tag ++ p ++ b) m2.
Proof.
  intros Ht Hs Ha Hb r l fuel Hr Hf. rewrite <- !app_assoc in Hr.
  destruct (loop_turn tag p m b r l fuel Ht Hr Hf) as (fuel' & r1 & -> & H1 & Hr1 & Hl1 & Hlt & Hend & Hf').
  cbn [decode_loop]. rewrite Hlt. cbn [negb]. rewrite H1, Hs. destruct (Ha r1 _ Hr1) as (r2 & -> & Hr2 & Hl2).
  rewrite <- (Hend r2 Hr2 Hl2). destruct (Hb r2 l fuel' Hr2 Hf') as (r3 & H3 & Hr3 & Hl3). exists r3. split_and!; [done..|congruence].
Qed.

(** A field the receiver does not know. *)
Lemma loops_unknown tag v m b m2 :
  0 < tag < UINT32 -> switch cases tag = None -> wire_value enc_uint32 (Z.land tag 7) v ->
  loops m b m2 -> loops m (enc_uint32 tag ++ v ++ b) m2.
Proof.
  intros Ht Hs Hv Hb r l fuel Hr Hf. rewrite <- !app_assoc in Hr.
  destruct (loop_turn tag v m b r l fuel ltac:(lia) Hr Hf) as (fuel' & r1 & -> & H1 & Hr1 & Hl1 & Hlt & Hend & Hf').
  cbn [decode_loop]. rewrite Hlt. cbn [negb]. rewrite H1, Hs. replace (tag =? 0) with false by (symmetry; apply Z.eqb_neq; lia).
  assert ((Z.land tag 7 =? 4) = false) as -> by by destruct Hv.
  cbn [orb]. destruct (skip_value _ v r1 _ Hv Hr1) as (r2 & -> & Hr2 & Hl2).
  rewrite <- (Hend r2 Hr2 Hl2). destruct (Hb r2 l fuel' Hr2 Hf') as (r3 & H3 & Hr3 & Hl3). exists r3. split_and!; [done..|congruence].
Qed.

(** *** The statements *)

Lemma codes_nil m : codes [] m m.
Proof. exists []. split; [intros w; cbn; by rewrite written_nil|done]. Qed.

(** A statement that writes [b]. *)
Lemma codes_cons f fs m m1 m' b :
  (forall w, f w = written w b) ->
  (len b < UINT32 -> forall b' m2, loops m1 b' m2 -> loops m (b ++ b') m2) ->
  codes fs m1 m' -> codes (f :: fs) m m'.
Proof.
  intros Hw Hb (b2 & Hw2 & Hb2). exists (b ++ b2). split.
  - intros w. cbn. rewrite Hw, <- written_app. apply Hw2.
  - rewrite length_app. intros Hl b' m2 H. rewrite <- app_assoc. apply Hb; [lia|]. apply Hb2; [lia|done].
Qed.

Lemma codes_skip f fs m m' : (forall w, f w = w) -> codes fs m m' -> codes (f :: fs) m m'.
Proof. intros Hf. apply (codes_cons _ _ _ m _ []); [intros w; by rewrite written_nil|done]. Qed.

(** A value written after its tag. *)
Lemma codes_field {A} tag (read : R -> result (A * R)) (set : A -> M -> M) (write : A -> W -> W) (enc : bytes) x fs m m' :
  0 <= tag < UINT32 -> switch cases tag = Some (get read set) ->
  (forall w, write x w = written w enc) -> (len enc < UINT32 -> reads rest r_len enc read x) ->
  codes fs (set x m) m' -> codes ((fun w => write x (w_uint32 tag w)) :: fs) m m'.
Proof.
  intros Ht Hs Hw Hr. apply (codes_cons _ _ _ _ _ (enc_uint32 tag ++ enc)).
  - intros w. by rewrite Hw, write_uint32, written_app.
  - rewrite length_app. intros Hl b' m2 Hb. rewrite <- app_assoc. eapply loops_case; [done|exact Hs| |exact Hb].
    intros r l Hrest. unfold get. destruct (Hr ltac:(lia) r l Hrest) as (r' & -> & Hr' & Hl'). by exists r'.
Qed.

Lemma codes_string tag x set fs m m' :
  0 <= tag < UINT32 -> switch cases tag = Some (get r_string set) -> (x = ""%string -> set x m = m) ->
  codes fs (set x m) m' -> codes (put_string tag x :: fs) m m'.
Proof.
  intros Ht Hs H0 Hfs. unfold put_string. destruct (String.eqb_spec x "") as [Hx|Hx]; cbn [negb].
  - apply codes_skip; [done|]. by rewrite <- (H0 Hx).
  - apply (codes_field _ r_string set _ (enc_string x)); [done|done|intros w; apply write_string| |done].
    intros Hl. apply read_string. pose proof (enc_string_length x). lia.
Qed.

Lemma codes_double tag x set fs m m' :
  0 <= tag < UINT32 -> switch cases tag = Some (get r_double set) -> is_double x = true ->
  (nonzero x = false -> set x m = m) ->
  codes fs (set x m) m' -> codes (put_double tag x :: fs) m m'.
Proof.
  intros Ht Hs Hd H0 Hfs. unfold put_double. destruct (nonzero x) eqn:Hx.
  - apply (codes_field _ r_double set _ (enc_double x)); [done|done|intros w; apply write_double|by intros _; apply read_double|done].
  - apply codes_skip; [done|]. by rewrite <- H0.
Qed.

Lemma codes_bool tag (b : bool) set fs m m' :
  0 <= tag < UINT32 -> switch cases tag = Some (get r_bool set) -> (b = false -> set b m = m) ->
  codes fs (set b m) m' -> codes (put_bool tag b :: fs) m m'.
Proof.
  intros Ht Hs H0 Hfs. unfold put_bool. destruct b; cbn [Bool.eqb negb].
  - apply (codes_field _ r_bool set _ (enc_bool true)); [done|done|intros w; apply write_bool|intros _; apply read_bool|done].
  - apply codes_skip; [done|]. by rewrite <- H0.
Qed.

(** A loop over a repeated field, from what its body does. *)
Lemma codes_loop {A} (f : A -> W -> W) (push : A -> M -> M) xs fs m m' :
  (forall x gs m m', x ∈ xs -> codes gs (push x m) m' -> codes (f x :: gs) m m') ->
  codes fs (foldl (fun m x => push x m) m xs) m' -> codes ((fun w => foldl (fun w v => f v w) w xs) :: fs) m m'.
Proof.
  intros Hf Hfs. assert (codes (map f xs ++ fs) m m') as (b & Hw & Hb).
  { revert m Hfs Hf. induction xs as [|x xs IH]; intros m Hfs Hf; cbn in *; [done|].
    apply Hf; [by left|]. apply IH; [done|]. intros y gs m1 m1' Hy. apply Hf. by right. }
  exists b. split; [|done]. intros w. rewrite <- Hw. unfold emit. rewrite foldl_app. cbn. f_equal.
  clear. revert w. induction xs as [|x xs IH]; intros w; cbn; [done|]. apply IH.
Qed.

(** Pushing the elements one by one onto the list of [at_]. *)
Lemma foldl_push {A} (push : A -> M -> M) (at_ : list A -> M) xs :
  (forall (l : list A) x, push x (at_ l) = at_ (l ++ [x])) -> foldl (fun m x => push x m) (at_ []) xs = at_ xs.
Proof.
  intros Hp. enough (forall l : list A, foldl (fun m x => push x m) (at_ l) xs = at_ (l ++ xs)) as H by apply H.
  induction xs as [|x xs IH]; intros l; cbn; [by rewrite app_nil_r|]. by rewrite Hp, IH, <- app_assoc.
Qed.

Lemma codes_strings tag xs push (at_ : list string -> M) fs m' :
  0 <= tag < UINT32 -> switch cases tag = Some (get r_string push) ->
  (forall (l : list string) x, push x (at_ l) = at_ (l ++ [x])) ->
  codes fs (at_ xs) m' -> codes (put_strings tag xs :: fs) (at_ []) m'.
Proof.
  intros Ht Hs Hp. rewrite <- (foldl_push push at_ xs Hp). apply (codes_loop (fun x w => w_string x (w_uint32 tag w))).
  intros x gs m1 m1' _. apply (codes_field _ r_string push _ (enc_string x)); [done|done|intros w; apply write_string|].
  intros Hl. apply read_string. pose proof (enc_string_length x). lia.
Qed.
End Judgement.

(** *** Messages *)

Section Ignorable.
Context {W R : Type} {HW : BinaryWriter W} {HR : BinaryReader R} {Laws : WireLaws W R}.

(** Fields of other numbers, as a later version of a message may have: each a
    tag and a value of the tag's wire type. *)
Inductive ignorable (numbers : list Z) : bytes -> Prop :=
| IgnoreNone : ignorable numbers []
| IgnoreField tag v b :
    0 < tag < UINT32 -> (Z.shiftr tag 3 ∉ numbers) -> wire_value enc_uint32 (Z.land tag 7) v ->
    ignorable numbers b -> ignorable numbers (enc_uint32 tag ++ v ++ b).
End Ignorable.

(** What a codec promises: what it writes for a message is read back as the
    message, also with fields behind it that the reader does not know. *)
Class MessageLaws (T : Type) `{MessageFns T} := {
  wire_ok : T -> Prop;
  numbers : list Z;
  message_law : forall {W R} {HW : BinaryWriter W} {HR : BinaryReader R} {Laws : WireLaws W R} (m : T), wire_ok m ->
    exists b, (forall w, encode m w = written w b) /\
      (len b < UINT32 -> forall extra r l length_, ignorable numbers extra -> rest r = b ++ extra ++ l ->
         length_ = Some (len (b ++ extra)) \/ (length_ = None /\ l = []) ->
         exists r', decode r length_ = Ok (m, r') /\ rest r' = l /\ r_len r' = r_len r);
}.

Section Messages.
Context {W R : Type} {HW : BinaryWriter W} {HR : BinaryReader R} {Laws : WireLaws W R} {M : Type}.
Variable cases : fields R M.
Implicit Types (m : M).

Lemma switch_unknown tag : (Z.shiftr tag 3 ∉ map (fun c => c.1.1) cases) -> switch cases tag = None.
Proof.
  induction cases as [|[[n t] act] cs IH]; cbn; [done|]. intros [Hne Hn]%not_elem_of_cons.
  destruct (Z.eqb_spec (Z.shiftr tag 3) n); [done|by apply IH].
Qed.

Lemma loops_ignorable m b : ignorable (map (fun c => c.1.1) cases) b -> loops cases m b m.
Proof.
  intros Hi. induction Hi as [|tag v b Ht Hn Hv Hb IH]; [apply loops_nil|].
  apply loops_unknown; [done|by apply switch_unknown|done..].
Qed.

(** The law of a codec, from the judgement about its statements. *)
Lemma message_codes base statements m ns :
  map (fun c => c.1.1) cases = ns -> codes cases statements base m ->
  exists b, (forall w, emit statements w = written w b) /\
    (len b < UINT32 -> forall extra r l length_, ignorable ns extra -> rest r = b ++ extra ++ l ->
       length_ = Some (len (b ++ extra)) \/ (length_ = None /\ l = []) ->
       exists r', decode_message cases base r length_ = Ok (m, r') /\ rest r' = l /\ r_len r' = r_len r).
Proof.
  intros <- (b & Hw & Hb). exists b. split; [done|]. intros Hlen extra r l length_ Hex Hr Hl.
  assert (loops cases base (b ++ extra) m) as Hloop by (apply Hb; [done|by apply loops_ignorable]).
  unfold decode_message. set (end_ := match length_ with None => _ | _ => _ end).
  assert (end_ = r_pos r + len (b ++ extra)) as ->.
  { subst end_. destruct Hl as [->|[-> ->]]; [done|]. rewrite rest_length, Hr, app_nil_r. done. }
  apply Hloop; [by rewrite <- app_assoc|lia].
Qed.

(** A message inside a message. *)
Lemma codes_nested {T} {HF : MessageFns T} {HL : MessageLaws T} tag (x : T) set fs m m' :
  0 <= tag < UINT32 -> switch cases tag = Some (get (nested decode) set) -> wire_ok x ->
  codes cases fs (set x m) m' -> codes cases (put_nested encode tag x :: fs) m m'.
Proof.
  intros Ht Hs Hok. destruct (message_law x Hok) as (b & Hw & Hb).
  apply (codes_field cases tag (nested decode) set (fun x w => w_join (encode x (w_fork w))) (enc_uint32 (len b) ++ b));
    [done|done|by intros w; rewrite Hw, write_join|].
  rewrite length_app. intros Hlen r l Hr. unfold nested. rewrite <- app_assoc in Hr.
  destruct (read_uint32 (len b) ltac:(lia) r _ Hr) as (r1 & -> & Hr1 & Hl1).
  destruct (Hb ltac:(lia) [] r1 l (Some (len b))) as (r2 & -> & Hr2 & Hl2);
    [constructor|done|by left; rewrite app_nil_r|]. exists r2. split_and!; [done..|congruence].
Qed.

Lemma codes_optional {T} {HF : MessageFns T} {HL : MessageLaws T} tag (o : option T) set fs m m' :
  0 <= tag < UINT32 -> switch cases tag = Some (get (nested decode) set) ->
  (forall x, o = Some x -> wire_ok x) ->
  codes cases fs (match o with Some x => set x m | None => m end) m' -> codes cases (put_optional encode tag o :: fs) m m'.
Proof.
  intros Ht Hs Hok Hfs. destruct o as [x|]; cbn [put_optional]; [by apply (codes_nested tag x set); auto|by apply codes_skip].
Qed.

Lemma codes_repeated {T} {HF : MessageFns T} {HL : MessageLaws T} tag (xs : list T) push (at_ : list T -> M) fs m' :
  0 <= tag < UINT32 -> switch cases tag = Some (get (nested decode) push) ->
  (forall (l : list T) x, push x (at_ l) = at_ (l ++ [x])) -> (forall x, x ∈ xs -> wire_ok x) ->
  codes cases fs (at_ xs) m' -> codes cases (put_repeated encode tag xs :: fs) (at_ []) m'.
Proof.
  intros Ht Hs Hp Hok. rewrite <- (foldl_push push at_ xs Hp). apply (codes_loop cases (fun v => put_nested encode tag v)).
  intros x gs m1 m1' Hx. apply codes_nested; auto.
Qed.

(** *** The loop ends *)

(** More fuel than bytes to read makes no difference. *)
Lemma decode_fuel fuel fuel' end_ m r :
  (forall act, act ∈ map snd cases -> forall m r m' r', act m r = Ok (m', r') -> r_pos r <= r_pos r') ->
  end_ - r_pos r <= Z.of_nat fuel -> end_ - r_pos r <= Z.of_nat fuel' ->
  decode_loop fuel cases end_ m r = decode_loop fuel' cases end_ m r.
Proof.
  intros Hact. revert fuel' m r. induction fuel as [|fuel IH]; intros [|fuel'] m r Hf Hf'; cbn [decode_loop]; [done| | |];
    destruct (Z.ltb_spec (r_pos r) end_) as [Hlt|]; cbn [negb]; try done; try lia.
  destruct (r_uint32 r) as [[tag r1]|e] eqn:H1; [|done]. apply uint32_advances in H1.
  destruct (switch cases tag) as [act|] eqn:Hs.
  - assert (act ∈ map snd cases) as Hin.
    { clear -Hs. induction cases as [|[[n t] a] cs IH]; cbn in *; [done|].
      destruct (Z.eqb _ n); [destruct (Z.eqb tag t); [injection Hs as ->; left|done]|right; by apply IH]. }
    destruct (act m r1) as [[m2 r2]|e] eqn:H2; [|done]. apply (Hact _ Hin) in H2. apply IH; lia.
  - destruct (_ || _); [done|]. destruct (r_skip _ r1) as [r2|e] eqn:H2; [|done]. apply skip_advances in H2. apply IH; lia.
Qed.
End Messages.

(** ** The service's view *)

(** A message is received as it was sent, also by a receiver that knows fewer
    fields ([extra] is what it does not know). *)
Definition round_trips (T : Type) `{MessageLaws T} : Prop :=
  forall W R (HW : BinaryWriter W) (HR : BinaryReader R) (Laws : WireLaws W R) (m : T) extra,
    wire_ok m -> len (serialize W m) < UINT32 -> ignorable numbers extra ->
    deserialize R (serialize W m ++ extra) = Ok m.

Lemma message_round_trips (T : Type) `{MessageLaws T} : round_trips T.
Proof.
  intros W R HW HR Laws m extra Hok. destruct (message_law m Hok) as (b & Hw & Hb). unfold serialize, deserialize.
  rewrite Hw, finish_written. intros Hlen Hex.
  destruct (Hb Hlen extra (new_reader (b ++ extra)) [] None Hex) as (r' & -> & _); [by rewrite rest_new, app_nil_r|by right|done].
Qed.

(** The statements of a message, one after the other. *)
Ltac codes_message :=
  repeat lazymatch goal with
    | |- codes _ [] _ _ => apply codes_nil
    | |- codes _ (put_string _ _ :: _) _ _ => eapply codes_string; [done|reflexivity|intros ->; reflexivity|cbn]
    | |- codes _ (put_bool _ _ :: _) _ _ => eapply codes_bool; [done|reflexivity|intros ->; reflexivity|cbn]
    | |- codes _ (put_double _ _ :: _) _ _ => eapply codes_double; [done|reflexivity| | |cbn]
    end.

(** ** Service definitions *)

(** An entry of [..ServiceService]. *)
Record MethodDefinition (Req Res : Type) := mkMethod {
  path : string;
  requestStream : bool;
  responseStream : bool;
  requestSerialize : Req -> bytes;
  requestDeserialize : bytes -> result Req;
  responseSerialize : Res -> bytes;
  responseDeserialize : bytes -> result Res;
}.
Arguments mkMethod {Req Res} _ _ _ _ _ _ _.
Arguments path {Req Res} _.
Arguments requestSerialize {Req Res} _.
Arguments requestDeserialize {Req Res} _.
Arguments responseSerialize {Req Res} _.
Arguments responseDeserialize {Req Res} _.

(** The server receives the request the client sent, and the client the reply. *)
Definition transparent {Req Res} `{HQ : MessageLaws Req, HS : MessageLaws Res} (d : MethodDefinition Req Res) : Prop :=
  (forall v, wire_ok v -> len (requestSerialize d v) < UINT32 -> requestDeserialize d (requestSerialize d v) = Ok v) /\
  (forall v, wire_ok v -> len (responseSerialize d v) < UINT32 -> responseDeserialize d (responseSerialize d v) = Ok v).

Lemma method_transparent {W R} {HW : BinaryWriter W} {HR : BinaryReader R} {Laws : WireLaws W R}
    {Req Res} `{HQ : MessageLaws Req, HS : MessageLaws Res} p :
  transparent (mkMethod (Req := Req) (Res := Res) p false false (serialize W) (deserialize R) (serialize W) (deserialize R)).
Proof.
  split; cbn; intros v Hok Hlen; [pose proof (message_round_trips Req W R HW HR Laws v [] Hok Hlen (IgnoreNone _)) as E
    |pose proof (message_round_trips Res W R HW HR Laws v [] Hok Hlen (IgnoreNone _)) as E]; by rewrite app_nil_r in E.
Qed.
