(* ===== verification/GrpcRef.v ===== *)
(** * A reference writer and reader

    The documented wire format: integers in groups of seven bits, the lowest
    first; texts and messages behind their length; doubles as eight bytes of
    IEEE 754, the lowest first.  [ref_laws] shows that the laws of GrpcWire can be
    kept.  Only the witnesses use it. *)

From S2P Require Import Prelude JsNumber GrpcWire.
From Stdlib Require Import Ascii SpecFloat.

#[local] Open Scope Z_scope.

(** ** Integers *)

Definition byte_of (z : Z) : ascii := ascii_of_N (Z.to_N z).

Lemma byte_value_of z : 0 <= z < 256 -> byte_value (byte_of z) = z.
Proof. intros Hz. unfold byte_value, byte_of. rewrite N_ascii_embedding; lia. Qed.

Fixpoint varint (n : nat) (z : Z) : bytes :=
  match n with
  | O => [byte_of (z mod 128)]
  | S n => if z <? 128 then [byte_of z] else byte_of (z mod 128 + 128) :: varint n (z / 128)
  end.

Fixpoint read_varint (n : nat) (l : bytes) : option (Z * bytes) :=
  match l with
  | [] => None
  | c :: l =>
      if byte_value c <? 128 then Some (byte_value c, l)
      else
        match n with
        | O => None
        | S n => match read_varint n l with Some (x, l) => Some (byte_value c - 128 + 128 * x, l) | None => None end
        end
  end.

Lemma read_varint_written n n' z l :
  (n <= n')%nat -> 0 <= z < 128 ^ Z.of_nat (S n) -> read_varint n' (varint n z ++ l) = Some (z, l).
Proof.
  revert n' z. induction n as [|n IH]; intros n' z Hn Hz.
  - change (128 ^ Z.of_nat 1) with 128 in Hz. cbn [varint app]. destruct n'; cbn [read_varint];
      rewrite Z.mod_small, byte_value_of by lia; by replace (z <? 128) with true by (symmetry; apply Z.ltb_lt; lia).
  - destruct n' as [|n']; [lia|]. rewrite Nat2Z.inj_succ, Z.pow_succ_r in Hz by lia. cbn [varint].
    destruct (Z.ltb_spec z 128) as [Hlt|Hge]; cbn [app read_varint].
    + rewrite byte_value_of by lia. by replace (z <? 128) with true by (symmetry; apply Z.ltb_lt; lia).
    + pose proof (Z.mod_pos_bound z 128 ltac:(lia)) as Hm. rewrite byte_value_of by lia.
      replace (z mod 128 + 128 <? 128) with false by (symmetry; apply Z.ltb_ge; lia).
      rewrite IH; [|lia|].
      * f_equal. f_equal. pose proof (Z.div_mod z 128 ltac:(lia)). lia.
      * split; [apply Z.div_pos; lia|]. apply Z.div_lt_upper_bound; lia.
Qed.

(** Any number of bytes from 128 on, and a last one below. *)
Lemma read_varint_any n bs b l :
  Forall (fun c => 128 <= byte_value c) bs -> byte_value b < 128 -> (length bs <= n)%nat ->
  exists z, read_varint n (bs ++ b :: l) = Some (z, l).
Proof.
  intros Hbs Hb. revert n. induction Hbs as [|c bs Hc _ IH]; intros n Hn.
  - exists (byte_value b). cbn [app]. destruct n; cbn [read_varint];
      by replace (byte_value b <? 128) with true by (symmetry; apply Z.ltb_lt; lia).
  - destruct n as [|n]; [cbn in Hn; lia|]. cbn in Hn. destruct (IH n ltac:(lia)) as [z Hz]. eexists. cbn [app read_varint].
    replace (byte_value c <? 128) with false by (symmetry; apply Z.ltb_ge; lia). by rewrite Hz.
Qed.

Lemma read_varint_shorter n l z l' : read_varint n l = Some (z, l') -> len l' < len l.
Proof.
  revert n z l'. induction l as [|c l IH]; intros [|n] z l'; cbn; [done..| |];
    (destruct (byte_value c <? 128); [intros [= <- <-]; lia|]); [done|].
  destruct (read_varint n l) as [[x l2]|] eqn:Hr; [|done]. intros [= <- <-]. apply IH in Hr. lia.
Qed.

(** ** Doubles *)

Definition sign_bit (s : bool) : Z := if s then 2 ^ 63 else 0.

Definition double_bits (x : number) : Z :=
  match x with
  | S754_zero s => sign_bit s
  | S754_infinity s => sign_bit s + 2047 * 2 ^ 52
  | S754_nan => 2047 * 2 ^ 52 + 2 ^ 51
  | S754_finite s m e =>
      sign_bit s + (if Z.pos m <? 2 ^ 52 then Z.pos m else (e + 1075) * 2 ^ 52 + (Z.pos m - 2 ^ 52))
  end.

Definition double_of_bits (b : Z) : number :=
  let s := 2 ^ 63 <=? b in
  let e := b mod 2 ^ 63 / 2 ^ 52 in
  let f := b mod 2 ^ 52 in
  if e =? 2047 then (if f =? 0 then S754_infinity s else S754_nan)
  else if e =? 0 then match f with Z.pos m => S754_finite s m (-1074) | _ => S754_zero s end
  else S754_finite s (Z.to_pos (f + 2 ^ 52)) (e - 1075).

Lemma digits_bounds m : 2 ^ (Z.pos (digits2_pos m) - 1) <= Z.pos m < 2 ^ Z.pos (digits2_pos m).
Proof.
  induction m as [m IH|m IH|]; cbn [digits2_pos]; [| |done];
    replace (Z.pos (Pos.succ (digits2_pos m)) - 1) with (Z.pos (digits2_pos m)) by lia;
    rewrite Pos2Z.inj_succ, Z.pow_succ_r by lia;
    assert (2 * 2 ^ (Z.pos (digits2_pos m) - 1) = 2 ^ Z.pos (digits2_pos m)) as Hd
      by (rewrite <- Z.pow_succ_r by lia; f_equal; lia); lia.
Qed.

(** A double has 53 bits, or it is one of the small ones. *)
Lemma double_shape m e :
  bounded 53 1024 m e = true ->
  (Z.pos m < 2 ^ 52 /\ e = -1074) \/ (2 ^ 52 <= Z.pos m < 2 ^ 53 /\ -1074 <= e <= 971).
Proof.
  unfold bounded, canonical_mantissa, fexp, emin. intros [He%Z.eqb_eq Hmax%Z.leb_le]%andb_true_iff.
  pose proof (digits_bounds m) as [Hlo Hhi]. set (d := Z.pos (digits2_pos m)) in *.
  destruct (Z.lt_ge_cases (Z.pos m) (2 ^ 52)) as [Hlt|Hge]; [left|right]; (split; [|lia || idtac]).
  - done.
  - assert (d - 1 < 52) by (apply (Z.pow_lt_mono_r_iff 2); lia). lia.
  - assert (52 < d) by (apply (Z.pow_lt_mono_r_iff 2); lia). assert (d = 53) as Hd by lia. rewrite Hd in Hhi. lia.
Qed.

Lemma sign_split s b : 0 <= b < 2 ^ 63 ->
  (2 ^ 63 <=? sign_bit s + b) = s /\ (sign_bit s + b) mod 2 ^ 63 = b /\ (sign_bit s + b) mod 2 ^ 52 = b mod 2 ^ 52.
Proof.
  intros Hb. unfold sign_bit. destruct s.
  - split_and!; [apply Z.leb_le; lia| |].
    + rewrite <- (Z.mod_small b (2 ^ 63)) at 2 by done. rewrite Z.add_comm. by rewrite <- (Z_mod_plus_full b 1 (2 ^ 63)).
    + change (2 ^ 63) with (2 ^ 11 * 2 ^ 52). by rewrite Z.add_comm, Z_mod_plus_full.
  - rewrite Z.add_0_l. split_and!; [apply Z.leb_gt; lia|by apply Z.mod_small|done].
Qed.

Lemma double_bits_range x : is_double x = true -> 0 <= double_bits x < 2 ^ 64.
Proof.
  intros Hx. assert (forall s b, 0 <= b < 2 ^ 63 -> 0 <= sign_bit s + b < 2 ^ 64) as Hs by (intros []; cbn; lia).
  destruct x as [s|s| |s m e]; cbn [double_bits]; [destruct s; cbn; lia|apply Hs; lia|lia|apply Hs].
  destruct (double_shape m e Hx) as [[Hm ->]|[Hm He]].
  - replace (_ <? _) with true by (symmetry; by apply Z.ltb_lt). lia.
  - replace (_ <? _) with false by (symmetry; apply Z.ltb_ge; lia). lia.
Qed.

Lemma double_of_double_bits x : is_double x = true -> double_of_bits (double_bits x) = x.
Proof.
  intros Hx. unfold double_of_bits. destruct x as [s|s| |s m e]; cbn [double_bits].
  - by destruct s.
  - by destruct s.
  - done.
  - destruct (double_shape m e Hx) as [[Hm ->]|[Hm He]].
    + replace (_ <? _) with true by (symmetry; by apply Z.ltb_lt).
      destruct (sign_split s (Z.pos m)) as (-> & -> & ->); [lia|]. rewrite Z.div_small, Z.mod_small by lia. done.
    + replace (_ <? _) with false by (symmetry; apply Z.ltb_ge; lia).
      set (b := (e + 1075) * 2 ^ 52 + (Z.pos m - 2 ^ 52)).
      assert (0 <= b < 2 ^ 63) as Hb by (subst b; lia).
      destruct (sign_split s b Hb) as (-> & -> & ->).
      assert (b / 2 ^ 52 = e + 1075) as -> by (subst b; rewrite Z.div_add_l, Z.div_small by lia; lia).
      assert (b mod 2 ^ 52 = Z.pos m - 2 ^ 52) as ->.
      { subst b. rewrite Z.add_comm, Z_mod_plus_full. apply Z.mod_small. lia. }
      replace (e + 1075 =? 2047) with false by (symmetry; apply Z.eqb_neq; lia).
      replace (e + 1075 =? 0) with false by (symmetry; apply Z.eqb_neq; lia). f_equal; [|lia].
      by rewrite Z.sub_add.
Qed.

(** Eight bytes. *)
Fixpoint le_bytes (n : nat) (z : Z) : bytes :=
  match n with O => [] | S n => byte_of (z mod 256) :: le_bytes n (z / 256) end.

Fixpoint of_le (l : bytes) : Z := match l with [] => 0 | c :: l => byte_value c + 256 * of_le l end.

Lemma le_bytes_length n z : length (le_bytes n z) = n.
Proof. revert z. induction n as [|n IH]; intros z; cbn; [done|]. by rewrite IH. Qed.

Lemma of_le_bytes n z : 0 <= z < 256 ^ Z.of_nat n -> of_le (le_bytes n z) = z.
Proof.
  revert z. induction n as [|n IH]; intros z Hz; cbn [le_bytes of_le]; [cbn in Hz; lia|].
  rewrite Nat2Z.inj_succ, Z.pow_succ_r in Hz by lia. pose proof (Z.mod_pos_bound z 256 ltac:(lia)) as Hm.
  rewrite byte_value_of, IH by (try apply conj; try (apply Z.div_pos; lia); try (apply Z.div_lt_upper_bound; lia); lia).
  pose proof (Z.div_mod z 256 ltac:(lia)). lia.
Qed.

(** ** The writer *)

(** The chunk that is being written, and those that wait for it. *)
Definition RefWriter : Type := bytes * list bytes.

Definition append (b : bytes) (w : RefWriter) : RefWriter := (w.1 ++ b, w.2).

Definition ref_uint32 (z : Z) : bytes := varint 4 (z mod UINT32).
Definition ref_string (s : string) : bytes := ref_uint32 (Z.of_nat (String.length s)) ++ String.list_ascii_of_string s.
Definition ref_double (x : number) : bytes := le_bytes 8 (double_bits x).
Definition ref_bool (b : bool) : bytes := ref_uint32 (if b then 1 else 0).

#[global] Instance ref_writer : BinaryWriter RefWriter := {|
  new_writer := ([], []);
  w_uint32 z := append (ref_uint32 z);
  w_string s := append (ref_string s);
  w_double x := append (ref_double x);
  w_bool b := append (ref_bool b);
  w_fork w := ([], w.1 :: w.2);
  w_join w := match w.2 with
              | top :: stack => (top ++ ref_uint32 (len w.1) ++ w.1, stack)
              | [] => w
              end;
  finish w := w.1;
|}.

(** ** The reader *)

(** The size of the buffer and what is left of it. *)
Definition RefReader : Type := Z * bytes.

Definition eof : exn := JsError "premature EOF".

Definition take_bytes (n : Z) (r : RefReader) : result (bytes * RefReader) :=
  if len r.2 <? n then Err eof else Ok (take (Z.to_nat n) r.2, (r.1, drop (Z.to_nat n) r.2)).

Definition ref_read_uint32 (r : RefReader) : result (Z * RefReader) :=
  match read_varint 9 r.2 with Some (z, l) => Ok (z mod UINT32, (r.1, l)) | None => Err eof end.

Definition ref_read_string (r : RefReader) : result (string * RefReader) :=
  match ref_read_uint32 r with
  | Ok (n, r) => match take_bytes n r with Ok (b, r) => Ok (String.string_of_list_ascii b, r) | Err e => Err e end
  | Err e => Err e
  end.

Definition ref_read_double (r : RefReader) : result (number * RefReader) :=
  match take_bytes 8 r with Ok (b, r) => Ok (double_of_bits (of_le b), r) | Err e => Err e end.

Definition ref_read_bool (r : RefReader) : result (bool * RefReader) :=
  match ref_read_uint32 r with Ok (n, r) => Ok (negb (n =? 0), r) | Err e => Err e end.

Definition skipped {A} (x : result (A * RefReader)) : result RefReader :=
  match x with Ok (_, r) => Ok r | Err e => Err e end.

Definition ref_skip (wireType : Z) (r : RefReader) : result RefReader :=
  match wireType with
  | 0 => skipped (ref_read_uint32 r)
  | 1 => skipped (take_bytes 8 r)
  | 2 => skipped (ref_read_string r)
  | 5 => skipped (take_bytes 4 r)
  | _ => Err (JsError "cant skip wire type")
  end.

#[global] Instance ref_reader : BinaryReader RefReader := {|
  new_reader l := (len l, l);
  r_pos r := r.1 - len r.2;
  r_len r := r.1;
  r_uint32 := ref_read_uint32;
  r_string := ref_read_string;
  r_double := ref_read_double;
  r_bool := ref_read_bool;
  r_skip := ref_skip;
|}.

(** ** The laws *)

Lemma take_bytes_app b r l : r.2 = b ++ l -> take_bytes (len b) r = Ok (b, (r.1, l)).
Proof.
  intros Hr. unfold take_bytes. rewrite Hr, length_app.
  replace (Z.of_nat (length b + length l) <? len b) with false by (symmetry; apply Z.ltb_ge; lia).
  by rewrite Nat2Z.id, take_app_length, drop_app_length.
Qed.

Lemma take_bytes_advances n : advances (fun r : RefReader => r.1 - len r.2) (take_bytes n).
Proof.
  intros r b r'. unfold take_bytes. destruct (len r.2 <? n); [done|]. intros [= _ <-]. cbn. rewrite length_drop. lia.
Qed.

Lemma ref_uint32_read z r l : 0 <= z < UINT32 -> r.2 = ref_uint32 z ++ l -> ref_read_uint32 r = Ok (z, (r.1, l)).
Proof.
  intros Hz Hr. unfold ref_read_uint32, ref_uint32 in *. rewrite Z.mod_small in Hr by done. rewrite Hr.
  rewrite read_varint_written; [by rewrite Z.mod_small|lia|]. unfold UINT32 in Hz. cbn. lia.
Qed.

Lemma ref_uint32_advances r z r' : ref_read_uint32 r = Ok (z, r') -> r.1 - len r.2 < r'.1 - len r'.2.
Proof.
  unfold ref_read_uint32. destruct (read_varint 9 r.2) as [[x l]|] eqn:Hr; [|done]. intros [= _ <-].
  apply read_varint_shorter in Hr. cbn. lia.
Qed.

Lemma ref_string_read s r l : Z.of_nat (String.length s) < UINT32 -> r.2 = ref_string s ++ l ->
  ref_read_string r = Ok (s, (r.1, l)).
Proof.
  intros Hs Hr. unfold ref_string in Hr. rewrite <- app_assoc in Hr. unfold ref_read_string.
  rewrite (ref_uint32_read _ _ _ (conj (Nat2Z.is_nonneg _) Hs) Hr).
  assert (String.length s = length (String.list_ascii_of_string s)) as -> by (clear; induction s; cbn; congruence).
  rewrite (take_bytes_app _ _ l) by done. by rewrite String.string_of_list_ascii_of_string.
Qed.

Lemma ref_string_advances : advances (fun r : RefReader => r.1 - len r.2) ref_read_string.
Proof.
  intros r s r'. unfold ref_read_string. destruct (ref_read_uint32 r) as [[n r1]|] eqn:H1; [|done].
  apply ref_uint32_advances in H1. destruct (take_bytes n r1) as [[b r2]|] eqn:H2; [|done].
  apply take_bytes_advances in H2. intros [= _ <-]. lia.
Qed.

#[global] Instance ref_laws : WireLaws RefWriter RefReader.
Proof.
  refine {| enc_uint32 := ref_uint32; enc_string := ref_string; enc_double := ref_double; enc_bool := ref_bool;
            written w b := append b w; rest r := r.2 |}; cbn.
  - intros [top st]. unfold append. by rewrite app_nil_r.
  - intros [top st] a b. unfold append. cbn. by rewrite app_assoc.
  - done.
  - done.
  - done.
  - done.
  - by intros [top st] l.
  - done.
  - intros z. unfold ref_uint32. cbn [varint]. by destruct (_ <? 128).
  - intros s. unfold ref_string. rewrite length_app.
    assert (String.length s = length (String.list_ascii_of_string s)) as -> by (induction s; cbn; congruence). lia.
  - done.
  - intros [n l]. cbn. lia.
  - intros z Hz r l Hr. rewrite (ref_uint32_read z r l Hz Hr). by eexists.
  - intros s Hs r l Hr. rewrite (ref_string_read s r l Hs Hr). by eexists.
  - intros x Hx r l Hr. unfold ref_read_double. unfold ref_double in Hr.
    pose proof (take_bytes_app (le_bytes 8 (double_bits x)) r l Hr) as Ht. rewrite le_bytes_length in Ht. change (Z.of_nat 8) with 8 in Ht. rewrite Ht.
    rewrite of_le_bytes by (pose proof (double_bits_range x Hx); cbn; lia). rewrite double_of_double_bits by done. by eexists.
  - intros b r l Hr. unfold ref_read_bool. rewrite (ref_uint32_read (if b then 1 else 0) r l); [|by destruct b|done].
    eexists. split; [by destruct b|done].
  - intros t v r l Hv Hr. destruct Hv as [bs b Hbs Hb Hn|bs Hn|bs Hn|bs Hn]; cbn [ref_skip].
    + rewrite <- app_assoc in Hr. unfold ref_read_uint32. rewrite Hr.
      destruct (read_varint_any 9 bs b l Hbs Hb Hn) as [z Hz]. cbn [app]. rewrite Hz. by eexists.
    + pose proof (take_bytes_app bs r l Hr) as Ht. rewrite Hn in Ht. change (Z.of_nat 8) with 8 in Ht. rewrite Ht. by eexists.
    + rewrite <- app_assoc in Hr. unfold ref_read_string.
      rewrite (ref_uint32_read _ _ _ (conj (Nat2Z.is_nonneg _) Hn) Hr), (take_bytes_app bs _ l) by done. by eexists.
    + pose proof (take_bytes_app bs r l Hr) as Ht. rewrite Hn in Ht. change (Z.of_nat 4) with 4 in Ht. rewrite Ht. by eexists.
  - intros r z r'. apply ref_uint32_advances.
  - exact ref_string_advances.
  - intros r x r'. unfold ref_read_double. destruct (take_bytes 8 r) as [[b r1]|] eqn:H1; [|done]. intros [= _ <-].
    by apply take_bytes_advances in H1.
  - intros r x r'. unfold ref_read_bool. destruct (ref_read_uint32 r) as [[b r1]|] eqn:H1; [|done]. intros [= _ <-].
    apply ref_uint32_advances in H1. lia.
  - intros t r r'. unfold ref_skip, skipped.
    destruct t as [|[[[|[]|]|[|[]|]|]|[|[]|]|]|]; try done.
    all: match goal with |- match ?x with _ => _ end = _ -> _ => destruct x as [[y r1]|] eqn:H1; [|done] end; intros [= <-].
    all: first [apply ref_uint32_advances in H1; lia|by apply take_bytes_advances in H1|by apply ref_string_advances in H1].
Defined.
