(* ===== verification/GrpcPayment.v ===== *)
(** * The messages of the payment service on the wire

    libs/grpc/src/generated/payment.ts: for each message its base value, its
    [encode] and its [decode], and the service definition.  The types shared with
    the services' models are those of Messages.  An amount of -0 is sent as
    nothing and arrives as 0. *)

From S2P Require Import Prelude JsNumber Messages GrpcWire GrpcRef.
From Stdlib Require Import Ascii SpecFloat.

#[local] Open Scope Z_scope.

(** ** Messages *)

Module InitiatePaymentRequest.
Definition createBase : InitiatePaymentRequest := mkInitiatePaymentRequest "" "" (num_of_Z 0) "" "" "" "".

Definition statements {W} `{BinaryWriter W} (message : InitiatePaymentRequest) : list (W -> W) :=
  [put_string 10 (ipr_bookingId message); put_string 18 (ipr_idempotencyKey message);
   put_double 25 (ipr_amount message); put_string 34 (ipr_currency message); put_string 42 (ipr_method message);
   put_string 50 (ipr_cardToken message); put_string 58 (ipr_provider message)].

Definition encode {W} `{BinaryWriter W} (message : InitiatePaymentRequest) (writer : W) : W := emit (statements message) writer.

Definition cases {R} `{BinaryReader R} : fields R InitiatePaymentRequest :=
  [(1, 10, get r_string (fun x m =>
      mkInitiatePaymentRequest x (ipr_idempotencyKey m) (ipr_amount m) (ipr_currency m) (ipr_method m)
      (ipr_cardToken m) (ipr_provider m)));
   (2, 18, get r_string (fun x m =>
      mkInitiatePaymentRequest (ipr_bookingId m) x (ipr_amount m) (ipr_currency m) (ipr_method m) (ipr_cardToken m)
      (ipr_provider m)));
   (3, 25, get r_double (fun x m =>
      mkInitiatePaymentRequest (ipr_bookingId m) (ipr_idempotencyKey m) x (ipr_currency m) (ipr_method m)
      (ipr_cardToken m) (ipr_provider m)));
   (4, 34, get r_string (fun x m =>
      mkInitiatePaymentRequest (ipr_bookingId m) (ipr_idempotencyKey m) (ipr_amount m) x (ipr_method m)
      (ipr_cardToken m) (ipr_provider m)));
   (5, 42, get r_string (fun x m =>
      mkInitiatePaymentRequest (ipr_bookingId m) (ipr_idempotencyKey m) (ipr_amount m) (ipr_currency m) x
      (ipr_cardToken m) (ipr_provider m)));
   (6, 50, get r_string (fun x m =>
      mkInitiatePaymentRequest (ipr_bookingId m) (ipr_idempotencyKey m) (ipr_amount m) (ipr_currency m) (ipr_method m)
      x (ipr_provider m)));
   (7, 58, get r_string (fun x m =>
      mkInitiatePaymentRequest (ipr_bookingId m) (ipr_idempotencyKey m) (ipr_amount m) (ipr_currency m) (ipr_method m)
      (ipr_cardToken m) x))].

Definition decode {R} `{BinaryReader R} (input : R) (length_ : option Z) : result (InitiatePaymentRequest * R) :=
  decode_message cases createBase input length_.

#[global] Instance fns : MessageFns InitiatePaymentRequest := {| GrpcWire.encode := @encode; GrpcWire.decode := @decode |}.

#[global] Instance laws : MessageLaws InitiatePaymentRequest.
Proof.
  refine {| wire_ok m := is_double (ipr_amount m) = true /\ ipr_amount m <> S754_zero true; numbers := [1; 2; 3; 4; 5; 6; 7] |}.
  intros W R HW HR Laws [x_bookingId x_idempotencyKey x_amount x_currency x_method x_cardToken x_provider] Hok.
  apply (message_codes cases createBase (statements _)); [reflexivity|].
  unfold statements, createBase. cbn.
  codes_message; [exact (proj1 Hok)|destruct Hok as [_ Hz]; by destruct x_amount as [[]| | |]].
  all: codes_message.
Defined.
End InitiatePaymentRequest.

Module PaymentInfo.
Definition createBase : PaymentInfo := mkPaymentInfo "" "" "" "" "" "" "" "" "" "" "".

Definition statements {W} `{BinaryWriter W} (message : PaymentInfo) : list (W -> W) :=
  [put_string 10 (pinf_id message); put_string 18 (pinf_bookingId message);
   put_string 26 (pinf_idempotencyKey message); put_string 34 (pinf_amount message);
   put_string 42 (pinf_currency message); put_string 50 (pinf_method message); put_string 58 (pinf_status message);
   put_string 66 (pinf_provider message); put_string 74 (pinf_providerTxId message);
   put_string 82 (pinf_failureReason message); put_string 90 (pinf_paidAt message)].

Definition encode {W} `{BinaryWriter W} (message : PaymentInfo) (writer : W) : W := emit (statements message) writer.

Definition cases {R} `{BinaryReader R} : fields R PaymentInfo :=
  [(1, 10, get r_string (fun x m =>
      mkPaymentInfo x (pinf_bookingId m) (pinf_idempotencyKey m) (pinf_amount m) (pinf_currency m) (pinf_method m)
      (pinf_status m) (pinf_provider m) (pinf_providerTxId m) (pinf_failureReason m) (pinf_paidAt m)));
   (2, 18, get r_string (fun x m =>
      mkPaymentInfo (pinf_id m) x (pinf_idempotencyKey m) (pinf_amount m) (pinf_currency m) (pinf_method m)
      (pinf_status m) (pinf_provider m) (pinf_providerTxId m) (pinf_failureReason m) (pinf_paidAt m)));
   (3, 26, get r_string (fun x m =>
      mkPaymentInfo (pinf_id m) (pinf_bookingId m) x (pinf_amount m) (pinf_currency m) (pinf_method m) (pinf_status m)
      (pinf_provider m) (pinf_providerTxId m) (pinf_failureReason m) (pinf_paidAt m)));
   (4, 34, get r_string (fun x m =>
      mkPaymentInfo (pinf_id m) (pinf_bookingId m) (pinf_idempotencyKey m) x (pinf_currency m) (pinf_method m)
      (pinf_status m) (pinf_provider m) (pinf_providerTxId m) (pinf_failureReason m) (pinf_paidAt m)));
   (5, 42, get r_string (fun x m =>
      mkPaymentInfo (pinf_id m) (pinf_bookingId m) (pinf_idempotencyKey m) (pinf_amount m) x (pinf_method m)
      (pinf_status m) (pinf_provider m) (pinf_providerTxId m) (pinf_failureReason m) (pinf_paidAt m)));
   (6, 50, get r_string (fun x m =>
      mkPaymentInfo (pinf_id m) (pinf_bookingId m) (pinf_idempotencyKey m) (pinf_amount m) (pinf_currency m) x
      (pinf_status m) (pinf_provider m) (pinf_providerTxId m) (pinf_failureReason m) (pinf_paidAt m)));
   (7, 58, get r_string (fun x m =>
      mkPaymentInfo (pinf_id m) (pinf_bookingId m) (pinf_idempotencyKey m) (pinf_amount m) (pinf_currency m)
      (pinf_method m) x (pinf_provider m) (pinf_providerTxId m) (pinf_failureReason m) (pinf_paidAt m)));
   (8, 66, get r_string (fun x m =>
      mkPaymentInfo (pinf_id m) (pinf_bookingId m) (pinf_idempotencyKey m) (pinf_amount m) (pinf_currency m)
      (pinf_method m) (pinf_status m) x (pinf_providerTxId m) (pinf_failureReason m) (pinf_paidAt m)));
   (9, 74, get r_string (fun x m =>
      mkPaymentInfo (pinf_id m) (pinf_bookingId m) (pinf_idempotencyKey m) (pinf_amount m) (pinf_currency m)
      (pinf_method m) (pinf_status m) (pinf_provider m) x (pinf_failureReason m) (pinf_paidAt m)));
   (10, 82, get r_string (fun x m =>
      mkPaymentInfo (pinf_id m) (pinf_bookingId m) (pinf_idempotencyKey m) (pinf_amount m) (pinf_currency m)
      (pinf_method m) (pinf_status m) (pinf_provider m) (pinf_providerTxId m) x (pinf_paidAt m)));
   (11, 90, get r_string (fun x m =>
      mkPaymentInfo (pinf_id m) (pinf_bookingId m) (pinf_idempotencyKey m) (pinf_amount m) (pinf_currency m)
      (pinf_method m) (pinf_status m) (pinf_provider m) (pinf_providerTxId m) (pinf_failureReason m) x))].

Definition decode {R} `{BinaryReader R} (input : R) (length_ : option Z) : result (PaymentInfo * R) :=
  decode_message cases createBase input length_.

#[global] Instance fns : MessageFns PaymentInfo := {| GrpcWire.encode := @encode; GrpcWire.decode := @decode |}.

#[global] Instance laws : MessageLaws PaymentInfo.
Proof.
  refine {| wire_ok m := True; numbers := [1; 2; 3; 4; 5; 6; 7; 8; 9; 10; 11] |}.
  intros W R HW HR Laws [x_id x_bookingId x_idempotencyKey x_amount x_currency x_method x_status x_provider x_providerTxId
    x_failureReason x_paidAt] Hok.
  apply (message_codes cases createBase (statements _)); [reflexivity|].
  unfold statements, createBase. cbn.
  all: codes_message.
Defined.
End PaymentInfo.

Module InitiatePaymentResponse.
Record t := make { payment : option PaymentInfo }.

Definition createBase : t := make None.

Definition statements {W} `{BinaryWriter W} (message : t) : list (W -> W) :=
  [put_optional PaymentInfo.encode 10 (payment message)].

Definition encode {W} `{BinaryWriter W} (message : t) (writer : W) : W := emit (statements message) writer.

Definition cases {R} `{BinaryReader R} : fields R t :=
  [(1, 10, get (nested PaymentInfo.decode) (fun x m => make (Some x)))].

Definition decode {R} `{BinaryReader R} (input : R) (length_ : option Z) : result (t * R) :=
  decode_message cases createBase input length_.

#[global] Instance fns : MessageFns t := {| GrpcWire.encode := @encode; GrpcWire.decode := @decode |}.

#[global] Instance laws : MessageLaws t.
Proof.
  refine {| wire_ok m := True; numbers := [1] |}.
  intros W R HW HR Laws [x_payment] Hok.
  apply (message_codes cases createBase (statements _)); [reflexivity|].
  unfold statements, createBase. cbn.
  codes_message. apply (codes_optional (W := W) (R := R) (HF := PaymentInfo.fns) (HL := PaymentInfo.laws) cases 10 x_payment (fun x m => make (Some x))); [done|reflexivity|intros; exact I|]. destruct x_payment; cbn.
  all: codes_message.
Defined.
End InitiatePaymentResponse.

Module GetPaymentRequest.
Record t := make { id : string }.

Definition createBase : t := make "".

Definition statements {W} `{BinaryWriter W} (message : t) : list (W -> W) :=
  [put_string 10 (id message)].

Definition encode {W} `{BinaryWriter W} (message : t) (writer : W) : W := emit (statements message) writer.

Definition cases {R} `{BinaryReader R} : fields R t :=
  [(1, 10, get r_string (fun x m => make x))].

Definition decode {R} `{BinaryReader R} (input : R) (length_ : option Z) : result (t * R) :=
  decode_message cases createBase input length_.

#[global] Instance fns : MessageFns t := {| GrpcWire.encode := @encode; GrpcWire.decode := @decode |}.

#[global] Instance laws : MessageLaws t.
Proof.
  refine {| wire_ok m := True; numbers := [1] |}.
  intros W R HW HR Laws [x_id] Hok.
  apply (message_codes cases createBase (statements _)); [reflexivity|].
  unfold statements, createBase. cbn.
  all: codes_message.
Defined.
End GetPaymentRequest.

Module GetPaymentsByBookingRequest.
Record t := make { bookingId : string }.

Definition createBase : t := make "".

Definition statements {W} `{BinaryWriter W} (message : t) : list (W -> W) :=
  [put_string 10 (bookingId message)].

Definition encode {W} `{BinaryWriter W} (message : t) (writer : W) : W := emit (statements message) writer.

Definition cases {R} `{BinaryReader R} : fields R t :=
  [(1, 10, get r_string (fun x m => make x))].

Definition decode {R} `{BinaryReader R} (input : R) (length_ : option Z) : result (t * R) :=
  decode_message cases createBase input length_.

#[global] Instance fns : MessageFns t := {| GrpcWire.encode := @encode; GrpcWire.decode := @decode |}.

#[global] Instance laws : MessageLaws t.
Proof.
  refine {| wire_ok m := True; numbers := [1] |}.
  intros W R HW HR Laws [x_bookingId] Hok.
  apply (message_codes cases createBase (statements _)); [reflexivity|].
  unfold statements, createBase. cbn.
  all: codes_message.
Defined.
End GetPaymentsByBookingRequest.

Module GetPaymentsByBookingResponse.
Record t := make { payments : list PaymentInfo }.

Definition createBase : t := make [].

Definition statements {W} `{BinaryWriter W} (message : t) : list (W -> W) :=
  [put_repeated PaymentInfo.encode 10 (payments message)].

Definition encode {W} `{BinaryWriter W} (message : t) (writer : W) : W := emit (statements message) writer.

Definition cases {R} `{BinaryReader R} : fields R t :=
  [(1, 10, get (nested PaymentInfo.decode) (fun x m => make (payments m ++ [x])))].

Definition decode {R} `{BinaryReader R} (input : R) (length_ : option Z) : result (t * R) :=
  decode_message cases createBase input length_.

#[global] Instance fns : MessageFns t := {| GrpcWire.encode := @encode; GrpcWire.decode := @decode |}.

#[global] Instance laws : MessageLaws t.
Proof.
  refine {| wire_ok m := True; numbers := [1] |}.
  intros W R HW HR Laws [x_payments] Hok.
  apply (message_codes cases createBase (statements _)); [reflexivity|].
  unfold statements, createBase. cbn.
  codes_message. apply (codes_repeated (W := W) (R := R) (HF := PaymentInfo.fns) (HL := PaymentInfo.laws) cases 10 x_payments (fun x m => make (payments m ++ [x])) (fun l => make l)); [done|reflexivity|done|intros; exact I|].
  all: codes_message.
Defined.
End GetPaymentsByBookingResponse.

Module RefundPaymentRequest.
Record t := make { bookingId : string; idempotencyKey : string; reason : string }.

Definition createBase : t := make "" "" "".

Definition statements {W} `{BinaryWriter W} (message : t) : list (W -> W) :=
  [put_string 10 (bookingId message); put_string 18 (idempotencyKey message); put_string 26 (reason message)].

Definition encode {W} `{BinaryWriter W} (message : t) (writer : W) : W := emit (statements message) writer.

Definition cases {R} `{BinaryReader R} : fields R t :=
  [(1, 10, get r_string (fun x m => make x (idempotencyKey m) (reason m)));
   (2, 18, get r_string (fun x m => make (bookingId m) x (reason m)));
   (3, 26, get r_string (fun x m => make (bookingId m) (idempotencyKey m) x))].

Definition decode {R} `{BinaryReader R} (input : R) (length_ : option Z) : result (t * R) :=
  decode_message cases createBase input length_.

#[global] Instance fns : MessageFns t := {| GrpcWire.encode := @encode; GrpcWire.decode := @decode |}.

#[global] Instance laws : MessageLaws t.
Proof.
  refine {| wire_ok m := True; numbers := [1; 2; 3] |}.
  intros W R HW HR Laws [x_bookingId x_idempotencyKey x_reason] Hok.
  apply (message_codes cases createBase (statements _)); [reflexivity|].
  unfold statements, createBase. cbn.
  all: codes_message.
Defined.
End RefundPaymentRequest.

Module RefundPaymentResponse.
Definition createBase : RefundPaymentResponse := mkRefundResponse false "" "".

Definition statements {W} `{BinaryWriter W} (message : RefundPaymentResponse) : list (W -> W) :=
  [put_bool 8 (rp_success message); put_string 18 (rp_refundId message); put_string 26 (rp_failureReason message)].

Definition encode {W} `{BinaryWriter W} (message : RefundPaymentResponse) (writer : W) : W := emit (statements message) writer.

Definition cases {R} `{BinaryReader R} : fields R RefundPaymentResponse :=
  [(1, 8, get r_bool (fun x m => mkRefundResponse x (rp_refundId m) (rp_failureReason m)));
   (2, 18, get r_string (fun x m => mkRefundResponse (rp_success m) x (rp_failureReason m)));
   (3, 26, get r_string (fun x m => mkRefundResponse (rp_success m) (rp_refundId m) x))].

Definition decode {R} `{BinaryReader R} (input : R) (length_ : option Z) : result (RefundPaymentResponse * R) :=
  decode_message cases createBase input length_.

#[global] Instance fns : MessageFns RefundPaymentResponse := {| GrpcWire.encode := @encode; GrpcWire.decode := @decode |}.

#[global] Instance laws : MessageLaws RefundPaymentResponse.
Proof.
  refine {| wire_ok m := True; numbers := [1; 2; 3] |}.
  intros W R HW HR Laws [x_success x_refundId x_failureReason] Hok.
  apply (message_codes cases createBase (statements _)); [reflexivity|].
  unfold statements, createBase. cbn.
  all: codes_message.
Defined.
End RefundPaymentResponse.

(** ** The service *)

Module PaymentServiceService.
Section Methods.
Context (W R : Type) `{BinaryWriter W} `{BinaryReader R}.

Definition initiatePayment : MethodDefinition InitiatePaymentRequest InitiatePaymentResponse.t :=
  mkMethod "/payment.PaymentService/InitiatePayment" false false
    (serialize W) (deserialize R) (serialize W) (deserialize R).

Definition getPayment : MethodDefinition GetPaymentRequest.t PaymentInfo :=
  mkMethod "/payment.PaymentService/GetPayment" false false
    (serialize W) (deserialize R) (serialize W) (deserialize R).

Definition getPaymentsBooking : MethodDefinition GetPaymentsByBookingRequest.t GetPaymentsByBookingResponse.t :=
  mkMethod "/payment.PaymentService/GetPaymentsBooking" false false
    (serialize W) (deserialize R) (serialize W) (deserialize R).

Definition refundPayment : MethodDefinition RefundPaymentRequest.t RefundPaymentResponse :=
  mkMethod "/payment.PaymentService/RefundPayment" false false
    (serialize W) (deserialize R) (serialize W) (deserialize R).

End Methods.
End PaymentServiceService.

(** ** Properties *)

(** C38: Every message of the payment service whose encoding is shorter than 4 GiB
    is received as it was sent, over any writer and reader that keep the laws of
    the package, also when fields the receiver does not know follow it, of any
    wire type that proto3 has.  The one value that does not arrive is an amount
    of -0, which is not written. *)
Theorem payment_messages_round_trip :
  round_trips InitiatePaymentRequest /\
  round_trips PaymentInfo /\
  round_trips InitiatePaymentResponse.t /\
  round_trips GetPaymentRequest.t /\
  round_trips GetPaymentsByBookingRequest.t /\
  round_trips GetPaymentsByBookingResponse.t /\
  round_trips RefundPaymentRequest.t /\
  round_trips RefundPaymentResponse.
Proof. split_and!; apply message_round_trips. Qed.

(** The requests and replies of every method pass unchanged. *)
Theorem payment_methods_transparent W R {HW : BinaryWriter W} {HR : BinaryReader R} {Laws : WireLaws W R} :
  transparent (PaymentServiceService.initiatePayment W R) /\
  transparent (PaymentServiceService.getPayment W R) /\
  transparent (PaymentServiceService.getPaymentsBooking W R) /\
  transparent (PaymentServiceService.refundPayment W R).
Proof. split_and!; apply method_transparent. Qed.

(** ** Concrete messages *)

(** Field 1, two bytes. *)
Example get_payment_request_bytes :
  serialize RefWriter (GetPaymentRequest.make "p1") = map ascii_of_nat [10; 2; 112; 49]%nat.
Proof. reflexivity. Qed.

Definition demo_payment_request (amount : number) : InitiatePaymentRequest :=
  mkInitiatePaymentRequest "b1" "pay-1" amount "TRY" "credit_card" "pm_card_visa" "".

(** An amount of -0 arrives as 0. *)
Example negative_zero_lost :
  deserialize RefReader (serialize RefWriter (demo_payment_request (S754_zero true))) =
  Ok (demo_payment_request (S754_zero false)).
Proof. vm_compute. reflexivity. Qed.

(** Fields of the numbers 16 to 19: a text, an integer of two bytes, a 64-bit and
    a 32-bit value. *)
Definition later_fields : bytes :=
  ref_uint32 130 ++ (ref_uint32 3 ++ String.list_ascii_of_string "new") ++
  ref_uint32 136 ++ map ascii_of_nat [150; 1]%nat ++
  ref_uint32 145 ++ ref_double (num_of_Z 7) ++
  ref_uint32 157 ++ map ascii_of_nat [1; 2; 3; 4]%nat ++ [].

Lemma later_fields_ignorable : ignorable (Laws := ref_laws) [1; 2; 3; 4; 5; 6; 7] later_fields.
Proof.
  assert (forall n, 8 <= n -> n ∉ [1; 2; 3; 4; 5; 6; 7]) as Hn by (intros n Hn; rewrite !elem_of_cons, elem_of_nil; lia).
  apply (IgnoreField (Laws := ref_laws)); [done|by apply Hn|apply (DelimitedValue ref_uint32 (String.list_ascii_of_string "new")); done|].
  apply (IgnoreField (Laws := ref_laws)); [done|by apply Hn| |].
  { apply (VarintValue ref_uint32 [ascii_of_nat 150] (ascii_of_nat 1)); [by repeat constructor|done|cbn; lia]. }
  apply (IgnoreField (Laws := ref_laws)); [done|by apply Hn|by apply (Bit64Value ref_uint32)|].
  apply (IgnoreField (Laws := ref_laws)); [done|by apply Hn|by apply (Bit32Value ref_uint32)|constructor].
Qed.

Lemma payment_messages_round_trip_witness :
  deserialize RefReader (serialize RefWriter (demo_payment_request (num_of_Z 300)) ++ later_fields) =
  Ok (demo_payment_request (num_of_Z 300)).
Proof.
  apply (proj1 payment_messages_round_trip RefWriter RefReader ref_writer ref_reader ref_laws).
  - split; [vm_compute; reflexivity|discriminate].
  - vm_compute. reflexivity.
  - exact later_fields_ignorable.
Defined.
