(* ===== verification/GrpcSeat.v ===== *)
(** * The messages of the seat inventory on the wire

    libs/grpc/src/generated/seat-inventory.ts: for each message its base value,
    its [encode] and its [decode], and the service definition.  [SeatInfo] is the
    type of Messages. *)

From S2P Require Import Prelude JsNumber Messages GrpcWire GrpcRef.
From Stdlib Require Import Ascii.

#[local] Open Scope Z_scope.

(** ** Messages *)

Module SeatInfo.
Definition createBase : SeatInfo := mkSeatInfo "" "" "" "" "" "" "" "" "" "" "" "" "".

Definition statements {W} `{BinaryWriter W} (message : SeatInfo) : list (W -> W) :=
  [put_string 10 (inf_id message); put_string 18 (inf_eventId message); put_string 26 (inf_seatId message);
   put_string 34 (inf_sectionId message); put_string 42 (inf_sectionName message);
   put_string 50 (inf_ticketTypeId message); put_string 58 (inf_ticketTypeName message);
   put_string 66 (inf_price message); put_string 74 (inf_currency message); put_string 82 (inf_row message);
   put_string 90 (inf_seatNumber message); put_string 98 (inf_seatType message); put_string 106 (inf_status message)].

Definition encode {W} `{BinaryWriter W} (message : SeatInfo) (writer : W) : W := emit (statements message) writer.

Definition cases {R} `{BinaryReader R} : fields R SeatInfo :=
  [(1, 10, get r_string (fun x m =>
      mkSeatInfo x (inf_eventId m) (inf_seatId m) (inf_sectionId m) (inf_sectionName m) (inf_ticketTypeId m)
      (inf_ticketTypeName m) (inf_price m) (inf_currency m) (inf_row m) (inf_seatNumber m) (inf_seatType m)
      (inf_status m)));
   (2, 18, get r_string (fun x m =>
      mkSeatInfo (inf_id m) x (inf_seatId m) (inf_sectionId m) (inf_sectionName m) (inf_ticketTypeId m)
      (inf_ticketTypeName m) (inf_price m) (inf_currency m) (inf_row m) (inf_seatNumber m) (inf_seatType m)
      (inf_status m)));
   (3, 26, get r_string (fun x m =>
      mkSeatInfo (inf_id m) (inf_eventId m) x (inf_sectionId m) (inf_sectionName m) (inf_ticketTypeId m)
      (inf_ticketTypeName m) (inf_price m) (inf_currency m) (inf_row m) (inf_seatNumber m) (inf_seatType m)
      (inf_status m)));
   (4, 34, get r_string (fun x m =>
      mkSeatInfo (inf_id m) (inf_eventId m) (inf_seatId m) x (inf_sectionName m) (inf_ticketTypeId m)
      (inf_ticketTypeName m) (inf_price m) (inf_currency m) (inf_row m) (inf_seatNumber m) (inf_seatType m)
      (inf_status m)));
   (5, 42, get r_string (fun x m =>
      mkSeatInfo (inf_id m) (inf_eventId m) (inf_seatId m) (inf_sectionId m) x (inf_ticketTypeId m)
      (inf_ticketTypeName m) (inf_price m) (inf_currency m) (inf_row m) (inf_seatNumber m) (inf_seatType m)
      (inf_status m)));
   (6, 50, get r_string (fun x m =>
      mkSeatInfo (inf_id m) (inf_eventId m) (inf_seatId m) (inf_sectionId m) (inf_sectionName m) x
      (inf_ticketTypeName m) (inf_price m) (inf_currency m) (inf_row m) (inf_seatNumber m) (inf_seatType m)
      (inf_status m)));
   (7, 58, get r_string (fun x m =>
      mkSeatInfo (inf_id m) (inf_eventId m) (inf_seatId m) (inf_sectionId m) (inf_sectionName m) (inf_ticketTypeId m)
      x (inf_price m) (inf_currency m) (inf_row m) (inf_seatNumber m) (inf_seatType m) (inf_status m)));
   (8, 66, get r_string (fun x m =>
      mkSeatInfo (inf_id m) (inf_eventId m) (inf_seatId m) (inf_sectionId m) (inf_sectionName m) (inf_ticketTypeId m)
      (inf_ticketTypeName m) x (inf_currency m) (inf_row m) (inf_seatNumber m) (inf_seatType m) (inf_status m)));
   (9, 74, get r_string (fun x m =>
      mkSeatInfo (inf_id m) (inf_eventId m) (inf_seatId m) (inf_sectionId m) (inf_sectionName m) (inf_ticketTypeId m)
      (inf_ticketTypeName m) (inf_price m) x (inf_row m) (inf_seatNumber m) (inf_seatType m) (inf_status m)));
   (10, 82, get r_string (fun x m =>
      mkSeatInfo (inf_id m) (inf_eventId m) (inf_seatId m) (inf_sectionId m) (inf_sectionName m) (inf_ticketTypeId m)
      (inf_ticketTypeName m) (inf_price m) (inf_currency m) x (inf_seatNumber m) (inf_seatType m) (inf_status m)));
   (11, 90, get r_string (fun x m =>
      mkSeatInfo (inf_id m) (inf_eventId m) (inf_seatId m) (inf_sectionId m) (inf_sectionName m) (inf_ticketTypeId m)
      (inf_ticketTypeName m) (inf_price m) (inf_currency m) (inf_row m) x (inf_seatType m) (inf_status m)));
   (12, 98, get r_string (fun x m =>
      mkSeatInfo (inf_id m) (inf_eventId m) (inf_seatId m) (inf_sectionId m) (inf_sectionName m) (inf_ticketTypeId m)
      (inf_ticketTypeName m) (inf_price m) (inf_currency m) (inf_row m) (inf_seatNumber m) x (inf_status m)));
   (13, 106, get r_string (fun x m =>
      mkSeatInfo (inf_id m) (inf_eventId m) (inf_seatId m) (inf_sectionId m) (inf_sectionName m) (inf_ticketTypeId m)
      (inf_ticketTypeName m) (inf_price m) (inf_currency m) (inf_row m) (inf_seatNumber m) (inf_seatType m) x))].

Definition decode {R} `{BinaryReader R} (input : R) (length_ : option Z) : result (SeatInfo * R) :=
  decode_message cases createBase input length_.

#[global] Instance fns : MessageFns SeatInfo := {| GrpcWire.encode := @encode; GrpcWire.decode := @decode |}.

#[global] Instance laws : MessageLaws SeatInfo.
Proof.
  refine {| wire_ok m := True; numbers := [1; 2; 3; 4; 5; 6; 7; 8; 9; 10; 11; 12; 13] |}.
  intros W R HW HR Laws [x_id x_eventId x_seatId x_sectionId x_sectionName x_ticketTypeId x_ticketTypeName x_price x_currency
    x_row x_seatNumber x_seatType x_status] Hok.
  apply (message_codes cases createBase (statements _)); [reflexivity|].
  unfold statements, createBase. cbn.
  all: codes_message.
Defined.
End SeatInfo.

Module GetSeatsByEventRequest.
Record t := make { eventId : string }.

Definition createBase : t := make "".

Definition statements {W} `{BinaryWriter W} (message : t) : list (W -> W) :=
  [put_string 10 (eventId message)].

Definition encode {W} `{BinaryWriter W} (message : t) (writer : W) : W := emit (statements message) writer.

Definition cases {R} `{BinaryReader R} : fields R t :=
  [(1, 10, get r_string (fun x m => make x))].

Definition decode {R} `{BinaryReader R} (input : R) (length_ : option Z) : result (t * R) :=
  decode_message cases createBase input length_.

#[global] Instance fns : MessageFns t := {| GrpcWire.encode := @encode; GrpcWire.decode := @decode |}.

#[global] Instance laws : MessageLaws t.
Proof.
  refine {| wire_ok m := True; numbers := [1] |}.
  intros W R HW HR Laws [x_eventId] Hok.
  apply (message_codes cases createBase (statements _)); [reflexivity|].
  unfold statements, createBase. cbn.
  all: codes_message.
Defined.
End GetSeatsByEventRequest.

Module GetSeatsByEventResponse.
Record t := make { seats : list SeatInfo }.

Definition createBase : t := make [].

Definition statements {W} `{BinaryWriter W} (message : t) : list (W -> W) :=
  [put_repeated SeatInfo.encode 10 (seats message)].

Definition encode {W} `{BinaryWriter W} (message : t) (writer : W) : W := emit (statements message) writer.

Definition cases {R} `{BinaryReader R} : fields R t :=
  [(1, 10, get (nested SeatInfo.decode) (fun x m => make (seats m ++ [x])))].

Definition decode {R} `{BinaryReader R} (input : R) (length_ : option Z) : result (t * R) :=
  decode_message cases createBase input length_.

#[global] Instance fns : MessageFns t := {| GrpcWire.encode := @encode; GrpcWire.decode := @decode |}.

#[global] Instance laws : MessageLaws t.
Proof.
  refine {| wire_ok m := True; numbers := [1] |}.
  intros W R HW HR Laws [x_seats] Hok.
  apply (message_codes cases createBase (statements _)); [reflexivity|].
  unfold statements, createBase. cbn.
  codes_message. apply (codes_repeated (W := W) (R := R) (HF := SeatInfo.fns) (HL := SeatInfo.laws) cases 10 x_seats (fun x m => make (seats m ++ [x])) (fun l => make l)); [done|reflexivity|done|intros; exact I|].
  all: codes_message.
Defined.
End GetSeatsByEventResponse.

Module VerifyHoldRequest.
Record t := make { eventId : string; seatIds : list string; userId : string }.

Definition createBase : t := make "" [] "".

Definition statements {W} `{BinaryWriter W} (message : t) : list (W -> W) :=
  [put_string 10 (eventId message); put_strings 18 (seatIds message); put_string 26 (userId message)].

Definition encode {W} `{BinaryWriter W} (message : t) (writer : W) : W := emit (statements message) writer.

Definition cases {R} `{BinaryReader R} : fields R t :=
  [(1, 10, get r_string (fun x m => make x (seatIds m) (userId m)));
   (2, 18, get r_string (fun x m => make (eventId m) (seatIds m ++ [x]) (userId m)));
   (3, 26, get r_string (fun x m => make (eventId m) (seatIds m) x))].

Definition decode {R} `{BinaryReader R} (input : R) (length_ : option Z) : result (t * R) :=
  decode_message cases createBase input length_.

#[global] Instance fns : MessageFns t := {| GrpcWire.encode := @encode; GrpcWire.decode := @decode |}.

#[global] Instance laws : MessageLaws t.
Proof.
  refine {| wire_ok m := True; numbers := [1; 2; 3] |}.
  intros W R HW HR Laws [x_eventId x_seatIds x_userId] Hok.
  apply (message_codes cases createBase (statements _)); [reflexivity|].
  unfold statements, createBase. cbn.
  codes_message. apply (codes_strings (W := W) (R := R) cases 18 x_seatIds (fun x m => make (eventId m) (seatIds m ++ [x]) (userId m)) (fun l => make x_eventId l "")); [done|reflexivity|done|].
  all: codes_message.
Defined.
End VerifyHoldRequest.

Module VerifyHoldResponse.
Record t := make { verified : bool }.

Definition createBase : t := make false.

Definition statements {W} `{BinaryWriter W} (message : t) : list (W -> W) :=
  [put_bool 8 (verified message)].

Definition encode {W} `{BinaryWriter W} (message : t) (writer : W) : W := emit (statements message) writer.

Definition cases {R} `{BinaryReader R} : fields R t :=
  [(1, 8, get r_bool (fun x m => make x))].

Definition decode {R} `{BinaryReader R} (input : R) (length_ : option Z) : result (t * R) :=
  decode_message cases createBase input length_.

#[global] Instance fns : MessageFns t := {| GrpcWire.encode := @encode; GrpcWire.decode := @decode |}.

#[global] Instance laws : MessageLaws t.
Proof.
  refine {| wire_ok m := True; numbers := [1] |}.
  intros W R HW HR Laws [x_verified] Hok.
  apply (message_codes cases createBase (statements _)); [reflexivity|].
  unfold statements, createBase. cbn.
  all: codes_message.
Defined.
End VerifyHoldResponse.

Module HoldSeatsRequest.
Record t := make { eventId : string; seatIds : list string; userId : string; sessionId : string }.

Definition createBase : t := make "" [] "" "".

Definition statements {W} `{BinaryWriter W} (message : t) : list (W -> W) :=
  [put_string 10 (eventId message); put_strings 18 (seatIds message); put_string 26 (userId message);
   put_string 34 (sessionId message)].

Definition encode {W} `{BinaryWriter W} (message : t) (writer : W) : W := emit (statements message) writer.

Definition cases {R} `{BinaryReader R} : fields R t :=
  [(1, 10, get r_string (fun x m => make x (seatIds m) (userId m) (sessionId m)));
   (2, 18, get r_string (fun x m => make (eventId m) (seatIds m ++ [x]) (userId m) (sessionId m)));
   (3, 26, get r_string (fun x m => make (eventId m) (seatIds m) x (sessionId m)));
   (4, 34, get r_string (fun x m => make (eventId m) (seatIds m) (userId m) x))].

Definition decode {R} `{BinaryReader R} (input : R) (length_ : option Z) : result (t * R) :=
  decode_message cases createBase input length_.

#[global] Instance fns : MessageFns t := {| GrpcWire.encode := @encode; GrpcWire.decode := @decode |}.

#[global] Instance laws : MessageLaws t.
Proof.
  refine {| wire_ok m := True; numbers := [1; 2; 3; 4] |}.
  intros W R HW HR Laws [x_eventId x_seatIds x_userId x_sessionId] Hok.
  apply (message_codes cases createBase (statements _)); [reflexivity|].
  unfold statements, createBase. cbn.
  codes_message. apply (codes_strings (W := W) (R := R) cases 18 x_seatIds (fun x m => make (eventId m) (seatIds m ++ [x]) (userId m) (sessionId m)) (fun l => make x_eventId l "" "")); [done|reflexivity|done|].
  all: codes_message.
Defined.
End HoldSeatsRequest.

Module HoldSeatsResponse.
Record t := make { success : bool; holdIds : list string; expiresAt : string; failedSeatIds : list string }.

Definition createBase : t := make false [] "" [].

Definition statements {W} `{BinaryWriter W} (message : t) : list (W -> W) :=
  [put_bool 8 (success message); put_strings 18 (holdIds message); put_string 26 (expiresAt message);
   put_strings 34 (failedSeatIds message)].

Definition encode {W} `{BinaryWriter W} (message : t) (writer : W) : W := emit (statements message) writer.

Definition cases {R} `{BinaryReader R} : fields R t :=
  [(1, 8, get r_bool (fun x m => make x (holdIds m) (expiresAt m) (failedSeatIds m)));
   (2, 18, get r_string (fun x m => make (success m) (holdIds m ++ [x]) (expiresAt m) (failedSeatIds m)));
   (3, 26, get r_string (fun x m => make (success m) (holdIds m) x (failedSeatIds m)));
   (4, 34, get r_string (fun x m => make (success m) (holdIds m) (expiresAt m) (failedSeatIds m ++ [x])))].

Definition decode {R} `{BinaryReader R} (input : R) (length_ : option Z) : result (t * R) :=
  decode_message cases createBase input length_.

#[global] Instance fns : MessageFns t := {| GrpcWire.encode := @encode; GrpcWire.decode := @decode |}.

#[global] Instance laws : MessageLaws t.
Proof.
  refine {| wire_ok m := True; numbers := [1; 2; 3; 4] |}.
  intros W R HW HR Laws [x_success x_holdIds x_expiresAt x_failedSeatIds] Hok.
  apply (message_codes cases createBase (statements _)); [reflexivity|].
  unfold statements, createBase. cbn.
  codes_message. apply (codes_strings (W := W) (R := R) cases 18 x_holdIds (fun x m => make (success m) (holdIds m ++ [x]) (expiresAt m) (failedSeatIds m)) (fun l => make x_success l "" [])); [done|reflexivity|done|].
  codes_message. apply (codes_strings (W := W) (R := R) cases 34 x_failedSeatIds (fun x m => make (success m) (holdIds m) (expiresAt m) (failedSeatIds m ++ [x])) (fun l => make x_success x_holdIds x_expiresAt l)); [done|reflexivity|done|].
  all: codes_message.
Defined.
End HoldSeatsResponse.

Module ReleaseSeatsRequest.
Record t := make { eventId : string; seatIds : list string; userId : string; reason : string }.

Definition createBase : t := make "" [] "" "".

Definition statements {W} `{BinaryWriter W} (message : t) : list (W -> W) :=
  [put_string 10 (eventId message); put_strings 18 (seatIds message); put_string 26 (userId message);
   put_string 34 (reason message)].

Definition encode {W} `{BinaryWriter W} (message : t) (writer : W) : W := emit (statements message) writer.

Definition cases {R} `{BinaryReader R} : fields R t :=
  [(1, 10, get r_string (fun x m => make x (seatIds m) (userId m) (reason m)));
   (2, 18, get r_string (fun x m => make (eventId m) (seatIds m ++ [x]) (userId m) (reason m)));
   (3, 26, get r_string (fun x m => make (eventId m) (seatIds m) x (reason m)));
   (4, 34, get r_string (fun x m => make (eventId m) (seatIds m) (userId m) x))].

Definition decode {R} `{BinaryReader R} (input : R) (length_ : option Z) : result (t * R) :=
  decode_message cases createBase input length_.

#[global] Instance fns : MessageFns t := {| GrpcWire.encode := @encode; GrpcWire.decode := @decode |}.

#[global] Instance laws : MessageLaws t.
Proof.
  refine {| wire_ok m := True; numbers := [1; 2; 3; 4] |}.
  intros W R HW HR Laws [x_eventId x_seatIds x_userId x_reason] Hok.
  apply (message_codes cases createBase (statements _)); [reflexivity|].
  unfold statements, createBase. cbn.
  codes_message. apply (codes_strings (W := W) (R := R) cases 18 x_seatIds (fun x m => make (eventId m) (seatIds m ++ [x]) (userId m) (reason m)) (fun l => make x_eventId l "" "")); [done|reflexivity|done|].
  all: codes_message.
Defined.
End ReleaseSeatsRequest.

Module ReleaseSeatsResponse.
Record t := make { success : bool }.

Definition createBase : t := make false.

Definition statements {W} `{BinaryWriter W} (message : t) : list (W -> W) :=
  [put_bool 8 (success message)].

Definition encode {W} `{BinaryWriter W} (message : t) (writer : W) : W := emit (statements message) writer.

Definition cases {R} `{BinaryReader R} : fields R t :=
  [(1, 8, get r_bool (fun x m => make x))].

Definition decode {R} `{BinaryReader R} (input : R) (length_ : option Z) : result (t * R) :=
  decode_message cases createBase input length_.

#[global] Instance fns : MessageFns t := {| GrpcWire.encode := @encode; GrpcWire.decode := @decode |}.

#[global] Instance laws : MessageLaws t.
Proof.
  refine {| wire_ok m := True; numbers := [1] |}.
  intros W R HW HR Laws [x_success] Hok.
  apply (message_codes cases createBase (statements _)); [reflexivity|].
  unfold statements, createBase. cbn.
  all: codes_message.
Defined.
End ReleaseSeatsResponse.

Module MarkSeatsAsSoldRequest.
Record t := make { eventId : string; seatIds : list string; userId : string }.

Definition createBase : t := make "" [] "".

Definition statements {W} `{BinaryWriter W} (message : t) : list (W -> W) :=
  [put_string 10 (eventId message); put_strings 18 (seatIds message); put_string 26 (userId message)].

Definition encode {W} `{BinaryWriter W} (message : t) (writer : W) : W := emit (statements message) writer.

Definition cases {R} `{BinaryReader R} : fields R t :=
  [(1, 10, get r_string (fun x m => make x (seatIds m) (userId m)));
   (2, 18, get r_string (fun x m => make (eventId m) (seatIds m ++ [x]) (userId m)));
   (3, 26, get r_string (fun x m => make (eventId m) (seatIds m) x))].

Definition decode {R} `{BinaryReader R} (input : R) (length_ : option Z) : result (t * R) :=
  decode_message cases createBase input length_.

#[global] Instance fns : MessageFns t := {| GrpcWire.encode := @encode; GrpcWire.decode := @decode |}.

#[global] Instance laws : MessageLaws t.
Proof.
  refine {| wire_ok m := True; numbers := [1; 2; 3] |}.
  intros W R HW HR Laws [x_eventId x_seatIds x_userId] Hok.
  apply (message_codes cases createBase (statements _)); [reflexivity|].
  unfold statements, createBase. cbn.
  codes_message. apply (codes_strings (W := W) (R := R) cases 18 x_seatIds (fun x m => make (eventId m) (seatIds m ++ [x]) (userId m)) (fun l => make x_eventId l "")); [done|reflexivity|done|].
  all: codes_message.
Defined.
End MarkSeatsAsSoldRequest.

Module MarkSeatsAsSoldResponse.
Record t := make { success : bool }.

Definition createBase : t := make false.

Definition statements {W} `{BinaryWriter W} (message : t) : list (W -> W) :=
  [put_bool 8 (success message)].

Definition encode {W} `{BinaryWriter W} (message : t) (writer : W) : W := emit (statements message) writer.

Definition cases {R} `{BinaryReader R} : fields R t :=
  [(1, 8, get r_bool (fun x m => make x))].

Definition decode {R} `{BinaryReader R} (input : R) (length_ : option Z) : result (t * R) :=
  decode_message cases createBase input length_.

#[global] Instance fns : MessageFns t := {| GrpcWire.encode := @encode; GrpcWire.decode := @decode |}.

#[global] Instance laws : MessageLaws t.
Proof.
  refine {| wire_ok m := True; numbers := [1] |}.
  intros W R HW HR Laws [x_success] Hok.
  apply (message_codes cases createBase (statements _)); [reflexivity|].
  unfold statements, createBase. cbn.
  all: codes_message.
Defined.
End MarkSeatsAsSoldResponse.

Module ReleaseSoldSeatsRequest.
Record t := make { eventId : string; seatIds : list string }.

Definition createBase : t := make "" [].

Definition statements {W} `{BinaryWriter W} (message : t) : list (W -> W) :=
  [put_string 10 (eventId message); put_strings 18 (seatIds message)].

Definition encode {W} `{BinaryWriter W} (message : t) (writer : W) : W := emit (statements message) writer.

Definition cases {R} `{BinaryReader R} : fields R t :=
  [(1, 10, get r_string (fun x m => make x (seatIds m)));
   (2, 18, get r_string (fun x m => make (eventId m) (seatIds m ++ [x])))].

Definition decode {R} `{BinaryReader R} (input : R) (length_ : option Z) : result (t * R) :=
  decode_message cases createBase input length_.

#[global] Instance fns : MessageFns t := {| GrpcWire.encode := @encode; GrpcWire.decode := @decode |}.

#[global] Instance laws : MessageLaws t.
Proof.
  refine {| wire_ok m := True; numbers := [1; 2] |}.
  intros W R HW HR Laws [x_eventId x_seatIds] Hok.
  apply (message_codes cases createBase (statements _)); [reflexivity|].
  unfold statements, createBase. cbn.
  codes_message. apply (codes_strings (W := W) (R := R) cases 18 x_seatIds (fun x m => make (eventId m) (seatIds m ++ [x])) (fun l => make x_eventId l)); [done|reflexivity|done|].
  all: codes_message.
Defined.
End ReleaseSoldSeatsRequest.

Module ReleaseSoldSeatsResponse.
Record t := make { success : bool }.

Definition createBase : t := make false.

Definition statements {W} `{BinaryWriter W} (message : t) : list (W -> W) :=
  [put_bool 8 (success message)].

Definition encode {W} `{BinaryWriter W} (message : t) (writer : W) : W := emit (statements message) writer.

Definition cases {R} `{BinaryReader R} : fields R t :=
  [(1, 8, get r_bool (fun x m => make x))].

Definition decode {R} `{BinaryReader R} (input : R) (length_ : option Z) : result (t * R) :=
  decode_message cases createBase input length_.

#[global] Instance fns : MessageFns t := {| GrpcWire.encode := @encode; GrpcWire.decode := @decode |}.

#[global] Instance laws : MessageLaws t.
Proof.
  refine {| wire_ok m := True; numbers := [1] |}.
  intros W R HW HR Laws [x_success] Hok.
  apply (message_codes cases createBase (statements _)); [reflexivity|].
  unfold statements, createBase. cbn.
  all: codes_message.
Defined.
End ReleaseSoldSeatsResponse.

(** ** The service *)

Module SeatInventoryServiceService.
Section Methods.
Context (W R : Type) `{BinaryWriter W} `{BinaryReader R}.

Definition getSeatsByEvent : MethodDefinition GetSeatsByEventRequest.t GetSeatsByEventResponse.t :=
  mkMethod "/seat_inventory.SeatInventoryService/GetSeatsByEvent" false false
    (serialize W) (deserialize R) (serialize W) (deserialize R).

Definition getAvailableSeats : MethodDefinition GetSeatsByEventRequest.t GetSeatsByEventResponse.t :=
  mkMethod "/seat_inventory.SeatInventoryService/GetAvailableSeats" false false
    (serialize W) (deserialize R) (serialize W) (deserialize R).

Definition verifyHold : MethodDefinition VerifyHoldRequest.t VerifyHoldResponse.t :=
  mkMethod "/seat_inventory.SeatInventoryService/VerifyHold" false false
    (serialize W) (deserialize R) (serialize W) (deserialize R).

Definition holdSeats : MethodDefinition HoldSeatsRequest.t HoldSeatsResponse.t :=
  mkMethod "/seat_inventory.SeatInventoryService/HoldSeats" false false
    (serialize W) (deserialize R) (serialize W) (deserialize R).

Definition releaseSeats : MethodDefinition ReleaseSeatsRequest.t ReleaseSeatsResponse.t :=
  mkMethod "/seat_inventory.SeatInventoryService/ReleaseSeats" false false
    (serialize W) (deserialize R) (serialize W) (deserialize R).

Definition markSeatsAsSold : MethodDefinition MarkSeatsAsSoldRequest.t MarkSeatsAsSoldResponse.t :=
  mkMethod "/seat_inventory.SeatInventoryService/MarkSeatsAsSold" false false
    (serialize W) (deserialize R) (serialize W) (deserialize R).

Definition releaseSoldSeats : MethodDefinition ReleaseSoldSeatsRequest.t ReleaseSoldSeatsResponse.t :=
  mkMethod "/seat_inventory.SeatInventoryService/ReleaseSoldSeats" false false
    (serialize W) (deserialize R) (serialize W) (deserialize R).

End Methods.
End SeatInventoryServiceService.

(** ** Properties *)

(** C37: Every message of the seat inventory whose encoding is shorter than 4 GiB
    is received as it was sent, over any writer and reader that keep the laws of
    the package, also when fields the receiver does not know follow it, of any
    wire type that proto3 has: a varint, 64 bits, bytes behind their length, or
    32 bits. *)
Theorem seat_messages_round_trip :
  round_trips SeatInfo /\
  round_trips GetSeatsByEventRequest.t /\
  round_trips GetSeatsByEventResponse.t /\
  round_trips VerifyHoldRequest.t /\
  round_trips VerifyHoldResponse.t /\
  round_trips HoldSeatsRequest.t /\
  round_trips HoldSeatsResponse.t /\
  round_trips ReleaseSeatsRequest.t /\
  round_trips ReleaseSeatsResponse.t /\
  round_trips MarkSeatsAsSoldRequest.t /\
  round_trips MarkSeatsAsSoldResponse.t /\
  round_trips ReleaseSoldSeatsRequest.t /\
  round_trips ReleaseSoldSeatsResponse.t.
Proof. split_and!; apply message_round_trips. Qed.

(** The requests and replies of every method pass unchanged. *)
Theorem seat_methods_transparent W R {HW : BinaryWriter W} {HR : BinaryReader R} {Laws : WireLaws W R} :
  transparent (SeatInventoryServiceService.getSeatsByEvent W R) /\
  transparent (SeatInventoryServiceService.getAvailableSeats W R) /\
  transparent (SeatInventoryServiceService.verifyHold W R) /\
  transparent (SeatInventoryServiceService.holdSeats W R) /\
  transparent (SeatInventoryServiceService.releaseSeats W R) /\
  transparent (SeatInventoryServiceService.markSeatsAsSold W R) /\
  transparent (SeatInventoryServiceService.releaseSoldSeats W R).
Proof. split_and!; apply method_transparent. Qed.

(** ** Concrete messages *)

(** An event without seats is sent as an empty message. *)
Example no_seats_no_bytes : serialize RefWriter (GetSeatsByEventResponse.make []) = [].
Proof. reflexivity. Qed.

Definition demo_seat_info : SeatInfo :=
  mkSeatInfo "r1" "ev" "A1" "sec-A" "Orchestra" "tt-1" "Standard" "149.90" "TRY" "A" "1" "standard" "held".

(** Two seats, with an integer of two bytes in a field of number 17 behind them. *)
Lemma seat_messages_round_trip_witness :
  deserialize RefReader (serialize RefWriter (GetSeatsByEventResponse.make [demo_seat_info; demo_seat_info]) ++
    ref_uint32 136 ++ map ascii_of_nat [150; 1]%nat ++ []) =
  Ok (GetSeatsByEventResponse.make [demo_seat_info; demo_seat_info]).
Proof.
  apply (proj1 (proj2 (proj2 seat_messages_round_trip)) RefWriter RefReader ref_writer ref_reader ref_laws).
  - exact I.
  - vm_compute. reflexivity.
  - apply (IgnoreField (Laws := ref_laws)); [done|by intros [=]%list_elem_of_singleton| |constructor].
    apply (VarintValue ref_uint32 [ascii_of_nat 150] (ascii_of_nat 1)); [by repeat constructor|done|cbn; lia].
Defined.
