(* ===== verification/Wiring.v ===== *)
(** * How the services are put together

    The @Module declarations of every service, what the constructors of their
    classes ask for, and the bootstrap of each main.ts.  Nest's container is a
    parameter ([NestContainer]) with the documented rules by which a module sees
    a token; what the modules of the libraries export is documented too
    ([ContainerLaws]).  Every dependency of every class is found
    ([platform_wired]), every class has one instance per service
    ([one_instance]), and what one service calls or publishes another serves
    ([procedures_served], [topics_consumed]). *)

From S2P Require Import Prelude.
From S2P Require BookingWorld.

(** ** Modules *)

(** What a constructor asks for: a class, [@Inject('NAME')],
    [@InjectRepository(Entity)], [@InjectModel(name)]. *)
Inductive Token :=
| Cls (name : string)
| Named (name : string)
| RepositoryOf (entity : string)
| ModelOf (name : string).

#[global] Instance Token_eq_dec : EqDecision Token.
Proof. solve_decision. Defined.

(** [@EventPattern], [@GrpcMethod], [@Cron]. *)
Inductive Handler :=
| Subscribes (topic : string)
| Serves (service method : string)
| Scheduled (method : string).

#[global] Instance Handler_eq_dec : EqDecision Handler.
Proof. solve_decision. Defined.

(** A class with its constructor's parameters, the handlers its methods register,
    the topics its methods emit to, and the settings without which its constructor throws. *)
Record ClassDecl := mkClass {
  c_name : string;
  c_needs : list Token;
  c_handles : list Handler;
  c_emits : list string;
  c_requires : list string;
}.

#[global] Instance ClassDecl_eq_dec : EqDecision ClassDecl.
Proof. solve_decision. Defined.

(** A class without handlers that emits nothing, and one that needs a setting. *)
Abbreviation plain name needs := (mkClass name needs [] [] []).
Abbreviation set_up name needs setting := (mkClass name needs [] [] [setting : string]).
Abbreviation cls c := (Cls (c_name c)).

(** The modules of the libraries, by the call that makes them; those that are
    configured asynchronously inject something themselves. *)
Inductive LibModule :=
| ConfigForRoot                                   (* { isGlobal: true } *)
| Config
| TypeOrmForRoot (useClass : ClassDecl)
| TypeOrmForFeature (entities : list string)
| MongooseForRoot (useClass : ClassDecl)
| MongooseForFeature (names : list string)
| ClientsRegister (names : list string) (inject : list Token)
| JwtRegister (inject : list Token)
| Passport
| HttpRegister
| ScheduleForRoot.

Inductive Provider :=
| Injectable (c : ClassDecl)
| UseFactory (provide : Token) (inject : list Token)
| AppGuard (useClass : ClassDecl).                (* { provide: APP_GUARD, useClass } *)

Inductive Export :=
| ExportToken (t : Token)
| ExportModule (name : string).

#[global] Instance Export_eq_dec : EqDecision Export.
Proof. solve_decision. Defined.

(** A controller comes with the guards and interceptors its decorators name. *)
Record Controller := mkController { controller : ClassDecl; enhancers : list ClassDecl }.

Inductive NestModule :=
| Library (l : LibModule)
| DeclaredModule (name : string) (global : bool) (imports : list NestModule)
    (providers : list Provider) (controllers : list Controller) (exports : list Export).

Definition lib_name (l : LibModule) : string :=
  match l with
  | ConfigForRoot | Config => "ConfigModule"
  | TypeOrmForRoot _ | TypeOrmForFeature _ => "TypeOrmModule"
  | MongooseForRoot _ | MongooseForFeature _ => "MongooseModule"
  | ClientsRegister _ _ => "ClientsModule"
  | JwtRegister _ => "JwtModule"
  | Passport => "PassportModule"
  | HttpRegister => "HttpModule"
  | ScheduleForRoot => "ScheduleModule"
  end.

Definition module_name (m : NestModule) : string :=
  match m with Library l => lib_name l | DeclaredModule name _ _ _ _ _ => name end.

Definition imports_of (m : NestModule) : list NestModule :=
  match m with Library _ => [] | DeclaredModule _ _ imports _ _ _ => imports end.

Definition exports_of (m : NestModule) : list Export :=
  match m with Library _ => [] | DeclaredModule _ _ _ _ _ exports => exports end.

Definition is_global (m : NestModule) : bool :=
  match m with Library _ => false | DeclaredModule _ global _ _ _ _ => global end.

Definition provider_token (p : Provider) : list Token :=
  match p with Injectable c => [cls c] | UseFactory t _ => [t] | AppGuard _ => [] end.

Definition provider_class (p : Provider) : list ClassDecl :=
  match p with Injectable c | AppGuard c => [c] | UseFactory _ _ => [] end.

Definition provided (m : NestModule) : list Token :=
  match m with Library _ => [] | DeclaredModule _ _ _ providers _ _ => flat_map provider_token providers end.

(** The classes a module instantiates. *)
Definition provider_classes (m : NestModule) : list ClassDecl :=
  match m with Library _ => [] | DeclaredModule _ _ _ providers _ _ => flat_map provider_class providers end.

Definition controller_classes (m : NestModule) : list ClassDecl :=
  match m with Library _ => [] | DeclaredModule _ _ _ _ controllers _ => map controller controllers end.

Definition enhancer_classes (m : NestModule) : list ClassDecl :=
  match m with Library _ => [] | DeclaredModule _ _ _ _ controllers _ => flat_map enhancers controllers end.

Definition classes (m : NestModule) : list ClassDecl :=
  provider_classes m ++ controller_classes m ++ enhancer_classes m.

Definition factory_needs (m : NestModule) : list Token :=
  match m with
  | Library (TypeOrmForRoot c) | Library (MongooseForRoot c) => c_needs c
  | Library (ClientsRegister _ inject) | Library (JwtRegister inject) => inject
  | Library _ => []
  | DeclaredModule _ _ _ providers _ _ =>
      flat_map (fun p => match p with UseFactory _ inject => inject | _ => [] end) providers
  end.

(** All that is injected in a module. *)
Definition needs_of (m : NestModule) : list Token := flat_map c_needs (classes m) ++ factory_needs m.

(** The modules of an application, its root first. *)
Fixpoint modules_of (m : NestModule) : list NestModule :=
  m :: match m with Library _ => [] | DeclaredModule _ _ imports _ _ _ => flat_map modules_of imports end.

(** ** The container *)

(** What a module lets its importers see: its own providers that it lists, and
    what the modules it lists again let it see. *)
Inductive exported (lib_exports : LibModule -> Token -> Prop) : NestModule -> Token -> Prop :=
| exported_library l t : lib_exports l t -> exported lib_exports (Library l) t
| exported_own name global imports providers controllers exports t :
    ExportToken t ∈ exports -> t ∈ flat_map provider_token providers ->
    exported lib_exports (DeclaredModule name global imports providers controllers exports) t
| exported_again name global imports providers controllers exports m' t :
    m' ∈ imports -> ExportModule (module_name m') ∈ exports -> exported lib_exports m' t ->
    exported lib_exports (DeclaredModule name global imports providers controllers exports) t.

Class NestContainer := {
  lib_exports : LibModule -> Token -> Prop;
  (** in the application of a root module, a token is found from a module *)
  resolves : NestModule -> NestModule -> Token -> Prop;
}.

(** The documentation of Nest and of its modules for TypeORM, Mongoose, JWT,
    axios and microservices. *)
Class ContainerLaws `{NestContainer} : Prop := {
  repositories_exported es e : e ∈ es -> lib_exports (TypeOrmForFeature es) (RepositoryOf e);
  models_exported ns n : n ∈ ns -> lib_exports (MongooseForFeature ns) (ModelOf n);
  clients_exported ns inject n : n ∈ ns -> lib_exports (ClientsRegister ns inject) (Named n);
  jwt_exported inject : lib_exports (JwtRegister inject) (Cls "JwtService");
  http_exported : lib_exports HttpRegister (Cls "HttpService");
  config_exported : lib_exports Config (Cls "ConfigService");
  resolves_own root m t : m ∈ modules_of root -> t ∈ provided m -> resolves root m t;
  resolves_import root m m' t :
    m ∈ modules_of root -> m' ∈ imports_of m -> exported lib_exports m' t -> resolves root m t;
  resolves_global root m g t :
    m ∈ modules_of root -> g ∈ modules_of root -> is_global g = true ->
    exported lib_exports g t -> resolves root m t;
  (* isGlobal: true *)
  resolves_config root m :
    m ∈ modules_of root -> Library ConfigForRoot ∈ modules_of root -> resolves root m (Cls "ConfigService");
  (* the DataSource is available in the entire project *)
  resolves_data_source root m c :
    m ∈ modules_of root -> Library (TypeOrmForRoot c) ∈ modules_of root -> resolves root m (Cls "DataSource");
  resolves_reflector root m : m ∈ modules_of root -> resolves root m (Cls "Reflector");
}.

(** ** Deciding what a module sees *)

Definition documented (l : LibModule) : list Token :=
  match l with
  | TypeOrmForFeature es => map RepositoryOf es
  | MongooseForFeature ns => map ModelOf ns
  | ClientsRegister ns _ => map Named ns
  | JwtRegister _ => [Cls "JwtService"]
  | HttpRegister => [Cls "HttpService"]
  | Config => [Cls "ConfigService"]
  | _ => []
  end.

Fixpoint exportsb (m : NestModule) (t : Token) : bool :=
  match m with
  | Library l => bool_decide (t ∈ documented l)
  | DeclaredModule _ _ imports providers _ exports =>
      (bool_decide (ExportToken t ∈ exports) && bool_decide (t ∈ flat_map provider_token providers)) ||
      existsb (fun m' => bool_decide (ExportModule (module_name m') ∈ exports) && exportsb m' t) imports
  end.

(** What the library modules of an application make available everywhere. *)
Definition everywhere (l : LibModule) : list Token :=
  match l with
  | ConfigForRoot => [Cls "ConfigService"]
  | TypeOrmForRoot _ => [Cls "DataSource"]
  | _ => []
  end.

Definition globalsb (g : NestModule) (t : Token) : bool :=
  match g with
  | Library l => bool_decide (t ∈ everywhere l)
  | DeclaredModule _ global _ _ _ _ => global && exportsb g t
  end.

Definition seesb (root m : NestModule) (t : Token) : bool :=
  bool_decide (t = Cls "Reflector") || bool_decide (t ∈ provided m) ||
  existsb (fun m' => exportsb m' t) (imports_of m) || existsb (fun g => globalsb g t) (modules_of root).

Definition wiredb (root : NestModule) : bool :=
  forallb (fun m => forallb (seesb root m) (needs_of m)) (modules_of root).

(** Modules are trees, whose subtrees are in a list. *)
Lemma NestModule_tree_ind (P : NestModule -> Prop) :
  (forall l, P (Library l)) ->
  (forall name global imports providers controllers exports,
     Forall P imports -> P (DeclaredModule name global imports providers controllers exports)) ->
  forall m, P m.
Proof.
  intros HL HD. fix IH 1. intros [l|name global imports providers controllers exports]; [apply HL|apply HD].
  induction imports as [|m' imports IHl]; constructor; [apply IH|exact IHl].
Qed.

Section Sound.
Context `{ContainerLaws}.

Lemma documented_exports l t : t ∈ documented l -> lib_exports l t.
Proof.
  destruct l; cbn [documented]; intros Ht;
    try (apply list_elem_of_fmap in Ht as (x & -> & Hx));
    try (apply list_elem_of_singleton in Ht as ->); try by apply elem_of_nil in Ht.
  - apply config_exported.
  - by apply repositories_exported.
  - by apply models_exported.
  - by apply clients_exported.
  - apply jwt_exported.
  - apply http_exported.
Qed.

Lemma exportsb_sound m t : exportsb m t = true -> exported lib_exports m t.
Proof.
  induction m as [l|name global imports providers controllers exports IH] using NestModule_tree_ind; cbn [exportsb].
  - intros Ht%bool_decide_eq_true. by apply exported_library, documented_exports.
  - rewrite orb_true_iff, andb_true_iff, !bool_decide_eq_true, existsb_elem_of.
    intros [[He Hp]|(m' & Hm & Ht)]; [by apply exported_own|].
    apply andb_true_iff in Ht as [He%bool_decide_eq_true Ht]. rewrite Forall_forall in IH.
    eapply exported_again; eauto.
Qed.

Lemma globalsb_sound root m g t :
  m ∈ modules_of root -> g ∈ modules_of root -> globalsb g t = true -> resolves root m t.
Proof.
  intros Hm Hg. destruct g as [l|name global imports providers controllers exports]; cbn [globalsb].
  - intros Ht%bool_decide_eq_true. destruct l; cbn in Ht; try by apply elem_of_nil in Ht.
    + apply list_elem_of_singleton in Ht as ->. by apply resolves_config.
    + apply list_elem_of_singleton in Ht as ->. by eapply resolves_data_source.
  - intros [Hgl Ht]%andb_true_iff. eapply resolves_global; [done|exact Hg|done|by apply exportsb_sound].
Qed.

Lemma seesb_sound root m t : m ∈ modules_of root -> seesb root m t = true -> resolves root m t.
Proof.
  intros Hm. unfold seesb. rewrite !orb_true_iff, !bool_decide_eq_true, !existsb_elem_of.
  intros [[[->|Ht]|(m' & Hm' & Ht)]|(g & Hg & Ht)].
  - by apply resolves_reflector.
  - by apply resolves_own.
  - eapply resolves_import; [done|exact Hm'|by apply exportsb_sound].
  - by eapply globalsb_sound.
Qed.

Lemma wiredb_sound root m t : wiredb root = true -> m ∈ modules_of root -> t ∈ needs_of m -> resolves root m t.
Proof.
  intros Hw Hm Ht. apply seesb_sound; [done|]. unfold wiredb in Hw. rewrite forallb_elem_of in Hw.
  specialize (Hw m Hm). rewrite forallb_elem_of in Hw. by apply Hw.
Qed.
End Sound.

(** A container that finds no more than the rules say. *)
Inductive found (root m : NestModule) : Token -> Prop :=
| found_own t : t ∈ provided m -> found root m t
| found_import m' t : m' ∈ imports_of m -> exported (fun l t => t ∈ documented l) m' t -> found root m t
| found_global g t : g ∈ modules_of root -> is_global g = true ->
    exported (fun l t => t ∈ documented l) g t -> found root m t
| found_everywhere l t : Library l ∈ modules_of root -> t ∈ everywhere l -> found root m t
| found_reflector : found root m (Cls "Reflector").

#[global] Instance least_container : NestContainer :=
  { lib_exports l t := t ∈ documented l; resolves := found }.

#[global] Instance least_container_laws : ContainerLaws.
Proof.
  split; cbn.
  - intros es e He. by apply list_elem_of_fmap_2.
  - intros ns n Hn. by apply list_elem_of_fmap_2.
  - intros ns inject n Hn. by apply list_elem_of_fmap_2.
  - intros _. by left.
  - by left.
  - by left.
  - intros root m t _. apply found_own.
  - intros root m m' t _. apply found_import.
  - intros root m g t _. apply found_global.
  - intros root m _ Hc. eapply found_everywhere; [exact Hc|]. by left.
  - intros root m c _ Hc. eapply found_everywhere; [exact Hc|]. by left.
  - intros root m _. apply found_reflector.
Qed.

Lemma exportsb_complete m t : exported (fun l t => t ∈ documented l) m t -> exportsb m t = true.
Proof.
  induction 1 as [l t Ht|name global imports providers controllers exports t He Hp
                 |name global imports providers controllers exports m' t Hm He _ IH]; cbn [exportsb].
  - by apply bool_decide_eq_true.
  - rewrite orb_true_iff, andb_true_iff, !bool_decide_eq_true. by left.
  - rewrite orb_true_iff, existsb_elem_of. right. exists m'. split; [done|]. by rewrite bool_decide_eq_true_2.
Qed.

(** The procedure decides what such a container finds, so that a missing import
    does not go unnoticed. *)
Lemma seesb_spec root m t : m ∈ modules_of root -> seesb root m t = true <-> found root m t.
Proof.
  intros Hm. split; [apply (seesb_sound (H := least_container)); apply Hm|].
  unfold seesb. rewrite !orb_true_iff, !bool_decide_eq_true, !existsb_elem_of.
  intros [t' Ht|m' t' Hi Ht|g t' Hg Hgl Ht|l t' Hl Ht|].
  - by (left; left; right).
  - left; right. exists m'. split; [done|by apply exportsb_complete].
  - right. exists g. split; [done|]. destruct g; [done|]. cbn [globalsb is_global] in *.
    apply andb_true_iff. split; [done|by apply exportsb_complete].
  - right. exists (Library l). split; [done|]. by apply bool_decide_eq_true.
  - by (left; left; left).
Qed.

(** ** The libraries of the repository *)

Definition ConfigService : Token := Cls "ConfigService".
Definition Reflector : Token := Cls "Reflector".
Definition DataSource : Token := Cls "DataSource".
Definition REDIS_CLIENT : Token := Named "REDIS_CLIENT".

Module KafkaClientModule.
Definition register (clientName : string) : NestModule :=
  DeclaredModule "KafkaClientModule" false [Library (ClientsRegister [clientName] [ConfigService])] [] []
    [ExportModule "ClientsModule"].
End KafkaClientModule.

Module RedisModule.
Definition register : NestModule :=
  DeclaredModule "RedisModule" true [Library Config] [UseFactory REDIS_CLIENT [ConfigService]] []
    [ExportToken REDIS_CLIENT].
End RedisModule.

Definition PostgresConfigService := plain "PostgresConfigService" [ConfigService].
Definition PostgresDatabaseModule : NestModule :=
  DeclaredModule "PostgresDatabaseModule" false [Library (TypeOrmForRoot PostgresConfigService)] [] [] [].

Definition MongoConfigService := plain "MongoConfigService" [ConfigService].
Definition MongoDatabaseModule : NestModule :=
  DeclaredModule "MongoDatabaseModule" false [Library (MongooseForRoot MongoConfigService)] [] [] [].

Definition JwtAuthGuard := plain "JwtAuthGuard" [ConfigService; Reflector].
Definition RolesGuard := plain "RolesGuard" [Reflector].

(** ** apps/seat-inventory-service *)

Module SeatApp.
Definition AvailabilityReadService := plain "AvailabilityReadService" [REDIS_CLIENT; RepositoryOf "SeatInventory"].
Definition CqrsReadModule : NestModule :=
  DeclaredModule "CqrsReadModule" false [Library (TypeOrmForFeature ["SeatInventory"]%string)]
    [Injectable AvailabilityReadService] [] [ExportToken (cls AvailabilityReadService)].

Definition InventoryService := plain "InventoryService" [RepositoryOf "SeatInventory"; cls AvailabilityReadService].
Definition SeatLockService := plain "SeatLockService" [REDIS_CLIENT].
Definition InventoryController := plain "InventoryController" [cls InventoryService; cls AvailabilityReadService].
Definition InventoryConsumer := mkClass "InventoryConsumer" [cls InventoryService] [Subscribes "event.create"] [] [].
Definition InventoryModule : NestModule :=
  DeclaredModule "InventoryModule" false
    [Library (TypeOrmForFeature ["SeatInventory"]%string); CqrsReadModule]
    [Injectable InventoryService; Injectable SeatLockService]
    [mkController InventoryController []; mkController InventoryConsumer []]
    [ExportToken (cls InventoryService); ExportToken (cls SeatLockService)].

Definition HoldService :=
  plain "HoldService"
    [RepositoryOf "SeatHold"; cls SeatLockService; cls InventoryService; DataSource; cls AvailabilityReadService].
Definition HoldExpiryWorker :=
  mkClass "HoldExpiryWorker" [RepositoryOf "SeatHold"; cls HoldService] [Scheduled "processExpiredHolds"] [] [].
Definition HoldController := plain "HoldController" [cls HoldService].
Definition HoldModule : NestModule :=
  DeclaredModule "HoldModule" false
    [Library (TypeOrmForFeature ["SeatHold"]%string); InventoryModule; Library ScheduleForRoot; CqrsReadModule]
    [Injectable HoldService; Injectable HoldExpiryWorker] [mkController HoldController []]
    [ExportToken (cls HoldService)].

Definition InventoryGrpcController :=
  mkClass "InventoryGrpcController" [cls InventoryService; cls HoldService; cls SeatLockService]
    (map (Serves "SeatInventoryService")
       ["GetSeatsByEvent"; "GetAvailableSeats"; "VerifyHold"; "HoldSeats"; "ReleaseSeats"; "MarkSeatsAsSold";
        "ReleaseSoldSeats"]%string) [] [].
Definition GrpcServerModule : NestModule :=
  DeclaredModule "GrpcServerModule" false [InventoryModule; HoldModule] []
    [mkController InventoryGrpcController []] [].

Definition AppModule : NestModule :=
  DeclaredModule "AppModule" false
    [Library ConfigForRoot; PostgresDatabaseModule; RedisModule.register; InventoryModule; HoldModule;
     GrpcServerModule; CqrsReadModule]
    [AppGuard JwtAuthGuard] [] [].
End SeatApp.

(** ** apps/booking-service *)

Module BookingApp.
Definition TicketService := plain "TicketService" [RepositoryOf "Ticket"; RepositoryOf "BookingItem"].
Definition TicketController := plain "TicketController" [cls TicketService].
Definition TicketModule : NestModule :=
  DeclaredModule "TicketModule" false [Library (TypeOrmForFeature ["Ticket"; "BookingItem"]%string)]
    [Injectable TicketService] [mkController TicketController []] [ExportToken (cls TicketService)].

Definition SEAT_INVENTORY_PACKAGE : Token := Named "SEAT_INVENTORY_PACKAGE".
Definition PAYMENT_PACKAGE : Token := Named "PAYMENT_PACKAGE".

Definition BookingOrchestratorService :=
  mkClass "BookingOrchestratorService"
    [RepositoryOf "Booking"; RepositoryOf "Outbox"; DataSource; SEAT_INVENTORY_PACKAGE; PAYMENT_PACKAGE;
     Named "BOOKING_KAFKA"; cls TicketService] [] ["booking.cancelled"]%string [].
Definition OutboxWorker :=
  mkClass "OutboxWorker"
    [RepositoryOf "Outbox"; SEAT_INVENTORY_PACKAGE; Named "BOOKING_KAFKA"; cls TicketService]
    [Scheduled "processOutbox"] ["booking.confirmed"; "booking.refunded"]%string [].
Definition RefundRecoveryWorker :=
  mkClass "RefundRecoveryWorker" [RepositoryOf "Booking"; cls BookingOrchestratorService]
    [Scheduled "recoveryStuckRefunds"] [] [].
Definition BookingController := plain "BookingController" [cls BookingOrchestratorService].
Definition BookingModule : NestModule :=
  DeclaredModule "BookingModule" false
    [Library (TypeOrmForFeature ["Booking"; "BookingItem"; "Outbox"]%string);
     KafkaClientModule.register "BOOKING_KAFKA";
     Library (ClientsRegister ["SEAT_INVENTORY_PACKAGE"; "PAYMENT_PACKAGE"]%string []);
     Library ScheduleForRoot; TicketModule]
    [Injectable BookingOrchestratorService; Injectable OutboxWorker; Injectable RefundRecoveryWorker]
    [mkController BookingController []] [ExportToken (cls BookingOrchestratorService)].

Definition BookingServiceModule : NestModule :=
  DeclaredModule "BookingServiceModule" false
    [Library ConfigForRoot; PostgresDatabaseModule; BookingModule; TicketModule] [AppGuard JwtAuthGuard] [] [].
End BookingApp.

(** ** apps/payment-service *)

Module PaymentApp.
Definition StripeGateway := set_up "StripeGateway" [ConfigService] "STRIPE_SECRET_KEY".
Definition IyzicoGateway := plain "IyzicoGateway" [ConfigService].
Definition PaymentGatewayFactory :=
  plain "PaymentGatewayFactory" [ConfigService; cls StripeGateway; cls IyzicoGateway].
Definition PaymentService :=
  mkClass "PaymentService" [RepositoryOf "Payment"; cls PaymentGatewayFactory; Named "PAYMENT_KAFKA"] []
    ["payment.succeded"; "payment.failed"]%string [].
Definition RefundService :=
  mkClass "RefundService"
    [RepositoryOf "Refund"; RepositoryOf "Payment"; cls PaymentGatewayFactory; Named "PAYMENT_KAFKA"] []
    ["payment.refunded"]%string [].
Definition IdempotencyInterceptor := plain "IdempotencyInterceptor" [REDIS_CLIENT].
Definition PaymentController := plain "PaymentController" [cls PaymentService].
Definition PaymentModule : NestModule :=
  DeclaredModule "PaymentModule" false
    [Library (TypeOrmForFeature ["Payment"; "Refund"]%string); KafkaClientModule.register "PAYMENT_KAFKA";
     RedisModule.register]
    [Injectable PaymentService; Injectable PaymentGatewayFactory; Injectable StripeGateway;
     Injectable IyzicoGateway; Injectable RefundService]
    [mkController PaymentController [IdempotencyInterceptor]]
    [ExportToken (cls PaymentService); ExportToken (cls RefundService)].

Definition PaymentGrpcController :=
  mkClass "PaymentGrpcController" [cls PaymentService; cls RefundService]
    (map (Serves "PaymentService") ["InitiatePayment"; "GetPayment"; "GetPaymentsByBooking"; "RefundPayment"]%string) [] [].
Definition GrpcServerModule : NestModule :=
  DeclaredModule "GrpcServerModule" false [PaymentModule] [] [mkController PaymentGrpcController []] [].

Definition PaymentServiceModule : NestModule :=
  DeclaredModule "PaymentServiceModule" false
    [Library ConfigForRoot; PostgresDatabaseModule; PaymentModule; GrpcServerModule] [] [] [].
End PaymentApp.

(** ** apps/auth-service *)

Module AuthApp.
Definition UserService := plain "UserService" [RepositoryOf "User"].
Definition UserModule : NestModule :=
  DeclaredModule "UserModule" false [Library (TypeOrmForFeature ["User"]%string)] [Injectable UserService] []
    [ExportToken (cls UserService)].

Definition AuthService :=
  mkClass "AuthService"
    [cls UserService; Cls "JwtService"; ConfigService; RepositoryOf "RefreshToken"; Named "AUTH_KAFKA"] []
    ["auth.email_verification"; "auth.password_reset"]%string [].
Definition JwtStrategy := plain "JwtStrategy" [ConfigService].
Definition AuthController := plain "AuthController" [cls AuthService; cls UserService].
Definition AuthModule : NestModule :=
  DeclaredModule "AuthModule" false
    [UserModule; Library Passport; Library (TypeOrmForFeature ["RefreshToken"]%string);
     KafkaClientModule.register "AUTH_KAFKA"; Library (JwtRegister [ConfigService])]
    [Injectable AuthService; Injectable JwtStrategy] [mkController AuthController []]
    [ExportToken (cls AuthService); ExportModule "JwtModule"].

Definition AppModule : NestModule :=
  DeclaredModule "AppModule" false [Library ConfigForRoot; PostgresDatabaseModule; AuthModule; UserModule] [] [] [].
End AuthApp.

(** ** apps/event-service *)

Module EventApp.
Definition VenueService := plain "VenueService" [ModelOf "Venue"].
Definition VenueController := plain "VenueController" [cls VenueService].
Definition VenueModule : NestModule :=
  DeclaredModule "VenueModule" false [Library (MongooseForFeature ["Venue"]%string)] [Injectable VenueService]
    [mkController VenueController [RolesGuard]] [ExportToken (cls VenueService)].

Definition EventService :=
  mkClass "EventService" [ModelOf "Event"; cls VenueService; Named "EVENT_SERVICE_KAFKA"] []
    ["event.create"]%string [].
Definition EventController := plain "EventController" [cls EventService].
Definition EventModule : NestModule :=
  DeclaredModule "EventModule" false
    [Library (MongooseForFeature ["Event"]%string); VenueModule; KafkaClientModule.register "EVENT_SERVICE_KAFKA"]
    [Injectable EventService] [mkController EventController [RolesGuard]] [ExportToken (cls EventService)].

Definition EventServiceModule : NestModule :=
  DeclaredModule "EventServiceModule" false
    [Library ConfigForRoot; MongoDatabaseModule; VenueModule; EventModule] [AppGuard JwtAuthGuard] [] [].
End EventApp.

(** ** apps/notification-service *)

Module NotificationApp.
Definition TemplateEngine := plain "TemplateEngine" [].
Definition EmailAdapter := plain "EmailAdapter" [ConfigService].
Definition NotificationService :=
  plain "NotificationService" [RepositoryOf "Notification"; cls TemplateEngine; cls EmailAdapter].
Definition NotificationModule : NestModule :=
  DeclaredModule "NotificationModule" false [Library (TypeOrmForFeature ["Notification"]%string)]
    [Injectable NotificationService; Injectable TemplateEngine; Injectable EmailAdapter] []
    [ExportToken (cls NotificationService)].

Definition BookingConsumer :=
  mkClass "BookingConsumer" [cls NotificationService]
    (map Subscribes ["booking.confirmed"; "booking.cancelled"; "booking.refunded"]%string) [] [].
Definition AuthConsumer :=
  mkClass "AuthConsumer" [cls NotificationService]
    (map Subscribes ["auth.email_verification"; "auth.password_reset"]%string) [] [].
Definition ConsumerModule : NestModule :=
  DeclaredModule "ConsumerModule" false [NotificationModule] []
    [mkController BookingConsumer []; mkController AuthConsumer []] [].

Definition AppModule : NestModule :=
  DeclaredModule "AppModule" false
    [Library ConfigForRoot; PostgresDatabaseModule; NotificationModule; ConsumerModule] [] [] [].
End NotificationApp.

(** ** apps/api-gateway *)

Module GatewayApp.
Definition HealthController := plain "HealthController" [].
Definition RootController := plain "RootController" [].
Definition HealthModule : NestModule :=
  DeclaredModule "HealthModule" false [] [] [mkController HealthController []; mkController RootController []] [].

Definition ProxyService := plain "ProxyService" [Cls "HttpService"].
Definition RateLimitInterceptor := plain "RateLimitInterceptor" [REDIS_CLIENT; Reflector].

(** Every proxy controller reads the URL of its service when it is built, and
    throws when it is not configured. *)
Definition proxy_needs : list Token := [cls ProxyService; ConfigService].
Definition AuthProxyController := set_up "AuthProxyController" proxy_needs "AUTH_SERVICE_URL".
Definition EventProxyController := set_up "EventProxyController" proxy_needs "EVENT_SERVICE_URL".
Definition VenueProxyController := set_up "VenueProxyController" proxy_needs "VENUES_SERVICE_URL".
Definition InventoryProxyController := set_up "InventoryProxyController" proxy_needs "INVENTORY_SERVICE_URL".
Definition HoldsProxyController := set_up "HoldsProxyController" proxy_needs "HOLDS_SERVICE_URL".
Definition BookingProxyController := set_up "BookingProxyController" proxy_needs "BOOKING_SERVICE_URL".
Definition PaymentProxyController := set_up "PaymentProxyController" proxy_needs "PAYMENT_SERVICE_URL".

Definition ProxyModule : NestModule :=
  DeclaredModule "ProxyModule" false [Library HttpRegister] [Injectable ProxyService]
    [mkController AuthProxyController [RateLimitInterceptor]; mkController EventProxyController [RolesGuard];
     mkController VenueProxyController [RolesGuard]; mkController InventoryProxyController [];
     mkController HoldsProxyController [RateLimitInterceptor];
     mkController BookingProxyController [RateLimitInterceptor];
     mkController PaymentProxyController [RateLimitInterceptor]] [].

Definition ApiGatewayModule : NestModule :=
  DeclaredModule "ApiGatewayModule" false
    [Library ConfigForRoot; RedisModule.register; HealthModule; ProxyModule] [AppGuard JwtAuthGuard] [] [].
End GatewayApp.

(** The root modules, as each main.ts passes them to [NestFactory.create]. *)
Definition applications : list NestModule :=
  [SeatApp.AppModule; BookingApp.BookingServiceModule; PaymentApp.PaymentServiceModule; AuthApp.AppModule;
   EventApp.EventServiceModule; NotificationApp.AppModule; GatewayApp.ApiGatewayModule].

Lemma applications_wired : forallb wiredb applications = true.
Proof. vm_compute. reflexivity. Qed.

(** ** Properties *)

(** C35: Every service can be put together.  Whatever container keeps the
    documented rules, it finds every parameter of every constructor, in every
    module of every service: a provider of the same module, one that an imported
    module exports, or one of a global module. *)
Theorem platform_wired `{ContainerLaws} app m c t :
  app ∈ applications -> m ∈ modules_of app -> c ∈ classes m -> t ∈ c_needs c -> resolves app m t.
Proof.
  intros Happ Hm Hc Ht. pose proof applications_wired as Hw. rewrite forallb_elem_of in Hw.
  eapply wiredb_sound; [by apply Hw|done|]. unfold needs_of. apply elem_of_app. left.
  apply elem_of_flat_map. by exists c.
Qed.

(** The hold service gets the lock service from the inventory module; without
    that import it would not be found. *)
Lemma platform_wired_witness :
  found SeatApp.AppModule SeatApp.HoldModule (cls SeatApp.SeatLockService) /\
  let alone := DeclaredModule "HoldModule" false [SeatApp.CqrsReadModule] [Injectable SeatApp.HoldService] [] [] in
  seesb alone alone (cls SeatApp.SeatLockService) = false.
Proof.
  split; [|vm_compute; reflexivity].
  apply (@platform_wired least_container least_container_laws SeatApp.AppModule SeatApp.HoldModule SeatApp.HoldService).
  - by left.
  - vm_compute. repeat first [apply list_elem_of_here|apply list_elem_of_further].
  - by left.
  - by right; left.
Defined.

Definition one_instanceb (app : NestModule) : bool :=
  forallb (fun m => forallb (fun m' =>
    forallb (fun c => negb (bool_decide (c ∈ provider_classes m')) || String.eqb (module_name m) (module_name m'))
      (provider_classes m)) (modules_of app)) (modules_of app).

(** A class is provided by one module of a service; Nest instantiates a module
    once, so there is one object of it, and the fields of the workers
    ([isProcessing]) are one per service. *)
Theorem one_instance app m m' c :
  app ∈ applications -> m ∈ modules_of app -> m' ∈ modules_of app ->
  c ∈ provider_classes m -> c ∈ provider_classes m' -> module_name m = module_name m'.
Proof.
  intros Happ Hm Hm' Hc Hc'.
  assert (forallb one_instanceb applications = true) as H by (vm_compute; reflexivity).
  rewrite forallb_elem_of in H. specialize (H app Happ). unfold one_instanceb in H.
  rewrite forallb_elem_of in H. specialize (H m Hm). rewrite forallb_elem_of in H. specialize (H m' Hm').
  rewrite forallb_elem_of in H. specialize (H c Hc). rewrite bool_decide_eq_true_2 in H by done.
  by apply String.eqb_eq.
Qed.
