(* ===== verification/Deployment.v ===== *)
(** * How the services are started and reach each other

    The main.ts of every service ([Bootstrap]): its root module, the transports
    it connects, its pipe, prefix and port; the settings it reads, with their
    defaults; and the variables that the manifests under k8s/ set.  What one
    service calls or publishes, another serves ([procedures_served],
    [topics_consumed]); whether a service starts depends on the settings its
    constructors ask for ([starts_iff]). *)

From Stdlib Require Import Ascii.
From S2P Require Import Prelude Wiring.
From S2P Require BookingWorld.

(** ** Settings *)

(** [process.env], which [ConfigService.get] reads too. *)
Definition Env := string -> option string.

(** [process.env.X || fallback] and [process.env.X ?? fallback],
    [config.get('X', fallback)] *)
Definition env_or (env : Env) (key fallback : string) : string := opt_str_or (env key) fallback.
Definition env_get (env : Env) (key fallback : string) : string := nullish (env key) fallback.

(** [if (!value) throw]: the setting exists and is not empty. *)
Definition configured (env : Env) (key : string) : bool :=
  match env key with Some v => negb (String.eqb v "") | None => false end.

(** The settings without which a constructor of the service throws. *)
Definition settings (app : NestModule) : list string :=
  flat_map (fun m => flat_map c_requires (classes m)) (modules_of app).

Definition starts (env : Env) (app : NestModule) : bool :=
  forallb (fun m => forallb (fun c => forallb (configured env) (c_requires c)) (classes m)) (modules_of app).

(** libs/database; a port is the text of the variable, or the default's. *)
Record TypeOrmOptions := mkTypeOrmOptions {
  db_type : string;
  db_host : string;
  db_port : string;
  db_username : option string;
  db_password : option string;
  db_database : option string;
  db_autoLoadEntities : bool;
  db_synchronize : bool;
}.

Definition createTypeOrmOptions (env : Env) : TypeOrmOptions :=
  mkTypeOrmOptions "postgres" (env_get env "DB_HOST" "localhost") (env_get env "DB_PORT" "5432")
    (env "DB_USERNAME"%string) (env "DB_PASSWORD"%string) (env "DB_NAME"%string) true
    (negb (bool_decide (env "NODE_ENV"%string = Some "production"%string))).

Definition createMongooseOptions (env : Env) : option string := env "MONGO_URI"%string.

(** ** Transports *)

Inductive Transport :=
| KAFKA (clientId groupId : string) (broker : Env -> string)
| GRPC (package : string) (url : Env -> string).

(** [new ValidationPipe({ whitelist, forbidNonWhitelisted, transform })] *)
Record ValidationPipe := mkValidationPipe { whitelist : bool; forbidNonWhitelisted : bool; transform : bool }.

Record Bootstrap := mkBootstrap {
  b_service : string;
  b_module : NestModule;
  b_transports : list Transport;
  b_pipe : option ValidationPipe;
  b_prefix : option string;
  b_port : Env -> string;
}.

Definition kafka_broker (env : Env) : string := env_or env "KAFKA_BROKER" "localhost:9092".
Definition strict_pipe : ValidationPipe := mkValidationPipe true true true.

Definition seat_inventory_service : Bootstrap :=
  mkBootstrap "seat-inventory-service" SeatApp.AppModule
    [KAFKA "seat-inventory" "seat-inventory-consumer" kafka_broker;
     GRPC "seat_inventory" (fun env => env_or env "GRPC_URL" "localhost:5001")]
    None (Some "api"%string) (fun env => env_get env "PORT" "3002").

Definition booking_service : Bootstrap :=
  mkBootstrap "booking-service" BookingApp.BookingServiceModule [] (Some strict_pipe) (Some "api"%string)
    (fun env => env_get env "PORT" "3003").

Definition payment_service : Bootstrap :=
  mkBootstrap "payment-service" PaymentApp.PaymentServiceModule [GRPC "payment" (fun _ => "0.0.0.0:5002"%string)]
    (Some strict_pipe) (Some "api"%string) (fun env => env_get env "port" "3004").

Definition auth_service : Bootstrap :=
  mkBootstrap "auth-service" AuthApp.AppModule [] (Some (mkValidationPipe false false true)) (Some "api"%string)
    (fun env => env_get env "port" "3000").

Definition event_service : Bootstrap :=
  mkBootstrap "event-service" EventApp.EventServiceModule [] (Some strict_pipe) (Some "api"%string)
    (fun env => env_get env "PORT" "3001").

Definition notification_service : Bootstrap :=
  mkBootstrap "notification-service" NotificationApp.AppModule
    [KAFKA "notification-service" "notification-consumer" kafka_broker] None None
    (fun env => env_get env "PORT" "3005").

Definition api_gateway : Bootstrap :=
  mkBootstrap "api-gateway" GatewayApp.ApiGatewayModule [] None None (fun _ => "8080"%string).

Definition bootstraps : list Bootstrap :=
  [auth_service; event_service; seat_inventory_service; booking_service; payment_service; notification_service;
   api_gateway].

(** ** What is served *)

(** libs/grpc/src/proto: the procedures that the services of the two packages
    declare. *)
Definition seat_inventory_proto : list (string * list string) :=
  [("SeatInventoryService",
    ["GetSeatsByEvent"; "GetAvailableSeats"; "VerifyHold"; "HoldSeats"; "ReleaseSeats"; "MarkSeatsAsSold";
     "ReleaseSoldSeats"])]%string.

Definition payment_proto : list (string * list string) :=
  [("PaymentService", ["InitiatePayment"; "GetPayment"; "GetPaymentsBooking"; "RefundPayment"])]%string.

Definition proto (package : string) : list (string * list string) :=
  if String.eqb package "seat_inventory" then seat_inventory_proto
  else if String.eqb package "payment" then payment_proto else [].

(** A transport brings a message to a handler: any topic, and a procedure that
    its package declares. *)
Definition carries (h : Handler) (t : Transport) : bool :=
  match h, t with
  | Subscribes _, KAFKA _ _ _ => true
  | Serves service method, GRPC package _ =>
      existsb (fun sp => String.eqb sp.1 service && bool_decide (method ∈ sp.2)) (proto package)
  | _, _ => false
  end.

(** A handler is registered by a controller of the service and reached by one of
    its transports; a scheduled one needs the schedule module. *)
Record serves (b : Bootstrap) (h : Handler) : Prop := {
  sv_handler : exists m c, m ∈ modules_of (b_module b) /\ c ∈ controller_classes m /\ h ∈ c_handles c;
  sv_transport : exists t, t ∈ b_transports b /\ carries h t = true;
}.

Definition servesb (h : Handler) (b : Bootstrap) : bool :=
  existsb (fun m => existsb (fun c => bool_decide (h ∈ c_handles c)) (controller_classes m)) (modules_of (b_module b)) &&
  existsb (carries h) (b_transports b).

Lemma servesb_spec h b : servesb h b = true <-> serves b h.
Proof.
  unfold servesb. rewrite andb_true_iff, !existsb_elem_of. split.
  - intros [(m & Hm & Hc) Ht]. apply existsb_elem_of in Hc as (c & Hc & Hh%bool_decide_eq_true).
    split; [by exists m, c|done].
  - intros [(m & c & Hm & Hc & Hh) Ht]. split; [|done]. exists m. split; [done|].
    apply existsb_elem_of. exists c. by rewrite bool_decide_eq_true.
Qed.

(** The procedure a call of the booking service names. *)
Definition procedure {X} (op : BookingWorld.RpcE X) : Handler :=
  match op with
  | BookingWorld.GetSeatsByEvent _ => Serves "SeatInventoryService" "GetSeatsByEvent"
  | BookingWorld.VerifyHold _ _ _ => Serves "SeatInventoryService" "VerifyHold"
  | BookingWorld.InitiatePayment _ => Serves "PaymentService" "InitiatePayment"
  | BookingWorld.RefundPayment _ _ _ => Serves "PaymentService" "RefundPayment"
  | BookingWorld.ReleaseSeats _ _ _ _ => Serves "SeatInventoryService" "ReleaseSeats"
  | BookingWorld.ReleaseSoldSeats _ _ => Serves "SeatInventoryService" "ReleaseSoldSeats"
  | BookingWorld.MarkSeatsAsSold _ _ _ => Serves "SeatInventoryService" "MarkSeatsAsSold"
  end.

(** booking.module.ts: where the clients of the two packages dial. *)
Definition seat_inventory_url (env : Env) : string := env_or env "SEAT_INVENTORY_GRPC_URL" "localhost:5001".
Definition payment_url (env : Env) : string := env_or env "PAYMENT_GRPC_URL" "localhost:5002".

(** ** The manifests under k8s/ *)

Definition variables (l : list (string * string)) : Env :=
  fun key => snd <$> List.find (fun kv => String.eqb kv.1 key) l.

(** A container's environment: its own variables, then the secret, then the
    config map, later sources of [envFrom] overriding earlier ones. *)
Definition deployed (own shared : list (string * string)) (secrets : Env) : Env :=
  fun key =>
    match variables own key with
    | Some v => Some v
    | None => match secrets key with Some v => Some v | None => variables shared key end
    end.

Definition shared_config : list (string * string) :=
  [("DB_HOST", "postgres"); ("DB_PORT", "5432"); ("DB_USERNAME", "ticketing"); ("REDIS_HOST", "redis");
   ("REDIS_PORT", "6379"); ("KAFKA_BROKER", "kafka:29092"); ("KAFKAJS_NO_PARTITIONER_WARNING", "1");
   ("SMTP_HOST", "mailhog"); ("SMTP_PORT", "1025"); ("EMAIL_FROM", "noreply@ticketing.local");
   ("APP_URL", "http://api-gateway:8080"); ("NODE_ENV", "production")]%string.

Definition gateway_variables : list (string * string) :=
  [("PORT", "8080"); ("AUTH_SERVICE_URL", "http://auth-service:3000");
   ("EVENT_SERVICE_URL", "http://event-service:3001"); ("SEAT_INVENTORY_URL", "http://seat-inventory-service:3002");
   ("BOOKING_SERVICE_URL", "http://booking-service:3003"); ("PAYMENT_SERVICE_URL", "http://payment-service:3004")]%string.

Definition booking_variables : list (string * string) :=
  [("PORT", "3003"); ("DB_NAME", "booking_db"); ("SEAT_INVENTORY_GRPC_URL", "seat-inventory-service:5001");
   ("PAYMENT_GRPC_URL", "payment-service:5002")]%string.

Definition seat_inventory_variables : list (string * string) :=
  [("PORT", "3002"); ("DB_NAME", "seat_inventory_db"); ("GRPC_URL", "0.0.0.0:5001")]%string.

Definition payment_variables : list (string * string) :=
  [("PORT", "3004"); ("DB_NAME", "payment_db"); ("PAYMENT_PROVIDER", "stripe"); ("GRPC_URL", "0.0.0.0:5002")]%string.

(** ** Lemmas *)

(** All that the classes of all services emit, and all that their controllers
    subscribe to. *)
Definition all_emitted : list string :=
  flat_map (fun b => flat_map (fun m => flat_map c_emits (classes m)) (modules_of (b_module b))) bootstraps.

Definition all_handled : list Handler :=
  flat_map (fun b => flat_map (fun m => flat_map c_handles (controller_classes m)) (modules_of (b_module b))) bootstraps.

Definition servedb (h : Handler) : bool := existsb (servesb h) bootstraps.

Lemma all_emitted_spec topic :
  topic ∈ all_emitted <->
  exists b m c, b ∈ bootstraps /\ m ∈ modules_of (b_module b) /\ c ∈ classes m /\ topic ∈ c_emits c.
Proof.
  unfold all_emitted. rewrite elem_of_flat_map. setoid_rewrite elem_of_flat_map. setoid_rewrite elem_of_flat_map.
  naive_solver.
Qed.

Lemma serves_handled b h : b ∈ bootstraps -> serves b h -> h ∈ all_handled.
Proof.
  intros Hb [(m & c & Hm & Hc & Hh) _]. unfold all_handled. apply elem_of_flat_map. exists b. split; [done|].
  apply elem_of_flat_map. exists m. split; [done|]. apply elem_of_flat_map. by exists c.
Qed.

Lemma servedb_spec h : servedb h = true <-> exists b, b ∈ bootstraps /\ serves b h.
Proof. unfold servedb. rewrite existsb_elem_of. by setoid_rewrite servesb_spec. Qed.

Lemma starts_settings env app : starts env app = forallb (configured env) (settings app).
Proof.
  unfold starts, settings. induction (modules_of app) as [|m ms IH]; cbn; [done|]. rewrite forallb_app, IH. f_equal.
  induction (classes m) as [|c cs IHc]; cbn; [done|]. by rewrite forallb_app, IHc.
Qed.

(** ** Properties *)

(** A service starts exactly when every setting its constructors ask for is
    there and not empty: for the gateway the URLs of the seven services it
    forwards to, for the payment service the key of Stripe, for the others
    nothing. *)
Theorem starts_iff env b :
  b ∈ bootstraps ->
  starts env (b_module b) = true <->
  forall key, key ∈ (if String.eqb (b_service b) "api-gateway" then
      ["AUTH_SERVICE_URL"; "EVENT_SERVICE_URL"; "VENUES_SERVICE_URL"; "INVENTORY_SERVICE_URL"; "HOLDS_SERVICE_URL";
       "BOOKING_SERVICE_URL"; "PAYMENT_SERVICE_URL"]%string
    else if String.eqb (b_service b) "payment-service" then ["STRIPE_SECRET_KEY"]%string else []) ->
  configured env key = true.
Proof.
  intros Hb. rewrite starts_settings, forallb_elem_of.
  assert (forall l l' : list string,
    forallb (fun k => bool_decide (k ∈ l')) l && forallb (fun k => bool_decide (k ∈ l)) l' = true ->
    (forall k, k ∈ l -> configured env k = true) <-> (forall k, k ∈ l' -> configured env k = true)) as Hset.
  { intros l l' [H1 H2]%andb_true_iff. rewrite forallb_elem_of in H1, H2.
    split; intros H k Hk; [apply H2 in Hk|apply H1 in Hk]; by apply bool_decide_eq_true, H in Hk. }
  apply Hset. unfold bootstraps in Hb.
  repeat (apply elem_of_cons in Hb as [->|Hb]; [vm_compute; reflexivity|]). by apply elem_of_nil in Hb.
Qed.

(** The gateway of the manifests does not start: they set SEAT_INVENTORY_URL,
    which nothing reads, and none of the three URLs that its controllers read
    for the venues, the inventory and the holds. *)
Theorem cluster_gateway_fails secrets :
  secrets "HOLDS_SERVICE_URL"%string = None ->
  starts (deployed gateway_variables shared_config secrets) (b_module api_gateway) = false.
Proof.
  intros Hs. rewrite starts_settings. apply not_true_iff_false. rewrite forallb_elem_of. intros H.
  specialize (H "HOLDS_SERVICE_URL"%string). unfold configured, deployed in H. rewrite Hs in H. cbn in H.
  assert (false = true) as Hf; [|done]. apply H. vm_compute.
  repeat first [apply list_elem_of_here|apply list_elem_of_further].
Qed.

(** In the cluster TypeORM never creates the tables, and the repository has no
    migrations. *)
Theorem cluster_creates_no_tables own secrets :
  variables own "NODE_ENV" = None -> secrets "NODE_ENV"%string = None ->
  db_synchronize (createTypeOrmOptions (deployed own shared_config secrets)) = false.
Proof. intros Ho Hs. unfold createTypeOrmOptions, deployed. cbn [db_synchronize]. by rewrite Ho, Hs. Qed.

Definition payment_events : list string := ["payment.succeded"; "payment.failed"; "payment.refunded"]%string.

(** C36: Every remote procedure the booking service calls is served: it is
    declared by the package of a gRPC transport that a service connects, and a
    controller of that service, in a module that the service is made of, has a
    handler for it.  What it publishes, an instantiated consumer of a service
    with a Kafka transport handles; the three events of the payments nobody
    handles, and nobody waits for an event that is not published. *)
Theorem services_connected :
  (forall X (op : BookingWorld.RpcE X), exists b, b ∈ bootstraps /\ serves b (procedure op)) /\
  (forall b m c topic, b ∈ bootstraps -> m ∈ modules_of (b_module b) -> c ∈ classes m -> topic ∈ c_emits c ->
     (exists b', b' ∈ bootstraps /\ serves b' (Subscribes topic)) <->
     ~ topic ∈ payment_events) /\
  (forall b topic, b ∈ bootstraps -> serves b (Subscribes topic) ->
     exists b' m c, b' ∈ bootstraps /\ m ∈ modules_of (b_module b') /\ c ∈ classes m /\ topic ∈ c_emits c).
Proof.
  split_and!.
  - intros X op. apply servedb_spec. by destruct op; vm_compute.
  - intros b m c topic Hb Hm Hc Ht. rewrite <- servedb_spec.
    assert (topic ∈ all_emitted) as Hin by (apply all_emitted_spec; by exists b, m, c).
    assert (forallb (fun topic => Bool.eqb (servedb (Subscribes topic)) (negb (bool_decide (topic ∈ payment_events))))
      all_emitted = true) as H by (vm_compute; reflexivity).
    rewrite forallb_elem_of in H. apply H, eqb_prop in Hin. rewrite Hin.
    by rewrite negb_true_iff, bool_decide_eq_false.
  - intros b topic Hb Hs. apply all_emitted_spec. apply serves_handled in Hs as Hin; [|done].
    assert (forallb (fun h => match h with Subscribes topic => bool_decide (topic ∈ all_emitted) | _ => true end)
      all_handled = true) as H by (vm_compute; reflexivity).
    rewrite forallb_elem_of in H. apply H in Hin. by apply bool_decide_eq_true in Hin.
Qed.

(** ** Ports and addresses *)

(** health.controller.ts: the services it names. *)
Definition health_services : list (string * string) :=
  [("auth-service", "http://localhost:3000"); ("event-service", "http://localhost:3001");
   ("seat-inventory-service", "http://localhost:3002"); ("booking-service", "http://localhost:3003");
   ("payment-service", "http://localhost:3004"); ("notification-service", "http://localhost:3005")]%string.

Definition no_settings : Env := fun _ => None.

(** Without settings every service listens on a port of its own, the one that the
    health check names. *)
Lemma default_ports :
  NoDup (map (fun b => b_port b no_settings) bootstraps) /\
  forall name url, (name, url) ∈ health_services ->
    exists b, b ∈ bootstraps /\ b_service b = name /\ url = ("http://localhost:" +:+ b_port b no_settings)%string.
Proof.
  split; [apply (bool_decide_unpack _); vm_compute; exact I|]. intros name url Hin.
  assert (forallb (fun nu => existsb (fun b => String.eqb (b_service b) nu.1 &&
    String.eqb nu.2 ("http://localhost:" +:+ b_port b no_settings)) bootstraps) health_services = true) as H
    by (vm_compute; reflexivity).
  rewrite forallb_elem_of in H. apply H, existsb_elem_of in Hin as (b & Hb & Hn).
  apply andb_true_iff in Hn as [Hn%String.eqb_eq Hu%String.eqb_eq]. by exists b.
Qed.

(** The text after the last colon. *)
Fixpoint after_last_colon (url best : string) : string :=
  match url with
  | EmptyString => best
  | String c url => after_last_colon url (if Ascii.eqb c ":"%char then url else best)
  end.

Definition port_of (url : string) : string := after_last_colon url url.

Definition grpc_urls (env : Env) (b : Bootstrap) : list string :=
  flat_map (fun t => match t with GRPC _ url => [url env] | _ => [] end) (b_transports b).

(** The clients of the booking service dial the ports on which the two servers
    listen, without settings and with those of the manifests. *)
Lemma clients_dial_servers secrets :
  let booking := deployed booking_variables shared_config secrets in
  let inventory := deployed seat_inventory_variables shared_config secrets in
  let payment := deployed payment_variables shared_config secrets in
  map port_of (grpc_urls no_settings seat_inventory_service) = [port_of (seat_inventory_url no_settings)] /\
  map port_of (grpc_urls no_settings payment_service) = [port_of (payment_url no_settings)] /\
  map port_of (grpc_urls inventory seat_inventory_service) = [port_of (seat_inventory_url booking)] /\
  map port_of (grpc_urls payment payment_service) = [port_of (payment_url booking)].
Proof. by split_and!; vm_compute. Qed.

(** The handler GetPaymentsByBooking is registered under a name that the package
    does not declare. *)
Example get_payments_by_booking_unserved : servedb (Serves "PaymentService" "GetPaymentsByBooking") = false.
Proof. vm_compute. reflexivity. Qed.

(** The manifest chooses the payment provider under a name that the factory does
    not read. *)
Example payment_provider_unread :
  deployed payment_variables shared_config no_settings "PAYMENT_DEFAULT_PROVIDER" = None /\
  deployed payment_variables shared_config no_settings "PAYMENT_PROVIDER" = Some "stripe"%string.
Proof. by vm_compute. Qed.
